(* ===== verification/_CoqProject ===== *)
-Q . S2P
Prelude.v
Frame.v
GoStr.v
Api.v
Errors.v
External.v
Sim.v
Lfu.v
Kube.v
Refs.v
Rbac.v
Naming.v
Managed.v
Policy.v
Policies.v
PolicyProps.v
Render.v
Feature.v
Target.v
AssociationProps.v
UserSpecificProps.v
Pipeline.v
Webhook.v
Validate.v
Git.v
Pusher.v
Lease.v
Request.v
Dynamic.v
Deletion.v
Controllers.v
Manager.v
PolicyFrame.v
System.v
Files.v
Walker.v
Documents.v
WalkerProps.v
Mutator.v
Claims.v
Placement.v
Intercepted.v
Recorded.v
Conversion.v
Webhook4.v
Serving.v
GitServer.v
GitRepos.v
Merges.v
Assertions.v
