(* ===== verification/Prelude.v ===== *)
(** * Syngit: a verification development

    Syngit intercepts the changes users make to a Kubernetes cluster, through dynamic
    admission webhooks, and pushes them to git repositories with the credentials of the
    user who made them. This library models the Go program of the repository and proves
    what its parts promise. Names follow the source; a Go function [f] is the definition
    [f], a method [T.f] is [f] or [T_f], and a fragment of a long function has a name of
    its own, with the order of the calls kept.

    ** How the code is modelled

    A Go function that calls the outside world is of type [M E W A]: the state [W] is
    threaded and the outcome is [Ok], [Err] or [Panic] (a nil dereference, a failed type
    assertion). Errors are the type [error] of [Errors.v], with the messages the code
    inspects. Pointers that may be nil are options; maps are [gmap]s, and where Go iterates
    one the order is an argument, arbitrary in the theorems. Strings are byte strings.
    Code outside the repository is a class whose operations have no definition here: the
    API server and the pure libraries ([External.v]: [Cluster], [Lib]), go-git ([Git.v]:
    the calls of a [prog], whose answers are arbitrary), go-billy ([Files.v]: [Billy]), the
    provider modules and kyaml ([Mutator.v]: [Helm], [Flux], [Kustomizer], [Sops]), the
    decoding of requests ([Webhook.v], [Serving.v]), the router ([Serving.v]), the
    certificate file ([Dynamic.v]) and the predicates of controller-runtime ([Manager.v]).
    The git server of the tests sees go-git through [GitDisk] and [GitClone]
    ([GitRepos.v]). What a theorem needs of them is a class of laws beside it
    ([ApiServer], [Lib_laws], [BillyLaws], [BillyFrame], [SopsLaws]...), and an instance
    shows the laws can hold together: [Sim.v] for the API server, [mem_billy] for a
    filesystem, the last part of [Claims.v] for the providers. The witnesses run on these
    instances.

    ** The files

    Foundations.
    - [Prelude.v], [Frame.v], [GoStr.v]: outcomes, loops, shared lemmas, tactics and hints; a
      frame logic for what an action leaves alone; the parts of [strings], [bytes],
      [strconv] and [fmt] the code uses.
    - [Api.v] ([pkg/api/v1beta5], [pkg/interceptor]): the custom resources and the records
      of a request. [Errors.v] ([pkg/errors]): the error types; [Is] recognises each of
      them, and the standard unwrapping walk does not end on most.
    - [External.v], [Sim.v]: the parameters of the model and an instance.
    - [Lfu.v] ([internal/cache]): the cache refines a bounded lossy map and evicts an entry
      used least. [Kube.v] ([pkg/kube]): conditions and requeue results.
    - [Refs.v] ([pkg/refs]) and [Rbac.v] ([pkg/rbac]): the references an object holds, and
      their authorization by access reviews. [Naming.v], [Managed.v] ([pkg/naming],
      [pkg/managed]): derived names, annotations, and the read-modify-write of the managed
      bindings, alone and under concurrent reconcilers.
    - [Render.v] ([pkg/render]), [Feature.v] ([pkg/feature]).

    The controllers.
    - [Policy.v], [Policies.v] ([internal/policy]): the finalizer-gated host and the three
      policies; [PolicyProps.v], [AssociationProps.v], [UserSpecificProps.v]: each policy
      converges in one pass on a server at rest.
    - [Dynamic.v], [Controllers.v] ([internal/controller]): the five reconcile loops, the
      shared webhook configuration, the indexes behind the watches. [Deletion.v]: the deletion
      of a syncer, through both cleanups and the removal of its finalizers.
    - [Manager.v] ([cmd/main.go], the [SetupWithManager] functions): the flags, the options,
      the controllers with their watches and predicates, the paths that are served.
      [System.v]: the two controllers of the syncers, their watches and queue, the
      interception server and the API server as a transition system. One step is one call of
      a pass or of a request that reads or writes what others share (the stored syncer, the
      shared configuration, the handlers), so passes, requests and users interleave between
      any two of them; [lone_pass] and [lone_request] put the steps together to the functions
      of [Dynamic.v] and [Pipeline.v]. [PolicyFrame.v] is what it needs of the policies.
      [Serving.v]: the routes of the server and its handler, from the body of a request to
      that of the answer, beside this system.
    - [Webhook.v], [Validate.v] ([internal/webhook/v1beta5]): the permission handlers and the
      validators. [Conversion.v] ([pkg/api/v1beta4]): the older version of the API and its
      conversions. [Webhook4.v] ([internal/webhook/v1beta4]): its webhooks, which nothing
      registers, compared with those of v1beta5 through the conversions.

    A request.
    - [Target.v], [Pipeline.v] ([internal/interceptor], [pkg/webhooks]): from the path of
      the webhook to the admission response. [Target.v] finds who pushes where; the
      pipeline sees the git side as the interface [GitPush].
    - [Git.v], [Pusher.v], [Lease.v] ([internal/pusher]): the git pipeline as a program over
      go-git calls, a program logic for it, and the interleavings of concurrent requests over
      the cache of clones ([Lfu.v]) and its mutexes. [Request.v] implements [GitPush] by the
      program of [Pusher.v], over any environment that answers its calls, beside the cluster;
      [Recorded.v] runs it over git repositories with clones, indexes and worktrees, as go-git
      documents its calls, and over the mutator.
    - [Files.v], [Walker.v], [Documents.v], [WalkerProps.v] ([internal/walker]): the
      worktree, its manifests, the walk over them and the cache of locations.
    - [Mutator.v], [Claims.v], [Placement.v], [Intercepted.v] ([internal/mutator]): the
      providers, the encryption, the placement of the artifacts, and what the worktree is
      afterwards. [Pusher.v] sees this part as one call that answers the claimed paths.

    The support of the tests, which other repositories import.
    - [GitServer.v], [GitRepos.v], [Merges.v], [Assertions.v] ([pkg/envtest]): the git server
      with its access matrix, its repositories over a content-addressed store, the merge of
      two branches, and the search for a manifest in a branch.

    ** What is proved

    - Who may do what. A pair of credentials and target comes from the sole binding of the
      requesting user or from the default of the syncer ([association_sound]), and no git
      call of a whole request is made for any other ([request_traffic]); an allowed
      admission is justified ([allowed_justified]); a cluster-wide syncer passes the
      permission webhook only when its author was granted all it reaches
      ([cluster_wide_gate_sound]); references are reviewed exactly
      ([AuthorizeRefs_exact], [AuthorizeCrossNamespaceRefs_complete]).
    - What is written. The worktree differs only in what is claimed
      ([worktree_changes_claimed]); an object goes over every manifest that holds it or to its
      own file ([intercepted_object_placed], [ReplaceObject_rewrites_every_copy],
      [written_document_reads_back]), and no two objects share a file
      ([layout_separates_objects]); with encryption on it does not go there in clear
      ([sops_never_cleartext]); excluded fields are removed exactly
      ([RemoveExcludedField_exact]). The commit that is pushed holds exactly these changes,
      whatever an earlier request left in the clone ([pushed_commit_records]).
    - What is pushed, and when requests meet. One branch, a bounded number of attempts, force
      only under the resetting strategies ([pipeline_pushes]); no clone is used twice at once
      ([clones_exclusive]), every lease is returned ([leases_released]), and requests end
      when their leases can be ranked ([requests_finish]) and can block each other when they
      cannot ([crossed_requests_deadlock]).
    - Convergence of the controllers ([BranchTarget_converges], [association_converges],
      [UserSpecific_converges], [syncer_entry_converges], [managed_binding_converges],
      [syncer_deletion_converges]), what the syncer controllers and their watches keep true
      together ([syncers_in_line]) and so what judges a request
      ([requests_judged_as_stored]), the order of finalizers and cleanups
      ([RunPolicies_deletion], [RunPolicies_gated]), concurrent updates
      ([concurrent_adds_merge]).
    - Data: round trips ([spoke_roundtrip]), refinements ([lfu_refines_bounded_map],
      [RemoteSyncerRefs_enumerates]), the validators as predicates
      ([cluster_wide_validation_exact], [patterns_decided], [policy_targets_admitted]).
    - The test support: [server_refines_matrix], [MergeBranch_overlays],
      [IsObjectInRepo_exact].

    ** Fuel and bounds

    Loops over lists are structural. [RetryOnConflict] tries five times, as client-go does.
    The walk of a worktree and what calls it take a fuel, the depth of the directories:
    [None] is its exhaustion, which no theorem accepts as an outcome, and any fuel above
    the length of the longest directory path is enough ([walk_spec]). The same holds of the
    merge of two trees, with the depth of both ([mergeTreeObjects_run]). The counters of the
    cache saturate at [useCountCap] and sizes are integers, so no arithmetic wraps.

    ** Conditions

    What a theorem takes for granted is in its statement and in its comment. The conditions
    that the code does not see to, and what happens without them:
    - A request can register a syncer that was changed or deleted after it read it
      ([sy_late]): the stale handler stays ([stale_registration_stays]) and goes on judging
      requests ([judged_by_deleted]). [syncers_in_line] and [requests_judged_as_stored] hold of
      the keys for which this has not happened since the last pass. An update of the shared
      configuration is refused from another version than the stored one ([Versioned]).
    - A remembered location is the only copy of its object ([location_ok]); else the other
      copies are not rewritten ([remembered_copy_hides_others], [branches_share_locations]).
    - The encryption of [sops_never_cleartext] is that of objects no provider takes: the
      patches and the kustomizations a provider writes do not go through it.
    - The host of the repository of a default target is compared with nothing
      ([default_credentials_other_host]).
    - The trees of a merge have no names such as [apps] and [apps.yaml] ([calm]); else the
      merge can fail ([merge_refuses_siblings]).
    - Convergence of a policy is that of one pass nobody disturbs, on a server that answers
      every call and refuses no object; [concurrent_adds_merge] and [syncers_in_line] are about
      passes that meet.

    ** Not modelled

    - Symbolic links in a worktree: a commit may hold them, and the in-memory filesystem
      follows them on [Open] and [Create]; [BillyLaws] and [BillyFrame] speak of worktrees
      without them.
    - Outages of the API server during the steps of [System.v], and informer caches that lag
      behind it: a read there is of what is stored.

    - The schemes and the logger of [cmd/main.go], its signal handler, and the
      [SetupWebhookWithManager] functions, which only call a builder of controller-runtime.
    - The generated [zz_generated.deepcopy.go]: copies of values the model has no aliases
      of. The tests, and of [pkg/envtest] the HTTP and TLS listeners and gitkit.
    - HTTP, TLS, JSON and YAML codecs, logs, Kubernetes events, contexts and their timeouts.
    - Charts, kustomize configuration and scripts: no program. *)

From stdpp Require Export base gmap strings list fin_maps pretty.
From Stdlib Require Export ZArith.

(** ** Outcomes of Go code

    [Ok v] is a normal return, [Err e] a returned non-nil error and [Panic] a
    run-time panic (a nil dereference, a failed type assertion). *)
Inductive result (E A : Type) : Type :=
| Ok (a : A)
| Err (e : E)
| Panic.
Arguments Ok {E A} a.
Arguments Err {E A} e.
Arguments Panic {E A}.

(** Code that talks to the outside world: a state of the world is threaded, an
    error stops the computation but keeps the effects already made. *)
Definition M (E W A : Type) : Type := W → result E A * W.

Definition ret {E W A} (a : A) : M E W A := λ w, (Ok a, w).
Definition throw {E W A} (e : E) : M E W A := λ w, (Err e, w).
Definition panic {E W A} : M E W A := λ w, (Panic, w).

Definition bind {E W A B} (m : M E W A) (f : A → M E W B) : M E W B := λ w,
  match m w with
  | (Ok a, w') => f a w'
  | (Err e, w') => (Err e, w')
  | (Panic, w') => (Panic, w')
  end.

(** [attempt m] is the Go idiom [v, err := m]: the error becomes a value that the
    caller inspects; a panic is not recovered. *)
Definition attempt {E W A} (m : M E W A) : M E W (A + E) := λ w,
  match m w with
  | (Ok a, w') => (Ok (inl a), w')
  | (Err e, w') => (Ok (inr e), w')
  | (Panic, w') => (Panic, w')
  end.

(** A pure fallible call inside effectful code. *)
Definition lift {E W A} (r : result E A) : M E W A := λ w, (r, w).

Declare Scope go_scope.
Delimit Scope go_scope with go.
Open Scope go_scope.

Notation "x ⇐ m ;; k" := (bind m (λ x, k))
  (at level 20, m at level 99, k at level 200, right associativity) : go_scope.
Notation "' p ⇐ m ;; k" := (bind m (λ x, match x with p => k end))
  (at level 20, p pattern, m at level 99, k at level 200, right associativity) : go_scope.
Notation "m ;;; k" := (bind m (λ _, k))
  (at level 90, k at level 200, right associativity) : go_scope.

(** [for _, x := range l { body }] with the early return of an error. *)
Fixpoint for_each {E W A} (body : A → M E W unit) (l : list A) : M E W unit :=
  match l with
  | [] => ret tt
  | x :: l' => body x;;; for_each body l'
  end.

(** The same loop with a loop-carried variable. *)
Fixpoint for_fold {E W A T} (body : T → A → M E W T) (s : T) (l : list A) : M E W T :=
  match l with
  | [] => ret s
  | x :: l' => s' ⇐ body s x;; for_fold body s' l'
  end.

(** [for i, x := range l]. *)
Fixpoint for_foldi {E W A T} (i : nat) (body : nat → T → A → M E W T) (s : T) (l : list A) : M E W T :=
  match l with
  | [] => ret s
  | x :: l' => s' ⇐ body i s x;; for_foldi (S i) body s' l'
  end.

(** A Go [map[string]string] read: an absent key reads as the empty string. *)
Definition mget (m : gmap string string) (k : string) : string := default "" (m !! k).

(** ** Shared lemmas *)

Section monad.
Context {E W : Type}.

Lemma bind_ret {A B} (a : A) (f : A → M E W B) w : bind (ret a) f w = f a w.
Proof. reflexivity. Qed.

Lemma bind_ok {A B} (m : M E W A) (f : A → M E W B) w a w' :
  m w = (Ok a, w') → bind m f w = f a w'.
Proof. unfold bind. by intros ->. Qed.

Lemma bind_err {A B} (m : M E W A) (f : A → M E W B) w e w' :
  m w = (Err e, w') → bind m f w = (Err e, w').
Proof. unfold bind. by intros ->. Qed.

Lemma bind_ok_inv {A B} (m : M E W A) (f : A → M E W B) w b w' :
  bind m f w = (Ok b, w') → ∃ a w1, m w = (Ok a, w1) ∧ f a w1 = (Ok b, w').
Proof. unfold bind. destruct (m w) as [[a|e|] w1]; naive_solver. Qed.

Lemma bind_assoc {A B C} (m : M E W A) (f : A → M E W B) (g : B → M E W C) w :
  bind (bind m f) g w = bind m (λ a, bind (f a) g) w.
Proof. unfold bind. by destruct (m w) as [[a|e|] w1]. Qed.

Lemma attempt_ok_inv {A} (m : M E W A) w r w' :
  attempt m w = (Ok r, w') →
  match r with inl a => m w = (Ok a, w') | inr e => m w = (Err e, w') end.
Proof. unfold attempt. destruct (m w) as [[a|e|] w1]; naive_solver. Qed.

(** A loop invariant: what every iteration preserves, the loop preserves. *)
Lemma for_each_inv {A} (body : A → M E W unit) (l : list A) (P : W → Prop) :
  (∀ x w, x ∈ l → P w → P (body x w).2) →
  ∀ w, P w → P (for_each body l w).2.
Proof.
  induction l as [|x l IH]; intros Hb w Hw; simpl; [done|].
  unfold bind. pose proof (Hb x w ltac:(left) Hw) as Hx.
  destruct (body x w) as [[[]|e|] w1]; simpl in *; [|done..].
  apply IH; [|done]. intros y v Hy. apply Hb. by right.
Qed.

Lemma for_fold_inv {A T} (body : T → A → M E W T) (l : list A) (P : W → Prop) :
  (∀ s x w, x ∈ l → P w → P (body s x w).2) →
  ∀ s w, P w → P (for_fold body s l w).2.
Proof.
  induction l as [|x l IH]; intros Hb s w Hw; simpl; [done|].
  unfold bind. pose proof (Hb s x w ltac:(left) Hw) as Hx.
  destruct (body s x w) as [[s1|e|] w1]; simpl in *; [|done..].
  apply IH; [|done]. intros s2 y v Hy. apply Hb. by right.
Qed.

(** The same for the loop-carried variable of a loop that returned. *)
Lemma for_fold_ok {A T} (body : T → A → M E W T) (l : list A) (P : T → W → Prop) s w s' w' :
  P s w → (∀ s x w s' w', x ∈ l → P s w → body s x w = (Ok s', w') → P s' w') →
  for_fold body s l w = (Ok s', w') → P s' w'.
Proof.
  revert s w; induction l as [|x l IH]; intros s w Hs Hb Hr; simpl in Hr; [by injection Hr as <- <-|].
  apply bind_ok_inv in Hr as (s1 & w1 & Hx & Hr). eapply (IH s1 w1); [|by intros; eapply Hb; eauto; right|done].
  eapply Hb; [left|done..].
Qed.

Lemma for_foldi_ok {A T} (body : nat → T → A → M E W T) (l : list A) (P : T → W → Prop) i s w s' w' :
  P s w → (∀ i s x w s' w', x ∈ l → P s w → body i s x w = (Ok s', w') → P s' w') →
  for_foldi i body s l w = (Ok s', w') → P s' w'.
Proof.
  revert i s w; induction l as [|x l IH]; intros i s w Hs Hb Hr; simpl in Hr; [by injection Hr as <- <-|].
  apply bind_ok_inv in Hr as (s1 & w1 & Hx & Hr).
  eapply (IH (S i) s1 w1); [|by intros; eapply Hb; eauto; right|done].
  eapply Hb; [left|done..].
Qed.

(** A loop whose iterations change nothing. *)
Lemma for_fold_id {A T} (body : T → A → M E W T) (l : list A) s w :
  (∀ x, x ∈ l → body s x w = (Ok s, w)) → for_fold body s l w = (Ok s, w).
Proof.
  intros Hb. induction l as [|x l IH]; [done|]. simpl.
  rewrite (bind_ok _ _ _ _ _ (Hb x ltac:(left))). apply IH. intros y Hy. apply Hb. by right.
Qed.

(** A value that can only be reached from itself: a loop that ends on it started on it,
    every iteration stayed on it, and what an iteration achieved happened between two
    moments of the whole run ([R] relates the earlier to the later). *)
Lemma for_fold_stays {A T} (body : T → A → M E W T) (l : list A) (e : T)
    (R : W → W → Prop) `{!PreOrder R} (Q : A → W → W → Prop) s w s' w' :
  (∀ x s w s' w', body s x w = (Ok s', w') → R w w' ∧ (s' = e → s = e ∧ Q x w w')) →
  for_fold body s l w = (Ok s', w') →
  R w w' ∧ (s' = e → s = e ∧ ∀ x, x ∈ l → ∃ w1 w2, R w w1 ∧ Q x w1 w2 ∧ R w2 w').
Proof.
  intros Hb. revert s w; induction l as [|x l IH]; intros s w Hr; simpl in Hr.
  - injection Hr as -> ->. split; [done|]. intros ->. split; [done|]. by intros x ?%not_elem_of_nil.
  - apply bind_ok_inv in Hr as (s1 & w1 & Hx & Hr).
    apply Hb in Hx as [HR Hx]. apply IH in Hr as [HR' Hl].
    split; [by etrans|]. intros He. destruct (Hl He) as [-> Hl']. destruct (Hx eq_refl) as [-> Hq].
    split; [done|]. intros y [->|Hy]%elem_of_cons; [by exists w, w1|].
    destruct (Hl' y Hy) as (w2 & w3 & ? & ? & ?). exists w2, w3. split_and!; [by etrans|done..].
Qed.
(** Two actions that run alike from every state: the equivalence the models of two
    versions of a function are compared up to. *)
Definition same_runs {A} : relation (M E W A) := pointwise_relation W eq.
#[global] Instance same_runs_equivalence {A} : Equivalence (same_runs (A := A)).
Proof. unfold same_runs. apply _. Qed.
#[global] Instance bind_same_runs {A B} :
  Proper (same_runs ==> pointwise_relation A same_runs ==> same_runs) (bind (E := E) (W := W) (A := A) (B := B)).
Proof.
  intros m m' Hm f f' Hf w. unfold bind. rewrite (Hm w). destruct (m' w) as [[a|e|] w']; [apply Hf|done..].
Qed.
#[global] Instance attempt_same_runs {A} : Proper (same_runs ==> same_runs) (attempt (E := E) (W := W) (A := A)).
Proof. intros m m' Hm w. unfold attempt. by rewrite (Hm w). Qed.
#[global] Instance for_fold_same_runs {A T} :
  Proper (pointwise_relation T (pointwise_relation A same_runs) ==> eq ==> eq ==> same_runs)
    (for_fold (E := E) (W := W) (A := A) (T := T)).
Proof.
  intros f f' Hf s ? <- l ? <-. revert s. induction l as [|x l IH]; intros s; simpl; [done|].
  apply bind_same_runs; [apply Hf|]. intros s'. apply IH.
Qed.
End monad.

(** A run whose answer was checked by a boolean: how the witnesses evaluate a program
    without normalising the world it leaves. *)
Lemma run_ok {E A W} (r : result E A * W) (p : A → bool) :
  match r.1 with Ok a => p a | _ => false end = true → ∃ a w', r = (Ok a, w') ∧ p a = true.
Proof. destruct r as [[a|e|] w']; simpl; [eauto|done..]. Qed.

Lemma NoDup_map_filter {A B} (f : A → B) p (l : list A) :
  NoDup (map f l) → NoDup (map f (List.filter p l)).
Proof.
  induction l as [|x l IH]; simpl; [done|]. intros [Hx Hl]%NoDup_cons.
  destruct (p x); simpl; [|auto]. apply NoDup_cons. split; [|auto].
  intros (y & He & Hy)%list_elem_of_fmap. apply Hx. rewrite He.
  apply list_elem_of_In, filter_In in Hy as [Hy _].
  apply list_elem_of_fmap. exists y. by rewrite list_elem_of_In.
Qed.

Create HintDb go.
Create Rewrite HintDb go.
#[export] Hint Rewrite @bind_ret @bind_assoc : go.

(** Takes apart a run that is known to have returned normally. *)
Ltac inv_ok :=
  repeat match goal with
  | H : bind _ _ _ = (Ok _, _) |- _ =>
      apply bind_ok_inv in H as (? & ? & ? & H)
  | H : ret _ _ = (Ok _, _) |- _ => unfold ret in H; simplify_eq
  | H : lift _ _ = (Ok _, _) |- _ => unfold lift in H; simplify_eq
  | H : throw _ _ = (Ok _, _) |- _ => discriminate H
  | H : panic _ = (Ok _, _) |- _ => discriminate H
  | H : (Ok _, _) = (Ok _, _) |- _ => simplify_eq
  | H : (Err _, _) = (Ok _, _) |- _ => discriminate H
  | H : (Panic, _) = (Ok _, _) |- _ => discriminate H
  end.

(** Case analysis on every boolean string comparison of the goal or context. *)
Ltac case_eqb :=
  match goal with
  | |- context [String.eqb ?a ?b] => destruct (String.eqb_spec a b)
  | H : context [String.eqb ?a ?b] |- _ => destruct (String.eqb_spec a b)
  end.

Ltac bool_hyps :=
  repeat match goal with
  | H : _ && _ = true |- _ => apply andb_true_iff in H as [??]
  | H : _ || _ = false |- _ => apply orb_false_iff in H as [??]
  | H : negb _ = true |- _ => apply negb_true_iff in H
  | H : negb _ = false |- _ => apply negb_false_iff in H
  | H : String.eqb _ _ = true |- _ => apply String.eqb_eq in H
  | H : String.eqb _ _ = false |- _ => apply String.eqb_neq in H
  end.
