(* ===== verification/Frame.v ===== *)
(** * Actions that change part of what is observed

    [changes obs K m]: whatever [m] answers, the observation [obs] of the state differs
    only at the indices in [K]. The tactic [changes] goes through the structure of a
    program down to the actions of the hint database of the same name. [Claims.v] observes
    the files of a worktree, [Request.v] the git calls of a request. *)

From S2P Require Import Prelude.

Section Changes.
Context {Er S I V : Type} (obs : S → I → V).
Definition changes (K : I → Prop) {A} (m : M Er S A) : Prop :=
  ∀ s r s', m s = (r, s') → ∀ k, ¬ K k → obs s' k = obs s k.
Definition nothing (k : I) : Prop := False.

Lemma changes_pure K {A} (r : result Er A) : changes K (λ s, (r, s)).
Proof. by intros s ? s' [= <- <-]. Qed.
Lemma changes_ret K {A} (a : A) : changes K (ret a).
Proof. apply changes_pure. Qed.
Lemma changes_throw K {A} e : changes K (throw (A := A) e).
Proof. apply changes_pure. Qed.
Lemma changes_lift K {A} (r : result Er A) : changes K (lift r).
Proof. apply changes_pure. Qed.
Lemma changes_panic K {A} : changes K (panic (A := A)).
Proof. apply changes_pure. Qed.

Lemma changes_bind K {A B} (m : M Er S A) (f : A → M Er S B) :
  changes K m → (∀ a, changes K (f a)) → changes K (bind m f).
Proof.
  intros Hm Hf s r s' Hr k Hk. unfold bind in Hr. destruct (m s) as [[a|e|] s1] eqn:E.
  - rewrite (Hf a _ _ _ Hr k Hk). by apply (Hm _ _ _ E).
  - injection Hr as <- <-. by apply (Hm _ _ _ E).
  - injection Hr as <- <-. by apply (Hm _ _ _ E).
Qed.

Lemma changes_attempt K {A} (m : M Er S A) : changes K m → changes K (attempt m).
Proof.
  intros Hm s r s' Hr k Hk. unfold attempt in Hr. destruct (m s) as [[a|e|] s1] eqn:E;
    injection Hr as <- <-; by apply (Hm _ _ _ E).
Qed.

Lemma changes_fold K {A T} (body : T → A → M Er S T) l t : (∀ t a, changes K (body t a)) →
  changes K (for_fold body t l).
Proof.
  intros Hb. revert t; induction l as [|a l IH]; intros t; [apply changes_ret|].
  cbn [for_fold]. by apply changes_bind.
Qed.

Lemma changes_foldi K {A T} i (body : nat → T → A → M Er S T) l t : (∀ i t a, changes K (body i t a)) →
  changes K (for_foldi i body t l).
Proof.
  intros Hb. revert i t; induction l as [|a l IH]; intros i t; [apply changes_ret|].
  cbn [for_foldi]. by apply changes_bind.
Qed.

Lemma changes_more (K K' : I → Prop) {A} (m : M Er S A) : (∀ k, K k → K' k) → changes K m → changes K' m.
Proof. intros HK Hm s r s' Hr k Hk. apply (Hm _ _ _ Hr). auto. Qed.

Lemma quiet_more K {A} (m : M Er S A) : changes nothing m → changes K m.
Proof. apply changes_more. by intros k []. Qed.

(** Nothing changed at all. *)
Lemma quiet_run {A} (m : M Er S A) s r s' : changes nothing m → m s = (r, s') → ∀ k, obs s' k = obs s k.
Proof. intros Hm Hr k. apply (Hm _ _ _ Hr). by intros []. Qed.
End Changes.

Create HintDb changes.
#[export] Hint Resolve changes_pure changes_ret changes_throw changes_lift changes_panic : changes.

(** Through the structure of a program, down to the actions of the hint database. *)
Ltac changes_step :=
  match goal with
  | |- changes _ _ (bind _ _) => apply changes_bind; [|intros]
  | |- changes _ _ (attempt _) => apply changes_attempt
  | |- changes _ _ (for_fold _ _ _) => apply changes_fold; intros
  | |- changes _ _ (for_foldi _ _ _ _) => apply changes_foldi; intros
  | |- changes _ _ (match ?x with _ => _ end) => destruct x
  | |- changes _ _ ((match ?x with _ => _ end) _) => destruct x
  end.
Ltac changes := repeat changes_step; auto with changes.
