(* ===== verification/GoStr.v ===== *)
(** * The parts of Go's [strings], [bytes], [strconv] and [fmt] that syngit uses

    A Go [string] (and a non-nil [[]byte]) is a Coq [string], one [ascii] per byte.
    The definitions follow the documented behaviour of the Go standard library;
    functions that look at Unicode code points work on the UTF-8 encoding. *)

From S2P Require Import Prelude.
From Stdlib Require Import Ascii String.

Open Scope string_scope.
Notation "a ++ b" := (String.append a b) : string_scope.
Abbreviation length_str := String.length.
#[global] Arguments String.append !s1 s2 : simpl nomatch.
#[global] Arguments String.length !s : simpl nomatch.

Definition nl : ascii := "010"%char.
Definition nls : string := String nl "".

(** ** Prefixes, suffixes, dropping *)

Fixpoint sdrop (n : nat) (s : string) : string :=
  match n, s with
  | O, _ => s
  | S n', String _ s' => sdrop n' s'
  | S _, "" => ""
  end.

Definition HasPrefix (s p : string) : bool := prefix p s.

Fixpoint HasSuffix (s suf : string) : bool :=
  String.eqb s suf ||
  match s with
  | "" => false
  | String _ s' => HasSuffix s' suf
  end.

Definition TrimPrefix (s p : string) : string :=
  if prefix p s then sdrop (length_str p) s else s.

(** [strings.Contains]. *)
Fixpoint Contains (s sub : string) : bool :=
  prefix sub s ||
  match s with
  | "" => false
  | String _ s' => Contains s' sub
  end.

(** [strings.Cut]: around the first occurrence of a separator. *)
Fixpoint Cut (s sep : string) : option (string * string) :=
  if prefix sep s then Some ("", sdrop (length_str sep) s)
  else match s with
       | "" => None
       | String c s' =>
           match Cut s' sep with
           | Some (a, b) => Some (String c a, b)
           | None => None
           end
       end.

(** [strings.Split] and [bytes.Split] for a non-empty separator. The counter
    skips the remaining bytes of a separator that has just been recognised. *)
Fixpoint split_go (sep : string) (skip : nat) (s : string) : list string :=
  match s with
  | "" => [""]
  | String c s' =>
      match skip with
      | S k => split_go sep k s'
      | O =>
          if prefix sep s then "" :: split_go sep (length_str sep - 1) s'
          else match split_go sep 0 s' with
               | h :: t => String c h :: t
               | [] => [String c ""]
               end
      end
  end.
Definition Split (s sep : string) : list string := split_go sep 0 s.

Definition Join (l : list string) (sep : string) : string := String.concat sep l.

(** [strings.ReplaceAll] for a non-empty [old]. *)
Definition ReplaceAll (s old new : string) : string := Join (Split s old) new.

(** ** Trimming *)

(** [bytes.TrimRight s] with the one-character cutset holding the newline. *)
Fixpoint TrimRightNL (s : string) : string :=
  match s with
  | "" => ""
  | String c s' =>
      let r := TrimRightNL s' in
      if String.eqb r "" && Ascii.eqb c nl then "" else String c r
  end.

Definition byte_in (lo hi : nat) (c : ascii) : bool :=
  (lo <=? nat_of_ascii c)%nat && (nat_of_ascii c <=? hi)%nat.
Definition byte_is (n : nat) (c : ascii) : bool := (nat_of_ascii c =? n)%nat.

(** The code points of [unicode.IsSpace], by the length of their encoding. *)
Definition space1 (a : ascii) : bool := byte_in 9 13 a || byte_is 32 a.
Definition space2 (a b : ascii) : bool := byte_is 194 a && (byte_is 133 b || byte_is 160 b).
Definition space3 (a b c : ascii) : bool :=
  (byte_is 225 a && byte_is 154 b && byte_is 128 c) ||
  (byte_is 226 a && byte_is 128 b &&
     (byte_in 128 138 c || byte_is 168 c || byte_is 169 c || byte_is 175 c)) ||
  (byte_is 226 a && byte_is 129 b && byte_is 159 c) ||
  (byte_is 227 a && byte_is 128 b && byte_is 128 c).

(** Drops leading space code points; [rev] tells that the bytes are read backwards. *)
Fixpoint trim_left (rev : bool) (s : string) : string :=
  match s with
  | "" => ""
  | String a s1 =>
      if space1 a then trim_left rev s1
      else match s1 with
           | "" => s
           | String b s2 =>
               if (if rev then space2 b a else space2 a b) then trim_left rev s2
               else match s2 with
                    | "" => s
                    | String c s3 =>
                        if (if rev then space3 c b a else space3 a b c)
                        then trim_left rev s3 else s
                    end
           end
  end.

Fixpoint rev_app (s acc : string) : string :=
  match s with "" => acc | String c s' => rev_app s' (String c acc) end.
Definition srev (s : string) : string := rev_app s "".

(** [strings.TrimSpace] and [bytes.TrimSpace]. *)
Definition TrimSpace (s : string) : string :=
  srev (trim_left true (srev (trim_left false s))).

(** ** UTF-8 *)

(** Bytes of the first code point of [s], one for an invalid encoding. *)
Definition rune_len (s : string) : nat :=
  match s with
  | "" => 0
  | String a s1 =>
      let cont s := match s with String b _ => byte_in 128 191 b | "" => false end in
      let cont2 s := match s with String _ t => cont t | "" => false end in
      let cont3 s := match s with String _ (String _ t) => cont t | _ => false end in
      let second lo hi := match s1 with String b _ => byte_in lo hi b | "" => false end in
      if byte_in 194 223 a && cont s1 then 2
      else if ((byte_is 224 a && second 160 191) || (byte_in 225 236 a && cont s1) ||
               (byte_is 237 a && second 128 159) || (byte_in 238 239 a && cont s1)) && cont2 s1 then 3
      else if ((byte_is 240 a && second 144 191) || (byte_in 241 243 a && cont s1) ||
               (byte_is 244 a && second 128 143)) && cont2 s1 && cont3 s1 then 4
      else 1
  end%nat.

(** U+FFFD, what a [range] over a string yields for an invalid byte. *)
Definition RuneError : string :=
  String (ascii_of_nat 239) (String (ascii_of_nat 191) (String (ascii_of_nat 189) "")).

(** [for _, char := range s], each code point as [string(char)]. *)
Fixpoint runes_go (skip : nat) (s : string) : list string :=
  match s with
  | "" => []
  | String c s' =>
      match skip with
      | S k => runes_go k s'
      | O =>
          match rune_len s with
          | 1 => (if byte_in 0 127 c then String c "" else RuneError) :: runes_go 0 s'
          | n => String.substring 0 n s :: runes_go (n - 1) s'
          end
      end
  end.
Definition runes (s : string) : list string := runes_go 0 s.

(** ** Decimal printing *)

(** [fmt] with the verb [%d] on a non-negative [int]. *)
Definition Itoa (n : nat) : string := pretty n.

(** ** Lemmas *)

Lemma append_nil_r s : s ++ "" = s.
Proof. induction s; simpl; congruence. Qed.

Lemma append_assoc (a b c : string) : (a ++ b) ++ c = a ++ (b ++ c).
Proof. induction a; simpl; congruence. Qed.

Lemma append_length (a b : string) : length_str (a ++ b) = (length_str a + length_str b)%nat.
Proof. induction a; simpl; congruence. Qed.

Lemma append_inj_l (a b c : string) : a ++ b = a ++ c → b = c.
Proof. induction a; simpl; naive_solver. Qed.

Lemma append_inj_r (a b c : string) : a ++ c = b ++ c → a = b.
Proof.
  revert b; induction a as [|x a IH]; intros [|y b] H; simpl in *; [done| | |].
  - apply (f_equal length_str) in H. simpl in H. rewrite append_length in H. lia.
  - apply (f_equal length_str) in H. simpl in H. rewrite append_length in H. lia.
  - injection H as -> H. f_equal. by apply IH.
Qed.

Lemma sdrop_append a b : sdrop (length_str a) (a ++ b) = b.
Proof. induction a; simpl; done. Qed.

Lemma prefix_append p s : prefix p (p ++ s) = true.
Proof.
  induction p as [|c p IH]; simpl; [by destruct s|].
  destruct (ascii_dec c c); [done|congruence].
Qed.

Lemma prefix_spec p s : prefix p s = true → s = p ++ sdrop (length_str p) s.
Proof.
  revert s; induction p as [|c p IH]; intros [|d s]; simpl; try done.
  destruct (ascii_dec c d) as [->|]; [|done]. intros H. f_equal. by apply IH.
Qed.

Lemma prefix_iff p s : prefix p s = true ↔ ∃ r, s = p ++ r.
Proof.
  split; [intros H%prefix_spec; eauto|]. intros [r ->]. apply prefix_append.
Qed.

Lemma TrimPrefix_append p s : TrimPrefix (p ++ s) p = s.
Proof. unfold TrimPrefix. by rewrite prefix_append, sdrop_append. Qed.

Lemma HasSuffix_append a s : HasSuffix (a ++ s) s = true.
Proof.
  induction a as [|c a IH]; simpl.
  - destruct s; simpl; [done|]. by rewrite Ascii.eqb_refl, String.eqb_refl.
  - rewrite IH. apply orb_true_r.
Qed.

Lemma Contains_refl_prefix s p : prefix p s = true → Contains s p = true.
Proof. destruct s; simpl; intros ->; done. Qed.

Lemma Contains_append a s b : Contains (a ++ (s ++ b)) s = true.
Proof.
  induction a as [|c a IH]; simpl.
  - apply Contains_refl_prefix, prefix_append.
  - rewrite IH. apply orb_true_r.
Qed.

Lemma Contains_spec s sub : Contains s sub = true → ∃ a b, s = a ++ (sub ++ b).
Proof.
  induction s as [|c s IH]; intros H.
  - destruct sub; [|done]. by exists "", "".
  - change ((prefix sub (String c s) || Contains s sub) = true) in H.
    apply orb_true_iff in H as [H|H].
    + apply prefix_spec in H. exists "". eexists. exact H.
    + destruct (IH H) as (a & b & ->). by exists (String c a), b.
Qed.

Lemma split_go_ne sep k s : split_go sep k s ≠ [].
Proof.
  revert k; induction s as [|c s IH]; intros k; cbn [split_go]; [done|].
  destruct k; [|by apply IH]. destruct (prefix sep (String c s)); [done|].
  by destruct (split_go sep 0 s).
Qed.

Lemma concat_cons sep a l : l ≠ [] → String.concat sep (a :: l) = a ++ (sep ++ String.concat sep l).
Proof. by destruct l. Qed.

(** Joining what was split gives the content back. *)
Lemma concat_split_go sep k s :
  sep ≠ "" → (k ≤ length_str s)%nat →
  String.concat sep (split_go sep k s) = sdrop k s.
Proof.
  intros Hsep. revert k; induction s as [|c s IH]; intros k Hk; cbn [split_go].
  { by destruct k. }
  destruct k as [|k]; [|apply IH; simpl in Hk; lia].
  destruct (prefix sep (String c s)) eqn:Hp.
  - destruct sep as [|d sep]; [done|].
    rewrite concat_cons by apply split_go_ne.
    apply prefix_spec in Hp. rewrite Hp. simpl in Hp.
    injection Hp as -> Hp. cbn [length_str]. replace (S (length_str sep) - 1)%nat with (length_str sep) by lia.
    rewrite IH; [done|]. rewrite Hp, append_length. lia.
  - specialize (IH 0%nat ltac:(lia)).
    destruct (split_go sep 0 s) as [|h t] eqn:E; [by destruct (split_go_ne sep 0 s)|].
    destruct t as [|b t].
    + simpl in *. congruence.
    + rewrite concat_cons in IH |- * by done. simpl in *. congruence.
Qed.

Lemma Join_Split s sep : sep ≠ "" → Join (Split s sep) sep = s.
Proof. intros H. unfold Join, Split. rewrite concat_split_go; [done..|lia]. Qed.

Lemma concat_app sep l1 l2 : l1 ≠ [] → l2 ≠ [] →
  String.concat sep (l1 ++ l2)%list = String.concat sep l1 ++ (sep ++ String.concat sep l2).
Proof.
  intros H1 H2. induction l1 as [|a l1 IH]; [done|].
  destruct l1 as [|b l1].
  - simpl. by destruct l2.
  - change ((a :: b :: l1) ++ l2)%list with (a :: ((b :: l1) ++ l2))%list.
    rewrite concat_cons by done. rewrite IH by done.
    rewrite (concat_cons sep a (b :: l1)) by done. by rewrite !append_assoc.
Qed.

(** ** Membership of a byte, for separators of one byte *)

Fixpoint has_byte (c : ascii) (s : string) : bool :=
  match s with "" => false | String d s' => Ascii.eqb d c || has_byte c s' end.

Lemma prefix_one c d s : prefix (String c "") (String d s) = Ascii.eqb d c.
Proof.
  simpl. destruct (ascii_dec c d) as [->|H].
  - rewrite Ascii.eqb_refl. by destruct s.
  - symmetry. apply Ascii.eqb_neq. congruence.
Qed.

Lemma has_byte_append c a b : has_byte c (a ++ b) = has_byte c a || has_byte c b.
Proof. induction a; simpl; [done|]. rewrite IHa. apply orb_assoc. Qed.

(** A key made of two parts determines them when the first has no separator. *)
Lemma key_inj c a b x y : has_byte c a = false → has_byte c b = false →
  a ++ String c x = b ++ String c y → a = b ∧ x = y.
Proof.
  revert b; induction a as [|d a IH]; intros [|e b] Ha Hb He; simpl in *.
  - by injection He.
  - injection He as <- _. by rewrite Ascii.eqb_refl in Hb.
  - injection He as -> _. by rewrite Ascii.eqb_refl in Ha.
  - apply orb_false_iff in Ha as [_ Ha], Hb as [_ Hb]. injection He as -> He.
    by destruct (IH b Ha Hb He) as [-> ->].
Qed.

(** Splitting a string that does not hold the separator, and splitting after the
    first occurrence. *)
Lemma Split_none c s : has_byte c s = false → Split s (String c "") = [s].
Proof.
  unfold Split. induction s as [|d s IH]; intros H; [done|].
  simpl in H. apply orb_false_iff in H as [H1 H2].
  cbn [split_go]. rewrite prefix_one, H1. by rewrite IH.
Qed.

Lemma Split_cons c a s : has_byte c a = false →
  Split (a ++ String c s) (String c "") = a :: Split s (String c "").
Proof.
  unfold Split. induction a as [|d a IH]; intros H.
  - cbn [split_go String.append]. by rewrite prefix_one, Ascii.eqb_refl.
  - simpl in H. apply orb_false_iff in H as [H1 H2].
    cbn [split_go String.append]. rewrite prefix_one, H1. by rewrite IH.
Qed.

Lemma Split_Join c l :
  Forall (λ s, has_byte c s = false) l → l ≠ [] →
  Split (Join l (String c "")) (String c "") = l.
Proof.
  unfold Join. induction 1 as [|a l Ha Hl IH]; intros Hne; [done|].
  destruct l as [|b l].
  - simpl. by apply Split_none.
  - rewrite concat_cons by done.
    change (String c "" ++ ?x) with (String c x).
    rewrite Split_cons by done. f_equal. by apply IH.
Qed.

Lemma TrimRightNL_idem s : TrimRightNL (TrimRightNL s) = TrimRightNL s.
Proof.
  induction s as [|c s IH]; [done|]. cbn [TrimRightNL].
  destruct (String.eqb (TrimRightNL s) "" && Ascii.eqb c nl) eqn:E; [done|].
  cbn [TrimRightNL]. by rewrite IH, E.
Qed.

Lemma srev_rev_app a b : srev (rev_app a b) = rev_app b a.
Proof.
  unfold srev. assert (∀ a b c, rev_app (rev_app a b) c = rev_app b (a ++ c)) as H.
  { clear. induction a as [|x a IH]; intros b c; simpl; [done|]. by rewrite IH. }
  rewrite H. by rewrite append_nil_r.
Qed.

Lemma srev_involutive s : srev (srev s) = s.
Proof. unfold srev at 2. by rewrite srev_rev_app. Qed.

#[export] Hint Rewrite append_nil_r append_assoc append_length sdrop_append
  prefix_append TrimPrefix_append : go.
