(* ===== verification/Api.v ===== *)
(** * The API objects ([pkg/api/v1beta5]) and the request-scoped records

    Data only: the custom resources of the group [syngit.io/v1beta5], the
    Kubernetes types they embed, the constants of the package and the
    [SyncerContext] of [pkg/interceptor]. Go strings used as enumerations stay
    strings: the code compares them and a client may store any value. *)

From S2P Require Import Prelude GoStr.

(** ** Kubernetes types *)

Record NamespacedName := mkNN { nn_Namespace : string; nn_Name : string }.
#[export] Instance NamespacedName_eq_dec : EqDecision NamespacedName.
Proof. solve_decision. Defined.
#[export] Instance NamespacedName_countable : Countable NamespacedName.
Proof.
  refine (inj_countable' (λ n, (nn_Namespace n, nn_Name n)) (λ '(a, b), mkNN a b) _).
  by intros [].
Defined.

Record ObjectMeta := mkObjectMeta {
  om_Name : string;
  om_Namespace : string;
  om_ResourceVersion : string;
  om_DeletionTimestamp : option Z;
  om_Labels : gmap string string;
  om_Annotations : gmap string string;
  om_Finalizers : list string
}.

(** [client.ObjectKeyFromObject]. *)
Definition meta_key (m : ObjectMeta) : NamespacedName := mkNN (om_Namespace m) (om_Name m).

Definition set_labels (l : gmap string string) (m : ObjectMeta) : ObjectMeta :=
  mkObjectMeta (om_Name m) (om_Namespace m) (om_ResourceVersion m) (om_DeletionTimestamp m)
    l (om_Annotations m) (om_Finalizers m).
Definition set_annotations (a : gmap string string) (m : ObjectMeta) : ObjectMeta :=
  mkObjectMeta (om_Name m) (om_Namespace m) (om_ResourceVersion m) (om_DeletionTimestamp m)
    (om_Labels m) a (om_Finalizers m).

(** [metav1.ObjectMeta] of an object built in the code: everything else unset. *)
Definition new_meta (name namespace : string) (labels : gmap string string) : ObjectMeta :=
  mkObjectMeta name namespace "" None labels ∅ [].

(** The kinds the code reads generically ([client.Object]). *)
Class Object (T : Type) := {
  get_meta : T → ObjectMeta;
}.
Definition object_key {T} `{Object T} (o : T) : NamespacedName := meta_key (get_meta o).

Record ObjectReference := mkRef { ref_Namespace : string; ref_Name : string }.
#[export] Instance ObjectReference_eq_dec : EqDecision ObjectReference.
Proof. solve_decision. Defined.

(** [corev1.SecretReference] carries the same two fields. *)
Abbreviation SecretReference := ObjectReference.

Record Subject := mkSubject { sub_Kind : string; sub_Name : string; sub_Namespace : string }.

Record UserInfo := mkUserInfo {
  ui_Username : string;
  ui_UID : string;
  ui_Groups : list string;
  ui_Extra : list (string * list string)   (** in the order of its keys *)
}.

Record LabelSelectorRequirement := mkLSR {
  lsr_Key : string; lsr_Operator : string; lsr_Values : list string }.
Record LabelSelector := mkLabelSelector {
  ls_MatchLabels : gmap string string;
  ls_MatchExpressions : list LabelSelectorRequirement }.
#[export] Instance LabelSelectorRequirement_eq_dec : EqDecision LabelSelectorRequirement.
Proof. solve_decision. Defined.
#[export] Instance LabelSelector_eq_dec : EqDecision LabelSelector.
Proof. solve_decision. Defined.

Record Condition := mkCondition {
  cond_Type : string; cond_Status : string; cond_Reason : string;
  cond_Message : string; cond_LastTransitionTime : Z }.

Record RuleWithOperations := mkRule {
  rule_Operations : list string; rule_APIGroups : list string;
  rule_APIVersions : list string; rule_Resources : list string;
  rule_Scope : option string }.

Record GVR := mkGVR { gvr_Group : string; gvr_Version : string; gvr_Resource : string }.
#[export] Instance GVR_eq_dec : EqDecision GVR.
Proof. solve_decision. Defined.

(** [ctrl.Result]; durations in nanoseconds, a zero [RequeueAfter] means none. *)
Record ctrl_Result := mkResult { RequeueAfter : Z }.
Definition no_requeue : ctrl_Result := mkResult 0.

(** ** Constants of the package *)

Definition GroupVersion_Group : string := "syngit.io".
Definition GroupVersion_Version : string := "v1beta5".

Definition ManagedByLabelKey : string := "managed-by".
Definition ManagedByLabelValue : string := "syngit.io".
Definition K8sUserLabelKey : string := "syngit.io/k8s-user".
Definition RubNamePrefix : string := "associated-rub".
Definition RubAnnotationKeyManaged : string := "syngit.io/remoteuserbinding.managed".
Definition RtManagedDefaultForkNamePrefix : string := "fork".
Definition RtAnnotationKeyUserSpecific : string := "syngit.io/remotetarget.policy.user-specific".
Definition RtAnnotationKeyOneOrManyBranches : string :=
  "syngit.io/remotetarget.policy.one-or-many-branches".
Definition RtLabelKeyAllowInjection : string := "syngit.io/remotetarget.allow-injection".
Definition RtLabelKeyBranch : string := "syngit.io/remotetarget.branch".
Definition RtLabelKeyPolicy : string := "syngit.io/remotetarget.policy".
Definition RtLabelValueOneOrManyBranches : string := "one-or-many-branches".
Definition RtLabelValueOneUserOneBranch : string := "user-specific.one-user-one-branch".
Definition RtAnnotationValueOneUserOneBranch : string := "one-user-one-branch".
Definition RtAnnotationValueOneUserOneFork : string := "one-user-one-fork".

Definition TryFastForwardOrDie : string := "TryFastForwardOrDie".
Definition TryFastForwardOrHardReset : string := "TryFastForwardOrHardReset".
Definition TryHardResetOrDie : string := "TryHardResetOrDie".

Definition OneTarget : string := "OneTarget".
Definition MultipleTarget : string := "MultipleTarget".
Definition CommitOnly : string := "CommitOnly".
Definition CommitApply : string := "CommitApply".
Definition BlockDefaultUser : string := "Block".
Definition UseDefaultUser : string := "UseDefaultUser".
Definition BlockPushError : string := "Block".
Definition PassPushError : string := "Pass".

Definition SecretBound : string := "Secret bound".
Definition SecretFound : string := "Secret found".
Definition SecretNotFound : string := "Secret not found".
Definition SecretWrongType : string := "Secret type is not set to BasicAuth".

Definition PartiallyBound : string := "PartiallyBound".
Definition Bound : string := "Bound".
Definition NotBound : string := "NotBound".

(** ** The custom resources *)

Record ScopedResources := mkScopedResources {
  sr_MatchPolicy : option string;
  sr_ObjectSelector : option LabelSelector;
  sr_Rules : list RuleWithOperations }.

Record SOPSConfig := mkSOPSConfig { sops_Enabled : bool; sops_SecretRef : SecretReference }.

Record RemoteSyncerSpec := mkRemoteSyncerSpec {
  RemoteRepository : string;
  DefaultBranch : string;
  Scoped : ScopedResources;
  Strategy : string;
  TargetStrategy : string;
  RemoteTargetSelector : option LabelSelector;
  DefaultBlockAppliedMessage : string;
  ExcludedFields : list string;
  ExcludedFieldsConfigMapsRef : list (option ObjectReference);
  RootPath : string;
  ResourceFinder : bool;
  RemoteUserBindingSelector : option LabelSelector;
  BypassInterceptionSubjects : list Subject;
  BypassAllServiceAccounts : bool;
  DefaultUnauthorizedUserMode : string;
  DefaultPushErrorBehavior : string;
  PushErrorRetryNumber : Z;
  DefaultRemoteUserRef : option ObjectReference;
  DefaultRemoteTargetRef : option ObjectReference;
  InsecureSkipTlsVerify : bool;
  CABundleSecretRef : SecretReference;
  SOPS : SOPSConfig }.

Record JsonGVRN := mkGVRN { j_Group : string; j_Version : string; j_Resource : string; j_Name : string }.

Record LastBypassedObjectState := mkLastBypassed {
  lb_Time : Z; lb_UserInfo : UserInfo; lb_Object : JsonGVRN }.
Record LastObservedObjectState := mkLastObserved {
  lo_Time : Z; lo_Username : string; lo_Object : JsonGVRN }.
Record LastPushedObjectState := mkLastPushed {
  lp_Time : Z; lp_GitUser : string; lp_GitRepos : list string; lp_GitPaths : list string;
  lp_GitCommitHashes : list string; lp_Object : JsonGVRN; lp_Status : string }.

(** The three state structs are values in Go; [None] is the zero struct. *)
Record RemoteSyncerStatus := mkRemoteSyncerStatus {
  st_Conditions : list Condition;
  st_LastBypassed : option LastBypassedObjectState;
  st_LastObserved : option LastObservedObjectState;
  st_LastPushed : option LastPushedObjectState }.

Record RemoteSyncer := mkRemoteSyncer {
  rs_Meta : ObjectMeta; rs_Spec : RemoteSyncerSpec; rs_Status : RemoteSyncerStatus }.

Record ClusterWideRemoteSyncerSpec := mkCWSpec {
  cw_RemoteSyncerSpec : RemoteSyncerSpec;
  cw_NamespaceSelector : option LabelSelector;
  cw_IdentityStoreNamespace : string }.
Record ClusterWideRemoteSyncer := mkClusterWideRemoteSyncer {
  cwrs_Meta : ObjectMeta; cwrs_Spec : ClusterWideRemoteSyncerSpec; cwrs_Status : RemoteSyncerStatus }.

Record RemoteUserSpec := mkRemoteUserSpec {
  ru_SecretRef : SecretReference; ru_Email : string; ru_GitBaseDomainFQDN : string }.
Record RemoteUserStatus := mkRemoteUserStatus {
  rus_Conditions : list Condition;
  rus_ConnexionStatus : string;
  rus_ConnexionDetails : string;
  rus_GitUser : string;
  rus_SecretBoundStatus : string }.
Record RemoteUser := mkRemoteUser {
  ru_Meta : ObjectMeta; ru_Spec : RemoteUserSpec; ru_Status : RemoteUserStatus }.

Record RemoteUserBindingSpec := mkRUBSpec {
  rub_Subject : Subject;
  rub_RemoteUserRefs : list ObjectReference;
  rub_RemoteTargetRefs : list ObjectReference }.
Record RemoteUserHost := mkRemoteUserHost {
  ruh_RemoteUserUsed : string; ruh_SecretRef : SecretReference; ruh_GitFQDN : string; ruh_State : string }.
Record RemoteUserBindingStatus := mkRUBStatus {
  rubs_Conditions : list Condition;
  rubs_RemoteUserState : string;
  rubs_RemoteUserHosts : list RemoteUserHost;
  rubs_UserKubernetesID : string }.
Record RemoteUserBinding := mkRUB {
  rub_Meta : ObjectMeta; rub_Spec : RemoteUserBindingSpec; rub_Status : RemoteUserBindingStatus }.

Record RemoteTargetSpec := mkRemoteTargetSpec {
  UpstreamRepository : string; UpstreamBranch : string;
  TargetRepository : string; TargetBranch : string; MergeStrategy : string }.
Record RemoteTarget := mkRemoteTarget {
  rt_Meta : ObjectMeta; rt_Spec : RemoteTargetSpec; rt_Conditions : list Condition }.

Record Secret := mkSecret {
  sec_Meta : ObjectMeta; sec_Type : string; sec_Data : gmap string string }.
Record ConfigMap := mkConfigMap { cm_Meta : ObjectMeta; cm_Data : gmap string string }.

(** [admissionregistration.k8s.io/v1], the part the controllers write. *)
Record ServiceReference := mkServiceRef { svc_Namespace : string; svc_Name : string; svc_Path : option string }.
Record WebhookClientConfig := mkClientConfig {
  cc_URL : option string; cc_Service : option ServiceReference; cc_CABundle : string }.
Record ValidatingWebhook := mkWebhook {
  wh_Name : string;
  wh_AdmissionReviewVersions : list string;
  wh_SideEffects : option string;
  wh_Rules : list RuleWithOperations;
  wh_ClientConfig : WebhookClientConfig;
  wh_NamespaceSelector : option LabelSelector;
  wh_ObjectSelector : option LabelSelector }.
Record ValidatingWebhookConfiguration := mkVWC {
  vwc_Meta : ObjectMeta; vwc_Webhooks : list ValidatingWebhook }.

#[export] Instance RemoteSyncer_object : Object RemoteSyncer := {| get_meta := rs_Meta |}.
#[export] Instance ClusterWideRemoteSyncer_object : Object ClusterWideRemoteSyncer :=
  {| get_meta := cwrs_Meta |}.
#[export] Instance RemoteUser_object : Object RemoteUser := {| get_meta := ru_Meta |}.
#[export] Instance RemoteUserBinding_object : Object RemoteUserBinding := {| get_meta := rub_Meta |}.
#[export] Instance RemoteTarget_object : Object RemoteTarget := {| get_meta := rt_Meta |}.
#[export] Instance Secret_object : Object Secret := {| get_meta := sec_Meta |}.
#[export] Instance ConfigMap_object : Object ConfigMap := {| get_meta := cm_Meta |}.
#[export] Instance ValidatingWebhookConfiguration_object : Object ValidatingWebhookConfiguration :=
  {| get_meta := vwc_Meta |}.

(** ** The [Syncer] interface: the two kinds behind one set of questions *)

Inductive Syncer :=
| SyncerRS (rs : RemoteSyncer)
| SyncerCW (cwrs : ClusterWideRemoteSyncer).

Definition SyncerSpec (s : Syncer) : RemoteSyncerSpec :=
  match s with
  | SyncerRS rs => rs_Spec rs
  | SyncerCW cwrs => cw_RemoteSyncerSpec (cwrs_Spec cwrs)
  end.
Definition syncer_meta (s : Syncer) : ObjectMeta :=
  match s with SyncerRS rs => rs_Meta rs | SyncerCW cwrs => cwrs_Meta cwrs end.
Definition IdentityNamespace (s : Syncer) : string :=
  match s with
  | SyncerRS rs => om_Namespace (rs_Meta rs)
  | SyncerCW cwrs => cw_IdentityStoreNamespace (cwrs_Spec cwrs)
  end.
#[export] Instance Syncer_object : Object Syncer := {| get_meta := syncer_meta |}.

(** ** [SyncerContext] of [pkg/interceptor/syncer.go] *)

Definition ClusterScopedPathSegment : string := "_cluster".

Record SyncerContext := mkSyncerContext {
  sc_Spec : RemoteSyncerSpec;
  sc_Ref : NamespacedName;
  sc_Annotations : gmap string string;
  sc_ClusterWide : bool;
  sc_InterceptedNamespace : string;
  sc_RUBNamespace : string;
  sc_RefOwnerNamespace : string }.

Definition NewRemoteSyncerContext (rs : RemoteSyncer) (interceptedNamespace : string) : SyncerContext :=
  {| sc_Spec := rs_Spec rs;
     sc_Ref := mkNN (om_Namespace (rs_Meta rs)) (om_Name (rs_Meta rs));
     sc_Annotations := om_Annotations (rs_Meta rs);
     sc_ClusterWide := false;
     sc_InterceptedNamespace := interceptedNamespace;
     sc_RUBNamespace := om_Namespace (rs_Meta rs);
     sc_RefOwnerNamespace := om_Namespace (rs_Meta rs) |}.

Definition NewClusterWideSyncerContext (cwrs : ClusterWideRemoteSyncer) (interceptedNamespace : string)
  : SyncerContext :=
  {| sc_Spec := cw_RemoteSyncerSpec (cwrs_Spec cwrs);
     sc_Ref := mkNN "" (om_Name (cwrs_Meta cwrs));
     sc_Annotations := om_Annotations (cwrs_Meta cwrs);
     sc_ClusterWide := true;
     sc_InterceptedNamespace := interceptedNamespace;
     sc_RUBNamespace := cw_IdentityStoreNamespace (cwrs_Spec cwrs);
     sc_RefOwnerNamespace := "" |}.

Definition sc_String (sc : SyncerContext) : string :=
  if sc_ClusterWide sc then nn_Name (sc_Ref sc)
  else nn_Namespace (sc_Ref sc) ++ ("/" ++ nn_Name (sc_Ref sc)).

(** ** The records of [pkg/interceptor/pipeline.go] *)

Record GitUserInfo := mkGitUserInfo { gu_User : string; gu_Email : string; gu_Token : string }.
#[export] Instance GitUserInfo_eq_dec : EqDecision GitUserInfo.
Proof. solve_decision. Defined.
#[export] Instance GitUserInfo_countable : Countable GitUserInfo.
Proof.
  refine (inj_countable' (λ u, (gu_User u, gu_Email u, gu_Token u)) (λ '(a, b, c), mkGitUserInfo a b c) _).
  by intros [].
Defined.

Record ClaimedPaths := mkClaimedPaths { cp_Add : list string; cp_Delete : list string }.
Definition NewClaimedPaths : ClaimedPaths := mkClaimedPaths [] [].
Definition ClaimExists (mp : ClaimedPaths) : bool :=
  (0 <? length (cp_Add mp))%nat || (0 <? length (cp_Delete mp))%nat.
Definition AppendAddedPath (mp : ClaimedPaths) (path : string) : ClaimedPaths :=
  mkClaimedPaths (cp_Add mp ++ [path])%list (cp_Delete mp).
Definition AppendDeletedPath (mp : ClaimedPaths) (path : string) : ClaimedPaths :=
  mkClaimedPaths (cp_Add mp) (cp_Delete mp ++ [path])%list.
Definition AppendClaimedPaths (mp paths : ClaimedPaths) : ClaimedPaths :=
  mkClaimedPaths (cp_Add mp ++ cp_Add paths)%list (cp_Delete mp ++ cp_Delete paths)%list.

Record GitPushResponse := mkPushResponse {
  gpr_Paths : list string; gpr_CommitHash : string; gpr_URL : string }.
