(* ===== verification/Errors.v ===== *)
(** * Errors ([pkg/errors])

    The typed errors of syngit, the errors its code builds with [errors.New] and
    [fmt.Errorf], and the status errors of the Kubernetes API, with the message
    ([Error]) and the unwrapping behaviour ([Unwrap]) of each. *)

From S2P Require Import Prelude GoStr Api.

#[local] Set Warnings "-register-all".

Definition quote : string := String (Ascii.ascii_of_nat 34) "".

(** The reason carried by a Kubernetes API status error. *)
Inductive api_reason := NotFound | AlreadyExists | Conflict | OtherReason.
#[export] Instance api_reason_eq_dec : EqDecision api_reason.
Proof. solve_decision. Defined.

(** ** The values behind the [error] interface *)

Inductive error : Type :=
| resourceScopeForbidden (User : UserInfo) (ForbiddenResources : list string)
| denyGetRemoteUser (User : UserInfo) (RemoteUserRef : ObjectReference)
| denyGetRemoteTarget (User : UserInfo) (RemoteTargetRef : ObjectReference)
| remoteUserBindingNotFound (Username : string)
| wrongRemoteTargetConfig (SyncerName RemoteUserName : string)
| wrongRemoteSyncerConfig (Message : string)
| remoteTargetNotFound (Details : string)
| remoteUserNotFound (Details : string)
| credentialsNotFound (Details SecretName : string)
| tooMuchRemoteTarget (Details : string) (RemoteTargetsCount : nat)
| wrongLabelParsing (Details : string)
| tooMuchRemoteUserBinding (Details : string) (RemoteUserBindingsCount : nat)
| tooMuchRemoteUser (Details : string) (RemoteUsersCount : nat)
| tooMuchSubject (Details : string)
| wrongYamlFormat (Details : string)
| gitPipeline (Details : string) (cause : option error)
| interceptorPipeline (Details : string)
| providerDenied (Details : string)
| crossNamespaceRefDenied (User : UserInfo) (FieldPath Resource Namespace Name : string)
| missingRefNamespace (FieldPath : string)
| apiError (reason : api_reason) (msg : string)
| plainError (msg : string)                     (** [errors.New], [fmt.Errorf] without [%w] *)
| wrapError (prefix : string) (cause : error)   (** [fmt.Errorf(prefix + "%w", cause)] *)
| joinError (errs : list error).                (** [errors.Join] of a non-empty list *)

(** ** Messages *)

(** [fmt] prints the struct [authv1.UserInfo] with [%s] as its fields between braces. *)
Definition format_user (u : UserInfo) : string :=
  "{" ++ (ui_Username u ++ (" " ++ (ui_UID u ++ (" [" ++ (Join (ui_Groups u) " " ++ ("] map[" ++
  (Join (map (λ '(k, vs), k ++ (":[" ++ (Join vs " " ++ "]"))) (ui_Extra u)) " " ++ "]}"))))))).

(** ** The types

    Each type has a sentinel ([ErrXxx], a zero value), a [ShouldContains] that searches a
    phrase in a message, and an [Unwrap] that returns the sentinel; on the sentinel itself it
    returns the sentinel again, except for two types. *)

Definition zero_user : UserInfo := mkUserInfo "" "" [] [].
Definition zero_ref : ObjectReference := mkRef "" "".

Record error_type := mkErrorType {
  et_ShouldContains : string; et_Err : error; et_Err_unwraps : bool }.
Definition resourceScopeForbidden_type : error_type :=
  mkErrorType "resource scope forbidden" (resourceScopeForbidden zero_user []) true.
Definition denyGetRemoteUser_type : error_type :=
  mkErrorType "get remote user denied" (denyGetRemoteUser zero_user zero_ref) true.
Definition denyGetRemoteTarget_type : error_type :=
  mkErrorType "get remote target denied" (denyGetRemoteTarget zero_user zero_ref) true.
Definition remoteUserBindingNotFound_type : error_type :=
  mkErrorType "remote user binding not found" (remoteUserBindingNotFound "") true.
Definition wrongRemoteTargetConfig_type : error_type :=
  mkErrorType "wrong remote target config" (wrongRemoteTargetConfig "" "") true.
Definition wrongRemoteSyncerConfig_type : error_type :=
  mkErrorType "wrong remote syncer config" (wrongRemoteSyncerConfig "") true.
Definition remoteTargetNotFound_type : error_type :=
  mkErrorType "no remote target found" (remoteTargetNotFound "") true.
Definition remoteUserNotFound_type : error_type :=
  mkErrorType "remote user not found" (remoteUserNotFound "") true.
Definition credentialsNotFound_type : error_type :=
  mkErrorType "credential not found" (credentialsNotFound "" "") true.
Definition tooMuchRemoteTarget_type : error_type :=
  mkErrorType "too much remote target found" (tooMuchRemoteTarget "" 0) true.
Definition wrongLabelParsing_type : error_type :=
  mkErrorType "wrong label parsing" (wrongLabelParsing "") true.
Definition tooMuchRemoteUserBinding_type : error_type :=
  mkErrorType "too much remote user binding found" (tooMuchRemoteUserBinding "" 0) true.
Definition tooMuchRemoteUser_type : error_type :=
  mkErrorType "too much remote user found" (tooMuchRemoteUser "" 0) true.
Definition tooMuchSubject_type : error_type :=
  mkErrorType "too much subjects" (tooMuchSubject "") true.
Definition wrongYamlFormat_type : error_type :=
  mkErrorType "wrong yaml format" (wrongYamlFormat "") true.
Definition gitPipeline_type : error_type :=
  mkErrorType "git pipeline processing error" (gitPipeline "" None) false.
Definition interceptorPipeline_type : error_type :=
  mkErrorType "interceptor pipeline processing error" (interceptorPipeline "") true.
Definition providerDenied_type : error_type :=
  mkErrorType "provider denied the change" (providerDenied "") false.
Definition crossNamespaceRefDenied_type : error_type :=
  mkErrorType "cross-namespace reference denied" (crossNamespaceRefDenied zero_user "" "" "" "") true.
Definition missingRefNamespace_type : error_type :=
  mkErrorType "missing reference namespace" (missingRefNamespace "") true.
Definition type_of (e : error) : option error_type :=
  match e with
  | resourceScopeForbidden _ _ => Some resourceScopeForbidden_type
  | denyGetRemoteUser _ _ => Some denyGetRemoteUser_type
  | denyGetRemoteTarget _ _ => Some denyGetRemoteTarget_type
  | remoteUserBindingNotFound _ => Some remoteUserBindingNotFound_type
  | wrongRemoteTargetConfig _ _ => Some wrongRemoteTargetConfig_type
  | wrongRemoteSyncerConfig _ => Some wrongRemoteSyncerConfig_type
  | remoteTargetNotFound _ => Some remoteTargetNotFound_type
  | remoteUserNotFound _ => Some remoteUserNotFound_type
  | credentialsNotFound _ _ => Some credentialsNotFound_type
  | tooMuchRemoteTarget _ _ => Some tooMuchRemoteTarget_type
  | wrongLabelParsing _ => Some wrongLabelParsing_type
  | tooMuchRemoteUserBinding _ _ => Some tooMuchRemoteUserBinding_type
  | tooMuchRemoteUser _ _ => Some tooMuchRemoteUser_type
  | tooMuchSubject _ => Some tooMuchSubject_type
  | wrongYamlFormat _ => Some wrongYamlFormat_type
  | gitPipeline _ _ => Some gitPipeline_type
  | interceptorPipeline _ => Some interceptorPipeline_type
  | providerDenied _ => Some providerDenied_type
  | crossNamespaceRefDenied _ _ _ _ _ => Some crossNamespaceRefDenied_type
  | missingRefNamespace _ => Some missingRefNamespace_type
  | apiError _ _ | plainError _ | wrapError _ _ | joinError _ => None
  end.

(** The fixed beginning of every typed message. *)
Definition tag (e : error) : string := match type_of e with Some t => et_ShouldContains t | None => "" end.
(** The sentinel of the type of a typed error. *)
Definition sentinel (e : error) : option error := match type_of e with Some t => Some (et_Err t) | None => None end.

(** Whether the value is one of the typed errors, which have a sentinel. *)
Definition typed (e : error) : bool :=
  match e with
  | apiError _ _ | plainError _ | wrapError _ _ | joinError _ => false
  | _ => true
  end.

(** The [Error] method of each type, in the order of the file. *)
Definition resourceScopeForbidden_Error (u : UserInfo) (fs : list string) : string :=
  "resource scope forbidden" ++ (": the user " ++ (format_user u ++
    (" is not allowed to scope: " ++ (nls ++ ("- " ++ Join fs (nls ++ "- ")))))).
Definition denyGetRemoteUser_Error (u : UserInfo) (r : ObjectReference) : string :=
  "get remote user denied" ++ (": the user " ++ (format_user u ++
    (" is not allowed to get the referenced remoteuser: " ++ ref_Name r))).
Definition denyGetRemoteTarget_Error (u : UserInfo) (r : ObjectReference) : string :=
  "get remote target denied" ++ (": the user " ++ (format_user u ++
    (" is not allowed to get the referenced remotetarget: " ++ ref_Name r))).
Definition remoteUserBindingNotFound_Error (u : string) : string :=
  "remote user binding not found" ++ (": no RemoteUserBinding found for the user " ++ u).
Definition wrongRemoteTargetConfig_Error (s r : string) : string :=
  "wrong remote target config" ++
    (": the fqdn of the default RemoteUser does not match the associated RemoteSyncer (" ++
      (s ++ (") fqdn (" ++ (r ++ ")")))).
Definition wrongRemoteSyncerConfig_Error (m : string) : string :=
  "wrong remote syncer config" ++ (": " ++ m).
Definition remoteTargetNotFound_Error (d : string) : string := "no remote target found" ++ (": " ++ d).
Definition remoteUserNotFound_Error (d : string) : string := "remote user not found" ++ (": " ++ d).
Definition credentialsNotFound_Error (d s : string) : string :=
  "credential not found" ++ (" (secret name: " ++ (quote ++ (s ++ (quote ++ ("): " ++ d))))).
Definition tooMuchRemoteTarget_Error (d : string) (n : nat) : string :=
  "too much remote target found" ++ (" (" ++ (Itoa n ++ ("): " ++ d))).
Definition wrongLabelParsing_Error (d : string) : string := "wrong label parsing" ++ (": " ++ d).
Definition tooMuchRemoteUserBinding_Error (d : string) (n : nat) : string :=
  "too much remote user binding found" ++ (" (" ++ (Itoa n ++ ("): " ++ d))).
Definition tooMuchRemoteUser_Error (d : string) (n : nat) : string :=
  "too much remote user found" ++ (" (" ++ (Itoa n ++ ("): " ++ d))).
Definition tooMuchSubject_Error (d : string) : string := "too much subjects" ++ (": " ++ d).
Definition wrongYamlFormat_Error : string := "wrong yaml format".
Definition gitPipeline_Error (d : string) (err : option string) : string :=
  "git pipeline processing error" ++ (": " ++ (d ++ (": " ++ default "<nil>" err))).
Definition interceptorPipeline_Error (d : string) : string :=
  "interceptor pipeline processing error" ++ (": " ++ d).
Definition providerDenied_Error (d : string) : string := "provider denied the change" ++ (": " ++ d).
Definition crossNamespaceRefDenied_Error (u : UserInfo) (fp res ns n : string) : string :=
  "cross-namespace reference denied" ++ (": the user " ++ (format_user u ++
    (" is not allowed to get the " ++ (res ++ (" " ++ (ns ++ ("/" ++ (n ++
      (" referenced by " ++ fp))))))))).
Definition missingRefNamespace_Error (fp : string) : string :=
  "missing reference namespace" ++ (": " ++ (fp ++
    " must set a namespace because the referencing object is cluster-scoped")).

Fixpoint Error (e : error) : string :=
  match e with
  | resourceScopeForbidden u fs => resourceScopeForbidden_Error u fs
  | denyGetRemoteUser u r => denyGetRemoteUser_Error u r
  | denyGetRemoteTarget u r => denyGetRemoteTarget_Error u r
  | remoteUserBindingNotFound u => remoteUserBindingNotFound_Error u
  | wrongRemoteTargetConfig s r => wrongRemoteTargetConfig_Error s r
  | wrongRemoteSyncerConfig m => wrongRemoteSyncerConfig_Error m
  | remoteTargetNotFound d => remoteTargetNotFound_Error d
  | remoteUserNotFound d => remoteUserNotFound_Error d
  | credentialsNotFound d s => credentialsNotFound_Error d s
  | tooMuchRemoteTarget d n => tooMuchRemoteTarget_Error d n
  | wrongLabelParsing d => wrongLabelParsing_Error d
  | tooMuchRemoteUserBinding d n => tooMuchRemoteUserBinding_Error d n
  | tooMuchRemoteUser d n => tooMuchRemoteUser_Error d n
  | tooMuchSubject d => tooMuchSubject_Error d
  | wrongYamlFormat _ => wrongYamlFormat_Error
  | gitPipeline d err =>
      gitPipeline_Error d match err with Some e' => Some (Error e') | None => None end
  | interceptorPipeline d => interceptorPipeline_Error d
  | providerDenied d => providerDenied_Error d
  | crossNamespaceRefDenied u fp res ns n => crossNamespaceRefDenied_Error u fp res ns n
  | missingRefNamespace fp => missingRefNamespace_Error fp
  | apiError _ m => m
  | plainError m => m
  | wrapError p c => p ++ Error c
  | joinError es =>
      (fix go es := match es with
       | [] => ""
       | [e1] => Error e1
       | e1 :: es' => Error e1 ++ (nls ++ go es')
       end) es
  end.

(** ** Sentinels and classification *)

(** [target.ShouldContains(err)] for a typed [target]: a search in the message. *)
Definition ShouldContains (target err : error) : bool := Contains (Error err) (tag target).

(** [errors.Is] of [pkg/errors/utils.go]. *)
Definition Is (err target : error) : bool := ShouldContains target err.

Definition BuildInterceptorPipelineErr (details : string) : string :=
  Error (interceptorPipeline details).

Definition is_api (r : api_reason) (e : error) : bool :=
  match e with apiError r' _ => bool_decide (r = r') | _ => false end.
(** [apierrors.IsNotFound], [IsAlreadyExists] and [IsConflict] on an unwrapped status error. *)
Definition IsNotFound : error → bool := is_api NotFound.
Definition IsAlreadyExists : error → bool := is_api AlreadyExists.
Definition IsConflict : error → bool := is_api Conflict.

(** ** Unwrapping

    An error value is compared by address, so a node tells a sentinel apart from
    a freshly built error of the same type. *)
Inductive node := Sentinel (e : error) | Fresh (e : error).

(** What [Unwrap] returns: nothing, one error ([Unwrap() error]) or several
    ([Unwrap() []error]). *)
Definition Unwrap (n : node) : list node :=
  match n with
  | Sentinel e =>
      match type_of e with
      | Some t => if et_Err_unwraps t then [Sentinel (et_Err t)] else []
      | None => []
      end
  | Fresh (gitPipeline d err) =>
      Sentinel (gitPipeline "" None) :: match err with Some e => [Fresh e] | None => [] end
  | Fresh (wrapError _ c) => [Fresh c]
  | Fresh (joinError es) => map Fresh es
  | Fresh e => match sentinel e with Some s => [Sentinel s] | None => [] end
  end.

(** The loop of the standard [errors.Is]: the walk of the unwrap tree, for a
    target that is no error of the tree. [false] is "the walk did not finish
    within [fuel] unwrap steps"; an error list is walked left to right. *)
Fixpoint unwrap_walk (fuel : nat) (n : node) : bool :=
  match fuel with
  | O => false
  | S fuel' =>
      (fix all (ns : list node) : bool :=
         match ns with [] => true | m :: ns' => unwrap_walk fuel' m && all ns' end) (Unwrap n)
  end.

(** ** Properties *)

Lemma tag_prefix e : typed e = true → ∃ r, Error e = tag e ++ r.
Proof.
  destruct e; try discriminate; intros _; cbn [Error tag type_of];
    first [eexists; reflexivity | by exists ""].
Qed.

(** (C39) Classification of the error types by message is sound: an error is always
    recognised as an error of its own type, alone, inside a git pipeline error, or
    behind a [fmt.Errorf] wrapper. *)
Theorem Is_own_sentinel e s :
  sentinel e = Some s →
  Is e s = true ∧
  (∀ d, Is (gitPipeline d (Some e)) s = true) ∧
  (∀ p, Is (wrapError p e) s = true).
Proof.
  intros Hs.
  assert (Ht : typed e = true ∧ tag s = tag e) by (destruct e; cbn in Hs; simplify_eq; done).
  destruct Ht as [Ht Hts]. destruct (tag_prefix e Ht) as [r Hr].
  assert (H : ∀ a, Contains (a ++ Error e) (tag e) = true).
  { intros a. rewrite Hr. apply Contains_append. }
  unfold Is, ShouldContains. rewrite Hts. split; [exact (H "")|].
  split; intros; cbn [Error]; [|apply H].
  unfold gitPipeline_Error. cbn [default from_option id]. rewrite <- !append_assoc. apply H.
Qed.

Lemma Is_own_sentinel_witness :
  sentinel (remoteTargetNotFound "no default") = Some (remoteTargetNotFound "") ∧
  (Is (remoteTargetNotFound "no default") (remoteTargetNotFound "") = true ∧
   (∀ d, Is (gitPipeline d (Some (remoteTargetNotFound "no default"))) (remoteTargetNotFound "") = true) ∧
   (∀ p, Is (wrapError p (remoteTargetNotFound "no default")) (remoteTargetNotFound "") = true)).
Proof. split; [reflexivity|]. apply Is_own_sentinel. reflexivity. Defined.

(** Induction on errors that goes through the causes. *)
Section error_ind.
Variable P : error → Prop.
Hypothesis Hgit : ∀ d c, (∀ e, c = Some e → P e) → P (gitPipeline d c).
Hypothesis Hwrap : ∀ p c, P c → P (wrapError p c).
Hypothesis Hjoin : ∀ es, Forall P es → P (joinError es).
Hypothesis Hleaf : ∀ e,
  match e with gitPipeline _ _ | wrapError _ _ | joinError _ => False | _ => True end → P e.

Fixpoint error_deep_ind (e : error) : P e.
Proof.
  destruct e; try (apply Hleaf; exact I).
  - apply Hgit. destruct cause as [c|]; [pose proof (error_deep_ind c) as Hc|]; intros e [= <-]; exact Hc.
  - apply Hwrap. apply error_deep_ind.
  - apply Hjoin. revert errs. fix go 1. intros [|e es]; constructor; [apply error_deep_ind|apply go].
Qed.
End error_ind.

(** The errors whose unwrap tree is finite. *)
Fixpoint unwrap_finite (e : error) : bool :=
  match e with
  | gitPipeline _ None | providerDenied _ | apiError _ _ | plainError _ => true
  | gitPipeline _ (Some c) => unwrap_finite c
  | wrapError _ c => unwrap_finite c
  | joinError es => forallb unwrap_finite es
  | _ => false
  end.

Definition walk_all (fuel : nat) (ns : list node) : bool :=
  (fix all (ns : list node) : bool :=
     match ns with [] => true | m :: ns' => unwrap_walk fuel m && all ns' end) ns.

Lemma walk_S fuel n : unwrap_walk (S fuel) n = walk_all fuel (Unwrap n).
Proof. reflexivity. Qed.

Lemma walk_all_forallb fuel ns : walk_all fuel ns = forallb (unwrap_walk fuel) ns.
Proof. induction ns as [|n ns IH]; [done|]. cbn [forallb]. by rewrite <- IH. Qed.

(** More fuel never hurts. *)
Lemma unwrap_walk_mono fuel fuel' n :
  (fuel ≤ fuel')%nat → unwrap_walk fuel n = true → unwrap_walk fuel' n = true.
Proof.
  revert fuel' n; induction fuel as [|fuel IH]; intros [|fuel'] n Hle H; try done; [lia|].
  rewrite walk_S, walk_all_forallb, forallb_forall in H |- *. intros m Hm. apply IH; [lia|auto].
Qed.

Lemma sentinel_loops s fuel :
  sentinel s = Some s → match s with gitPipeline _ _ | providerDenied _ => False | _ => True end →
  unwrap_walk fuel (Sentinel s) = false.
Proof.
  intros Hs Hg. induction fuel as [|fuel IH]; [done|].
  rewrite walk_S, walk_all_forallb.
  replace (Unwrap (Sentinel s)) with [Sentinel s] by (destruct s; cbn in *; done || congruence).
  simpl. by rewrite IH.
Qed.

Lemma fresh_loops e fuel : typed e = true →
  match e with gitPipeline _ _ | providerDenied _ => False | _ => True end →
  unwrap_walk fuel (Fresh e) = false.
Proof.
  intros Ht Hg. destruct fuel as [|fuel]; [done|]. rewrite walk_S, walk_all_forallb.
  destruct e; try done; cbn [Unwrap sentinel type_of forallb]; by rewrite sentinel_loops.
Qed.

(** The standard [errors.Is] and [errors.As] terminate on a syngit error exactly
    when its unwrap tree is finite: only git pipeline and provider errors guard their
    sentinel; every other typed error unwraps to a sentinel that unwraps to itself. *)
Theorem unwrap_terminates_iff e :
  (∃ fuel, unwrap_walk fuel (Fresh e) = true) ↔ unwrap_finite e = true.
Proof.
  induction e as [d c IH|p c IH|es IH|e Hleaf] using error_deep_ind.
  - destruct c as [c|]; cbn [unwrap_finite]; [|split; [done|intros _; by exists 2%nat]].
    rewrite <- (IH c eq_refl). split; intros [fuel H].
    + destruct fuel as [|fuel]; [done|]. rewrite walk_S, walk_all_forallb in H. simpl in H.
      bool_hyps. by exists fuel.
    + exists (S (S fuel)). rewrite walk_S, walk_all_forallb. cbn [Unwrap forallb].
      by rewrite (unwrap_walk_mono fuel (S fuel) (Fresh c)) by (done || lia).
  - cbn [unwrap_finite]. rewrite <- IH. split; intros [fuel H].
    + destruct fuel as [|fuel]; [done|]. rewrite walk_S, walk_all_forallb in H. simpl in H.
      bool_hyps. by exists fuel.
    + exists (S fuel). rewrite walk_S, walk_all_forallb. simpl. by rewrite H.
  - cbn [unwrap_finite]. split.
    + intros [[|fuel] H]; [done|]. rewrite walk_S, walk_all_forallb in H. cbn [Unwrap] in H.
      rewrite forallb_forall in H |- *. intros e He.
      rewrite Forall_forall in IH. apply IH; [by apply list_elem_of_In|]. exists fuel.
      apply H. apply in_map_iff. eauto.
    + intros H. enough (∃ fuel, forallb (unwrap_walk fuel) (map Fresh es) = true) as [fuel Hf].
      { exists (S fuel). by rewrite walk_S, walk_all_forallb. }
      induction IH as [|e es He Hes IHes]; [by exists 0%nat|].
      cbn [forallb map] in *. apply andb_true_iff in H as [H1 H2].
      destruct (proj2 He H1) as [f1 Hf1], (IHes H2) as [f2 Hf2]. exists (f1 + f2)%nat.
      rewrite (unwrap_walk_mono f1 (f1 + f2) (Fresh e)) by (done || lia). simpl.
      rewrite forallb_forall in Hf2 |- *. intros n Hn. eapply unwrap_walk_mono; [|by apply Hf2]. lia.
  - destruct (typed e) eqn:Ht.
    + destruct e; try done; cbn [unwrap_finite];
        (split; [intros [fuel H]; first [done | by rewrite fresh_loops in H]
                |intros; first [done | by exists 2%nat]]).
    + destruct e; try done; cbn [unwrap_finite]; (split; [done|intros _; by exists 1%nat]).
Qed.
