(* ===== verification/External.v ===== *)
(** * Code outside the repository

    The Kubernetes API server seen through controller-runtime's [client.Client],
    client-go's retry helper, apimachinery's labels and field paths, URL parsing,
    hashing and YAML are parameters of the model: type classes whose operations
    the components call. What the theorems need of them is stated separately, as
    laws ([ApiServer], [Lib_laws]); [Sim.v] gives a concrete instance. *)

From S2P Require Import Prelude GoStr Api Errors.

(** ** Pure library functions *)

#[local] Set Warnings "-register-all".

(** Decoded JSON or YAML. *)
Inductive value :=
| VNull
| VBool (b : bool)
| VNum (repr : string)
| VStr (s : string)
| VList (l : list value)
| VMap (m : gmap string value).

(** A [map[string]interface{}], nil when the document is [null]. *)
Definition json_map : Type := option (gmap string value).

(** [field.Path]: built by the code, printed by the library. *)
Inductive field_path :=
| FPath (names : list string)
| FChild (p : field_path) (names : list string)
| FIndex (p : field_path) (i : nat).

(** [labels.Selector]. *)
Record Selector := mkSelector {
  sel_Matches : gmap string string → bool;
  sel_Empty : bool }.

Record URL := mkURL { url_Host : string; url_Path : string }.

Class Lib := {
  path_String : field_path → string;
  SelectorFromSet : gmap string string → Selector;
  LabelSelectorAsSelector : LabelSelector → result error Selector;
  url_Parse : string → result error URL;
  sha256_hex : string → string;                       (** 64 hexadecimal digits *)
  ToLower_unicode : string → string;                  (** [strings.ToLower] off ASCII *)
  UnsafeGuessKindToResource : string → string;        (** of a kind: the plural resource *)
  yaml_Unmarshal_map : string → result error (gmap string value);
  yaml_Unmarshal_strings : string → result error (list string);
  yaml_Marshal : json_map → result error string;
  json_Unmarshal_map : string → result error json_map;
  json_to_yaml : string → result error string
}.

(** ** The API server *)

Record ListOptions := mkListOptions {
  lo_Namespace : string;                   (** [""] is every namespace *)
  lo_LabelSelector : option Selector }.

Class Store (W T : Type) := {
  client_Get : NamespacedName → M error W T;
  client_List : ListOptions → M error W (list T);
  client_Create : T → M error W T;
  client_Update : T → M error W T;
  client_Delete : T → M error W unit;
  client_StatusUpdate : T → M error W T
}.

Record ResourceAttributes := mkAttrs {
  ra_Namespace : string; ra_Verb : string; ra_Group : string; ra_Version : string;
  ra_Resource : string; ra_Name : string }.

(** [SubjectAccessReviewSpec]. *)
Record SARSpec := mkSAR {
  sar_User : string; sar_Groups : list string; sar_UID : string; sar_Attributes : ResourceAttributes }.

Class Cluster (W : Type) := {
  cl_RemoteUser :: Store W RemoteUser;
  cl_RemoteUserBinding :: Store W RemoteUserBinding;
  cl_RemoteTarget :: Store W RemoteTarget;
  cl_RemoteSyncer :: Store W RemoteSyncer;
  cl_ClusterWideRemoteSyncer :: Store W ClusterWideRemoteSyncer;
  cl_Secret :: Store W Secret;
  cl_ConfigMap :: Store W ConfigMap;
  cl_ValidatingWebhookConfiguration :: Store W ValidatingWebhookConfiguration;
  create_SubjectAccessReview : SARSpec → M error W bool;   (** [Status.Allowed] *)
  (** [retry.RetryOnConflict] of a closure over a local state [S] *)
  RetryOnConflict_in : ∀ {S A}, M error (W * S) A → M error (W * S) A;
  rand_Intn : Z → M error W Z;
  now : M error W Z
}.

(** A call to the world from code that also owns a local state. *)
Definition outside {W S A} (m : M error W A) : M error (W * S) A := λ '(w, s),
  let '(r, w') := m w in (r, (w', s)).

(** Code that owns local variables, seen from the world. *)
Definition with_local {W S A} (s : S) (m : M error (W * S) A) : M error W (A * S) := λ w,
  match m (w, s) with
  | (Ok a, (w', s')) => (Ok (a, s'), w')
  | (Err e, (w', _)) => (Err e, w')
  | (Panic, (w', _)) => (Panic, w')
  end.

(** A retried closure that captures nothing it mutates. *)
Definition RetryOnConflict {W} `{Cluster W} {A} (f : M error W A) : M error W A := λ w,
  let '(r, (w', _)) := RetryOnConflict_in (S := unit) (outside f) (w, tt) in (r, w').

(** ** Finalizers ([controllerutil]) *)

Definition set_finalizers (fs : list string) (m : ObjectMeta) : ObjectMeta :=
  mkObjectMeta (om_Name m) (om_Namespace m) (om_ResourceVersion m) (om_DeletionTimestamp m)
    (om_Labels m) (om_Annotations m) fs.

Class Finalizers := {
  ContainsFinalizer : ObjectMeta → string → bool;
  AddFinalizer : ObjectMeta → string → ObjectMeta * bool;      (** whether it was added *)
  RemoveFinalizer : ObjectMeta → string → ObjectMeta * bool    (** whether it was there *)
}.

Class Finalizers_laws `{Finalizers} := {
  contains_finalizer m f : ContainsFinalizer m f = true ↔ f ∈ om_Finalizers m;
  add_finalizer m f : AddFinalizer m f =
    if ContainsFinalizer m f then (m, false) else (set_finalizers (om_Finalizers m ++ [f]) m, true);
  remove_finalizer m f : RemoveFinalizer m f =
    (set_finalizers (List.filter (λ g, negb (String.eqb g f)) (om_Finalizers m)) m, ContainsFinalizer m f)
}.

(** ** What the theorems rely on *)

(** Replacing the metadata of an object, for the version the server stamps. *)
Class Stamp (T : Type) := { set_meta : ObjectMeta → T → T }.

#[export] Instance RemoteUser_stamp : Stamp RemoteUser :=
  {| set_meta m o := mkRemoteUser m (ru_Spec o) (ru_Status o) |}.
#[export] Instance RemoteUserBinding_stamp : Stamp RemoteUserBinding :=
  {| set_meta m o := mkRUB m (rub_Spec o) (rub_Status o) |}.
#[export] Instance RemoteTarget_stamp : Stamp RemoteTarget :=
  {| set_meta m o := mkRemoteTarget m (rt_Spec o) (rt_Conditions o) |}.
#[export] Instance RemoteSyncer_stamp : Stamp RemoteSyncer :=
  {| set_meta m o := mkRemoteSyncer m (rs_Spec o) (rs_Status o) |}.
#[export] Instance ClusterWideRemoteSyncer_stamp : Stamp ClusterWideRemoteSyncer :=
  {| set_meta m o := mkClusterWideRemoteSyncer m (cwrs_Spec o) (cwrs_Status o) |}.
#[export] Instance Secret_stamp : Stamp Secret :=
  {| set_meta m o := mkSecret m (sec_Type o) (sec_Data o) |}.
#[export] Instance ConfigMap_stamp : Stamp ConfigMap :=
  {| set_meta m o := mkConfigMap m (cm_Data o) |}.
#[export] Instance ValidatingWebhookConfiguration_stamp : Stamp ValidatingWebhookConfiguration :=
  {| set_meta m o := mkVWC m (vwc_Webhooks o) |}.

Definition set_rv (rv : string) (m : ObjectMeta) : ObjectMeta :=
  mkObjectMeta (om_Name m) (om_Namespace m) rv (om_DeletionTimestamp m)
    (om_Labels m) (om_Annotations m) (om_Finalizers m).
Definition stamp {T} `{Object T, Stamp T} (rv : string) (o : T) : T :=
  set_meta (set_rv rv (get_meta o)) o.
#[global] Arguments stamp : simpl never.

(** What the API server stores. *)
Record View := mkView {
  v_ru : gmap NamespacedName RemoteUser;
  v_rub : gmap NamespacedName RemoteUserBinding;
  v_rt : gmap NamespacedName RemoteTarget;
  v_rs : gmap NamespacedName RemoteSyncer;
  v_cwrs : gmap NamespacedName ClusterWideRemoteSyncer;
  v_sec : gmap NamespacedName Secret;
  v_cm : gmap NamespacedName ConfigMap;
  v_vwc : gmap NamespacedName ValidatingWebhookConfiguration }.

Class Kind (T : Type) := {
  v_get : View → gmap NamespacedName T;
  v_set : gmap NamespacedName T → View → View;
  (** the status of the first object, the rest of the second *)
  with_status : T → T → T }.

#[export] Instance RemoteUser_kind : Kind RemoteUser :=
  {| v_get := v_ru;
     v_set m v := mkView m (v_rub v) (v_rt v) (v_rs v) (v_cwrs v) (v_sec v) (v_cm v) (v_vwc v);
     with_status n o := mkRemoteUser (ru_Meta o) (ru_Spec o) (ru_Status n) |}.
#[export] Instance RemoteUserBinding_kind : Kind RemoteUserBinding :=
  {| v_get := v_rub;
     v_set m v := mkView (v_ru v) m (v_rt v) (v_rs v) (v_cwrs v) (v_sec v) (v_cm v) (v_vwc v);
     with_status n o := mkRUB (rub_Meta o) (rub_Spec o) (rub_Status n) |}.
#[export] Instance RemoteTarget_kind : Kind RemoteTarget :=
  {| v_get := v_rt;
     v_set m v := mkView (v_ru v) (v_rub v) m (v_rs v) (v_cwrs v) (v_sec v) (v_cm v) (v_vwc v);
     with_status n o := mkRemoteTarget (rt_Meta o) (rt_Spec o) (rt_Conditions n) |}.
#[export] Instance RemoteSyncer_kind : Kind RemoteSyncer :=
  {| v_get := v_rs;
     v_set m v := mkView (v_ru v) (v_rub v) (v_rt v) m (v_cwrs v) (v_sec v) (v_cm v) (v_vwc v);
     with_status n o := mkRemoteSyncer (rs_Meta o) (rs_Spec o) (rs_Status n) |}.
#[export] Instance ClusterWideRemoteSyncer_kind : Kind ClusterWideRemoteSyncer :=
  {| v_get := v_cwrs;
     v_set m v := mkView (v_ru v) (v_rub v) (v_rt v) (v_rs v) m (v_sec v) (v_cm v) (v_vwc v);
     with_status n o := mkClusterWideRemoteSyncer (cwrs_Meta o) (cwrs_Spec o) (cwrs_Status n) |}.
#[export] Instance Secret_kind : Kind Secret :=
  {| v_get := v_sec;
     v_set m v := mkView (v_ru v) (v_rub v) (v_rt v) (v_rs v) (v_cwrs v) m (v_cm v) (v_vwc v);
     with_status n o := o |}.
#[export] Instance ConfigMap_kind : Kind ConfigMap :=
  {| v_get := v_cm;
     v_set m v := mkView (v_ru v) (v_rub v) (v_rt v) (v_rs v) (v_cwrs v) (v_sec v) m (v_vwc v);
     with_status n o := o |}.
#[export] Instance ValidatingWebhookConfiguration_kind : Kind ValidatingWebhookConfiguration :=
  {| v_get := v_vwc;
     v_set m v := mkView (v_ru v) (v_rub v) (v_rt v) (v_rs v) (v_cwrs v) (v_sec v) (v_cm v) m;
     with_status n o := o |}.

Definition list_matches (opts : ListOptions) (m : ObjectMeta) : bool :=
  (String.eqb (lo_Namespace opts) "" || String.eqb (om_Namespace m) (lo_Namespace opts)) &&
  match lo_LabelSelector opts with
  | Some s => sel_Matches s (om_Labels m)
  | None => true
  end.

(** The server files every object under its own name. *)
Definition keyed {T} `{Object T} (m : gmap NamespacedName T) : Prop :=
  map_Forall (λ n o, object_key o = n) m.

(** A healthy, uncontended server as seen through one kind: reads return what is
    stored and change nothing, writes change exactly the object they name. *)
Class StoreLaws (W T : Type) (view : W → View) `{Store W T, Object T, Stamp T, Kind T} := {
  get_found n w o : v_get (view w) !! n = Some o → client_Get n w = (Ok o, w);
  get_missing n w : v_get (view w) !! n = None →
    ∃ msg, client_Get n w = (Err (apiError NotFound msg), w);
  list_all opts w : ∃ l, client_List opts w = (Ok l, w) ∧
    l ≡ₚ List.filter (λ o, list_matches opts (get_meta o)) (map_to_list (v_get (view w))).*2;
  create_new o w : v_get (view w) !! object_key o = None →
    ∃ rv w', client_Create o w = (Ok (stamp rv o), w') ∧
      view w' = v_set (<[object_key o := stamp rv o]> (v_get (view w))) (view w);
  create_exists o w : is_Some (v_get (view w) !! object_key o) →
    ∃ msg, client_Create o w = (Err (apiError AlreadyExists msg), w);
  (** an update of the version that is stored, of an object that stays *)
  update_current o o0 w : v_get (view w) !! object_key o = Some o0 →
    om_ResourceVersion (get_meta o) = om_ResourceVersion (get_meta o0) →
    om_DeletionTimestamp (get_meta o0) = None →
    ∃ rv w', client_Update o w = (Ok (stamp rv o), w') ∧
      view w' = v_set (<[object_key o := stamp rv o]> (v_get (view w))) (view w);
  (** a deletion of an object nobody holds a finalizer on *)
  delete_found o o0 w : v_get (view w) !! object_key o = Some o0 →
    om_Finalizers (get_meta o0) = [] →
    ∃ w', client_Delete o w = (Ok tt, w') ∧
      view w' = v_set (delete (object_key o) (v_get (view w))) (view w);
  delete_missing o w : v_get (view w) !! object_key o = None →
    ∃ msg, client_Delete o w = (Err (apiError NotFound msg), w);
  (** a status update of the version that is stored keeps the rest of the object *)
  status_current o o0 w : v_get (view w) !! object_key o = Some o0 →
    get_meta o = get_meta o0 →
    ∃ rv w', client_StatusUpdate o w = (Ok (stamp rv (with_status o o0)), w') ∧
      view w' = v_set (<[object_key o := stamp rv (with_status o o0)]> (v_get (view w))) (view w);
  (** a status update, accepted or not, returns and touches no other kind *)
  status_scoped o w :
    (∃ r w', client_StatusUpdate o w = (r, w') ∧ r ≠ Panic ∧
       (view w' = view w ∨ ∃ m, view w' = v_set m (view w)))
}.

(** [retry.RetryOnConflict]: the function is run, and run again as long as it fails
    with a conflict and attempts are left. *)
Inductive retry_run {W A} (f : M error W A) : W → result error A → W → Prop :=
| retry_last w r w' : f w = (r, w') → retry_run f w r w'
| retry_again w e w1 r w' :
    f w = (Err e, w1) → IsConflict e = true → retry_run f w1 r w' → retry_run f w r w'.

Class ApiServer (W : Type) `{Cluster W} := {
  view : W → View;
  as_RemoteUser :: StoreLaws W RemoteUser view;
  as_RemoteUserBinding :: StoreLaws W RemoteUserBinding view;
  as_RemoteTarget :: StoreLaws W RemoteTarget view;
  as_RemoteSyncer :: StoreLaws W RemoteSyncer view;
  as_ClusterWideRemoteSyncer :: StoreLaws W ClusterWideRemoteSyncer view;
  as_Secret :: StoreLaws W Secret view;
  as_ConfigMap :: StoreLaws W ConfigMap view;
  as_ValidatingWebhookConfiguration :: StoreLaws W ValidatingWebhookConfiguration view;
  retry_spec S A (f : M error (W * S) A) w r w' :
    RetryOnConflict_in f w = (r, w') → retry_run f w r w';
  rand_spec n w : ∃ k, rand_Intn n w = (Ok k, w);
  now_spec w : ∃ t, now w = (Ok t, w)
}.

Class Lib_laws `{Lib} := {
  from_set_matches s l :
    sel_Matches (SelectorFromSet s) l = true ↔ ∀ k v, s !! k = Some v → l !! k = Some v
}.

(** ** Lemmas shared by the components *)

Lemma keyed_keys {T} `{Object T} (m : gmap NamespacedName T) :
  keyed m → map object_key (map_to_list m).*2 = (map_to_list m).*1.
Proof.
  intros Hk. rewrite <- list_fmap_compose. apply list_fmap_ext. intros i [k o] Hi.
  apply list_elem_of_lookup_2, elem_of_map_to_list in Hi. simpl. exact (Hk _ _ Hi).
Qed.

Section healthy.
Context {W : Type} `{ApiServer W}.

Lemma retry_in_ok {S A} (f : M error (W * S) A) s a s' :
  f s = (Ok a, s') → RetryOnConflict_in f s = (Ok a, s').
Proof.
  intros Hf. destruct (RetryOnConflict_in f s) as [r s2] eqn:E. apply retry_spec in E.
  destruct E as [s r s2 E|s e s1 r s2 E _ _]; congruence.
Qed.

Lemma retry_ok {A} (f : M error W A) w a w' : f w = (Ok a, w') → RetryOnConflict f w = (Ok a, w').
Proof.
  intros Hf. unfold RetryOnConflict.
  by rewrite (retry_in_ok (outside f) (w, tt) a (w', tt)) by (simpl; by rewrite Hf).
Qed.

(** A [Get] answers what is stored, and changes nothing. *)
Lemma get_inv {T} `{Object T, Stamp T, Kind T, !Store W T, !StoreLaws W T view} n w r w' :
  client_Get n w = (r, w') →
  w' = w ∧ match r with
           | Ok o => v_get (view w) !! n = Some o
           | Err e => v_get (view w) !! n = None ∧ IsNotFound e = true
           | Panic => False
           end.
Proof.
  intros Hr. destruct (v_get (view w) !! n) as [o|] eqn:E.
  - rewrite (get_found n w o E) in Hr. by simplify_eq.
  - destruct (get_missing n w E) as [msg Hg]. rewrite Hg in Hr. by simplify_eq.
Qed.

(** The same for the idiom that inspects the error, also from code with a local state. *)
Lemma attempt_get {T} `{Object T, Stamp T, Kind T, !Store W T, !StoreLaws W T view} n w :
  ∃ r, attempt (client_Get n) w = (Ok r, w) ∧
    match v_get (view w) !! n with
    | Some o => r = inl o
    | None => ∃ msg, r = inr (apiError NotFound msg)
    end.
Proof.
  unfold attempt. destruct (v_get (view w) !! n) as [o|] eqn:E.
  - rewrite (get_found n w o E). by eexists.
  - destruct (get_missing n w E) as [msg Hg]. rewrite Hg. eauto.
Qed.
Lemma attempt_get_in {T S} `{Object T, Stamp T, Kind T, !Store W T, !StoreLaws W T view} n w (s : S) :
  ∃ r, attempt (outside (client_Get n)) (w, s) = (Ok r, (w, s)) ∧
    match v_get (view w) !! n with
    | Some o => r = inl o
    | None => ∃ msg, r = inr (apiError NotFound msg)
    end.
Proof.
  unfold attempt, outside. destruct (v_get (view w) !! n) as [o|] eqn:E.
  - rewrite (get_found n w o E). by eexists.
  - destruct (get_missing n w E) as [msg Hg]. rewrite Hg. eauto.
Qed.

(** [List] answers every stored object that matches, each once. *)
Lemma list_spec {T} `{Object T, Stamp T, Kind T, !Store W T, !StoreLaws W T view} opts w :
  keyed (v_get (view w)) →
  ∃ l, client_List opts w = (Ok l, w) ∧ NoDup (map object_key l) ∧
    ∀ o, o ∈ l ↔ v_get (view w) !! object_key o = Some o ∧ list_matches opts (get_meta o) = true.
Proof.
  intros Hkeyed. destruct (list_all opts w) as (l & Hl & Hperm). exists l. split_and!; [done| |].
  - rewrite (Permutation_map object_key Hperm).
    apply NoDup_map_filter. rewrite keyed_keys by done. apply NoDup_fst_map_to_list.
  - intros o. rewrite Hperm, list_elem_of_In, filter_In, <- list_elem_of_In, list_elem_of_fmap. split.
    + intros [([k o'] & -> & Hk%elem_of_map_to_list) Hm]. simpl in *. by rewrite (Hkeyed _ _ Hk).
    + intros [Hk Hm]. split; [|done]. exists (object_key o, o). split; [done|].
      by apply elem_of_map_to_list.
Qed.
End healthy.
