(* ===== verification/Sim.v ===== *)
(** * A small API server, to instantiate the parameters of [External.v]

    Not a model of anything in the repository: an in-memory server with resource
    versions, conflicts, finalizers and a table of access decisions, and simple
    stand-ins for the library functions. It shows that the laws the theorems
    assume can hold together, and the witnesses run on it. *)

From S2P Require Import Prelude GoStr Api Errors External.

Record World := mkWorld { w_view : View; w_rv : nat; w_sar : SARSpec → bool }.

Definition set_view (v : View) (w : World) : World := mkWorld v (w_rv w) (w_sar w).
Definition tick (w : World) : World := mkWorld (w_view w) (S (w_rv w)) (w_sar w).

Section store.
Context {T : Type} `{Object T, Stamp T, Kind T}.

Definition objs (w : World) : gmap NamespacedName T := v_get (w_view w).
Definition put (m : gmap NamespacedName T) (w : World) : World :=
  set_view (v_set m (w_view w)) (tick w).

Definition next (o : T) (w : World) : T := stamp (pretty (w_rv w)) o.

Definition sim_get (n : NamespacedName) : M error World T := λ w,
  match objs w !! n with
  | Some o => (Ok o, w)
  | None => (Err (apiError NotFound (nn_Name n ++ " not found")), w)
  end.
Definition sim_list (opts : ListOptions) : M error World (list T) := λ w,
  (Ok (List.filter (λ o, list_matches opts (get_meta o)) (map_to_list (objs w)).*2), w).
Definition sim_create (o : T) : M error World T := λ w,
  match objs w !! object_key o with
  | Some _ => (Err (apiError AlreadyExists (nn_Name (object_key o) ++ " already exists")), w)
  | None => (Ok (next o w), put (<[object_key o := next o w]> (objs w)) w)
  end.
Definition sim_update (o : T) : M error World T := λ w,
  match objs w !! object_key o with
  | None => (Err (apiError NotFound (nn_Name (object_key o) ++ " not found")), w)
  | Some o0 =>
      if String.eqb (om_ResourceVersion (get_meta o)) (om_ResourceVersion (get_meta o0))
      then match om_DeletionTimestamp (get_meta o0), om_Finalizers (get_meta o) with
           | Some _, [] => (Ok o, put (delete (object_key o) (objs w)) w)
           | _, _ => (Ok (next o w), put (<[object_key o := next o w]> (objs w)) w)
           end
      else (Err (apiError Conflict "the object has been modified"), w)
  end.
Definition sim_status (o : T) : M error World T := λ w,
  match objs w !! object_key o with
  | None => (Err (apiError NotFound (nn_Name (object_key o) ++ " not found")), w)
  | Some o0 =>
      if String.eqb (om_ResourceVersion (get_meta o)) (om_ResourceVersion (get_meta o0))
      then let o1 := next (with_status o o0) w in
           (Ok o1, put (<[object_key o := o1]> (objs w)) w)
      else (Err (apiError Conflict "the object has been modified"), w)
  end.
Definition sim_delete (o : T) : M error World unit := λ w,
  match objs w !! object_key o with
  | None => (Err (apiError NotFound (nn_Name (object_key o) ++ " not found")), w)
  | Some o0 =>
      match om_Finalizers (get_meta o0) with
      | [] => (Ok tt, put (delete (object_key o) (objs w)) w)
      | _ :: _ =>
          let m := get_meta o0 in
          let o1 := set_meta (mkObjectMeta (om_Name m) (om_Namespace m) (pretty (w_rv w)) (Some 1%Z)
                                (om_Labels m) (om_Annotations m) (om_Finalizers m)) o0 in
          (Ok tt, put (<[object_key o := o1]> (objs w)) w)
      end
  end.

#[export] Instance sim_store : Store World T :=
  {| client_Get := sim_get; client_List := sim_list; client_Create := sim_create;
     client_Update := sim_update; client_Delete := sim_delete; client_StatusUpdate := sim_status |}.

#[export] Instance sim_store_laws : StoreLaws World T w_view.
Proof.
  split; simpl.
  - intros n w o Ho. unfold sim_get, objs. by rewrite Ho.
  - intros n w Hn. unfold sim_get, objs. rewrite Hn. eauto.
  - intros opts w. eauto.
  - intros o w Hn. unfold sim_create, objs. rewrite Hn. eauto.
  - intros o w [o0 Ho]. unfold sim_create, objs. rewrite Ho. eauto.
  - intros o o0 w Ho Hrv Hd. unfold sim_update, objs. rewrite Ho, Hrv, String.eqb_refl, Hd. eauto.
  - intros o o0 w Ho Hf. unfold sim_delete, objs. rewrite Ho, Hf. eauto.
  - intros o w Hn. unfold sim_delete, objs. rewrite Hn. eauto.
  - intros o o0 w Ho Hm. unfold sim_status, objs. rewrite Ho, Hm, String.eqb_refl. eauto.
  - intros o w. destruct (sim_status o w) as [r w'] eqn:E. exists r, w'. split; [done|]. revert E.
    unfold sim_status. destruct (objs w !! object_key o) as [o0|]; [|intros [= <- <-]; auto].
    destruct (String.eqb _ _); intros [= <- <-]; simpl; eauto.
Qed.
End store.

Fixpoint sim_retry {S A} (fuel : nat) (f : M error (World * S) A) : M error (World * S) A := λ w,
  match f w with
  | (Err e, w') =>
      if IsConflict e then match fuel with O => (Err e, w') | S n => sim_retry n f w' end
      else (Err e, w')
  | r => r
  end.

#[export] Instance sim_cluster : Cluster World := {
  create_SubjectAccessReview sar := λ w, (Ok (w_sar w sar), w);
  RetryOnConflict_in := λ S A f, sim_retry 4 f;
  rand_Intn n := λ w, (Ok 0%Z, w);
  now := λ w, (Ok 0%Z, w) }.

#[export] Instance sim_api : ApiServer World.
Proof.
  refine {| view := w_view |}.
  - intros S A f w r w'. unfold RetryOnConflict_in, sim_cluster. generalize 4%nat; intros n.
    revert w; induction n as [|n IH]; intros w; simpl; destruct (f w) as [[a|e|] w1] eqn:E;
      try destruct (IsConflict e) eqn:C; intros [= <- <-] || intros Hr;
      try (by apply retry_last). by eapply retry_again; eauto.
  - intros n w. by exists 0%Z.
  - intros w. by exists 0%Z.
Defined.

#[export] Instance sim_finalizers : Finalizers := {
  ContainsFinalizer m f := bool_decide (f ∈ om_Finalizers m);
  AddFinalizer m f := if bool_decide (f ∈ om_Finalizers m) then (m, false)
                      else (set_finalizers (om_Finalizers m ++ [f]) m, true);
  RemoveFinalizer m f :=
    (set_finalizers (List.filter (λ g, negb (String.eqb g f)) (om_Finalizers m)) m,
     bool_decide (f ∈ om_Finalizers m)) }.
#[export] Instance sim_finalizers_laws : Finalizers_laws.
Proof. split; [|done..]. intros m f. apply bool_decide_eq_true. Qed.

Definition empty_view : View := mkView ∅ ∅ ∅ ∅ ∅ ∅ ∅ ∅.
Definition world_of (v : View) : World := mkWorld v 1 (λ _, true).

(** ** Library stand-ins *)

Definition match_set (s l : gmap string string) : bool :=
  forallb (λ '(k, v), bool_decide (l !! k = Some v)) (map_to_list s).

Fixpoint sim_path (p : field_path) : string :=
  match p with
  | FPath ns => Join ns "."
  | FChild p ns => sim_path p ++ ("." ++ Join ns ".")
  | FIndex p i => sim_path p ++ ("[" ++ (Itoa i ++ "]"))
  end.

(** [https://host/path], and no other form. *)
Definition sim_url (s : string) : result error URL :=
  match Cut s "://" with
  | None => Ok (mkURL "" s)
  | Some (_, r) => match Cut r "/" with
                   | Some (h, p) => Ok (mkURL h ("/" ++ p))
                   | None => Ok (mkURL r "")
                   end
  end.

#[export] Instance sim_lib : Lib := {
  path_String := sim_path;
  SelectorFromSet s := mkSelector (match_set s) (bool_decide (s = ∅));
  LabelSelectorAsSelector ls :=
    Ok (mkSelector (match_set (ls_MatchLabels ls)) (bool_decide (ls_MatchLabels ls = ∅)));
  url_Parse := sim_url;
  sha256_hex s := Join (repeat "0" 64) "";
  ToLower_unicode s := s;
  UnsafeGuessKindToResource k := k ++ "s";
  yaml_Unmarshal_map s := Ok ∅;
  yaml_Unmarshal_strings s := Ok (Split s nls);
  yaml_Marshal m := Ok "";
  json_Unmarshal_map s := Ok (Some ∅);
  json_to_yaml s := Ok s }.

#[export] Instance sim_lib_laws : Lib_laws.
Proof.
  split. intros s l. simpl. unfold match_set.
  rewrite forallb_forall. split.
  - intros Hall k v Hk. specialize (Hall (k, v)). simpl in Hall.
    rewrite bool_decide_eq_true in Hall. apply Hall.
    by apply list_elem_of_In, elem_of_map_to_list.
  - intros Hall [k v] Hin. apply list_elem_of_In, elem_of_map_to_list in Hin.
    rewrite bool_decide_eq_true. by apply Hall.
Qed.
