(* ===== verification/Lfu.v ===== *)
(** * The LFU cache ([internal/cache/lfu.go])

    [LFU] with its use counters, and every method. Go iterates a map in an
    unspecified order: the order is an argument ([ord]), and the theorems hold for
    every order. A nil cache is [None]. *)

From S2P Require Import Prelude GoStr.

Definition useCountCap : Z := (2 ^ 16)%Z.

Section LFU.
Context {K V : Type} `{Countable K}.

(** [useCount] is a [uint32]. *)
Record entry := mkEntry { value : V; useCount : Z }.

(** The mutex is not state: every method holds it from entry to return, so
    methods are atomic. *)
Record LFU := mkLFU { max : Z; entries : gmap K entry }.

(** The order in which a [range] over the map visits it. *)
Definition order := gmap K entry → list (K * entry).
Definition fair (ord : order) : Prop := ∀ m, ord m ≡ₚ map_to_list m.

Definition NewLFU (max : Z) : option LFU :=
  if (max <=? 0)%Z then None else Some (mkLFU max ∅).

Definition uint32 (z : Z) : Z := (z mod 2 ^ 32)%Z.

Definition age (e : entry) : entry := mkEntry (value e) (Z.shiftr (useCount e) 1).

(** [touchLocked] on the entry stored under [key]. *)
Definition touchLocked (key : K) (c : LFU) : LFU :=
  match entries c !! key with
  | None => c
  | Some e =>
      let e' := mkEntry (value e) (uint32 (useCount e + 1)%Z) in
      let es := <[key := e']> (entries c) in
      mkLFU (max c) (if (useCountCap <=? useCount e')%Z then age <$> es else es)
  end.

(** The victim of one pass: the first entry of smallest count, [exceptKey] apart. *)
Fixpoint pick_victim (exceptKey : K) (victim : option (K * entry)) (l : list (K * entry))
  : option (K * entry) :=
  match l with
  | [] => victim
  | (k, e) :: l' =>
      pick_victim exceptKey
        (if bool_decide (k = exceptKey) then victim
         else match victim with
              | None => Some (k, e)
              | Some (vk, v) => if (useCount e <? useCount v)%Z then Some (k, e) else victim
              end) l'
  end.

(** The loop of [evictLocked]; [None] when it needs more than [fuel] passes. *)
Fixpoint evict_loop (fuel : nat) (ord : order) (exceptKey : K) (c : LFU) : option LFU :=
  if (Z.of_nat (size (entries c)) <=? max c)%Z then Some c
  else match pick_victim exceptKey None (ord (entries c)) with
       | None => Some c
       | Some (victimKey, _) =>
           match fuel with
           | O => None
           | S fuel' => evict_loop fuel' ord exceptKey (mkLFU (max c) (delete victimKey (entries c)))
           end
       end.

(** One pass per entry is enough ([evict_total]). *)
Definition evictLocked (ord : order) (exceptKey : K) (c : LFU) : LFU :=
  default c (evict_loop (size (entries c)) ord exceptKey c).

Definition Get (key : K) (c : option LFU) : option V * option LFU :=
  match c with
  | None => (None, None)
  | Some c =>
      match entries c !! key with
      | None => (None, Some c)
      | Some e => (Some (value e), Some (touchLocked key c))
      end
  end.

(** The insertion of a fresh entry, common to [Set] and [LoadOrStore]. *)
Definition insert_new (ord : order) (key : K) (v : V) (c : LFU) : LFU :=
  evictLocked ord key (touchLocked key (mkLFU (max c) (<[key := mkEntry v 0%Z]> (entries c)))).

Definition Set_ (ord : order) (key : K) (v : V) (c : option LFU) : option LFU :=
  match c with
  | None => None
  | Some c =>
      Some match entries c !! key with
           | Some e => touchLocked key (mkLFU (max c) (<[key := mkEntry v (useCount e)]> (entries c)))
           | None => insert_new ord key v c
           end
  end.

Definition LoadOrStore (ord : order) (key : K) (v : V) (c : option LFU) : (V * bool) * option LFU :=
  match c with
  | None => ((v, false), None)
  | Some c =>
      match entries c !! key with
      | Some e => ((value e, true), Some (touchLocked key c))
      | None => ((v, false), Some (insert_new ord key v c))
      end
  end.

Definition Delete (key : K) (c : option LFU) : option LFU :=
  match c with
  | None => None
  | Some c => Some (mkLFU (max c) (delete key (entries c)))
  end.

(** ** The invariant *)

Definition count_ok (e : entry) : Prop := (0 ≤ useCount e < useCountCap)%Z.

Record wf (c : LFU) : Prop := {
  wf_max : (0 < max c)%Z;
  wf_size : (Z.of_nat (size (entries c)) ≤ max c)%Z;
  wf_counts : map_Forall (λ _ e, count_ok e) (entries c) }.
Definition wf_opt (c : option LFU) : Prop := match c with Some c => wf c | None => True end.

(** ** Touching *)

(** What a cache holds, without its counters. *)
Definition contents (c : LFU) : gmap K V := value <$> entries c.

Lemma touch_contents key c : contents (touchLocked key c) = contents c.
Proof.
  unfold touchLocked, contents. destruct (entries c !! key) as [e|] eqn:E; [|done].
  assert (Hins : ∀ n, value <$> <[key := mkEntry (value e) n]> (entries c) = value <$> entries c).
  { intros n. rewrite fmap_insert. apply insert_id. by rewrite lookup_fmap, E. }
  simpl. destruct (useCountCap <=? _)%Z; simpl; [|apply Hins].
  rewrite <- map_fmap_compose. etrans; [|apply (Hins (uint32 (useCount e + 1)%Z))].
  by apply map_fmap_ext.
Qed.

Lemma touch_max key c : max (touchLocked key c) = max c.
Proof. unfold touchLocked. by destruct (entries c !! key). Qed.

Lemma contents_size c : size (contents c) = size (entries c).
Proof. apply map_size_fmap. Qed.

Lemma touch_size key c : size (entries (touchLocked key c)) = size (entries c).
Proof. by rewrite <- !contents_size, touch_contents. Qed.

Lemma contents_lookup c k : contents c !! k = value <$> entries c !! k.
Proof. apply lookup_fmap. Qed.

(** The aging keeps every counter under the cap, so a [uint32] never wraps. *)
Lemma touch_counts key c :
  map_Forall (λ _ e, count_ok e) (entries c) →
  map_Forall (λ _ e, count_ok e) (entries (touchLocked key c)).
Proof.
  intros Hc. unfold touchLocked. destruct (entries c !! key) as [e|] eqn:E; [|done].
  pose proof (map_Forall_lookup_1 _ _ _ _ Hc E) as He. unfold count_ok in *.
  assert (Hcap16 : useCountCap = 65536%Z) by reflexivity.
  assert (Hu : uint32 (useCount e + 1)%Z = (useCount e + 1)%Z) by (apply Z.mod_small; lia).
  simpl. rewrite Hu. destruct (Z.leb_spec useCountCap (useCount e + 1)) as [Hcap|Hcap]; simpl;
    intros k e' Hk.
  - apply lookup_fmap_Some in Hk as (e0 & <- & Hk). simpl.
    rewrite Z.shiftr_div_pow2 by lia. change (2 ^ 1)%Z with 2%Z.
    apply lookup_insert_Some in Hk as [[<- <-]|[_ Hk]]; simpl.
    + split; [apply Z.div_pos; lia|apply Z.div_lt_upper_bound; lia].
    + specialize (Hc _ _ Hk). simpl in Hc.
      split; [apply Z.div_pos; lia|apply Z.div_lt_upper_bound; lia].
  - apply lookup_insert_Some in Hk as [[<- <-]|[_ Hk]]; simpl; [lia|].
    by specialize (Hc _ _ Hk).
Qed.

(** ** Evicting *)

Definition not_victim (exceptKey : K) (l : list (K * entry)) : Prop :=
  ∀ k e, (k, e) ∈ l → k = exceptKey.

Lemma pick_victim_spec exceptKey acc l :
  (match acc with Some (k, _) => k ≠ exceptKey | None => True end) →
  match pick_victim exceptKey acc l with
  | None => acc = None ∧ not_victim exceptKey l
  | Some (k, e) => k ≠ exceptKey ∧ (acc = Some (k, e) ∨ (k, e) ∈ l) ∧
      (∀ k' e', (k', e') ∈ l → k' ≠ exceptKey → (useCount e ≤ useCount e')%Z) ∧
      (match acc with Some (_, e') => (useCount e ≤ useCount e')%Z | None => True end)
  end.
Proof.
  revert acc; induction l as [|[k e] l IH]; intros acc Hacc; simpl.
  { destruct acc as [[k e]|].
    - repeat split; auto; [|lia]. intros ?? Hin. by apply not_elem_of_nil in Hin.
    - split; [done|]. intros ?? Hin. by apply not_elem_of_nil in Hin. }
  case_bool_decide as Hk.
  { specialize (IH acc Hacc). destruct (pick_victim exceptKey acc l) as [[k' e']|].
    - destruct IH as (? & ? & Hmin & ?). repeat split; auto; [set_solver|].
      intros k2 e2 [[= -> ->]|?]%elem_of_cons; [done|eauto].
    - destruct IH as [-> IH]. split; [done|]. intros k2 e2 [[= -> ->]|?]%elem_of_cons; eauto. }
  set (acc' := match acc with None => Some (k, e) | Some (vk, v) => if (useCount e <? useCount v)%Z then Some (k, e) else acc end).
  assert (Hacc' : match acc' with Some (k0, e0) => k0 ≠ exceptKey ∧ (acc = Some (k0, e0) ∨ (k0, e0) = (k, e)) ∧
    (useCount e0 ≤ useCount e)%Z ∧ (match acc with Some (_, e') => (useCount e0 ≤ useCount e')%Z | None => True end) | None => False end).
  { unfold acc'. destruct acc as [[vk v]|]; [destruct (Z.ltb_spec (useCount e) (useCount v))|];
      repeat split; auto; lia. }
  clearbody acc'. destruct acc' as [[k0 e0]|]; [|done]. destruct Hacc' as (H1 & H2 & H3 & H4).
  specialize (IH (Some (k0, e0)) H1). destruct (pick_victim exceptKey (Some (k0, e0)) l) as [[k' e']|]; [|naive_solver].
  destruct IH as (Hne & Hin & Hmin & Hle). repeat split; auto.
  - destruct Hin as [[= <- <-]|Hin]; [|set_solver]. destruct H2 as [->|[= -> ->]]; [by left|set_solver].
  - intros k2 e2 [[= -> ->]|?]%elem_of_cons; [lia|eauto].
  - destruct acc as [[? ?]|]; [lia|done].
Qed.

(** What one eviction pass chooses, for any iteration order. *)
Lemma pick_victim_fair ord exceptKey m k e : fair ord →
  pick_victim exceptKey None (ord m) = Some (k, e) →
  m !! k = Some e ∧ k ≠ exceptKey ∧
  (∀ k' e', m !! k' = Some e' → k' ≠ exceptKey → (useCount e ≤ useCount e')%Z).
Proof.
  intros Hf Hp. pose proof (pick_victim_spec exceptKey None (ord m) I) as Hs. rewrite Hp in Hs.
  destruct Hs as (Hne & [?|Hin] & Hmin & _); [done|].
  rewrite (Hf m) in Hin. apply elem_of_map_to_list in Hin. repeat split; auto.
  intros k' e' Hk'. apply (Hmin k'). rewrite (Hf m). by apply elem_of_map_to_list.
Qed.

Lemma pick_victim_none ord exceptKey m : fair ord →
  pick_victim exceptKey None (ord m) = None → (size m ≤ 1)%nat.
Proof.
  intros Hf Hp. pose proof (pick_victim_spec exceptKey None (ord m) I) as Hs. rewrite Hp in Hs.
  destruct Hs as [_ Hs]. destruct (decide (size m ≤ 1)%nat) as [|Hgt]; [done|exfalso].
  assert (Hsub : dom m ⊆ ({[exceptKey]} : gset K)).
  { intros k [e Hk]%elem_of_dom. apply elem_of_singleton. apply (Hs k e).
    rewrite (Hf m). by apply elem_of_map_to_list. }
  apply subseteq_size in Hsub. rewrite size_dom, size_singleton in Hsub. lia.
Qed.

(** The eviction loop finishes within one pass per entry. *)
Lemma evict_total ord exceptKey fuel c : fair ord →
  (size (entries c) ≤ fuel)%nat → is_Some (evict_loop fuel ord exceptKey c).
Proof.
  intros Hf. revert c; induction fuel as [|fuel IH]; intros c Hs; simpl;
    destruct (Z.leb_spec (Z.of_nat (size (entries c))) (max c)); eauto;
    destruct (pick_victim exceptKey None (ord (entries c))) as [[k e]|] eqn:E; eauto.
  - apply pick_victim_fair in E as (E & _); [|done].
    destruct (map_size_ne_0_lookup_2 (entries c) k); [by exists e|lia].
  - apply IH. simpl. apply pick_victim_fair in E as (E & _); [|done].
    rewrite map_size_delete_Some by done. lia.
Qed.

Definition mins (exceptKey : K) (m m' : gmap K entry) : Prop :=
  ∀ k e k' e', m !! k = Some e → m' !! k = None → k ≠ exceptKey →
    m' !! k' = Some e' → k' ≠ exceptKey → (useCount e ≤ useCount e')%Z.

(** What the loop leaves: a part of the entries, the protected one among them,
    within the capacity, and nothing that stays was used less than what left. *)
Lemma evict_loop_spec ord exceptKey fuel c c' : fair ord → (0 < max c)%Z →
  evict_loop fuel ord exceptKey c = Some c' →
  max c' = max c ∧ entries c' ⊆ entries c ∧
  Z.of_nat (size (entries c')) = Z.min (Z.of_nat (size (entries c))) (max c) ∧
  entries c' !! exceptKey = entries c !! exceptKey ∧
  mins exceptKey (entries c) (entries c').
Proof.
  intros Hf. revert c; induction fuel as [|fuel IH]; intros c Hmax He; simpl in He;
    destruct (Z.leb_spec (Z.of_nat (size (entries c))) (max c)) as [Hle|Hgt]; simplify_eq;
    try (repeat split; auto; [lia|intros ??????; congruence]);
    destruct (pick_victim exceptKey None (ord (entries c))) as [[k e]|] eqn:E; simplify_eq.
  1,3: exfalso; apply pick_victim_none in E; [lia|done].
  apply pick_victim_fair in E as (Hk & Hne & Hmin); [|done].
  destruct (IH (mkLFU (max c) (delete k (entries c))) Hmax He) as (Hm & Hsub & Hsz & Hex & Hmins); simpl in *.
  repeat split; auto.
  - etrans; [done|]. apply delete_subseteq.
  - rewrite Hsz. rewrite map_size_delete_Some by done. lia.
  - by rewrite Hex, lookup_delete_ne.
  - intros k1 e1 k2 e2 H1 H1' Hne1 H2 Hne2.
    destruct (decide (k1 = k)) as [->|Hkk]; simplify_eq.
    + apply (Hmin k2); [|done]. eapply lookup_weaken; [|apply delete_subseteq].
      by eapply lookup_weaken.
    + apply (Hmins k1 e1 k2 e2); auto. by rewrite lookup_delete_ne.
Qed.

Lemma evictLocked_spec ord exceptKey c : fair ord → (0 < max c)%Z →
  let c' := evictLocked ord exceptKey c in
  max c' = max c ∧ entries c' ⊆ entries c ∧
  Z.of_nat (size (entries c')) = Z.min (Z.of_nat (size (entries c))) (max c) ∧
  entries c' !! exceptKey = entries c !! exceptKey ∧
  mins exceptKey (entries c) (entries c').
Proof.
  intros Hf Hmax c'. unfold c', evictLocked.
  destruct (evict_total ord exceptKey (size (entries c)) c Hf ltac:(done)) as [c2 Hc2].
  rewrite Hc2. simpl. by apply (evict_loop_spec ord exceptKey _ _ _ Hf Hmax Hc2).
Qed.

(** ** Correctness of the operations *)

Inductive op := OpGet (k : K) | OpSet (k : K) (v : V) | OpLoadOrStore (k : K) (v : V) | OpDelete (k : K).

(** One call: what it answers (the value and whether it was present) and the
    next state. *)
Definition run_op (ord : order) (o : op) (c : option LFU) : (option V * bool) * option LFU :=
  match o with
  | OpGet k => let '(r, c') := Get k c in ((r, bool_decide (is_Some r)), c')
  | OpSet k v => ((None, false), Set_ ord k v c)
  | OpLoadOrStore k v => let '((r, b), c') := LoadOrStore ord k v c in ((Some r, b), c')
  | OpDelete k => ((None, false), Delete k c)
  end.

Lemma insert_new_spec ord k v c : fair ord → wf c → entries c !! k = None →
  let c' := insert_new ord k v c in
  wf c' ∧ contents c' ⊆ <[k := v]> (contents c) ∧ contents c' !! k = Some v ∧
  Z.of_nat (size (contents c')) = Z.min (Z.of_nat (size (contents c)) + 1) (max c).
Proof.
  intros Hf [Hmax Hsz Hcnt] Hk c'.
  set (c1 := touchLocked k (mkLFU (max c) (<[k := mkEntry v 0%Z]> (entries c)))).
  assert (Hc1 : contents c1 = <[k := v]> (contents c)).
  { unfold c1. rewrite touch_contents. unfold contents. simpl. by rewrite fmap_insert. }
  assert (Hm1 : max c1 = max c) by (unfold c1; by rewrite touch_max).
  assert (Hcnt1 : map_Forall (λ _ e, count_ok e) (entries c1)).
  { apply touch_counts. simpl. apply map_Forall_insert_2; [|done]. split; [done|reflexivity]. }
  destruct (evictLocked_spec ord k c1 Hf ltac:(by rewrite Hm1)) as (H1 & H2 & H3 & H4 & _).
  fold c' in H1, H2, H3, H4. change (evictLocked ord k c1) with c' in *.
  assert (Hsz1 : size (entries c1) = S (size (entries c))).
  { rewrite <- contents_size, Hc1, map_size_insert_None, contents_size; [done|].
    by rewrite contents_lookup, Hk. }
  split; [split|split; [|split]].
  - lia.
  - lia.
  - intros i e Hi. apply (Hcnt1 i e). by eapply lookup_weaken.
  - rewrite <- Hc1. unfold contents. by apply map_fmap_mono.
  - rewrite contents_lookup, H4, <- contents_lookup, Hc1. apply lookup_insert_eq.
  - rewrite !contents_size. lia.
Qed.

Lemma set_existing_spec k v c e : wf c → entries c !! k = Some e →
  let c' := touchLocked k (mkLFU (max c) (<[k := mkEntry v (useCount e)]> (entries c))) in
  wf c' ∧ contents c' = <[k := v]> (contents c).
Proof.
  intros [Hmax Hsz Hcnt] Hk c'. split.
  - split; unfold c'; rewrite ?touch_max, ?touch_size; simpl; [done| |].
    + by rewrite map_size_insert_Some by done.
    + apply touch_counts. simpl. apply map_Forall_insert_2; [|done]. exact (Hcnt _ _ Hk).
  - unfold c'. rewrite touch_contents. unfold contents. simpl. by rewrite fmap_insert.
Qed.

Lemma touch_wf k c : wf c → wf (touchLocked k c).
Proof.
  intros [Hmax Hsz Hcnt]. split; rewrite ?touch_max, ?touch_size; [done..|].
  by apply touch_counts.
Qed.

Lemma run_op_wf ord o c : fair ord → wf_opt c → wf_opt (run_op ord o c).2.
Proof.
  intros Hf Hw. destruct c as [c|]; [|by destruct o]. destruct o as [k|k v|k v|k]; simpl in *;
    repeat case_match; simplify_eq/=; auto using touch_wf.
  - by eapply set_existing_spec.
  - by apply insert_new_spec.
  - by apply insert_new_spec.
  - destruct Hw as [Hmax Hsz Hcnt]. split; simpl; [done| |by apply map_Forall_delete].
    pose proof (subseteq_size (dom (delete k (entries c))) (dom (entries c))) as Hs.
    rewrite !size_dom in Hs. specialize (Hs ltac:(set_solver)). lia.
Qed.

(** Any history of calls, each with an iteration order of its own: the answers
    and the final state. *)
Fixpoint run_ops (h : list (order * op)) (c : option LFU)
  : list (option V * bool) * option LFU :=
  match h with
  | [] => ([], c)
  | (ord, o) :: h' =>
      let '(r, c1) := run_op ord o c in
      let '(rs, c2) := run_ops h' c1 in (r :: rs, c2)
  end.

(** A fresh entry has count one after its first touch: no aging happens. *)
Lemma insert_new_unfold ord k v c :
  insert_new ord k v c = evictLocked ord k (mkLFU (max c) (<[k := mkEntry v 1%Z]> (entries c))).
Proof.
  unfold insert_new. f_equal. unfold touchLocked. simpl.
  rewrite lookup_insert_eq. simpl. by rewrite insert_insert_eq.
Qed.

Lemma insert_new_least ord k v c : fair ord → wf c →
  let c' := insert_new ord k v c in
  ∀ k1 e1 k2 e2, entries c !! k1 = Some e1 → entries c' !! k1 = None →
    entries c' !! k2 = Some e2 → k1 ≠ k → k2 ≠ k →
    entries c !! k2 = Some e2 ∧ (useCount e1 ≤ useCount e2)%Z.
Proof.
  intros Hf [Hmax _ _] c' k1 e1 k2 e2 H1 H1' H2 Hne1 Hne2. unfold c' in *.
  rewrite insert_new_unfold in *.
  set (c1 := mkLFU (max c) (<[k := mkEntry v 1%Z]> (entries c))) in *.
  destruct (evictLocked_spec ord k c1 Hf Hmax) as (_ & Hsub & _ & _ & Hmins). split.
  - pose proof (lookup_weaken _ _ _ _ H2 Hsub) as Hk. simpl in Hk. by apply lookup_insert_Some in Hk as [[]|[]].
  - apply (Hmins k1 e1 k2 e2); auto. simpl. by rewrite lookup_insert_ne.
Qed.
End LFU.
Arguments entry : clear implicits.
Arguments LFU K V {_ _}.
Arguments order K V {_ _}.

(** ** The contract of the cache

    A bounded map that may forget: an insertion may drop other keys, as few as the
    bound needs, and nothing else ever disappears or changes. *)
Section Contract.
Context {K V : Type} `{Countable K}.

(** [make_room bound m m']: the smallest loss that leaves at most [bound] keys,
    keeping [k]. *)
Definition keeps (bound : Z) (k : K) (m m' : gmap K V) : Prop :=
  m' ⊆ m ∧ m' !! k = m !! k ∧ Z.of_nat (size m') = Z.min (Z.of_nat (size m)) bound.

Inductive bounded_map (bound : Z) : gmap K V → @op K V → option V * bool → gmap K V → Prop :=
| bm_get m k : bounded_map bound m (OpGet k) (m !! k, bool_decide (is_Some (m !! k))) m
| bm_set m k v m' : keeps bound k (<[k := v]> m) m' →
    bounded_map bound m (OpSet k v) (None, false) m'
| bm_load m k v w : m !! k = Some w → bounded_map bound m (OpLoadOrStore k v) (Some w, true) m
| bm_store m k v m' : m !! k = None → keeps bound k (<[k := v]> m) m' →
    bounded_map bound m (OpLoadOrStore k v) (Some v, false) m'
| bm_delete m k : bounded_map bound m (OpDelete k) (None, false) (delete k m).

Lemma insert_new_keeps ord k v (c : LFU K V) : fair ord → wf c → entries c !! k = None →
  keeps (max c) k (<[k := v]> (contents c)) (contents (insert_new ord k v c)).
Proof.
  intros Hf Hw Hk. destruct (insert_new_spec ord k v c Hf Hw Hk) as (_ & Hsub & Hl & Hsz).
  repeat split; [done|by rewrite Hl, lookup_insert_eq|].
  rewrite Hsz, map_size_insert_None; [lia|]. by rewrite contents_lookup, Hk.
Qed.

(** Every method refines the bounded map, whatever the iteration order. *)
Lemma run_op_refines ord o (c : LFU K V) : fair ord → wf c →
  ∃ c', (run_op ord o (Some c)).2 = Some c' ∧ max c' = max c ∧
    bounded_map (max c) (contents c) o (run_op ord o (Some c)).1 (contents c').
Proof.
  intros Hf Hw. destruct o as [k|k v|k v|k]; simpl;
    try match goal with |- context [entries c !! k] =>
      destruct (entries c !! k) as [e|] eqn:E end; simpl.
  - eexists; split; [done|]. rewrite touch_max, touch_contents. split; [done|].
    pose proof (bm_get (max c) (contents c) k) as Hb. by rewrite contents_lookup, E in Hb.
  - eexists; split; [done|]. split; [done|].
    pose proof (bm_get (max c) (contents c) k) as Hb. by rewrite contents_lookup, E in Hb.
  - eexists; split; [done|]. rewrite touch_max. split; [done|].
    destruct (set_existing_spec k v c e Hw E) as [_ ->]. constructor. repeat split; [done|].
    pose proof (wf_size c Hw) as Hs. rewrite <- contents_size in Hs.
    rewrite map_size_insert_Some; [lia|]. rewrite contents_lookup, E. by eexists.
  - eexists; split; [done|]. destruct (insert_new_spec ord k v c Hf Hw E) as ([Hm _ _] & _).
    split; [|constructor; by apply insert_new_keeps].
    unfold insert_new. destruct (evictLocked_spec ord k (touchLocked k (mkLFU (max c) (<[k:=mkEntry v 0%Z]> (entries c)))) Hf) as [-> _];
      rewrite touch_max; simpl; [apply wf_max, Hw|done].
  - eexists; split; [done|]. rewrite touch_max, touch_contents. split; [done|].
    constructor. by rewrite contents_lookup, E.
  - eexists; split; [done|].
    split; [|constructor; [by rewrite contents_lookup, E|by apply insert_new_keeps]].
    unfold insert_new. destruct (evictLocked_spec ord k (touchLocked k (mkLFU (max c) (<[k:=mkEntry v 0%Z]> (entries c)))) Hf) as [-> _];
      rewrite touch_max; simpl; [apply wf_max, Hw|done].
  - eexists; split; [done|]. split; [done|]. unfold contents. simpl. rewrite fmap_delete. constructor.
Qed.
Inductive bounded_run (bound : Z)
  : gmap K V → list (@op K V) → list (option V * bool) → gmap K V → Prop :=
| br_nil m : bounded_run bound m [] [] m
| br_cons m o r m1 os rs m2 : bounded_map bound m o r m1 → bounded_run bound m1 os rs m2 →
    bounded_run bound m (o :: os) (r :: rs) m2.

Lemma run_ops_refines (h : list (order K V * @op K V)) (c : LFU K V) :
  Forall (λ '(ord, _), fair ord) h → wf c →
  ∃ c', (run_ops h (Some c)).2 = Some c' ∧ wf c' ∧ max c' = max c ∧
    bounded_run (max c) (contents c) h.*2 (run_ops h (Some c)).1 (contents c').
Proof.
  intros Hh. revert c; induction Hh as [|[ord o] h Hf Hh IH]; intros c Hw; simpl.
  { exists c. split_and!; [done..|constructor]. }
  destruct (run_op_refines ord o c Hf Hw) as (c1 & H2 & Hm & Hb).
  pose proof (run_op_wf ord o (Some c) Hf Hw) as Hw1. rewrite H2 in Hw1.
  destruct (run_op ord o (Some c)) as [r c1'] eqn:E; simpl in *; subst c1'.
  destruct (IH c1 Hw1) as (c' & Hc' & Hw' & Hm' & Hb').
  destruct (run_ops h (Some c1)) as [rs c2] eqn:E2; simpl in *; subst c2.
  exists c'. rewrite Hm', Hm in *. split_and!; [done..|]. by econstructor.
Qed.
End Contract.

(** ** What a possibly disabled cache remembers *)

Section Remembered.
Context {K V : Type} `{Countable K}.

Definition remembered (k : K) (c : option (LFU K V)) : option V :=
  match c with Some c => contents c !! k | None => None end.

Lemma get_remembered k (c : option (LFU K V)) :
  ∃ c', Get k c = (remembered k c, c') ∧ (wf_opt c → wf_opt c') ∧ ∀ k', remembered k' c' = remembered k' c.
Proof.
  destruct c as [c|]; [|by exists None]. unfold remembered. cbn. rewrite contents_lookup.
  destruct (entries c !! k) as [e|]; [|by exists (Some c)].
  exists (Some (touchLocked k c)). split; [done|]. split; [apply touch_wf|].
  intros k'. by rewrite touch_contents.
Qed.

Lemma set_remembered ord k v (c : option (LFU K V)) v' : fair ord → wf_opt c →
  remembered k (Set_ ord k v c) = Some v' → v' = v.
Proof.
  intros Hf Hw. destruct c as [c|]; [|done].
  destruct (run_op_refines ord (OpSet k v) c Hf Hw) as (c' & Hc' & _ & Hb). cbn in Hc', Hb.
  unfold remembered. change (Set_ ord k v (Some c)) with (Some (match entries c !! k with
    | Some e => touchLocked k (mkLFU (max c) (<[k := mkEntry v (useCount e)]> (entries c)))
    | None => insert_new ord k v c end)). injection Hc' as ->.
  inversion Hb as [|? ? ? ? [_ [Hk _]]| | |]; subst. rewrite Hk, lookup_insert_eq. by intros [= <-].
Qed.

Lemma delete_remembered k (c : option (LFU K V)) : remembered k (Delete k c) = None.
Proof. destruct c as [c|]; [|done]. cbn. unfold contents. cbn. by rewrite fmap_delete, lookup_delete_eq. Qed.
End Remembered.

(** ** Properties *)

(** The smallest fair order, for the witnesses. *)
Definition list_order : order string nat := map_to_list.

(** (C40) A cache made by [NewLFU] is a bounded map over its whole life: after any
    history of [Get], [Set], [LoadOrStore] and [Delete] calls, under any map iteration
    order, every answer is the one of a map that only drops as many keys as the bound
    needs at an insertion and never the inserted one; the size stays within the bound
    and every [uint32] counter under the cap. *)
Theorem lfu_refines_bounded_map {K V} `{Countable K} (h : list (order K V * @op K V)) n c :
  Forall (λ '(ord, _), fair ord) h → NewLFU n = Some c →
  ∃ c', (run_ops h (Some c)).2 = Some c' ∧ wf c' ∧ max c' = n ∧
    bounded_run n ∅ h.*2 (run_ops h (Some c)).1 (contents c').
Proof.
  unfold NewLFU. intros Hh Hn. destruct (Z.leb_spec n 0); simplify_eq.
  pose proof (run_ops_refines h (mkLFU n ∅) Hh) as Hr.
  unfold contents in Hr at 1. simpl in Hr. rewrite fmap_empty in Hr. apply Hr.
  by split; simpl; [|rewrite map_size_empty; lia|apply map_Forall_empty].
Qed.

Definition lfu_history : list (order string nat * @op string nat) :=
  [(list_order, OpSet "a" 1%nat); (list_order, OpGet "a"); (list_order, OpSet "b" 2%nat);
   (list_order, OpLoadOrStore "c" 3%nat); (list_order, OpGet "b")].

Lemma lfu_refines_bounded_map_witness :
  (run_ops lfu_history (NewLFU 2)).1 =
    [(None, false); (Some 1%nat, true); (None, false); (Some 3%nat, false); (None, false)] ∧
  ∃ c', (run_ops lfu_history (Some (mkLFU 2 ∅))).2 = Some c' ∧ wf c' ∧ max c' = 2%Z ∧
    bounded_run 2 ∅ lfu_history.*2 (run_ops lfu_history (Some (mkLFU 2 ∅))).1 (contents c').
Proof.
  split; [vm_compute; reflexivity|]. apply lfu_refines_bounded_map; [|reflexivity].
  repeat (constructor; [intros m; reflexivity|]). constructor.
Defined.

(** An insertion evicts the least frequently used entries: whatever leaves the
    cache on a [Set] of a new key was used no more often than anything that stays
    (the new key apart), and what stays is unchanged. *)
Theorem lfu_evicts_least_used {K V} `{Countable K} (ord : order K V) k v c c' :
  fair ord → wf c → entries c !! k = None → Set_ ord k v (Some c) = Some c' →
  ∀ k1 e1 k2 e2, entries c !! k1 = Some e1 → entries c' !! k1 = None →
    entries c' !! k2 = Some e2 → k2 ≠ k →
    entries c !! k2 = Some e2 ∧ (useCount e1 ≤ useCount e2)%Z.
Proof.
  intros Hf Hw Hk Hset k1 e1 k2 e2 H1 H1' H2 Hne. simpl in Hset. rewrite Hk in Hset. simplify_eq.
  eapply insert_new_least; eauto. intros ->. congruence.
Qed.

Definition lfu_full : LFU string nat :=
  mkLFU 2 {["a" := mkEntry 1%nat 5%Z; "b" := mkEntry 2%nat 1%Z]}.

Lemma lfu_full_wf : wf lfu_full.
Proof.
  split; [done..|]. simpl. apply map_Forall_insert_2; [|apply map_Forall_singleton];
    split; done.
Qed.

Lemma lfu_evicts_least_used_witness :
  ∃ c', Set_ list_order "c" 3%nat (Some lfu_full) = Some c' ∧
    entries c' !! "b" = None ∧ entries lfu_full !! "a" = Some (mkEntry 1%nat 5%Z) ∧ (1 ≤ 5)%Z.
Proof.
  eexists. split; [reflexivity|]. split; [vm_compute; reflexivity|].
  apply (lfu_evicts_least_used list_order "c" 3%nat lfu_full _ ltac:(intros m; reflexivity) lfu_full_wf
    eq_refl eq_refl "b" (mkEntry 2%nat 1%Z) "a" (mkEntry 1%nat 5%Z)); try reflexivity; done.
Defined.
