(* ===== verification/Kube.v ===== *)
(** * Status conditions and requeue results ([pkg/kube]) *)

From S2P Require Import Prelude GoStr Api.

(** The index the loop of [RemoveCondition] ends with: the last match. *)
Fixpoint removeIndex (typeKind : string) (i : nat) (acc : option nat) (conditions : list Condition)
  : option nat :=
  match conditions with
  | [] => acc
  | c :: cs =>
      removeIndex typeKind (S i) (if String.eqb typeKind (cond_Type c) then Some i else acc) cs
  end.

Definition RemoveCondition (conditions : list Condition) (typeKind : string) : list Condition :=
  match removeIndex typeKind 0 None conditions with
  | Some i => (take i conditions ++ drop (S i) conditions)%list
  | None => conditions
  end.

Definition SetCondition (conditions : list Condition) (condition : Condition) : list Condition :=
  (RemoveCondition conditions (cond_Type condition) ++ [condition])%list.

Definition MergeResults (a b : ctrl_Result) : ctrl_Result :=
  if ((0 <? RequeueAfter b) && ((RequeueAfter a =? 0) || (RequeueAfter b <? RequeueAfter a)))%Z
  then mkResult (RequeueAfter b) else a.

(** ** Lemmas *)

Lemma removeIndex_shift k i acc l :
  removeIndex k i acc l =
  match removeIndex k 0 None l with Some j => Some (i + j)%nat | None => acc end.
Proof.
  revert i acc; induction l as [|c l IH]; intros i acc; simpl; [done|].
  rewrite IH, (IH 1%nat). destruct (removeIndex k 0 None l); [f_equal; lia|].
  destruct (String.eqb k (cond_Type c)); [f_equal; lia|done].
Qed.

Lemma removeIndex_spec k l :
  match removeIndex k 0 None l with
  | Some j => ∃ c, l !! j = Some c ∧ cond_Type c = k ∧ Forall (λ c, cond_Type c ≠ k) (drop (S j) l)
  | None => Forall (λ c, cond_Type c ≠ k) l
  end.
Proof.
  induction l as [|c l IH]; simpl; [constructor|]. rewrite removeIndex_shift.
  destruct (removeIndex k 0 None l) as [j|]; [exact IH|].
  destruct (String.eqb_spec k (cond_Type c)); [by exists c|]. constructor; congruence.
Qed.

(** The condition removed is the last one of its type, and nothing else moves. *)
Lemma RemoveCondition_cases k l :
  (Forall (λ c, cond_Type c ≠ k) l ∧ RemoveCondition l k = l) ∨
  ∃ l1 c l2, l = (l1 ++ c :: l2)%list ∧ cond_Type c = k ∧ Forall (λ c, cond_Type c ≠ k) l2 ∧
    RemoveCondition l k = (l1 ++ l2)%list.
Proof.
  unfold RemoveCondition. pose proof (removeIndex_spec k l) as Hs.
  destruct (removeIndex k 0 None l) as [j|]; [right|by left].
  destruct Hs as (c & Hc & Hk & Hd). exists (take j l), c, (drop (S j) l).
  by rewrite take_drop_middle.
Qed.

Definition cond_types (l : list Condition) : list string := map cond_Type l.

Lemma RemoveCondition_NoDup k l : NoDup (cond_types l) →
  NoDup (cond_types (RemoveCondition l k)) ∧ k ∉ cond_types (RemoveCondition l k).
Proof.
  unfold cond_types. intros Hnd.
  destruct (RemoveCondition_cases k l) as [[Hl ->]|(l1 & c & l2 & -> & Hk & Hl2 & ->)].
  - split; [done|]. rewrite list_elem_of_fmap. intros (c & -> & Hc).
    rewrite Forall_forall in Hl. by apply (Hl c).
  - rewrite map_app in *. simpl in *. apply NoDup_app in Hnd as (H1 & H2 & H3).
    apply NoDup_cons in H3 as [H3 H4]. split.
    + apply NoDup_app. split_and!; [done| |done]. intros x Hx Hx'. by apply (H2 x Hx); right.
    + rewrite elem_of_app. intros [Hin|Hin]; [|by subst]. apply (H2 k Hin). subst. left.
Qed.

Lemma RemoveCondition_other k l :
  List.filter (λ c, negb (String.eqb (cond_Type c) k)) (RemoveCondition l k) =
  List.filter (λ c, negb (String.eqb (cond_Type c) k)) l.
Proof.
  destruct (RemoveCondition_cases k l) as [[_ ->]|(l1 & c & l2 & -> & Hk & _ & ->)]; [done|].
  rewrite !List.filter_app. simpl. by rewrite Hk, String.eqb_refl.
Qed.

Lemma MergeResults_le a b :
  let r := RequeueAfter (MergeResults a b) in
  (r = RequeueAfter a ∨ r = RequeueAfter b) ∧
  ((0 < RequeueAfter b)%Z → (0 < RequeueAfter a)%Z ∨ RequeueAfter a = 0%Z → (0 < r ≤ RequeueAfter b)%Z) ∧
  ((0 < RequeueAfter a)%Z → (0 < r ≤ RequeueAfter a)%Z) ∧
  ((RequeueAfter b ≤ 0)%Z → r = RequeueAfter a).
Proof.
  unfold MergeResults. destruct a as [a], b as [b]; simpl.
  destruct (Z.ltb_spec 0 b), (Z.eqb_spec a 0), (Z.ltb_spec b a); simpl; lia.
Qed.

(** ** Properties *)

(** On a condition list without duplicate types, [SetCondition] is an update of a
    map from types to conditions that leaves every other condition alone, in order,
    and the types stay distinct. *)
Theorem SetCondition_update l c : NoDup (cond_types l) →
  NoDup (cond_types (SetCondition l c)) ∧
  (∀ c', c' ∈ SetCondition l c → cond_Type c' = cond_Type c → c' = c) ∧ c ∈ SetCondition l c ∧
  List.filter (λ c', negb (String.eqb (cond_Type c') (cond_Type c))) (SetCondition l c) =
  List.filter (λ c', negb (String.eqb (cond_Type c') (cond_Type c))) l.
Proof.
  intros Hnd. destruct (RemoveCondition_NoDup (cond_Type c) l Hnd) as [Hnd' Hni].
  unfold SetCondition. split_and!.
  - unfold cond_types in *. rewrite map_app. apply NoDup_app. split_and!; [done| |apply NoDup_singleton].
    intros x Hx. simpl. intros ->%list_elem_of_singleton. done.
  - intros c' [Hc'| ->%list_elem_of_singleton]%elem_of_app He; [|done]. exfalso. apply Hni.
    rewrite <- He at 1. unfold cond_types. apply list_elem_of_fmap. by exists c'.
  - apply elem_of_app. right. by left.
  - rewrite List.filter_app. simpl. by rewrite String.eqb_refl, app_nil_r, RemoveCondition_other.
Qed.

Definition two_conditions : list Condition :=
  [mkCondition "Synced" "True" "r" "m" 1; mkCondition "Ready" "True" "r" "m" 2].

Lemma SetCondition_update_witness :
  SetCondition two_conditions (mkCondition "Synced" "False" "x" "y" 3) =
    [mkCondition "Ready" "True" "r" "m" 2; mkCondition "Synced" "False" "x" "y" 3] ∧
  NoDup (cond_types (SetCondition two_conditions (mkCondition "Synced" "False" "x" "y" 3))).
Proof.
  split; [reflexivity|].
  apply (SetCondition_update two_conditions (mkCondition "Synced" "False" "x" "y" 3)).
  apply (bool_decide_unpack _). reflexivity.
Defined.

(** Merging reconcile results keeps the soonest of the requests to be requeued, and
    asks for none when no result asked. *)
Theorem MergeResults_soonest rs :
  let r := RequeueAfter (foldl MergeResults no_requeue rs) in
  (r = 0%Z ∧ ∀ x, x ∈ rs → (RequeueAfter x ≤ 0)%Z) ∨
  ((0 < r)%Z ∧ (∃ x, x ∈ rs ∧ RequeueAfter x = r) ∧
    ∀ x, x ∈ rs → (0 < RequeueAfter x)%Z → (r ≤ RequeueAfter x)%Z).
Proof.
  induction rs as [|x rs IH] using rev_ind; simpl.
  { left. split; [done|]. intros x Hx. by apply not_elem_of_nil in Hx. }
  rewrite foldl_app. simpl. set (a := foldl MergeResults no_requeue rs) in *.
  destruct (MergeResults_le a x) as (Hor & H1 & H2 & H3).
  destruct (Z.ltb_spec 0 (RequeueAfter x)) as [Hx|Hx]; destruct IH as [[H0 Hall]|(Hpos & (y & Hy & Hye) & Hmin)].
  - right. specialize (H1 Hx ltac:(lia)). split; [lia|]. split.
    + exists x. split; [set_solver|lia].
    + intros z [Hz| ->%list_elem_of_singleton]%elem_of_app ?; [specialize (Hall z Hz)|]; lia.
  - right. specialize (H1 Hx ltac:(lia)). specialize (H2 Hpos). split; [lia|]. split.
    + destruct Hor as [Hor|Hor]; [exists y|exists x]; (split; [set_solver|lia]).
    + intros z [Hz| ->%list_elem_of_singleton]%elem_of_app ?; [specialize (Hmin z Hz)|]; lia.
  - left. specialize (H3 Hx). split; [lia|].
    intros z [Hz| ->%list_elem_of_singleton]%elem_of_app; [auto|done].
  - right. specialize (H3 Hx). split; [lia|]. split.
    + exists y. split; [set_solver|lia].
    + intros z [Hz| ->%list_elem_of_singleton]%elem_of_app ?; [specialize (Hmin z Hz)|]; lia.
Qed.
