(* ===== verification/Refs.v ===== *)
(** * The references between objects ([pkg/refs])

    Every namespace-bearing reference an object holds, with its namespace resolved
    against the object's own. *)

From S2P Require Import Prelude GoStr Api Errors External Sim.

Record ObjectRef := mkObjectRef {
  or_Namespace : string; or_Name : string; or_Group : string; or_Version : string;
  or_Resource : string; or_FieldPath : field_path }.

(** A [[3]string]: group, version, resource. *)
Definition remoteUsersGVR : GVR := mkGVR GroupVersion_Group GroupVersion_Version "remoteusers".
Definition remoteTargetsGVR : GVR := mkGVR GroupVersion_Group GroupVersion_Version "remotetargets".
Definition configMapsGVR : GVR := mkGVR "" "v1" "configmaps".
Definition secretsGVR : GVR := mkGVR "" "v1" "secrets".

Section Refs.
Context `{Lib}.

Definition ResolveNamespace (refNamespace ownerNamespace : string) (fieldPath : field_path)
  : result error string :=
  if negb (String.eqb refNamespace "") then Ok refNamespace
  else if String.eqb ownerNamespace "" then Err (missingRefNamespace (path_String fieldPath))
  else Ok ownerNamespace.

Record refCollector := mkCollector {
  rc_ownerNamespace : string; rc_refs : list ObjectRef; rc_err : option error }.

Definition specPath : field_path := FPath ["spec"].

Definition newRefCollector (ownerNamespace : string) : refCollector :=
  mkCollector ownerNamespace [] None.

Definition add (refNamespace name : string) (gvr : GVR) (path : field_path) (c : refCollector)
  : refCollector :=
  match rc_err c with
  | Some _ => c
  | None =>
      if String.eqb name "" then c
      else match ResolveNamespace refNamespace (rc_ownerNamespace c) path with
           | Err e => mkCollector (rc_ownerNamespace c) (rc_refs c) (Some e)
           | Panic => c
           | Ok namespace =>
               mkCollector (rc_ownerNamespace c)
                 (rc_refs c ++ [mkObjectRef namespace name (gvr_Group gvr) (gvr_Version gvr)
                                  (gvr_Resource gvr) path])%list None
           end
  end.

Definition collector_result (c : refCollector) : result error (list ObjectRef) :=
  match rc_err c with Some e => Err e | None => Ok (rc_refs c) end.

Definition add_ref (gvr : GVR) (path : field_path) (ref : ObjectReference) (c : refCollector) :=
  add (ref_Namespace ref) (ref_Name ref) gvr path c.

(** [for i, ref := range refs { ... }] of the enumerators; a nil pointer is skipped. *)
Fixpoint add_each (gvr : GVR) (path : field_path) (i : nat) (refs : list (option ObjectReference))
  (c : refCollector) : refCollector :=
  match refs with
  | [] => c
  | None :: refs' => add_each gvr path (S i) refs' c
  | Some ref :: refs' => add_each gvr path (S i) refs' (add_ref gvr (FIndex path i) ref c)
  end.

Definition RemoteSyncerRefs (spec : RemoteSyncerSpec) (ownerNamespace : string)
  : result error (list ObjectRef) :=
  let c := newRefCollector ownerNamespace in
  let c := match DefaultRemoteUserRef spec with
           | Some ref => add_ref remoteUsersGVR (FChild specPath ["defaultRemoteUserRef"]) ref c
           | None => c
           end in
  let c := match DefaultRemoteTargetRef spec with
           | Some ref => add_ref remoteTargetsGVR (FChild specPath ["defaultRemoteTargetRef"]) ref c
           | None => c
           end in
  let c := add_each configMapsGVR (FChild specPath ["excludedFieldsConfigMapsRef"]) 0
             (ExcludedFieldsConfigMapsRef spec) c in
  let c := if negb (String.eqb (ref_Name (CABundleSecretRef spec)) "")
           then add_ref secretsGVR (FChild specPath ["caBundleSecretRef"]) (CABundleSecretRef spec) c
           else c in
  let c := if negb (String.eqb (ref_Name (sops_SecretRef (SOPS spec))) "")
           then add_ref secretsGVR (FChild specPath ["sops"; "secretRef"]) (sops_SecretRef (SOPS spec)) c
           else c in
  collector_result c.

Definition RemoteUserRefs (spec : RemoteUserSpec) (ownerNamespace : string)
  : result error (list ObjectRef) :=
  let c := newRefCollector ownerNamespace in
  let c := if negb (String.eqb (ref_Name (ru_SecretRef spec)) "")
           then add_ref secretsGVR (FChild specPath ["secretRef"]) (ru_SecretRef spec) c
           else c in
  collector_result c.

Definition RemoteUserBindingRefs (spec : RemoteUserBindingSpec) (ownerNamespace : string)
  : result error (list ObjectRef) :=
  let c := newRefCollector ownerNamespace in
  let c := add_each remoteUsersGVR (FChild specPath ["remoteUserRefs"]) 0
             (map Some (rub_RemoteUserRefs spec)) c in
  let c := add_each remoteTargetsGVR (FChild specPath ["remoteTargetRefs"]) 0
             (map Some (rub_RemoteTargetRefs spec)) c in
  collector_result c.

(** ** The reference sites of a spec, and what enumerating them means *)

Definition site : Type := ObjectReference * (GVR * field_path).

Definition opt_site (gvr : GVR) (path : field_path) (r : option ObjectReference) : list site :=
  match r with Some ref => [(ref, (gvr, path))] | None => [] end.
Definition list_sites (gvr : GVR) (path : field_path) (rs : list (option ObjectReference)) : list site :=
  concat (imap (λ i r, opt_site gvr (FIndex path i) r) rs).

(** Every place of a [RemoteSyncerSpec] that names another object. *)
Definition syncer_sites (spec : RemoteSyncerSpec) : list site :=
  opt_site remoteUsersGVR (FChild specPath ["defaultRemoteUserRef"]) (DefaultRemoteUserRef spec) ++
  opt_site remoteTargetsGVR (FChild specPath ["defaultRemoteTargetRef"]) (DefaultRemoteTargetRef spec) ++
  list_sites configMapsGVR (FChild specPath ["excludedFieldsConfigMapsRef"]) (ExcludedFieldsConfigMapsRef spec) ++
  [(CABundleSecretRef spec, (secretsGVR, FChild specPath ["caBundleSecretRef"]));
   (sops_SecretRef (SOPS spec), (secretsGVR, FChild specPath ["sops"; "secretRef"]))].

Definition binding_sites (spec : RemoteUserBindingSpec) : list site :=
  list_sites remoteUsersGVR (FChild specPath ["remoteUserRefs"]) (map Some (rub_RemoteUserRefs spec)) ++
  list_sites remoteTargetsGVR (FChild specPath ["remoteTargetRefs"]) (map Some (rub_RemoteTargetRefs spec)).

Definition named (s : site) : bool := negb (String.eqb (ref_Name s.1) "").
Definition qualified (owner : string) (s : site) : bool :=
  negb (String.eqb (ref_Namespace s.1) "") || negb (String.eqb owner "").
Definition resolve (owner : string) (s : site) : ObjectRef :=
  let '(ref, (gvr, path)) := s in
  mkObjectRef (if String.eqb (ref_Namespace ref) "" then owner else ref_Namespace ref) (ref_Name ref)
    (gvr_Group gvr) (gvr_Version gvr) (gvr_Resource gvr) path.

(** The specification: all the named sites resolved, in order, or the first one that
    cannot be. *)
Definition enumerate (owner : string) (ss : list site) : result error (list ObjectRef) :=
  let ns := List.filter named ss in
  match List.filter (λ s, negb (qualified owner s)) ns with
  | [] => Ok (map (resolve owner) ns)
  | s :: _ => Err (missingRefNamespace (path_String s.2.2))
  end.

Definition add_site (c : refCollector) (s : site) : refCollector := add_ref s.2.1 s.2.2 s.1 c.

Lemma add_site_skip c s : named s = false → add_site c s = c.
Proof.
  unfold named, add_site, add_ref, add. intros ->%negb_false_iff. by destruct (rc_err c).
Qed.

Lemma add_site_err ss c e : rc_err c = Some e → foldl add_site c ss = c.
Proof.
  revert c; induction ss as [|s ss IH]; intros c He; simpl; [done|].
  replace (add_site c s) with c by (unfold add_site, add_ref, add; by rewrite He). auto.
Qed.

Lemma add_sites_enumerate owner ss acc :
  collector_result (foldl add_site (mkCollector owner acc None) ss) =
  match enumerate owner ss with Ok rs => Ok (acc ++ rs)%list | r => r end.
Proof.
  revert acc; induction ss as [|s ss IH]; intros acc; simpl.
  { unfold collector_result. simpl. by rewrite app_nil_r. }
  unfold enumerate. simpl. destruct (named s) eqn:Hn.
  2:{ rewrite add_site_skip by done. apply IH. }
  simpl. unfold add_site at 2, add_ref, add, ResolveNamespace. simpl.
  unfold named in Hn. rewrite negb_true_iff in Hn. rewrite Hn.
  unfold qualified at 1. destruct (String.eqb (ref_Namespace s.1) "") eqn:En; simpl.
  - destruct (String.eqb owner "") eqn:Eo; simpl.
    + by erewrite add_site_err.
    + rewrite IH. unfold enumerate. destruct s as [r [g p]]. simpl in *. rewrite En.
      destruct (List.filter _ (List.filter named ss)); [|done]. by rewrite <- app_assoc.
  - rewrite IH. unfold enumerate. destruct s as [r [g p]]. simpl in *. rewrite En.
    destruct (List.filter _ (List.filter named ss)); [|done]. by rewrite <- app_assoc.
Qed.

Lemma add_each_sites gvr path i refs c :
  add_each gvr path i refs c =
  foldl add_site c (concat (imap (λ j r, opt_site gvr (FIndex path (i + j)) r) refs)).
Proof.
  revert i c; induction refs as [|[r|] refs IH]; intros i c; simpl; [done| |].
  - rewrite IH. unfold add_site at 2. simpl. rewrite Nat.add_0_r. f_equal. f_equal.
    apply imap_ext. intros j x _. simpl. by rewrite Nat.add_succ_r.
  - rewrite IH. f_equal. f_equal. apply imap_ext. intros j x _. simpl. by rewrite Nat.add_succ_r.
Qed.

Lemma guarded_add_site c ref gvr path :
  (if negb (String.eqb (ref_Name ref) "") then add_ref gvr path ref c else c) =
  add_site c (ref, (gvr, path)).
Proof.
  destruct (negb _) eqn:E; [done|]. symmetry. by apply add_site_skip.
Qed.

Lemma opt_add_site c r gvr path :
  match r with Some ref => add_ref gvr path ref c | None => c end =
  foldl add_site c (opt_site gvr path r).
Proof. by destruct r. Qed.

Lemma enumerate_ok owner ss rs : enumerate owner ss = Ok rs →
  rs = map (resolve owner) (List.filter named ss) ∧
  ∀ s, s ∈ ss → named s = true → or_Namespace (resolve owner s) ≠ "".
Proof.
  unfold enumerate. destruct (List.filter _ _) as [|s l] eqn:E; [|done].
  intros [= <-]. split; [done|]. intros s Hs Hn.
  assert (Hq : qualified owner s = true).
  { destruct (qualified owner s) eqn:Eq; [done|exfalso].
    assert (Hin : In s (List.filter (λ s, negb (qualified owner s)) (List.filter named ss))).
    { apply filter_In. rewrite filter_In, Eq. by rewrite <- list_elem_of_In. }
    rewrite E in Hin. done. }
  destruct s as [r [g p]]. unfold qualified in Hq. simpl in *.
  destruct (String.eqb_spec (ref_Namespace r) ""); [|done]. destruct (String.eqb_spec owner ""); done.
Qed.

Lemma syncer_refs_eq spec owner :
  RemoteSyncerRefs spec owner = enumerate owner (syncer_sites spec).
Proof.
  unfold RemoteSyncerRefs. rewrite !guarded_add_site, !opt_add_site, add_each_sites.
  rewrite <- !foldl_app. unfold newRefCollector.
  transitivity (collector_result (foldl add_site (mkCollector owner [] None) (syncer_sites spec))).
  - unfold syncer_sites, list_sites. rewrite !foldl_app. done.
  - rewrite add_sites_enumerate. by destruct (enumerate owner (syncer_sites spec)).
Qed.

(** ** Properties *)

(** (C32) Enumerating the references of a syncer is exactly resolving the named sites of
    its spec in order: none is missed, an unset one contributes nothing, and the call
    fails exactly when the owner is cluster-scoped and a named site carries no
    namespace, reporting the path of the first such site. *)
Theorem RemoteSyncerRefs_enumerates spec owner :
  RemoteSyncerRefs spec owner = enumerate owner (syncer_sites spec).
Proof. apply syncer_refs_eq. Qed.

(** The same for the references of a binding: the RemoteUsers first, then the
    RemoteTargets. *)
Theorem RemoteUserBindingRefs_enumerates spec owner :
  RemoteUserBindingRefs spec owner = enumerate owner (binding_sites spec).
Proof.
  unfold RemoteUserBindingRefs. rewrite !add_each_sites, <- !foldl_app. unfold newRefCollector.
  rewrite add_sites_enumerate. unfold binding_sites, list_sites. simpl. by destruct (enumerate _ _).
Qed.

(** A reference that was enumerated always has a namespace, also for a cluster-scoped
    owner: [ResolveNamespace] rejects the ones that would have none. *)
Theorem refs_never_unqualified spec owner rs :
  RemoteSyncerRefs spec owner = Ok rs → Forall (λ r, or_Namespace r ≠ "" ∧ or_Name r ≠ "") rs.
Proof.
  intros Hr.
  assert (He : enumerate owner (syncer_sites spec) = Ok rs) by (by rewrite <- syncer_refs_eq).
  apply enumerate_ok in He as [-> Hns]. rewrite Forall_map, Forall_forall. intros s Hs.
  apply list_elem_of_In, filter_In in Hs as [Hs Hn]. rewrite <- list_elem_of_In in Hs.
  split; [auto|]. destruct s as [r [g p]]. unfold named in Hn. simpl in *.
  by apply negb_true_iff, String.eqb_neq in Hn.
Qed.
End Refs.

Definition ca_only_spec (ns : string) : RemoteSyncerSpec :=
  mkRemoteSyncerSpec "https://g/r.git" "main" (mkScopedResources None None []) CommitApply OneTarget
    None "" [] [None; Some (mkRef "cm-ns" "cm")] "" false None [] false BlockDefaultUser BlockPushError 1
    None None false (mkRef ns "ca") (mkSOPSConfig false (mkRef "" "")).

Lemma refs_never_unqualified_witness :
  (∃ p, RemoteSyncerRefs (ca_only_spec "") "" = Err (missingRefNamespace p)) ∧
  ∃ rs, RemoteSyncerRefs (ca_only_spec "") "team" = Ok rs ∧ length rs = 2%nat ∧
    Forall (λ r, or_Namespace r ≠ "" ∧ or_Name r ≠ "") rs.
Proof.
  split; [by eexists|]. eexists. split; [reflexivity|]. split; [reflexivity|].
  apply (refs_never_unqualified (ca_only_spec "") "team"). reflexivity.
Defined.
