(* ===== verification/Rbac.v ===== *)
(** * Authorization ([pkg/rbac])

    Subject access reviews for the references of an object. The API server decides
    a review; between two reviews the decision may change, so the specification is
    a chain of reviews, each in the state the previous one left. *)

From S2P Require Import Prelude GoStr Api Errors External Refs Sim.

Section Rbac.
Context {W : Type} `{Cluster W}.

Definition CheckAccess (user : UserInfo) (attrs : ResourceAttributes) : M error W bool :=
  create_SubjectAccessReview (mkSAR (ui_Username user) (ui_Groups user) (ui_UID user) attrs).

Definition get_attrs (ref : ObjectRef) : ResourceAttributes :=
  mkAttrs (or_Namespace ref) "get" (or_Group ref) (or_Version ref) (or_Resource ref) (or_Name ref).

Fixpoint AuthorizeRefs (user : UserInfo) (objectRefs : list ObjectRef) : M error W (option ObjectRef) :=
  match objectRefs with
  | [] => ret None
  | ref :: rest =>
      allowed ⇐ CheckAccess user (get_attrs ref);;
      if allowed then AuthorizeRefs user rest else ret (Some ref)
  end.

Definition AuthorizeCrossNamespaceRefs (user : UserInfo) (objectRefs : list ObjectRef)
    (ownerNamespace : string) (exempt : list string) : M error W (option ObjectRef) :=
  let crossNamespace := List.filter (λ ref,
    negb (String.eqb (or_Namespace ref) ownerNamespace || existsb (String.eqb (or_Namespace ref)) exempt))
    objectRefs in
  AuthorizeRefs user crossNamespace.

Definition OperationToVerb (operation : string) : result error (list string) :=
  if String.eqb operation "CREATE" then Ok ["create"]
  else if String.eqb operation "DELETE" then Ok ["delete"]
  else if String.eqb operation "UPDATE" then Ok ["update"; "patch"]
  else if String.eqb operation "CONNECT" then Ok ["connect"]
  else Err (plainError ("unsupported operation: " ++ operation)).

(** ** Specification *)

Definition reviewed (user : UserInfo) (ref : ObjectRef) (allowed : bool) (w w' : W) : Prop :=
  create_SubjectAccessReview
    (mkSAR (ui_Username user) (ui_Groups user) (ui_UID user) (get_attrs ref)) w = (Ok allowed, w').

(** Every reference reviewed in turn, and granted. *)
Inductive all_granted (user : UserInfo) : list ObjectRef → W → W → Prop :=
| granted_nil w : all_granted user [] w w
| granted_cons ref refs w w1 w2 :
    reviewed user ref true w w1 → all_granted user refs w1 w2 → all_granted user (ref :: refs) w w2.

Lemma AuthorizeRefs_granted user refs w w' :
  AuthorizeRefs user refs w = (Ok None, w') ↔ all_granted user refs w w'.
Proof.
  split.
  - revert w; induction refs as [|ref refs IH]; intros w Hr; simpl in Hr; inv_ok; [constructor|].
    destruct x; inv_ok. econstructor; [done|auto].
  - induction 1 as [|ref refs w w1 w2 Hrev _ IH]; [done|]. simpl. by rewrite (bind_ok _ _ _ _ _ Hrev).
Qed.

Lemma AuthorizeRefs_denied user refs w w' ref :
  AuthorizeRefs user refs w = (Ok (Some ref), w') ↔
  ∃ before after w1, refs = (before ++ ref :: after)%list ∧
    all_granted user before w w1 ∧ reviewed user ref false w1 w'.
Proof.
  split.
  - revert w; induction refs as [|r refs IH]; intros w Hr; simpl in Hr; inv_ok.
    destruct x.
    + apply IH in Hr as (before & after & w1 & -> & Hb & Hd).
      exists (r :: before), after, w1. split_and!; [done| |done]. by econstructor.
    + inv_ok. exists [], refs, w. split_and!; [done|constructor|done].
  - intros (before & after & w1 & -> & Hb & Hd).
    induction Hb as [w|r refs w w2 w3 Hrev _ IH]; simpl.
    + by rewrite (bind_ok _ _ _ _ _ Hd).
    + rewrite (bind_ok _ _ _ _ _ Hrev). by apply IH.
Qed.

(** One review, whatever it answers: a step of the world. *)
Definition review_step (w w' : W) : Prop := ∃ s r, create_SubjectAccessReview s w = (r, w').

(** The API server granted [attrs] to the user at some moment of a run of reviews that
    leads from [w] to [w']. *)
Definition granted_during (user : UserInfo) (attrs : ResourceAttributes) (w w' : W) : Prop :=
  ∃ w1 w2, rtc review_step w w1 ∧ CheckAccess user attrs w1 = (Ok true, w2) ∧ rtc review_step w2 w'.

Lemma review_run user attrs w r w' : CheckAccess user attrs w = (r, w') → rtc review_step w w'.
Proof. intros Hr. apply rtc_once. by eexists _, _. Qed.

Lemma granted_now user attrs w w' : CheckAccess user attrs w = (Ok true, w') → granted_during user attrs w w'.
Proof. intros Hr. exists w, w'. done. Qed.

Lemma granted_mono user attrs w w1 w2 w' :
  rtc review_step w w1 → granted_during user attrs w1 w2 → rtc review_step w2 w' →
  granted_during user attrs w w'.
Proof.
  intros H1' (a & b & Ha & Hab & Hb) H2'. exists a, b. split_and!; [by etrans|done|by etrans].
Qed.

Lemma all_granted_run user refs w w' : all_granted user refs w w' → rtc review_step w w'.
Proof.
  induction 1 as [|ref refs w w1 w2 Hrev _ IH]; [done|]. etrans; [by eapply review_run|done].
Qed.

Lemma all_granted_elem user refs w w' ref :
  all_granted user refs w w' → ref ∈ refs → granted_during user (get_attrs ref) w w'.
Proof.
  induction 1 as [|r refs w w1 w2 Hrev Hrest IH]; intros Hin; [by apply not_elem_of_nil in Hin|].
  apply elem_of_cons in Hin as [->|Hin].
  - eapply granted_mono; [done|by apply granted_now|by eapply all_granted_run].
  - eapply granted_mono; [by eapply review_run|by apply IH|done].
Qed.

Definition cross_namespace (ownerNamespace : string) (exempt : list string) (ref : ObjectRef) : Prop :=
  or_Namespace ref ≠ ownerNamespace ∧ or_Namespace ref ∉ exempt.

Lemma cross_filter_spec owner exempt refs ref :
  ref ∈ List.filter (λ ref, negb (String.eqb (or_Namespace ref) owner ||
                                  existsb (String.eqb (or_Namespace ref)) exempt)) refs ↔
  ref ∈ refs ∧ cross_namespace owner exempt ref.
Proof.
  rewrite list_elem_of_In, filter_In, <- list_elem_of_In.
  rewrite negb_true_iff, orb_false_iff, String.eqb_neq. unfold cross_namespace.
  enough (existsb (String.eqb (or_Namespace ref)) exempt = false ↔ or_Namespace ref ∉ exempt) by tauto.
  rewrite <- not_true_iff_false, existsb_exists. split.
  - intros Hn Hin. apply Hn. exists (or_Namespace ref). by rewrite <- list_elem_of_In, String.eqb_refl.
  - intros Hn (x & Hx & He%String.eqb_eq). subst. by apply Hn, list_elem_of_In.
Qed.

(** ** Properties *)

(** (C27) Authorizing references fails closed: the call answers "no reference denied"
    exactly when every reference was reviewed, in order, and granted; it answers a
    reference exactly when all the ones before it were granted and that one was
    refused. An error of a review is neither. *)
Theorem AuthorizeRefs_exact user refs w w' r :
  AuthorizeRefs user refs w = (Ok r, w') ↔
  match r with
  | None => all_granted user refs w w'
  | Some ref => ∃ before after w1, refs = (before ++ ref :: after)%list ∧
      all_granted user before w w1 ∧ reviewed user ref false w1 w'
  end.
Proof. destruct r; [apply AuthorizeRefs_denied|apply AuthorizeRefs_granted]. Qed.

(** The only references that escape a review are the ones that stay in the owner's
    namespace or point into an exempt namespace: every other one was granted to the
    user at some moment of this very run. *)
Theorem AuthorizeCrossNamespaceRefs_complete user refs owner exempt w w' :
  AuthorizeCrossNamespaceRefs user refs owner exempt w = (Ok None, w') →
  ∀ ref, ref ∈ refs →
    or_Namespace ref = owner ∨ or_Namespace ref ∈ exempt ∨ granted_during user (get_attrs ref) w w'.
Proof.
  unfold AuthorizeCrossNamespaceRefs. intros Hr ref Hin.
  apply AuthorizeRefs_granted in Hr.
  destruct (decide (or_Namespace ref = owner)); [by left|].
  destruct (decide (or_Namespace ref ∈ exempt)); [by right; left|]. right; right.
  eapply all_granted_elem; [done|]. by apply cross_filter_spec.
Qed.
End Rbac.

Definition deny_ns (ns : string) : World :=
  mkWorld empty_view 1 (λ s, negb (String.eqb (ra_Namespace (sar_Attributes s)) ns)).
Definition alice : UserInfo := mkUserInfo "alice" "u1" ["dev"] [].
Definition sec_ref (ns : string) : ObjectRef :=
  mkObjectRef ns "creds" "" "v1" "secrets" (FPath ["spec"]).

Lemma AuthorizeCrossNamespaceRefs_complete_witness :
  AuthorizeCrossNamespaceRefs alice [sec_ref "own"; sec_ref "vault"] "own" [] (deny_ns "vault") =
    (Ok (Some (sec_ref "vault")), deny_ns "vault") ∧
  AuthorizeCrossNamespaceRefs alice [sec_ref "own"; sec_ref "vault"] "own" [] (deny_ns "own") =
    (Ok None, deny_ns "own") ∧
  (or_Namespace (sec_ref "vault") = "own" ∨ or_Namespace (sec_ref "vault") ∈ [] ∨
   granted_during alice (get_attrs (sec_ref "vault")) (deny_ns "own") (deny_ns "own")).
Proof.
  split; [reflexivity|]. split; [reflexivity|].
  apply (AuthorizeCrossNamespaceRefs_complete alice [sec_ref "own"; sec_ref "vault"] "own" []
    (deny_ns "own") (deny_ns "own")); [reflexivity|]. right. left.
Defined.
