(* ===== verification/Naming.v ===== *)
(** * Names and annotations of managed objects ([pkg/naming], [pkg/managed/annotations.go]) *)

From S2P Require Import Prelude GoStr Api Errors External Sim.
From Stdlib Require Import Ascii.

(** ** Characters *)

Definition is_alnum (c : ascii) : bool := byte_in 97 122 c || byte_in 48 57 c.   (* [a-z0-9] *)
Definition label_char (c : ascii) : bool := is_alnum c || byte_is 45 c.          (* [-a-z0-9] *)
Definition allowed_char (c : ascii) : bool := label_char c || byte_is 46 c.      (* [a-z0-9.-] *)

Fixpoint all_chars (p : ascii → bool) (s : string) : bool :=
  match s with "" => true | String c s' => p c && all_chars p s' end.

Definition lower_char (c : ascii) : ascii :=
  if byte_in 65 90 c then ascii_of_nat (nat_of_ascii c + 32) else c.
Fixpoint map_chars (f : ascii → ascii) (s : string) : string :=
  match s with "" => "" | String c s' => String (f c) (map_chars f s') end.

Section Naming.
Context `{Lib}.

Definition ToLower (s : string) : string :=
  if all_chars (byte_in 0 127) s then map_chars lower_char s else ToLower_unicode s.

Definition Sanitize (input : string) : string := String.substring 0 12 (sha256_hex input).

(** [^[a-z0-9]([-a-z0-9]*[a-z0-9])?(\.[a-z0-9]([-a-z0-9]*[a-z0-9])?)*$]: labels
    separated by dots, none empty, each of label characters and beginning and ending
    with a letter or a digit. *)
Definition first_char (p : ascii → bool) (s : string) : bool :=
  match s with String c _ => p c | "" => false end.
Definition valid_label (s : string) : bool :=
  all_chars label_char s && first_char is_alnum s && first_char is_alnum (srev s).
Definition valid_pattern (s : string) : bool := forallb valid_label (Split s ".").

(** Every code point outside [a-z0-9.-] becomes one dash. *)
Fixpoint replace_forbidden (skip : nat) (s : string) : string :=
  match s with
  | "" => ""
  | String c s' =>
      match skip with
      | S k => replace_forbidden k s'
      | O => if allowed_char c then String c (replace_forbidden 0 s')
             else String "-" (replace_forbidden (rune_len s - 1) s')
      end
  end.

Definition SoftSanitize (input : string) : string :=
  if valid_pattern input then input else replace_forbidden 0 (ToLower input).

Definition repo_name (u : URL) : string := ToLower (ReplaceAll (SoftSanitize (url_Path u)) ".git" "").

Definition RemoteTargetName (upstreamRepo upstreamBranch targetRepo targetBranch : string)
  : result error string :=
  match url_Parse upstreamRepo with
  | Err e => Err e
  | Panic => Panic
  | Ok upstreamU =>
      let finish (targetRepoName : string) :=
        let upstreamRepoName := repo_name upstreamU in
        let upstreamRepoName := if (1 <=? length_str upstreamRepoName)%nat
                                then sdrop 1 upstreamRepoName else upstreamRepoName in
        Ok (upstreamRepoName ++ ("-" ++ (ToLower upstreamBranch ++ (targetRepoName ++
              ("-" ++ ToLower targetBranch))))) in
      if negb (String.eqb targetRepo "") then
        match url_Parse targetRepo with
        | Err e => Err e
        | Panic => Panic
        | Ok targetU => finish (repo_name targetU)
        end
      else finish RtManagedDefaultForkNamePrefix
  end.

Definition BranchesFromAnnotation (in_ : string) : list string :=
  let out := Split (ReplaceAll in_ " " "") "," in
  match out with
  | [s] => if String.eqb s "" then [] else out
  | _ => out
  end.

(** ** Lemmas *)

Lemma all_chars_append p a b : all_chars p (a ++ b) = all_chars p a && all_chars p b.
Proof. induction a as [|c a IH]; simpl; [done|]. by rewrite IH, andb_assoc. Qed.

Lemma all_chars_impl (p q : ascii → bool) s :
  (∀ c, p c = true → q c = true) → all_chars p s = true → all_chars q s = true.
Proof.
  intros Hpq. induction s as [|c s IH]; simpl; [done|].
  rewrite !andb_true_iff. naive_solver.
Qed.

Lemma all_chars_Join p sep l :
  all_chars p sep = true → forallb (all_chars p) l = true → all_chars p (Join l sep) = true.
Proof.
  intros Hsep. induction l as [|a l IH]; [done|]. intros Hl. simpl in Hl.
  apply andb_true_iff in Hl as [Ha Hl]. unfold Join in *.
  destruct l as [|b l]; [done|].
  rewrite concat_cons by done. by rewrite !all_chars_append, Ha, Hsep, IH.
Qed.

Lemma replace_forbidden_allowed k s : all_chars allowed_char (replace_forbidden k s) = true.
Proof.
  revert k; induction s as [|c s IH]; intros [|k]; simpl; try done.
  destruct (allowed_char c) eqn:E; simpl; [by rewrite E, IH|by rewrite IH].
Qed.

Lemma replace_forbidden_id s : all_chars allowed_char s = true → replace_forbidden 0 s = s.
Proof.
  induction s as [|c s IH]; simpl; [done|]. rewrite andb_true_iff. intros [Hc Hs].
  by rewrite Hc, IH.
Qed.

Lemma allowed_ascii c : allowed_char c = true → byte_in 0 127 c = true ∧ lower_char c = c.
Proof.
  destruct c as [[] [] [] [] [] [] [] []]; vm_compute; intros Hc;
    first [discriminate Hc | split; reflexivity].
Qed.

Lemma ToLower_allowed s : all_chars allowed_char s = true → ToLower s = s.
Proof.
  intros Hs. unfold ToLower. rewrite (all_chars_impl allowed_char) by (done || apply allowed_ascii).
  induction s as [|c s IH]; simpl in *; [done|]. apply andb_true_iff in Hs as [Hc Hs].
  by rewrite IH, (proj2 (allowed_ascii c Hc)).
Qed.

Lemma valid_pattern_allowed s : valid_pattern s = true → all_chars allowed_char s = true.
Proof.
  unfold valid_pattern. intros Hv. rewrite <- (Join_Split s ".") by done.
  apply all_chars_Join; [done|]. rewrite forallb_forall in *. intros l Hl.
  specialize (Hv l Hl). unfold valid_label in Hv. bool_hyps.
  eapply all_chars_impl; [|done]. intros c Hc. unfold allowed_char. by rewrite Hc.
Qed.

Lemma SoftSanitize_allowed s : all_chars allowed_char (SoftSanitize s) = true.
Proof.
  unfold SoftSanitize. destruct (valid_pattern s) eqn:E.
  - by apply valid_pattern_allowed.
  - apply replace_forbidden_allowed.
Qed.

(** ** Properties *)

(** [SoftSanitize] always produces characters of [a-z0-9.-] and is a projection: a
    sanitized string is left alone. *)
Theorem SoftSanitize_projection s :
  all_chars allowed_char (SoftSanitize s) = true ∧ SoftSanitize (SoftSanitize s) = SoftSanitize s.
Proof.
  split; [apply SoftSanitize_allowed|]. pose proof (SoftSanitize_allowed s) as Ha.
  unfold SoftSanitize at 1. destruct (valid_pattern (SoftSanitize s)); [done|].
  by rewrite ToLower_allowed, replace_forbidden_id.
Qed.

(** The managed name does not determine the tuple it is derived from: it depends on
    the repositories through the paths of their URLs only, and on the branches up to
    case, so the same path on two hosts, or two branches that differ in case, collide. *)
Theorem RemoteTargetName_collides up1 up2 t1 t2 b1 b2 tb1 tb2 h1 h2 p ht1 ht2 pt :
  url_Parse up1 = Ok (mkURL h1 p) → url_Parse up2 = Ok (mkURL h2 p) →
  url_Parse t1 = Ok (mkURL ht1 pt) → url_Parse t2 = Ok (mkURL ht2 pt) → t1 ≠ "" → t2 ≠ "" →
  ToLower b1 = ToLower b2 → ToLower tb1 = ToLower tb2 →
  RemoteTargetName up1 b1 t1 tb1 = RemoteTargetName up2 b2 t2 tb2.
Proof.
  unfold RemoteTargetName. intros -> -> -> -> Ht1 Ht2 -> ->.
  apply String.eqb_neq in Ht1, Ht2. by rewrite Ht1, Ht2.
Qed.
End Naming.

Lemma RemoteTargetName_collides_witness :
  RemoteTargetName "https://git.a.com/org/app.git" "main" "https://git.a.com/org/app.git" "Feature" =
    Ok "org-app-main-org-app-feature" ∧
  RemoteTargetName "https://git.a.com/org/app.git" "main" "https://git.a.com/org/app.git" "Feature" =
  RemoteTargetName "https://git.b.com/org/app.git" "main" "https://git.b.com/org/app.git" "feature".
Proof.
  split; [vm_compute; reflexivity|].
  apply (RemoteTargetName_collides _ _ _ _ _ _ _ _ "git.a.com" "git.b.com" "/org/app.git"
    "git.a.com" "git.b.com" "/org/app.git"); (reflexivity || discriminate).
Defined.

Definition branch_name (b : string) : Prop := has_byte "," b = false ∧ has_byte " " b = false.

Lemma has_byte_Join c d l : Forall (λ b, has_byte c b = false) l → d ≠ c →
  has_byte c (Join l (String d "")) = false.
Proof.
  intros Hl Hd. unfold Join. induction Hl as [|a l Ha Hl IH]; [done|].
  destruct l as [|b l]; [done|]. rewrite concat_cons by done. rewrite !has_byte_append, Ha, IH.
  simpl. destruct (Ascii.eqb_spec d c); [congruence|done].
Qed.

(** A branch list written without blanks, and without commas inside the names, reads
    back from the annotation that joins it with commas. *)
Theorem BranchesFromAnnotation_roundtrip bs :
  bs ≠ [] → bs ≠ [""] → Forall branch_name bs → BranchesFromAnnotation (Join bs ",") = bs.
Proof.
  intros Hne Hne1 Hb. unfold BranchesFromAnnotation, ReplaceAll.
  rewrite (Split_none " ").
  - change (Join [Join bs ","] "") with (Join bs ",").
    rewrite Split_Join; [|by eapply Forall_impl; [done|intros ? []]|done].
    destruct bs as [|b [|b' bs]]; [done| |done]. destruct (String.eqb_spec b ""); [by subst|done].
  - apply has_byte_Join; [|done]. by eapply Forall_impl; [done|intros ? []].
Qed.

Lemma BranchesFromAnnotation_roundtrip_witness :
  BranchesFromAnnotation "dev, main" = ["dev"; "main"] ∧
  BranchesFromAnnotation (Join ["dev"; "main"] ",") = ["dev"; "main"].
Proof.
  split; [reflexivity|]. apply BranchesFromAnnotation_roundtrip; try discriminate.
  repeat constructor.
Defined.
