(* ===== verification/Managed.v ===== *)
(** * Managed RemoteUserBindings ([pkg/managed/remoteuserbinding.go])

    The read-modify-write every policy goes through to change a managed binding, the
    operations on its reference lists, and the association of a target with all the
    managed bindings of a namespace. *)

From S2P Require Import Prelude GoStr Api Errors External Sim.

Definition set_target_refs (refs : list ObjectReference) (rub : RemoteUserBinding) : RemoteUserBinding :=
  mkRUB (rub_Meta rub) (mkRUBSpec (rub_Subject (rub_Spec rub)) (rub_RemoteUserRefs (rub_Spec rub)) refs)
    (rub_Status rub).
Definition set_user_refs (refs : list ObjectReference) (rub : RemoteUserBinding) : RemoteUserBinding :=
  mkRUB (rub_Meta rub) (mkRUBSpec (rub_Subject (rub_Spec rub)) refs (rub_RemoteTargetRefs (rub_Spec rub)))
    (rub_Status rub).

Definition refersTo (rub : RemoteUserBinding) (ref : ObjectReference) (rtName : string) : bool :=
  String.eqb (ref_Name ref) rtName &&
  (String.eqb (ref_Namespace ref) "" || String.eqb (ref_Namespace ref) (om_Namespace (rub_Meta rub))).

Definition AddRemoteTargetRef (rtName : string) (rub : RemoteUserBinding) : RemoteUserBinding :=
  if existsb (λ ref, refersTo rub ref rtName) (rub_RemoteTargetRefs (rub_Spec rub)) then rub
  else set_target_refs (rub_RemoteTargetRefs (rub_Spec rub) ++ [mkRef "" rtName])%list rub.

Definition RemoveRemoteTargetRef (rtName : string) (rub : RemoteUserBinding) : RemoteUserBinding :=
  set_target_refs
    (List.filter (λ ref, negb (refersTo rub ref rtName)) (rub_RemoteTargetRefs (rub_Spec rub))) rub.

(** Whether both reference lists are empty: [len(...) == 0 && len(...) == 0]. *)
Definition no_refs (rub : RemoteUserBinding) : bool :=
  match rub_RemoteUserRefs (rub_Spec rub), rub_RemoteTargetRefs (rub_Spec rub) with
  | [], [] => true
  | _, _ => false
  end.

Definition managed_labels : gmap string string := {[ManagedByLabelKey := ManagedByLabelValue]}.

Section Managed.
Context {W : Type} `{Cluster W} `{Lib}.

(** One attempt of the retried closure. *)
Definition mutate_once (name : NamespacedName) (mutate : RemoteUserBinding → M error W RemoteUserBinding)
  : M error W unit :=
  rub ⇐ client_Get name;;
  rub ⇐ mutate rub;;
  if no_refs rub then client_Delete rub
  else client_Update rub;;; ret tt.

Definition MutateOrDeleteRemoteUserBinding (name : NamespacedName)
    (mutate : RemoteUserBinding → M error W RemoteUserBinding) : M error W unit :=
  RetryOnConflict (mutate_once name mutate).

Definition managed_list (namespace : string) : M error W (list RemoteUserBinding) :=
  client_List (mkListOptions namespace (Some (SelectorFromSet managed_labels))).

Definition CreateRemoteTargetAndAssociate (remoteTarget : RemoteTarget) : M error W unit :=
  r ⇐ attempt (client_Create remoteTarget);;
  match r with
  | inr e => if negb (IsAlreadyExists e) then throw e else ret tt
  | inl _ => ret tt
  end;;;
  rubs ⇐ managed_list (om_Namespace (rt_Meta remoteTarget));;
  for_each (λ rub,
    MutateOrDeleteRemoteUserBinding (object_key rub)
      (λ r, ret (AddRemoteTargetRef (om_Name (rt_Meta remoteTarget)) r))) rubs.

Definition RemoveRemoteTargetRefFromRUBs (namespace rtName : string) : M error W unit :=
  rubs ⇐ managed_list namespace;;
  for_each (λ rub,
    r ⇐ attempt (MutateOrDeleteRemoteUserBinding (object_key rub)
                  (λ r, ret (RemoveRemoteTargetRef rtName r)));;
    match r with
    | inr e => if IsNotFound e then ret tt else throw e
    | inl _ => ret tt
    end) rubs.
End Managed.

(** ** The reference lists *)

Definition refers (rub : RemoteUserBinding) (rtName : string) : bool :=
  existsb (λ ref, refersTo rub ref rtName) (rub_RemoteTargetRefs (rub_Spec rub)).

Lemma refersTo_set rub refs ref n : refersTo (set_target_refs refs rub) ref n = refersTo rub ref n.
Proof. done. Qed.

Lemma refers_set_meta rub m n : om_Namespace m = om_Namespace (rub_Meta rub) →
  refers (set_meta m rub) n = refers rub n.
Proof. unfold refers, refersTo. simpl. by intros ->. Qed.

Lemma refers_stamp rub rv n : refers (stamp rv rub) n = refers rub n.
Proof. unfold stamp. by apply refers_set_meta. Qed.

Lemma refersTo_own rub a n : refersTo rub (mkRef "" a) n = String.eqb a n.
Proof. unfold refersTo. simpl. by rewrite andb_true_r. Qed.

Lemma add_refers rub a n :
  refers (AddRemoteTargetRef a rub) n = refers rub n || String.eqb a n.
Proof.
  unfold AddRemoteTargetRef. fold (refers rub a). destruct (refers rub a) eqn:E.
  - destruct (String.eqb_spec a n) as [->|]; [by rewrite E|by rewrite orb_false_r].
  - unfold refers. simpl. rewrite existsb_app. simpl. by rewrite refersTo_set, refersTo_own, orb_false_r.
Qed.

Lemma remove_refers rub a n :
  refers (RemoveRemoteTargetRef a rub) n = refers rub n && negb (String.eqb a n).
Proof.
  unfold refers, RemoveRemoteTargetRef. simpl.
  induction (rub_RemoteTargetRefs (rub_Spec rub)) as [|r l IH]; simpl; [done|].
  assert (Hr : refersTo rub r n && negb (String.eqb a n) =
               refersTo rub r n && negb (refersTo rub r a)).
  { unfold refersTo. destruct (String.eqb_spec (ref_Name r) n) as [->|]; simpl; [|done].
    destruct (String.eqb_spec (ref_Namespace r) ""), (String.eqb_spec (ref_Namespace r) (om_Namespace (rub_Meta rub)));
      simpl; rewrite ?andb_true_r, ?andb_false_r, ?(String.eqb_sym a n); done. }
  rewrite andb_orb_distrib_l, <- IH, Hr.
  destruct (refersTo rub r a) eqn:E; simpl; rewrite ?andb_false_r, ?andb_true_r; done.
Qed.

Lemma add_key n rub : object_key (AddRemoteTargetRef n rub) = object_key rub.
Proof. unfold AddRemoteTargetRef. by destruct (existsb _ _). Qed.
Lemma add_meta n rub : rub_Meta (AddRemoteTargetRef n rub) = rub_Meta rub.
Proof. unfold AddRemoteTargetRef. by destruct (existsb _ _). Qed.
Lemma add_not_empty n rub : no_refs (AddRemoteTargetRef n rub) = false.
Proof.
  unfold no_refs, AddRemoteTargetRef.
  destruct (rub_RemoteUserRefs (rub_Spec rub)) eqn:Eu;
    destruct (existsb _ _) eqn:E; simpl; rewrite ?Eu; try done.
  - by destruct (rub_RemoteTargetRefs (rub_Spec rub)).
  - by destruct (rub_RemoteTargetRefs (rub_Spec rub)).
Qed.

(** ** Concurrent reconcilers

    Several reconcilers run [MutateOrDeleteRemoteUserBinding] on one binding. Each
    call to the API server is atomic: a [Get] takes a copy, an [Update] is accepted
    when the copy still has the stored resource version and refused otherwise (and
    retried from the [Get]), a [Delete] names the object only. *)
Inductive intent := IAdd (rtName : string) | IRemove (rtName : string).
Definition apply_intent (i : intent) : RemoteUserBinding → RemoteUserBinding :=
  match i with IAdd n => AddRemoteTargetRef n | IRemove n => RemoveRemoteTargetRef n end.

Inductive phase := Start | Holding (copy : RemoteUserBinding) | Done | Failed.

Record Race := mkRace {
  ra_stored : option RemoteUserBinding;
  ra_next : nat;                         (** the next resource version *)
  ra_threads : list (intent * phase) }.

Definition rub_rv (r : RemoteUserBinding) : string := om_ResourceVersion (rub_Meta r).

Inductive step : Race → Race → Prop :=
| step_get o v ts i it : ts !! i = Some (it, Start) →
    step (mkRace (Some o) v ts) (mkRace (Some o) v (<[i := (it, Holding o)]> ts))
| step_get_missing v ts i it : ts !! i = Some (it, Start) →
    step (mkRace None v ts) (mkRace None v (<[i := (it, Failed)]> ts))
| step_update o v ts i it c : ts !! i = Some (it, Holding c) →
    no_refs (apply_intent it c) = false → rub_rv c = rub_rv o →
    step (mkRace (Some o) v ts)
      (mkRace (Some (stamp (pretty v) (apply_intent it c))) (S v) (<[i := (it, Done)]> ts))
| step_conflict o v ts i it c : ts !! i = Some (it, Holding c) →
    no_refs (apply_intent it c) = false → rub_rv c ≠ rub_rv o →
    step (mkRace (Some o) v ts) (mkRace (Some o) v (<[i := (it, Start)]> ts))
| step_delete o v ts i it c : ts !! i = Some (it, Holding c) →
    no_refs (apply_intent it c) = true →
    step (mkRace o v ts) (mkRace None v (<[i := (it, match o with Some _ => Done | None => Failed end)]> ts))
| step_update_missing v ts i it c : ts !! i = Some (it, Holding c) →
    no_refs (apply_intent it c) = false →
    step (mkRace None v ts) (mkRace None v (<[i := (it, Failed)]> ts)).

Definition race_start (o : RemoteUserBinding) (its : list intent) : Race :=
  mkRace (Some (stamp (pretty 0%nat) o)) 1 (map (λ i, (i, Start)) its).

Definition adder (i : intent) : Prop := match i with IAdd _ => True | IRemove _ => False end.

(** What holds along a run of adders. *)
Record race_inv (o0 : RemoteUserBinding) (its : list intent) (s : Race) : Prop := {
  ri_its : (ra_threads s).*1 = its;
  ri_stored : ∃ o k, ra_stored s = Some o ∧ rub_rv o = pretty k ∧ (k < ra_next s)%nat ∧
    (∀ n, refers o0 n = true → refers o n = true) ∧
    (∀ n, (IAdd n, Done) ∈ ra_threads s → refers o n = true) ∧
    (∀ it c, (it, Holding c) ∈ ra_threads s →
       (∃ j, rub_rv c = pretty j ∧ (j < ra_next s)%nat) ∧ (rub_rv c = rub_rv o → c = o)) }.

Lemma fst_insert {A B} (ts : list (A * B)) i a b c :
  ts !! i = Some (a, b) → (<[i := (a, c)]> ts).*1 = ts.*1.
Proof.
  intros Hi. rewrite list_fmap_insert. simpl. apply list_insert_id.
  rewrite list_lookup_fmap, Hi. done.
Qed.

Lemma elem_insert {A} (l : list A) i x y : y ∈ <[i := x]> l → y = x ∨ y ∈ l.
Proof.
  intros (j & Hj)%list_elem_of_lookup.
  destruct (decide (i < length l)%nat) as [Hl|Hl].
  - apply list_lookup_insert_Some in Hj as [(-> & -> & _)|[_ Hj]]; [by left|].
    right. by eapply list_elem_of_lookup_2.
  - right. rewrite list_insert_ge in Hj by lia. by eapply list_elem_of_lookup_2.
Qed.

Lemma race_step_inv o0 its s s' :
  Forall adder its → race_inv o0 its s → step s s' → race_inv o0 its s'.
Proof.
  intros Had [Hits (o & k & Ho & Hrv & Hk & Hini & Hdone & Hcopies)] Hst.
  assert (Hthr : ∀ i it p, ra_threads s !! i = Some (it, p) → adder it).
  { intros i it p Hi. rewrite Forall_forall in Had. apply Had. rewrite <- Hits.
    apply list_elem_of_fmap. exists (it, p). split; [done|]. by eapply list_elem_of_lookup_2. }
  destruct Hst as [o' v ts i it Hi|?|o' v ts i it c Hi Hne He|o' v ts i it c Hi Hne He|o' v ts i it c Hi Hd|?];
    simpl in *; simplify_eq.
  - split; [simpl; by erewrite fst_insert|]. exists o, k. simpl. split_and!; auto.
    + intros n [[=]|Hn]%elem_insert. auto.
    + intros it' c [[= -> ->]|Hn]%elem_insert; [|eauto]. split; [by exists k|done].
  - destruct (Hcopies it c ltac:(by eapply list_elem_of_lookup_2)) as [_ Heq].
    specialize (Heq He) as ->. split; [simpl; by erewrite fst_insert|].
    specialize (Hthr _ _ _ Hi). destruct it as [n|]; [|done]. simpl in *.
    exists (stamp (pretty v) (AddRemoteTargetRef n o)), v. simpl. split_and!; [done|done|lia| | |].
    + intros m Hm. rewrite refers_stamp, add_refers, (Hini m Hm). done.
    + intros m [[= ->]|Hm]%elem_insert; rewrite refers_stamp, add_refers;
        [by rewrite String.eqb_refl, orb_true_r|by rewrite (Hdone m Hm)].
    + intros it' c [[=]|Hm]%elem_insert. destruct (Hcopies _ _ Hm) as [(j & Hj & Hlt) _].
      split; [exists j; split; [done|lia]|]. unfold rub_rv at 2, stamp. simpl.
      rewrite Hj. intros Hp%(inj pretty). lia.
  - split; [simpl; by erewrite fst_insert|]. exists o, k. simpl. split_and!; auto.
    + intros n [[=]|Hn]%elem_insert. auto.
    + intros it' c' [[=]|Hn]%elem_insert. eauto.
  - specialize (Hthr _ _ _ Hi). destruct it as [n|]; [|done].
    simpl in Hd. by rewrite add_not_empty in Hd.
Qed.

Lemma race_start_inv o its : race_inv (stamp (pretty 0%nat) o) its (race_start o its).
Proof.
  split; simpl.
  - rewrite <- list_fmap_compose. apply list_fmap_id.
  - exists (stamp (pretty 0%nat) o), 0%nat. split_and!; [done|done|lia|done| |].
    + intros n (i & [=] & _)%list_elem_of_fmap.
    + intros it c (i & [=] & _)%list_elem_of_fmap.
Qed.

(** ** Association on a healthy server *)

Section Associate.
Context {W : Type} `{ApiServer W, Lib, !Lib_laws}.

Abbreviation rubs w := (v_rub (view w)).

(** A mutation that leaves the metadata alone, on a binding nobody is deleting. *)
Definition pure_mutation (f : RemoteUserBinding → RemoteUserBinding) : Prop :=
  ∀ r, rub_Meta (f r) = rub_Meta r.
Definition mutable (f : RemoteUserBinding → RemoteUserBinding) (r : RemoteUserBinding) : Prop :=
  om_DeletionTimestamp (rub_Meta r) = None ∧ (no_refs (f r) = true → om_Finalizers (rub_Meta r) = []).

(** What the mutation leaves of a binding, [rv] being the version stamped. *)
Definition mutated (f : RemoteUserBinding → RemoteUserBinding) (rv : string) (r : RemoteUserBinding)
  : option RemoteUserBinding :=
  if no_refs (f r) then None else Some (stamp rv (f r)).

Lemma mutate_one_at mutate f r w :
  mutate r w = (Ok (f r), w) → rub_Meta (f r) = rub_Meta r → rubs w !! object_key r = Some r → mutable f r →
  ∃ rv w', MutateOrDeleteRemoteUserBinding (object_key r) mutate w = (Ok tt, w') ∧
    view w' = v_set (partial_alter (λ _, mutated f rv r) (object_key r) (rubs w)) (view w).
Proof.
  intros Hm Hf Hk [Hdel Hfin].
  assert (Hkey : object_key (f r) = object_key r) by (unfold object_key; simpl; by rewrite Hf).
  assert (Hg : client_Get (object_key r) w = (Ok r, w)) by (by apply get_found).
  destruct (no_refs (f r)) eqn:E.
  - destruct (delete_found (f r) r w) as (w' & Hd & Hv); [by rewrite Hkey|by apply Hfin|].
    exists "", w'. unfold mutated. rewrite E. rewrite Hkey in Hv. split; [|exact Hv].
    apply retry_ok. unfold mutate_once. by rewrite (bind_ok _ _ _ _ _ Hg), (bind_ok _ _ _ _ _ Hm), E.
  - destruct (update_current (f r) r w) as (rv & w' & Hu & Hv).
    { by rewrite Hkey. } { simpl. by rewrite Hf. } { done. }
    exists rv, w'. unfold mutated. rewrite E. rewrite Hkey in Hv. split; [|exact Hv].
    apply retry_ok. unfold mutate_once. rewrite (bind_ok _ _ _ _ _ Hg), (bind_ok _ _ _ _ _ Hm), E.
    by rewrite (bind_ok _ _ _ _ _ Hu).
Qed.

Lemma mutate_one f r w :
  pure_mutation f → rubs w !! object_key r = Some r → mutable f r →
  ∃ rv w', MutateOrDeleteRemoteUserBinding (object_key r) (λ r, ret (f r)) w = (Ok tt, w') ∧
    view w' = v_set (partial_alter (λ _, mutated f rv r) (object_key r) (rubs w)) (view w).
Proof. intros Hf. by apply mutate_one_at. Qed.

(** What a loop over the bindings of [l] leaves of the store. *)
Definition mutated_at (f : RemoteUserBinding → RemoteUserBinding) (sel : RemoteUserBinding → bool)
    (m m' : gmap NamespacedName RemoteUserBinding) : Prop :=
  ∀ k, match m !! k with
       | None => m' !! k = None
       | Some r => if sel r then ∃ rv, m' !! k = mutated f rv r else m' !! k = Some r
       end.

Lemma mutate_loop f (body : RemoteUserBinding → M error W unit) l w :
  pure_mutation f →
  (∀ r w w', MutateOrDeleteRemoteUserBinding (object_key r) (λ r, ret (f r)) w = (Ok tt, w') →
     body r w = (Ok tt, w')) →
  keyed (rubs w) → NoDup (map object_key l) →
  (∀ r, r ∈ l → rubs w !! object_key r = Some r ∧ mutable f r) →
  ∃ m' w', for_each body l w = (Ok tt, w') ∧ view w' = v_set m' (view w) ∧
    mutated_at f (λ r, bool_decide (object_key r ∈ map object_key l)) (rubs w) m'.
Proof.
  intros Hf Hbody Hkeyed. revert w Hkeyed; induction l as [|r l IH]; intros w Hkeyed Hnd Hl; simpl.
  { exists (rubs w), w. split_and!; [done|by destruct (view w)|].
    intros k. by destruct (rubs w !! k). }
  simpl in Hnd. apply NoDup_cons in Hnd as [Hr Hnd].
  destruct (Hl r ltac:(left)) as [Hk Hmut].
  destruct (mutate_one f r w Hf Hk Hmut) as (rv & w1 & Hrun & Hv1).
  assert (Hm1 : rubs w1 = partial_alter (λ _, mutated f rv r) (object_key r) (rubs w)) by (by rewrite Hv1).
  assert (Hother : ∀ k, k ≠ object_key r → rubs w1 !! k = rubs w !! k).
  { intros k Hne. rewrite Hm1. by apply lookup_partial_alter_ne. }
  destruct (IH w1) as (m' & w' & Hrun' & Hv' & Hass).
  { intros k r' Hk'. destruct (decide (k = object_key r)) as [->|Hne];
      [|by apply Hkeyed; rewrite <- Hother].
    rewrite Hm1, lookup_partial_alter_eq in Hk'. unfold mutated in Hk'.
    destruct (no_refs (f r)); simplify_eq. unfold object_key, stamp. simpl. unfold meta_key. simpl.
    by rewrite Hf. }
  { done. }
  { intros r' Hr'. destruct (Hl r' ltac:(by right)) as [Hk' Hd']. split; [|done].
    rewrite Hother; [done|]. intros He. apply Hr. rewrite <- He.
    apply list_elem_of_fmap. by exists r'. }
  exists m', w'. rewrite (bind_ok _ _ _ _ _ (Hbody _ _ _ Hrun)). split_and!; [done|by rewrite Hv', Hv1|].
  intros k. specialize (Hass k). destruct (decide (k = object_key r)) as [->|Hne].
  - rewrite Hm1, lookup_partial_alter_eq in Hass. rewrite Hk.
    rewrite bool_decide_eq_true_2 by (by left). exists rv.
    unfold mutated in *. destruct (no_refs (f r)); [done|].
    rewrite bool_decide_eq_false_2 in Hass; [done|].
    unfold object_key, stamp. simpl. unfold meta_key. simpl. by rewrite Hf.
  - rewrite Hother in Hass by done. destruct (rubs w !! k) as [r'|] eqn:Hk'; [|done].
    rewrite (bool_decide_ext _ (object_key r' ∈ map object_key l)); [done|].
    rewrite elem_of_cons. rewrite (Hkeyed _ _ Hk'). naive_solver.
Qed.

(** The bindings an association touches. *)
Definition managed_in (namespace : string) (r : RemoteUserBinding) : bool :=
  list_matches (mkListOptions namespace (Some (SelectorFromSet managed_labels))) (rub_Meta r).

Lemma managed_in_spec namespace r : namespace ≠ "" →
  managed_in namespace r = true ↔
  om_Namespace (rub_Meta r) = namespace ∧
  om_Labels (rub_Meta r) !! ManagedByLabelKey = Some ManagedByLabelValue.
Proof.
  intros Hns. unfold managed_in, list_matches. simpl.
  apply String.eqb_neq in Hns. rewrite Hns. simpl.
  rewrite andb_true_iff, String.eqb_eq, from_set_matches. unfold managed_labels. split.
  - intros [Hn Hl]. split; [done|]. apply Hl. apply lookup_singleton_eq.
  - intros [Hn Hl]. split; [done|]. intros k v [<- <-]%lookup_singleton_Some. done.
Qed.

(** The loop over the managed bindings of a namespace, in the server's order. *)
Lemma mutate_managed f (body : RemoteUserBinding → M error W unit) namespace w :
  pure_mutation f →
  (∀ r w w', MutateOrDeleteRemoteUserBinding (object_key r) (λ r, ret (f r)) w = (Ok tt, w') →
     body r w = (Ok tt, w')) →
  keyed (rubs w) →
  map_Forall (λ _ r, managed_in namespace r = true → mutable f r) (rubs w) →
  ∃ m' w', (rubs ⇐ managed_list namespace;; for_each body rubs) w = (Ok tt, w') ∧
    view w' = v_set m' (view w) ∧ mutated_at f (managed_in namespace) (rubs w) m'.
Proof.
  intros Hf Hbody Hkeyed Hmut.
  destruct (list_spec (T := RemoteUserBinding)
      (mkListOptions namespace (Some (SelectorFromSet managed_labels))) w ltac:(exact Hkeyed))
    as (l & Hl & Hnd & Hin).
  change (v_get (view w)) with (rubs w) in Hin.
  destruct (mutate_loop f body l w Hf Hbody Hkeyed Hnd) as (m' & w' & Hrun & Hv & Hass).
  - intros r [Hk Hm]%Hin. split; [done|]. by apply (Hmut _ _ Hk).
  - exists m', w'. split_and!; [|done|].
    + unfold managed_list. by rewrite (bind_ok _ _ _ _ _ Hl).
    + intros k. specialize (Hass k). destruct (rubs w !! k) as [r|] eqn:Hk; [|done].
      pose proof (Hkeyed _ _ Hk) as Hkr. rewrite Hkr in Hass.
      destruct (managed_in namespace r) eqn:Em.
      * rewrite bool_decide_eq_true_2 in Hass; [done|]. apply list_elem_of_fmap.
        exists r. by rewrite Hin, Hkr.
      * rewrite bool_decide_eq_false_2 in Hass; [done|].
        intros (r' & He & Hr')%list_elem_of_fmap. apply Hin in Hr' as [Hk' Hm'].
        rewrite <- He in Hk'. assert (r' = r) as -> by congruence.
        change (managed_in namespace r = true) in Hm'. congruence.
Qed.

Lemma remove_meta n : pure_mutation (RemoveRemoteTargetRef n).
Proof. intros r. reflexivity. Qed.

Lemma RemoveRemoteTargetRefFromRUBs_run namespace n w :
  keyed (rubs w) →
  map_Forall (λ _ r, managed_in namespace r = true → mutable (RemoveRemoteTargetRef n) r) (rubs w) →
  ∃ m' w', RemoveRemoteTargetRefFromRUBs namespace n w = (Ok tt, w') ∧
    view w' = v_set m' (view w) ∧
    mutated_at (RemoveRemoteTargetRef n) (managed_in namespace) (rubs w) m'.
Proof.
  intros Hkeyed Hmut. apply mutate_managed; [apply remove_meta| |done|done].
  intros r w1 w2 Hr. unfold attempt, bind. by rewrite Hr.
Qed.

(** (C25) Associating a target on a healthy server: the call succeeds; the target is there
    afterwards, as it was when it was already there, else as it was given; every binding syngit
    manages in the target's namespace is what it was with the reference added, unless it had
    it already; and nothing else of the cluster has changed. *)
Theorem CreateRemoteTargetAndAssociate_spec rt w :
  om_Namespace (rt_Meta rt) ≠ "" → keyed (rubs w) →
  map_Forall (λ _ r, managed_in (om_Namespace (rt_Meta rt)) r = true →
                     om_DeletionTimestamp (rub_Meta r) = None) (rubs w) →
  ∃ rts' rubs' w', CreateRemoteTargetAndAssociate rt w = (Ok tt, w') ∧
    view w' = v_set (T := RemoteUserBinding) rubs' (v_set (T := RemoteTarget) rts' (view w)) ∧
    match v_rt (view w) !! object_key rt with
    | Some _ => rts' = v_rt (view w)
    | None => ∃ rv, rts' = <[object_key rt := stamp rv rt]> (v_rt (view w))
    end ∧
    ∀ k, match rubs w !! k with
         | None => rubs' !! k = None
         | Some r =>
             if managed_in (om_Namespace (rt_Meta rt)) r
             then ∃ rv, rubs' !! k = Some (stamp rv (AddRemoteTargetRef (om_Name (rt_Meta rt)) r))
             else rubs' !! k = Some r
         end.
Proof.
  intros Hns Hkeyed Hdel.
  assert (Hcreate : ∃ r w1 rts', attempt (client_Create rt) w = (Ok r, w1) ∧
    (∀ e, r = inr e → IsAlreadyExists e = true) ∧ view w1 = v_set (T := RemoteTarget) rts' (view w) ∧
    match v_rt (view w) !! object_key rt with
    | Some _ => rts' = v_rt (view w)
    | None => ∃ rv, rts' = <[object_key rt := stamp rv rt]> (v_rt (view w))
    end).
  { unfold attempt. destruct (v_rt (view w) !! object_key rt) as [rt0|] eqn:E.
    - destruct (create_exists rt w) as [msg ->]; [by exists rt0|].
      exists (inr (apiError AlreadyExists msg)), w, (v_rt (view w)).
      split_and!; [done| |by destruct (view w)|done]. by intros e [= <-].
    - destruct (create_new rt w ltac:(exact E)) as (rv & w1 & -> & Hv1).
      exists (inl (stamp rv rt)), w1, (<[object_key rt := stamp rv rt]> (v_rt (view w))).
      split_and!; [done|done|exact Hv1|by exists rv]. }
  destruct Hcreate as (r & w1 & rts' & Hc & Herr & Hv1 & Hrts). exists rts'.
  assert (Hrubs : rubs w1 = rubs w) by (by rewrite Hv1).
  rewrite <- Hrubs in Hkeyed, Hdel.
  destruct (mutate_managed (AddRemoteTargetRef (om_Name (rt_Meta rt))) _ (om_Namespace (rt_Meta rt)) w1
    (add_meta _) (λ r w w' Hr, Hr) Hkeyed) as (m' & w' & Hrun & Hv & Hass).
  { intros k r0 Hk Hm. split; [by apply (Hdel _ _ Hk)|]. by rewrite add_not_empty. }
  exists m', w'. rewrite Hv, Hv1. split_and!; [|done|done|].
  - unfold CreateRemoteTargetAndAssociate. rewrite (bind_ok _ _ _ _ _ Hc).
    destruct r as [?|e]; [|rewrite (Herr e eq_refl)]; simpl; rewrite bind_ret; exact Hrun.
  - intros k. specialize (Hass k). rewrite Hrubs in Hass. destruct (rubs w !! k) as [r0|]; [|done].
    destruct (managed_in _ r0); [|done]. destruct Hass as (rv & Hk). unfold mutated in Hk.
    rewrite add_not_empty in Hk. by exists rv.
Qed.
End Associate.

(** ** Properties of the race *)

(** (C14) Reconcilers that add references concurrently merge: along any interleaving of
    their reads and writes the binding stays, keeps every reference it had, and has
    the reference of every reconciler that reported success. *)
Theorem concurrent_adds_merge o its s :
  Forall adder its → rtc step (race_start o its) s →
  ∃ o', ra_stored s = Some o' ∧ (∀ n, refers o n = true → refers o' n = true) ∧
    ∀ n, (IAdd n, Done) ∈ ra_threads s → refers o' n = true.
Proof.
  intros Had Hr.
  assert (Hinv : race_inv (stamp (pretty 0%nat) o) its s).
  { revert Hr. generalize (race_start_inv o its). generalize (race_start o its). intros s0 Hs0 Hr.
    induction Hr as [|s0 s1 s2 Hst Hr IH]; [done|]. apply IH. by eapply race_step_inv. }
  destruct Hinv as [_ (o' & k & Hst & _ & _ & Hini & Hdone & _)]. exists o'.
  split_and!; [done| |done]. intros n Hn. apply Hini. by rewrite refers_stamp.
Qed.

Definition rub_with (targets : list string) : RemoteUserBinding :=
  mkRUB (new_meta "associated-rub-alice" "team" managed_labels)
    (mkRUBSpec (mkSubject "User" "alice" "") [] (map (mkRef "") targets))
    (mkRUBStatus [] "" [] "").

(** One interleaving in which the second reconciler loses its first update. *)
Lemma conflict_schedule :
  rtc step (race_start (rub_with ["x"]) [IAdd "a"; IAdd "b"])
    (mkRace (Some (stamp "2" (rub_with ["x"; "a"; "b"]))) 3 [(IAdd "a", Done); (IAdd "b", Done)]).
Proof.
  eapply rtc_l; [by eapply (step_get _ _ _ 0)|]. eapply rtc_l; [by eapply (step_get _ _ _ 1)|].
  eapply rtc_l; [by eapply (step_update _ _ _ 0)|]. eapply rtc_l; [by eapply (step_conflict _ _ _ 1)|].
  eapply rtc_l; [by eapply (step_get _ _ _ 1)|]. eapply rtc_l; [by eapply (step_update _ _ _ 1)|].
  apply rtc_refl.
Qed.

Lemma concurrent_adds_merge_witness :
  ∃ o', Some (stamp "2" (rub_with ["x"; "a"; "b"])) = Some o' ∧
    (∀ n, refers (rub_with ["x"]) n = true → refers o' n = true) ∧
    ∀ n, (IAdd n, Done) ∈ [(IAdd "a", Done); (IAdd "b", Done)] → refers o' n = true.
Proof.
  apply (concurrent_adds_merge (rub_with ["x"]) [IAdd "a"; IAdd "b"] _ ltac:(repeat constructor)
    conflict_schedule).
Defined.

(** A removal that empties a binding deletes it by name, whatever version is stored:
    an addition that another reconciler completed in between is lost, though both
    reconcilers succeed. *)
Theorem delete_loses_concurrent_add o a b :
  no_refs (RemoveRemoteTargetRef a o) = true →
  ∃ s, rtc step (race_start o [IRemove a; IAdd b]) s ∧
    ra_threads s = [(IRemove a, Done); (IAdd b, Done)] ∧ ra_stored s = None.
Proof.
  intros Hne. eexists. split; [|split].
  - eapply rtc_l; [by eapply (step_get _ _ _ 0)|]. eapply rtc_l; [by eapply (step_get _ _ _ 1)|].
    eapply rtc_l; [eapply (step_update _ _ _ 1); [done|apply add_not_empty|done]|].
    eapply rtc_l; [eapply (step_delete _ _ _ 0); [done|]|apply rtc_refl]. exact Hne.
  - done.
  - done.
Qed.

Lemma delete_loses_concurrent_add_witness :
  no_refs (RemoveRemoteTargetRef "a" (rub_with ["a"])) = true ∧
  ∃ s, rtc step (race_start (rub_with ["a"]) [IRemove "a"; IAdd "b"]) s ∧
    ra_threads s = [(IRemove "a", Done); (IAdd "b", Done)] ∧ ra_stored s = None.
Proof. split; [reflexivity|]. apply delete_loses_concurrent_add. reflexivity. Defined.

Definition team_world : World :=
  world_of (mkView ∅ {[mkNN "team" "associated-rub-alice" := rub_with ["x"]]} ∅ ∅ ∅ ∅ ∅ ∅).
Definition team_target : RemoteTarget :=
  mkRemoteTarget (new_meta "rt-main" "team" managed_labels)
    (mkRemoteTargetSpec "https://g/r.git" "main" "https://g/r.git" "main" "") [].

Lemma CreateRemoteTargetAndAssociate_spec_witness :
  ∃ rts' rubs' (w' : World), CreateRemoteTargetAndAssociate team_target team_world = (Ok tt, w') ∧
    view w' = v_set (T := RemoteUserBinding) rubs' (v_set (T := RemoteTarget) rts' (view team_world)) ∧
    (∃ rv, rts' = <[object_key team_target := stamp rv team_target]> (v_rt (view team_world))) ∧
    ∃ rv, rubs' !! mkNN "team" "associated-rub-alice" = Some (stamp rv (rub_with ["x"; "rt-main"])).
Proof.
  destruct (CreateRemoteTargetAndAssociate_spec team_target team_world) as (rts' & rubs' & w' & Hrun & Hv & Hrt & Hk).
  - done.
  - apply map_Forall_singleton. reflexivity.
  - apply map_Forall_singleton. reflexivity.
  - exists rts', rubs', w'. split; [exact Hrun|]. split; [exact Hv|]. split; [exact Hrt|].
    exact (Hk (mkNN "team" "associated-rub-alice")).
Defined.
