(* ===== verification/Policy.v ===== *)
(** * The policy host ([internal/policy/policy.go])

    The finalizer-gated lifecycle a controller runs its policies through. The object
    is a Go pointer the host refreshes in place while the policies hold it: the state
    threaded here is the world together with the object the pointer designates. *)

From S2P Require Import Prelude GoStr Api Errors External Kube Sim.

Definition requeueAfter : Z := 1000000000.   (** [time.Second] *)

(** A policy: [Reconcile] answers a result and an error, both used by the host. *)
Record Policy (W T : Type) := mkPolicy {
  p_Name : string;
  p_Finalizer : string;
  p_Applies : T → bool;
  p_Reconcile : M error (W * T) (ctrl_Result * option error);
  p_Cleanup : M error (W * T) unit }.
Arguments mkPolicy {W T}.
Arguments p_Name {W T}. Arguments p_Finalizer {W T}. Arguments p_Applies {W T}.
Arguments p_Reconcile {W T}. Arguments p_Cleanup {W T}.

(** [v, err := m; if err != nil { return res, err }] in a function that answers a
    result and an error. *)
Definition check {S A} (res : ctrl_Result) (m : M error S A)
    (k : A → M error S (ctrl_Result * option error)) : M error S (ctrl_Result * option error) :=
  r ⇐ attempt m;;
  match r with
  | inr e => ret (res, Some e)
  | inl a => k a
  end.

Lemma check_ok {S A} res (m : M error S A) k s a s' : m s = (Ok a, s') → check res m k s = k a s'.
Proof. intros Hm. unfold check, bind, attempt. by rewrite Hm. Qed.

(** How the host reads and writes the object behind the pointer: by its own kind. *)
Class ClientObject (W T : Type) := {
  obj_Get : T → M error W T;
  obj_Update : T → M error W T
}.
#[export] Instance stored_client_object {W T} `{Store W T, Object T} : ClientObject W T :=
  {| obj_Get o := client_Get (object_key o); obj_Update o := client_Update o |}.

(** [syngit.Syncer] is an interface: the dynamic type decides the kind. *)
Definition map_ok {W A B} (f : A → B) (m : M error W A) : M error W B := a ⇐ m;; ret (f a).
#[export] Instance syncer_client_object {W} `{Cluster W} : ClientObject W Syncer :=
  {| obj_Get o := match o with
                  | SyncerRS rs => map_ok SyncerRS (client_Get (object_key rs))
                  | SyncerCW cw => map_ok SyncerCW (client_Get (object_key cw))
                  end;
     obj_Update o := match o with
                     | SyncerRS rs => map_ok SyncerRS (client_Update rs)
                     | SyncerCW cw => map_ok SyncerCW (client_Update cw)
                     end |}.
#[export] Instance Syncer_stamp : Stamp Syncer :=
  {| set_meta m s := match s with
                     | SyncerRS rs => SyncerRS (set_meta m rs)
                     | SyncerCW cw => SyncerCW (set_meta m cw)
                     end |}.

Section Host.
Context {W T : Type} `{Cluster W, Finalizers, Object T, Stamp T, ClientObject W T}.

Definition the_obj : M error (W * T) T := λ s, (Ok s.2, s).
Definition set_obj (o : T) : M error (W * T) unit := λ s, (Ok tt, (s.1, o)).

(** [c.Get(ctx, key(obj), obj)]: refreshes the pointee. *)
Definition refresh : M error (W * T) unit :=
  o ⇐ the_obj;; o' ⇐ outside (obj_Get o);; set_obj o'.
(** [c.Update(ctx, obj)]: the answer of the server replaces the pointee. *)
Definition update : M error (W * T) unit :=
  o ⇐ the_obj;; o' ⇐ outside (obj_Update o);; set_obj o'.

Definition removeFinalizer (fin : string) : M error (W * T) unit :=
  RetryOnConflict_in (
    r ⇐ attempt refresh;;
    match r with
    | inr e => if IsNotFound e then ret tt else throw e
    | inl _ =>
        o ⇐ the_obj;;
        let '(m, removed) := RemoveFinalizer (get_meta o) fin in
        set_obj (set_meta m o);;;
        if removed then update else ret tt
    end).

(** One pass of the loop that adds the missing finalizers; tells whether any was. *)
Fixpoint add_finalizers (needed : list string) (changed : bool) : M error (W * T) bool :=
  match needed with
  | [] => ret changed
  | fin :: rest =>
      o ⇐ the_obj;;
      let '(m, added) := AddFinalizer (get_meta o) fin in
      set_obj (set_meta m o);;;
      add_finalizers rest (added || changed)
  end.

Definition needed_finalizers (o : T) (policies : list (Policy W T)) : list string :=
  flat_map (λ p, if negb (String.eqb (p_Finalizer p) "") && p_Applies p o then [p_Finalizer p] else [])
    policies.

Definition ensureFinalizers (policies : list (Policy W T)) : M error (W * T) bool :=
  o ⇐ the_obj;;
  let needed := needed_finalizers o policies in
  match needed with
  | [] => ret false
  | _ =>
      RetryOnConflict_in (
        refresh;;;
        changed ⇐ add_finalizers needed false;;
        if changed then update;;; ret true else ret false)
  end.

(** The deletion branch of [RunPolicies]. *)
Fixpoint run_cleanups (policies : list (Policy W T)) : M error (W * T) (ctrl_Result * option error) :=
  match policies with
  | [] => ret (no_requeue, None)
  | p :: rest =>
      o ⇐ the_obj;;
      if String.eqb (p_Finalizer p) "" || negb (ContainsFinalizer (get_meta o) (p_Finalizer p))
      then run_cleanups rest
      else check no_requeue (p_Cleanup p) (λ _,
           check no_requeue (removeFinalizer (p_Finalizer p)) (λ _,
           run_cleanups rest))
  end.

(** One iteration of the main loop: what the policy adds to [result] and [errs]. *)
Definition run_policy (p : Policy W T) : M error (W * T) (ctrl_Result * option error) :=
  o ⇐ the_obj;;
  if p_Applies p o then p_Reconcile p
  else
    check no_requeue (p_Cleanup p) (λ _,
      o ⇐ the_obj;;
      if negb (String.eqb (p_Finalizer p) "") && ContainsFinalizer (get_meta o) (p_Finalizer p)
      then check no_requeue (removeFinalizer (p_Finalizer p)) (λ _, ret (no_requeue, None))
      else ret (no_requeue, None)).

Fixpoint run_all (policies : list (Policy W T)) (result : ctrl_Result) (errs : list error)
  : M error (W * T) (ctrl_Result * option error) :=
  match policies with
  | [] => ret (result, match errs with [] => None | _ => Some (joinError errs) end)
  | p :: rest =>
      '(res, err) ⇐ run_policy p;;
      run_all rest (MergeResults result res) (errs ++ match err with Some e => [e] | None => [] end)%list
  end.

Definition RunPolicies (policies : list (Policy W T)) : M error (W * T) (ctrl_Result * option error) :=
  o ⇐ the_obj;;
  match om_DeletionTimestamp (get_meta o) with
  | Some _ => run_cleanups policies
  | None =>
      check no_requeue (ensureFinalizers policies) (λ added,
        if added then ret (no_requeue, None) else run_all policies no_requeue [])
  end.
End Host.

(** ** Lemmas *)

Section lemmas.
Context {W T : Type} `{ApiServer W, Finalizers, !Finalizers_laws, Object T, Stamp T, !ClientObject W T}.

(** The policies whose finalizer is on the object, each cleaned up and then released:
    the state after each step is the one the next step starts from. *)
Inductive released : list (Policy W T) → W * T → W * T → Prop :=
| released_nil s : released [] s s
| released_skip p ps s s' :
    (p_Finalizer p = "" ∨ ContainsFinalizer (get_meta s.2) (p_Finalizer p) = false) →
    released ps s s' → released (p :: ps) s s'
| released_step p ps s s1 s2 s' :
    p_Finalizer p ≠ "" → ContainsFinalizer (get_meta s.2) (p_Finalizer p) = true →
    p_Cleanup p s = (Ok tt, s1) → removeFinalizer (p_Finalizer p) s1 = (Ok tt, s2) →
    released ps s2 s' → released (p :: ps) s s'.

(** The deletion of the object is stuck on [p]: its cleanup failed and its finalizer
    was not touched, or the finalizer could not be removed after the cleanup. *)
Definition stuck (p : Policy W T) (e : error) (s s' : W * T) : Prop :=
  p_Finalizer p ≠ "" ∧ ContainsFinalizer (get_meta s.2) (p_Finalizer p) = true ∧
  (p_Cleanup p s = (Err e, s') ∨
   ∃ s1, p_Cleanup p s = (Ok tt, s1) ∧ removeFinalizer (p_Finalizer p) s1 = (Err e, s')).

Lemma check_inv {S A} res (m : M error S A) k s r s' :
  check res m k s = (Ok r, s') →
  (∃ e, m s = (Err e, s') ∧ r = (res, Some e)) ∨ ∃ a s1, m s = (Ok a, s1) ∧ k a s1 = (Ok r, s').
Proof.
  unfold check. intros Hr. apply bind_ok_inv in Hr as (x & s1 & Ha & Hr).
  apply attempt_ok_inv in Ha. destruct x as [a|e]; [right; eauto|]. inv_ok. left. eauto.
Qed.

Lemma run_cleanups_inv ps s r s' :
  run_cleanups ps s = (Ok r, s') →
  (r = (no_requeue, None) ∧ released ps s s') ∨
  ∃ e before p after s1, r = (no_requeue, Some e) ∧ ps = (before ++ p :: after)%list ∧
    released before s s1 ∧ stuck p e s1 s'.
Proof.
  revert s; induction ps as [|p ps IH]; intros s Hr; simpl in Hr.
  { inv_ok. left. split; [done|constructor]. }
  inv_ok. unfold the_obj in *. simplify_eq.
  destruct (String.eqb_spec (p_Finalizer p) "") as [Hf|Hf]; simpl in Hr.
  { apply IH in Hr as [[-> Hr]|(e & b & q & a & s1 & -> & -> & Hb & Hst)].
    - left. split; [done|]. constructor; auto.
    - right. exists e, (p :: b), q, a, s1. split_and!; [done|done| |done]. constructor; auto. }
  destruct (ContainsFinalizer _ _) eqn:Hc; simpl in Hr.
  2:{ apply IH in Hr as [[-> Hr]|(e & b & q & a & s1 & -> & -> & Hb & Hst)].
      - left. split; [done|]. constructor; auto.
      - right. exists e, (p :: b), q, a, s1. split_and!; [done|done| |done]. constructor; auto. }
  apply check_inv in Hr as [(e & He & ->)|([] & s1 & Hcl & Hr)].
  { right. exists e, [], p, ps, x0. split_and!; [done|done|constructor|]. split_and!; auto. }
  apply check_inv in Hr as [(e & He & ->)|([] & s2 & Hrm & Hr)].
  { right. exists e, [], p, ps, x0. split_and!; [done|done|constructor|]. split_and!; [done|done|].
    right. eauto. }
  apply IH in Hr as [[-> Hr]|(e & b & q & a & s3 & -> & -> & Hb & Hst)].
  - left. split; [done|]. by eapply released_step.
  - right. exists e, (p :: b), q, a, s3. split_and!; [done|done| |done]. by eapply released_step.
Qed.

Lemma needed_spec (o : T) (ps : list (Policy W T)) p : p ∈ ps → p_Finalizer p ≠ "" → p_Applies p o = true →
  p_Finalizer p ∈ needed_finalizers o ps.
Proof.
  intros Hp Hf Ha. apply list_elem_of_In, in_flat_map. exists p.
  apply String.eqb_neq in Hf. rewrite Hf, Ha. split; [by apply list_elem_of_In|by left].
Qed.

(** A pass that adds nothing found every finalizer in place. *)
Lemma add_finalizers_nothing needed c (s s' : W * T) :
  (∀ m (o : T), get_meta (set_meta m o) = m) →
  add_finalizers needed c s = (Ok false, s') →
  c = false ∧ get_meta s'.2 = get_meta s.2 ∧
  ∀ f, f ∈ needed → ContainsFinalizer (get_meta s'.2) f = true.
Proof.
  intros Hset. revert c s; induction needed as [|f needed IH]; intros c s Hr; simpl in Hr.
  { inv_ok. split_and!; [done|done|]. intros f Hf. by apply not_elem_of_nil in Hf. }
  inv_ok. unfold the_obj in *. simplify_eq. rewrite add_finalizer in Hr.
  destruct (ContainsFinalizer (get_meta x0.2) f) eqn:Hc; inv_ok;
    match goal with H : set_obj _ _ = _ |- _ => unfold set_obj in H; simplify_eq end;
    apply IH in Hr as (Hcf & Hm & Hall); [|done].
  simpl in *. rewrite Hset in Hm. split_and!; [done|done|].
  intros g [->|Hg]%elem_of_cons; [by rewrite Hm|auto].
Qed.

Lemma ensure_attempts_false needed (s s' : W * T) f :
  (∀ m (o : T), get_meta (set_meta m o) = m) →
  retry_run (refresh;;; changed ⇐ add_finalizers needed false;;
             (if changed then update;;; ret true else ret false)) s (Ok false) s' →
  f ∈ needed → ContainsFinalizer (get_meta s'.2) f = true.
Proof.
  intros Hset Hrun Hf. remember (Ok false) as r eqn:Hr. revert Hr.
  induction Hrun as [s r s1 Hrun|s e s1 r s2 He Hc Hrun IH]; intros ->; [|auto].
  apply bind_ok_inv in Hrun as (? & ? & _ & Hrun).
  apply bind_ok_inv in Hrun as (changed & ? & Hadd & Hrun).
  destruct changed; inv_ok. apply add_finalizers_nothing in Hadd as (_ & _ & Hall); auto.
Qed.

Lemma ensureFinalizers_false (ps : list (Policy W T)) (s s' : W * T) :
  (∀ m (o : T), get_meta (set_meta m o) = m) →
  ensureFinalizers ps s = (Ok false, s') →
  ∀ p, p ∈ ps → p_Finalizer p ≠ "" → p_Applies p s.2 = true →
    ContainsFinalizer (get_meta s'.2) (p_Finalizer p) = true.
Proof.
  intros Hset Hr p Hp Hf Ha. unfold ensureFinalizers in Hr. inv_ok. unfold the_obj in *. simplify_eq.
  pose proof (needed_spec x0.2 ps p Hp Hf Ha) as Hin.
  destruct (needed_finalizers x0.2 ps) as [|n ns] eqn:En; [by apply not_elem_of_nil in Hin|].
  apply retry_spec in Hr.
  by eapply ensure_attempts_false.
Qed.
End lemmas.

(** ** Properties *)

Section properties.
Context {W T : Type} `{ApiServer W, Finalizers, !Finalizers_laws, Object T, Stamp T, !ClientObject W T}.

(** (C22) Deleting an object releases nothing before it is cleaned up: the policies that
    hold a finalizer on it are cleaned up in order, each before its finalizer is
    removed; the run either goes through all of them or stops at the first failure,
    with an error, leaving the finalizers of that policy and of the later ones alone. *)
Theorem RunPolicies_deletion ps (s s' : W * T) r t :
  om_DeletionTimestamp (get_meta s.2) = Some t → RunPolicies ps s = (Ok r, s') →
  (r = (no_requeue, None) ∧ released ps s s') ∨
  ∃ e before p after s1, r = (no_requeue, Some e) ∧ ps = (before ++ p :: after)%list ∧
    released before s s1 ∧ stuck p e s1 s'.
Proof.
  intros Hd Hr. unfold RunPolicies, bind, the_obj in Hr. rewrite Hd in Hr. by apply run_cleanups_inv.
Qed.

(** (C24) A live object is reconciled behind the finalizers of the policies that applied to it
    as it was first read: when any of them had to be added, the run stops there without
    calling a policy; otherwise the policies are run from a state in which every policy that
    applied to the object as first read has its finalizer on it. A policy that applies only
    to the refreshed object can run without its own ([reconcile_without_finalizer]). *)
Theorem RunPolicies_gated ps (s s' : W * T) r :
  (∀ m (o : T), get_meta (set_meta m o) = m) →
  om_DeletionTimestamp (get_meta s.2) = None → RunPolicies ps s = (Ok r, s') →
  (∃ e, ensureFinalizers ps s = (Err e, s') ∧ r = (no_requeue, Some e)) ∨
  (ensureFinalizers ps s = (Ok true, s') ∧ r = (no_requeue, None)) ∨
  ∃ s1, run_all ps no_requeue [] s1 = (Ok r, s') ∧
    ∀ p, p ∈ ps → p_Finalizer p ≠ "" → p_Applies p s.2 = true →
      ContainsFinalizer (get_meta s1.2) (p_Finalizer p) = true.
Proof.
  intros Hset Hd Hr. unfold RunPolicies in Hr. apply bind_ok_inv in Hr as (o & s0 & Ho & Hr).
  unfold the_obj in Ho. simplify_eq. rewrite Hd in Hr.
  apply check_inv in Hr as [(e & He & ->)|(added & s1 & Hens & Hr)]; [left; eauto|right].
  destruct added; inv_ok; [by left|right]. exists s1. split; [done|].
  by eapply ensureFinalizers_false.
Qed.
End properties.

(** ** Concrete policies over RemoteUsers, for the witnesses *)

Definition annotated (fins annos : list string) (deleted : option Z) : RemoteUser :=
  mkRemoteUser
    (mkObjectMeta "alice" "team" "1" deleted ∅ (list_to_map (map (λ a, (a, "true")) annos)) fins)
    (mkRemoteUserSpec (mkRef "" "creds") "a@x" "git.x") (mkRemoteUserStatus [] "" "" "" "").
Definition user_world (o : RemoteUser) : World :=
  world_of (mkView {[object_key o := o]} ∅ ∅ ∅ ∅ ∅ ∅ ∅).

(** A policy on one annotation, whose work checks what the interface promises: its
    finalizer is on the object. *)
Definition checking_policy (key : string) : Policy World RemoteUser :=
  mkPolicy key (key ++ "/fin") (λ o, String.eqb (mget (om_Annotations (ru_Meta o)) key) "true")
    (o ⇐ the_obj;;
     if ContainsFinalizer (ru_Meta o) (key ++ "/fin") then ret (mkResult 5, None) else panic)
    (ret tt).

Definition both : list (Policy World RemoteUser) := [checking_policy "a"; checking_policy "b"].

Lemma RunPolicies_deletion_witness :
  let o := annotated ["b/fin"; "x"] ["a"] (Some 1%Z) in
  ∃ s', RunPolicies both (user_world o, o) = (Ok (no_requeue, None), s') ∧
    om_Finalizers (ru_Meta s'.2) = ["x"] ∧
    (((no_requeue, @None error) = (no_requeue, None) ∧ released both (user_world o, o) s') ∨
     ∃ e before p after s1, (no_requeue, None) = (no_requeue, Some e) ∧ both = (before ++ p :: after)%list ∧
       released before (user_world o, o) s1 ∧ stuck p e s1 s').
Proof.
  intros o. eexists. split; [vm_compute; reflexivity|]. split; [reflexivity|].
  apply (RunPolicies_deletion both (user_world o, o) _ _ 1%Z); [reflexivity|]. vm_compute. reflexivity.
Defined.

Lemma RunPolicies_gated_witness :
  let o := annotated ["a/fin"] ["a"] None in
  ∃ s' r, RunPolicies both (user_world o, o) = (Ok r, s') ∧ r = (mkResult 5, None) ∧
  ((∃ e, ensureFinalizers both (user_world o, o) = (Err e, s') ∧ r = (no_requeue, Some e)) ∨
  (ensureFinalizers both (user_world o, o) = (Ok true, s') ∧ r = (no_requeue, None)) ∨
  ∃ s1, run_all both no_requeue [] s1 = (Ok r, s') ∧
    ∀ p, p ∈ both → p_Finalizer p ≠ "" → p_Applies p o = true →
      ContainsFinalizer (get_meta s1.2) (p_Finalizer p) = true).
Proof.
  intros o. eexists _, _. split; [vm_compute; reflexivity|]. split; [reflexivity|].
  apply (RunPolicies_gated both (user_world o, o)); [done|done|]. vm_compute. reflexivity.
Defined.

(** A policy can be reconciled without its finalizer: the host decides which
    finalizers to ensure on the object it was called with, refreshes that object, and
    then decides what to reconcile on the refreshed one. Here the annotation of the
    second policy was set after the first read. *)
Theorem reconcile_without_finalizer :
  let stale := annotated ["a/fin"] ["a"] None in
  let stored := annotated ["a/fin"] ["a"; "b"] None in
  fst (RunPolicies both (user_world stored, stale)) = Panic.
Proof. vm_compute. reflexivity. Qed.
