(* ===== verification/Policies.v ===== *)
(** * The policies ([internal/policy])

    [AssociationPolicy] (RemoteUsers), [BranchTargetPolicy] and [UserSpecificPolicy]
    (syncers of both kinds), with the enumeration of the other syncers. A policy never
    changes the object it is given; it reads it and calls the API. Go's map iteration
    order is the argument [ord]. *)

From S2P Require Import Prelude GoStr Api Errors External Naming Managed Policy Sim.

Section Policies.
Context {W : Type} `{Cluster W, Lib}.

(** A policy body over the object it was given. *)
Definition on_obj {T A} (f : T → M error W A) : M error (W * T) A :=
  o ⇐ (λ s, (Ok s.2, s));; outside (f o).

Definition selector (l : list (string * string)) : option Selector :=
  Some (SelectorFromSet (list_to_map l)).

(** [if err := c.Delete(...); err != nil && !IsNotFound(err) { return err }]. *)
Definition delete_tolerant {T} `{Store W T} (o : T) : M error W unit :=
  r ⇐ attempt (client_Delete o);;
  match r with
  | inr e => if IsNotFound e then ret tt else throw e
  | inl _ => ret tt
  end.
(** [if err := c.Create(...); err != nil && !IsAlreadyExists(err) { return err }]. *)
Definition create_tolerant {T} `{Store W T} (o : T) : M error W unit :=
  r ⇐ attempt (client_Create o);;
  match r with
  | inr e => if IsAlreadyExists e then ret tt else throw e
  | inl _ => ret tt
  end.

(** [rand.Intn(5) * time.Second], added to [requeueAfter]. *)
Definition jitter : M error W ctrl_Result :=
  n ⇐ rand_Intn 5;; ret (mkResult (requeueAfter + n * 1000000000)).

(** ** [syncers.go] *)

Definition isSameSyncer (a b : Syncer) : bool :=
  match a, b with
  | SyncerRS _, SyncerRS _ | SyncerCW _, SyncerCW _ => bool_decide (object_key a = object_key b)
  | _, _ => false
  end.

Definition syncer_annotation (s : Syncer) (key : string) : string :=
  mget (om_Annotations (syncer_meta s)) key.

Definition getOtherSyncersWith (self : Syncer) (annotationKey : string) : M error W (list Syncer) :=
  let identityNamespace := IdentityNamespace self in
  let skip s := isSameSyncer s self || String.eqb (syncer_annotation s annotationKey) "" in
  rsList ⇐ client_List (mkListOptions identityNamespace None);;
  let others := List.filter (λ s, negb (skip s)) (map SyncerRS rsList) in
  cwrsList ⇐ client_List (mkListOptions "" None);;
  ret (others ++ List.filter (λ s, String.eqb (IdentityNamespace s) identityNamespace && negb (skip s))
                   (map SyncerCW cwrsList))%list.

(** ** [association_policy.go] *)

Definition associationPolicyFinalizer : string := "syngit.io/association-policy".

Definition managed_user_labels (sanitizedUsername : string) : list (string * string) :=
  [(ManagedByLabelKey, ManagedByLabelValue); (K8sUserLabelKey, sanitizedUsername)].

Definition managed_rub (name : string) (remoteUser : RemoteUser) (sanitizedUsername rawUsername : string)
  : RemoteUserBinding :=
  mkRUB (new_meta name (om_Namespace (ru_Meta remoteUser)) (list_to_map (managed_user_labels sanitizedUsername)))
    (mkRUBSpec (mkSubject "User" rawUsername "") [mkRef "" (om_Name (ru_Meta remoteUser))] [])
    (mkRUBStatus [] "" [] "").

Definition maxAttempts : nat := 100.

(** The loop that claims a name: [n] attempts are left, [i] were made. *)
Fixpoint claim_name (n i : nat) (remoteUser : RemoteUser) (sanitizedUsername rawUsername : string)
  : M error W RemoteUserBinding :=
  let baseName := RubNamePrefix ++ ("-" ++ sanitizedUsername) in
  match n with
  | O => throw (plainError ("could not allocate a name for managed RemoteUserBinding (base=" ++
                  (quote ++ (baseName ++ (quote ++ ")")))))
  | S n' =>
      let name := match i with O => baseName | _ => baseName ++ ("-" ++ Itoa i) end in
      let rub := managed_rub name remoteUser sanitizedUsername rawUsername in
      r ⇐ attempt (client_Create rub);;
      match r with
      | inl created => ret created
      | inr createErr =>
          if negb (IsAlreadyExists createErr) then throw createErr
          else
            g ⇐ attempt (client_Get (mkNN (om_Namespace (ru_Meta remoteUser)) name));;
            match g with
            | inr getErr =>
                if IsNotFound getErr then claim_name n' (S i) remoteUser sanitizedUsername rawUsername
                else throw getErr
            | inl existing =>
                let ls := om_Labels (rub_Meta existing) in
                if String.eqb (mget ls ManagedByLabelKey) ManagedByLabelValue &&
                   String.eqb (mget ls K8sUserLabelKey) sanitizedUsername
                then ret existing
                else claim_name n' (S i) remoteUser sanitizedUsername rawUsername
            end
      end
  end.

Definition findOrCreateManagedRUB (remoteUser : RemoteUser) (sanitizedUsername rawUsername : string)
  : M error W RemoteUserBinding :=
  let ns := om_Namespace (ru_Meta remoteUser) in
  items ⇐ client_List (T := RemoteUserBinding)
            (mkListOptions ns (selector (managed_user_labels sanitizedUsername)));;
  match items with
  | rub :: _ => client_Get (mkNN ns (om_Name (rub_Meta rub)))
  | [] => claim_name maxAttempts 0 remoteUser sanitizedUsername rawUsername
  end.

Definition ensureRemoteUserRef (rub : RemoteUserBinding) (remoteUserName : string) : M error W unit :=
  MutateOrDeleteRemoteUserBinding (object_key rub) (λ fresh,
    let refs := rub_RemoteUserRefs (rub_Spec fresh) in
    if existsb (λ ref, String.eqb (ref_Name ref) remoteUserName) refs then ret fresh
    else ret (set_user_refs (refs ++ [mkRef "" remoteUserName])%list fresh)).

Definition associateExistingRemoteTargets (rub : RemoteUserBinding) : M error W unit :=
  let listOps := mkListOptions (om_Namespace (rub_Meta rub))
    (selector [(ManagedByLabelKey, ManagedByLabelValue); (RtLabelKeyPolicy, RtLabelValueOneOrManyBranches)]) in
  MutateOrDeleteRemoteUserBinding (object_key rub) (λ fresh,
    rtList ⇐ client_List (T := RemoteTarget) listOps;;
    ret (foldl (λ r rt, AddRemoteTargetRef (om_Name (rt_Meta rt)) r) fresh rtList)).

Definition cleanupAssociation (remoteUser : RemoteUser) (sanitizedUsername : string) : M error W unit :=
  if String.eqb sanitizedUsername "" then ret tt
  else
    items ⇐ client_List (T := RemoteUserBinding)
              (mkListOptions (om_Namespace (ru_Meta remoteUser))
                 (selector (managed_user_labels sanitizedUsername)));;
    for_each (λ rub,
      r ⇐ attempt (MutateOrDeleteRemoteUserBinding (object_key rub) (λ fresh,
             ret (set_user_refs
               (List.filter (λ ref, negb (String.eqb (ref_Name ref) (om_Name (ru_Meta remoteUser))))
                  (rub_RemoteUserRefs (rub_Spec fresh))) fresh)));;
      match r with
      | inr e => if IsNotFound e then ret tt else throw e
      | inl _ => ret tt
      end) items.

Definition Association_Applies (remoteUser : RemoteUser) : bool :=
  String.eqb (mget (om_Annotations (ru_Meta remoteUser)) RubAnnotationKeyManaged) "true".

Definition Association_Reconcile (remoteUser : RemoteUser) : M error W (ctrl_Result * option error) :=
  requeue ⇐ jitter;;
  let sanitizedUsername := mget (om_Labels (ru_Meta remoteUser)) K8sUserLabelKey in
  let rawUsername := mget (om_Annotations (ru_Meta remoteUser)) K8sUserLabelKey in
  if String.eqb sanitizedUsername "" || String.eqb rawUsername "" then ret (no_requeue, None)
  else
    check no_requeue (findOrCreateManagedRUB remoteUser sanitizedUsername rawUsername) (λ rub,
    check requeue (ensureRemoteUserRef rub (om_Name (ru_Meta remoteUser))) (λ _,
    check requeue (associateExistingRemoteTargets rub) (λ _,
    ret (no_requeue, None)))).

Definition Association_Cleanup (remoteUser : RemoteUser) : M error W unit :=
  cleanupAssociation remoteUser (mget (om_Labels (ru_Meta remoteUser)) K8sUserLabelKey).

Definition AssociationPolicy : Policy W RemoteUser :=
  mkPolicy "association-policy" associationPolicyFinalizer Association_Applies
    (on_obj Association_Reconcile) (on_obj Association_Cleanup).

(** ** [branchtarget_policy.go] *)

Definition branchTargetPolicyFinalizer : string := "syngit.io/branchtarget-policy".

Definition syncer_branches (s : Syncer) : list string :=
  BranchesFromAnnotation (syncer_annotation s RtAnnotationKeyOneOrManyBranches).

Definition BranchTarget_Applies (s : Syncer) : bool := negb (bool_decide (syncer_branches s = [])).

Definition buildRemoteTarget (namespace upstreamRepo upstreamBranch targetBranch : string)
  : result error RemoteTarget :=
  match RemoteTargetName upstreamRepo upstreamBranch upstreamRepo targetBranch with
  | Err e => Err e
  | Panic => Panic
  | Ok name =>
      let mergeStrategy := if String.eqb upstreamBranch targetBranch then "" else TryFastForwardOrHardReset in
      Ok (mkRemoteTarget
            (new_meta name namespace (list_to_map
               [(ManagedByLabelKey, ManagedByLabelValue); (RtLabelKeyBranch, targetBranch);
                (RtLabelKeyPolicy, RtLabelValueOneOrManyBranches)]))
            (mkRemoteTargetSpec upstreamRepo upstreamBranch upstreamRepo targetBranch mergeStrategy) [])
  end.

Definition branch_target_options (namespace : string) : ListOptions :=
  mkListOptions namespace
    (selector [(ManagedByLabelKey, ManagedByLabelValue); (RtLabelKeyPolicy, RtLabelValueOneOrManyBranches)]).
Definition listManagedBranchTargets (namespace : string) : M error W (list RemoteTarget) :=
  client_List (branch_target_options namespace).

Definition filterByUpstream (rts : list RemoteTarget) (upstreamRepo upstreamBranch : string)
  : list RemoteTarget :=
  List.filter (λ rt, String.eqb (UpstreamRepository (rt_Spec rt)) upstreamRepo &&
                     String.eqb (UpstreamBranch (rt_Spec rt)) upstreamBranch) rts.

Definition getOtherSyncersWithBranchPolicy (s : Syncer) : M error W (list Syncer) :=
  getOtherSyncersWith s RtAnnotationKeyOneOrManyBranches.

Definition isBranchUsedByOtherSyncer (branch upstreamRepo upstreamBranch : string)
    (otherSyncers : list Syncer) : bool :=
  existsb (λ s,
    String.eqb (RemoteRepository (SyncerSpec s)) upstreamRepo &&
    String.eqb (DefaultBranch (SyncerSpec s)) upstreamBranch &&
    existsb (String.eqb branch) (syncer_branches s)) otherSyncers.

(** [existingBranches]: later entries of the list win. *)
Definition by_branch (rts : list RemoteTarget) : gmap string RemoteTarget :=
  foldl (λ m rt, <[TargetBranch (rt_Spec rt) := rt]> m) ∅ rts.

Definition create_branch (s : Syncer) (existing : gmap string RemoteTarget) (branch : string)
  : M error W unit :=
  match existing !! branch with
  | Some _ => ret tt
  | None =>
      rt ⇐ lift (buildRemoteTarget (IdentityNamespace s) (RemoteRepository (SyncerSpec s))
                   (DefaultBranch (SyncerSpec s)) branch);;
      create_tolerant rt
  end.

(** One iteration of the pruning loop, up to the two calls that delete. *)
Definition prunable (s : Syncer) (desired : list string) (others : list Syncer) (branch : string) : bool :=
  negb (existsb (String.eqb branch) desired) &&
  negb (isBranchUsedByOtherSyncer branch (RemoteRepository (SyncerSpec s))
          (DefaultBranch (SyncerSpec s)) others).

Fixpoint prune_branches (requeue : ctrl_Result) (s : Syncer) (desired : list string)
    (others : list Syncer) (l : list (string * RemoteTarget)) : M error W (ctrl_Result * option error) :=
  match l with
  | [] => ret (no_requeue, None)
  | (branch, rt) :: rest =>
      if prunable s desired others branch then
        check no_requeue (delete_tolerant rt) (λ _,
        check requeue (RemoveRemoteTargetRefFromRUBs (om_Namespace (rt_Meta rt)) (om_Name (rt_Meta rt))) (λ _,
        prune_branches requeue s desired others rest))
      else prune_branches requeue s desired others rest
  end.

Definition BranchTarget_Reconcile (ord : gmap string RemoteTarget → list (string * RemoteTarget))
    (s : Syncer) : M error W (ctrl_Result * option error) :=
  requeue ⇐ jitter;;
  let desired := syncer_branches s in
  check no_requeue (listManagedBranchTargets (IdentityNamespace s)) (λ existingRTs,
  let matching := filterByUpstream existingRTs (RemoteRepository (SyncerSpec s)) (DefaultBranch (SyncerSpec s)) in
  let existing := by_branch matching in
  check no_requeue (for_each (create_branch s existing) desired) (λ _,
  check no_requeue (getOtherSyncersWithBranchPolicy s) (λ others,
  prune_branches requeue s desired others (ord existing)))).

Definition cleanupBranchTargets (s : Syncer) : M error W unit :=
  existingRTs ⇐ listManagedBranchTargets (IdentityNamespace s);;
  let matching := filterByUpstream existingRTs (RemoteRepository (SyncerSpec s)) (DefaultBranch (SyncerSpec s)) in
  others ⇐ getOtherSyncersWithBranchPolicy s;;
  for_each (λ rt,
    if isBranchUsedByOtherSyncer (TargetBranch (rt_Spec rt)) (RemoteRepository (SyncerSpec s))
         (DefaultBranch (SyncerSpec s)) others
    then ret tt
    else
      delete_tolerant rt;;;
      RemoveRemoteTargetRefFromRUBs (om_Namespace (rt_Meta rt)) (om_Name (rt_Meta rt))) matching.

Definition BranchTargetPolicy (ord : gmap string RemoteTarget → list (string * RemoteTarget))
  : Policy W Syncer :=
  mkPolicy "branchtarget-policy" branchTargetPolicyFinalizer BranchTarget_Applies
    (on_obj (BranchTarget_Reconcile ord)) (on_obj cleanupBranchTargets).

(** ** [userspecific_policy.go] *)

Definition userSpecificPolicyFinalizer : string := "syngit.io/userspecific-policy".

Definition UserSpecific_Applies (s : Syncer) : bool :=
  negb (String.eqb (syncer_annotation s RtAnnotationKeyUserSpecific) "").

Definition buildUserSpecificTarget
    (namespace upstreamRepo upstreamBranch rawUsername sanitizedUser annotationValue : string)
  : result error RemoteTarget :=
  let targetRepo := if String.eqb annotationValue RtAnnotationValueOneUserOneFork then "" else upstreamRepo in
  match RemoteTargetName upstreamRepo upstreamBranch targetRepo sanitizedUser with
  | Err e => Err e
  | Panic => Panic
  | Ok rtName =>
      let meta := new_meta rtName namespace (list_to_map
        [(ManagedByLabelKey, ManagedByLabelValue); (RtLabelKeyPolicy, RtLabelValueOneUserOneBranch);
         (K8sUserLabelKey, sanitizedUser)]) in
      let meta := if String.eqb targetRepo "" then set_annotations {[RtLabelKeyAllowInjection := "true"]} meta
                  else meta in
      Ok (mkRemoteTarget meta
            (mkRemoteTargetSpec upstreamRepo upstreamBranch targetRepo (SoftSanitize rawUsername)
               TryFastForwardOrHardReset) [])
  end.

Definition ensureRTRefInRUB (rub : RemoteUserBinding) (rtName : string) : M error W unit :=
  MutateOrDeleteRemoteUserBinding (object_key rub) (λ fresh, ret (AddRemoteTargetRef rtName fresh)).

Definition listManagedRUBs (namespace : string) : M error W (list RemoteUserBinding) :=
  client_List (mkListOptions namespace (selector [(ManagedByLabelKey, ManagedByLabelValue)])).

Definition listUserSpecificTargets (namespace upstreamRepo upstreamBranch : string)
  : M error W (list RemoteTarget) :=
  items ⇐ client_List (mkListOptions namespace
            (selector [(ManagedByLabelKey, ManagedByLabelValue);
                       (RtLabelKeyPolicy, RtLabelValueOneUserOneBranch)]));;
  ret (List.filter (λ rt, String.eqb (UpstreamRepository (rt_Spec rt)) upstreamRepo &&
                          String.eqb (UpstreamBranch (rt_Spec rt)) upstreamBranch) items).

Definition getOtherSyncersWithUserSpecific (s : Syncer) : M error W (list Syncer) :=
  getOtherSyncersWith s RtAnnotationKeyUserSpecific.

Definition isRTUsedByOtherSyncer (rt : RemoteTarget) (otherSyncers : list Syncer) : bool :=
  existsb (λ s, String.eqb (RemoteRepository (SyncerSpec s)) (UpstreamRepository (rt_Spec rt)) &&
                String.eqb (DefaultBranch (SyncerSpec s)) (UpstreamBranch (rt_Spec rt))) otherSyncers.

(** [existingByUser]: targets without a user label are left out, later ones win. *)
Definition by_user (rts : list RemoteTarget) : gmap string RemoteTarget :=
  foldl (λ m rt, let u := mget (om_Labels (rt_Meta rt)) K8sUserLabelKey in
                 if String.eqb u "" then m else <[u := rt]> m) ∅ rts.

(** The loop over the managed bindings. It answers the users it touched with the
    result and the error of the Go function. *)
Fixpoint reconcileUserTargets (requeue : ctrl_Result) (s : Syncer) (managedRUBs : list RemoteUserBinding)
    (existing : gmap string RemoteTarget) (annotation : string) (activeUsers : gset string)
  : M error W (gset string * (ctrl_Result * option error)) :=
  match managedRUBs with
  | [] => ret (activeUsers, (no_requeue, None))
  | rub :: rest =>
      let sanitizedUser := mget (om_Labels (rub_Meta rub)) K8sUserLabelKey in
      if String.eqb sanitizedUser "" then
        reconcileUserTargets requeue s rest existing annotation activeUsers
      else
        let activeUsers := {[sanitizedUser]} ∪ activeUsers in
        let rawUsername := sub_Name (rub_Subject (rub_Spec rub)) in
        match existing !! sanitizedUser with
        | Some rt =>
            r ⇐ attempt (ensureRTRefInRUB rub (om_Name (rt_Meta rt)));;
            match r with
            | inr e => ret (activeUsers, (requeue, Some e))
            | inl _ => reconcileUserTargets requeue s rest existing annotation activeUsers
            end
        | None =>
            b ⇐ attempt (lift (buildUserSpecificTarget (IdentityNamespace s)
                   (RemoteRepository (SyncerSpec s)) (DefaultBranch (SyncerSpec s))
                   rawUsername sanitizedUser annotation));;
            match b with
            | inr e => ret (activeUsers, (no_requeue, Some e))
            | inl rt =>
                c ⇐ attempt (create_tolerant rt);;
                match c with
                | inr e => ret (activeUsers, (no_requeue, Some e))
                | inl _ =>
                    r ⇐ attempt (ensureRTRefInRUB rub (om_Name (rt_Meta rt)));;
                    match r with
                    | inr e => ret (activeUsers, (requeue, Some e))
                    | inl _ => reconcileUserTargets requeue s rest existing annotation activeUsers
                    end
                end
            end
        end
  end.

Fixpoint prune_users (requeue : ctrl_Result) (activeUsers : gset string) (others : list Syncer)
    (l : list (string * RemoteTarget)) : M error W (ctrl_Result * option error) :=
  match l with
  | [] => ret (no_requeue, None)
  | (userLabel, rt) :: rest =>
      if bool_decide (userLabel ∈ activeUsers) || isRTUsedByOtherSyncer rt others
      then prune_users requeue activeUsers others rest
      else
        check requeue (RemoveRemoteTargetRefFromRUBs (om_Namespace (rt_Meta rt)) (om_Name (rt_Meta rt))) (λ _,
        check no_requeue (delete_tolerant rt) (λ _,
        prune_users requeue activeUsers others rest))
  end.

Definition pruneStaleTargets (ord : gmap string RemoteTarget → list (string * RemoteTarget))
    (requeue : ctrl_Result) (s : Syncer) (existing : gmap string RemoteTarget) (activeUsers : gset string)
  : M error W (ctrl_Result * option error) :=
  check no_requeue (getOtherSyncersWithUserSpecific s) (λ others,
  prune_users requeue activeUsers others (ord existing)).

Definition UserSpecific_Reconcile (ord : gmap string RemoteTarget → list (string * RemoteTarget))
    (s : Syncer) : M error W (ctrl_Result * option error) :=
  requeue ⇐ jitter;;
  let annotation := syncer_annotation s RtAnnotationKeyUserSpecific in
  check no_requeue (listManagedRUBs (IdentityNamespace s)) (λ managedRUBs,
  check no_requeue (listUserSpecificTargets (IdentityNamespace s) (RemoteRepository (SyncerSpec s))
                      (DefaultBranch (SyncerSpec s))) (λ existingRTs,
  let existing := by_user existingRTs in
  '(activeUsers, (res, err)) ⇐ reconcileUserTargets requeue s managedRUBs existing annotation ∅;;
  match err with
  | Some e => ret (res, Some e)
  | None => pruneStaleTargets ord requeue s existing activeUsers
  end)).

Definition cleanupUserSpecificTargets (s : Syncer) : M error W unit :=
  existingRTs ⇐ listUserSpecificTargets (IdentityNamespace s) (RemoteRepository (SyncerSpec s))
                  (DefaultBranch (SyncerSpec s));;
  others ⇐ getOtherSyncersWithUserSpecific s;;
  for_each (λ rt,
    if isRTUsedByOtherSyncer rt others then ret tt
    else
      RemoveRemoteTargetRefFromRUBs (om_Namespace (rt_Meta rt)) (om_Name (rt_Meta rt));;;
      delete_tolerant rt) existingRTs.

Definition UserSpecificPolicy (ord : gmap string RemoteTarget → list (string * RemoteTarget))
  : Policy W Syncer :=
  mkPolicy "userspecific-policy" userSpecificPolicyFinalizer UserSpecific_Applies
    (on_obj (UserSpecific_Reconcile ord)) (on_obj cleanupUserSpecificTargets).
End Policies.
