(* ===== verification/PolicyProps.v ===== *)
(** * Correctness of the branch policy on a healthy server

    [BranchTargetPolicy] makes the managed RemoteTargets of a syncer's upstream be
    the branches it asks for, and never takes away a target another syncer of the
    same identity namespace still uses. *)

From S2P Require Import Prelude GoStr Api Errors External Naming Managed Policy Policies Sim.

Section BranchTarget.
Context {W : Type} `{ApiServer W, Lib, !Lib_laws}.

Abbreviation rubs w := (v_rub (view w)).
Abbreviation rts w := (v_rt (view w)).

(** ** Tolerant calls *)

Lemma create_tolerant_run (rt : RemoteTarget) w :
  ∃ w', create_tolerant rt w = (Ok tt, w') ∧
    (∃ m', view w' = v_set m' (view w) ∧ rts w ⊆ m' ∧
     (is_Some (m' !! object_key rt)) ∧
     ∀ k rt', m' !! k = Some rt' → rts w !! k = Some rt' ∨
        (rts w !! k = None ∧ k = object_key rt ∧ ∃ rv, rt' = stamp rv rt)).
Proof.
  unfold create_tolerant, bind, attempt. destruct (rts w !! object_key rt) as [rt0|] eqn:E.
  - destruct (create_exists rt w) as [msg ->]; [by exists rt0|]. exists w. split; [done|].
    exists (rts w). split_and!; [by destruct (view w)|done|by exists rt0|by auto].
  - destruct (create_new rt w ltac:(exact E)) as (rv & w1 & -> & Hv1). exists w1. split; [done|].
    eexists. split; [exact Hv1|]. split_and!.
    + by apply insert_subseteq.
    + rewrite lookup_insert_eq. by eexists.
    + intros k rt' [[<- <-]|[Hne Hk]]%lookup_insert_Some; [right|by left]. eauto.
Qed.

Lemma delete_tolerant_run (rt : RemoteTarget) w :
  (∀ rt0, rts w !! object_key rt = Some rt0 → om_Finalizers (rt_Meta rt0) = []) →
  ∃ w', delete_tolerant rt w = (Ok tt, w') ∧
    view w' = v_set (delete (object_key rt) (rts w)) (view w).
Proof.
  intros Hfin. unfold delete_tolerant, bind, attempt.
  destruct (rts w !! object_key rt) as [rt0|] eqn:E.
  - destruct (delete_found rt rt0 w ltac:(exact E) (Hfin _ eq_refl)) as (w' & -> & Hv). by exists w'.
  - destruct (delete_missing rt w ltac:(exact E)) as (msg & ->). exists w. split; [done|].
    rewrite delete_id by done. by destruct (view w).
Qed.

(** ** The create loop *)

Context (s : Syncer).
Abbreviation ns := (IdentityNamespace s).
Abbreviation up := (RemoteRepository (SyncerSpec s)).
Abbreviation upb := (DefaultBranch (SyncerSpec s)).

(** The target the policy builds for a branch. *)
Definition target_for (b : string) (rt : RemoteTarget) : Prop :=
  buildRemoteTarget ns up upb b = Ok rt.

Lemma target_for_spec b rt : target_for b rt →
  om_Namespace (rt_Meta rt) = ns ∧ TargetBranch (rt_Spec rt) = b ∧
  UpstreamRepository (rt_Spec rt) = up ∧ UpstreamBranch (rt_Spec rt) = upb ∧
  om_Finalizers (rt_Meta rt) = [] ∧
  om_Labels (rt_Meta rt) !! ManagedByLabelKey = Some ManagedByLabelValue ∧
  om_Labels (rt_Meta rt) !! RtLabelKeyPolicy = Some RtLabelValueOneOrManyBranches.
Proof.
  unfold target_for, buildRemoteTarget. destruct (RemoteTargetName _ _ _ _); intros [= <-].
  split_and!; reflexivity.
Qed.

(** What the loop adds to the store. *)
Definition added_for (existing : gmap string RemoteTarget) (bs : list string)
    (m m' : gmap NamespacedName RemoteTarget) : Prop :=
  m ⊆ m' ∧
  (∀ b rt, b ∈ bs → existing !! b = None → target_for b rt → is_Some (m' !! object_key rt)) ∧
  ∀ k rt', m' !! k = Some rt' → m !! k = Some rt' ∨
    ∃ b rt rv, b ∈ bs ∧ target_for b rt ∧ k = object_key rt ∧ m !! k = None ∧ rt' = stamp rv rt.

Lemma create_loop existing bs w :
  (∀ b, b ∈ bs → ∃ rt, target_for b rt) →
  ∃ m' w', for_each (create_branch s existing) bs w = (Ok tt, w') ∧
    view w' = v_set m' (view w) ∧ added_for existing bs (rts w) m'.
Proof.
  revert w; induction bs as [|b bs IH]; intros w Hb; simpl.
  { exists (rts w), w. split_and!; [done|by destruct (view w)|]. split_and!; [done| |by auto].
    intros ?? Hin. by apply not_elem_of_nil in Hin. }
  assert (Hb' : ∀ b', b' ∈ bs → ∃ rt, target_for b' rt) by (intros b' Hin; apply Hb; by right).
  destruct (Hb b ltac:(left)) as [rt Hrt].
  destruct (existing !! b) as [old|] eqn:Ex.
  { destruct (IH w Hb') as (m' & w' & Hrun & Hv & Hsub & Hadd & Hnew). exists m', w'.
    unfold create_branch at 1. rewrite Ex, bind_ret. split_and!; [done|done|]. split_and!; [done| |].
    - intros b1 rt1 [->|Hin]%elem_of_cons He; [congruence|by apply Hadd].
    - intros k rt' Hk. destruct (Hnew k rt' Hk) as [?|(b1 & r1 & rv & Hin & Hr)]; [by left|right].
      exists b1, r1, rv. split; [by right|done]. }
  destruct (create_tolerant_run rt w) as (w1 & Hc & m1 & Hv1 & Hsub1 & Hex & Hnew1).
  assert (Hm1 : rts w1 = m1) by (by rewrite Hv1).
  destruct (IH w1 Hb') as (m' & w' & Hrun & Hv & Hsub & Hadd & Hnew). rewrite Hm1 in *.
  exists m', w'. unfold create_branch at 1. rewrite Ex. unfold target_for in Hrt. rewrite Hrt.
  unfold lift at 1. unfold bind at 1 2. rewrite Hc. split_and!; [done|by rewrite Hv, Hv1|].
  split_and!.
  - by etrans.
  - intros b1 rt1 [->|Hin]%elem_of_cons He Ht1; [|by eapply Hadd].
    unfold target_for in Ht1. assert (rt1 = rt) as -> by congruence.
    destruct Hex as [rt2 Hex]. exists rt2. by eapply lookup_weaken.
  - intros k rt' Hk. destruct (Hnew k rt' Hk) as [Hm|(b1 & r1 & rv & Hin & Hr1 & -> & Hno & ->)].
    + destruct (Hnew1 k rt' Hm) as [?|(Hno & -> & rv & ->)]; [by left|right].
      exists b, rt, rv. split_and!; [by left|done..].
    + right. exists b1, r1, rv. split_and!; [by right|done|done| |done].
      destruct (rts w !! object_key r1) eqn:E; [|done].
      by rewrite (lookup_weaken _ _ _ _ E Hsub1) in Hno.
Qed.

(** ** The prune loop *)

(** Nobody deletes or protects a binding. *)
Definition free_rub (r : RemoteUserBinding) : Prop :=
  om_DeletionTimestamp (rub_Meta r) = None ∧ om_Finalizers (rub_Meta r) = [].

Lemma mutated_free f sel m m' :
  pure_mutation f → keyed m → map_Forall (λ _, free_rub) m → mutated_at f sel m m' →
  keyed m' ∧ map_Forall (λ _, free_rub) m'.
Proof.
  intros Hf Hkeyed Hfree Hmut.
  enough (∀ k r', m' !! k = Some r' → object_key r' = k ∧ free_rub r') as Hall.
  { split; intros k r' Hk; by apply (Hall k r'). }
  intros k r' Hk. specialize (Hmut k). destruct (m !! k) as [r|] eqn:E; [|congruence].
  pose proof (Hkeyed _ _ E) as Hkr. pose proof (Hfree _ _ E) as Hfr. simpl in Hfr.
  destruct (sel r); [|by simplify_eq]. destruct Hmut as [rv Hm].
  rewrite Hk in Hm. unfold mutated in Hm. destruct (no_refs (f r)); simplify_eq.
  unfold object_key, free_rub, stamp in *. simpl in *. unfold meta_key in *. simpl. by rewrite !Hf.
Qed.

Definition keys_of (l : list (string * RemoteTarget)) : list NamespacedName := map (object_key ∘ snd) l.

Lemma prune_loop requeue desired others l w :
  keyed (rubs w) → map_Forall (λ _, free_rub) (rubs w) →
  map_Forall (λ _ rt, om_Finalizers (rt_Meta rt) = []) (rts w) →
  ∃ w', prune_branches requeue s desired others l w = (Ok (no_requeue, None), w') ∧
    ∀ k, rts w' !! k =
      if bool_decide (k ∈ keys_of (List.filter (λ '(b, _), prunable s desired others b) l))
      then None else rts w !! k.
Proof.
  revert w; induction l as [|[b rt] l IH]; intros w Hkeyed Hfree Hfin; simpl; [by exists w|].
  destruct (prunable s desired others b); [|by apply IH].
  destruct (delete_tolerant_run rt w) as (w1 & Hdel & Hv1); [intros ? E; exact (Hfin _ _ E)|].
  assert (Hrubs : rubs w1 = rubs w) by (by rewrite Hv1).
  destruct (RemoveRemoteTargetRefFromRUBs_run (om_Namespace (rt_Meta rt)) (om_Name (rt_Meta rt)) w1)
    as (m' & w2 & Hrm & Hv2 & Hmut).
  { by rewrite Hrubs. }
  { rewrite Hrubs. intros k r Hk _. destruct (Hfree _ _ Hk) as [? ?]. split; auto. }
  rewrite Hrubs in Hmut.
  destruct (mutated_free _ _ _ _ (remove_meta _) Hkeyed Hfree Hmut) as [Hkeyed' Hfree'].
  assert (Hrts : rts w2 = delete (object_key rt) (rts w)) by (by rewrite Hv2, Hv1).
  destruct (IH w2) as (w' & Hrun & Hpost).
  { by rewrite Hv2. } { by rewrite Hv2. } { rewrite Hrts. by apply map_Forall_delete. }
  exists w'. split.
  - unfold check, bind, attempt. by rewrite Hdel, Hrm.
  - intros k. rewrite Hpost, Hrts. simpl. case_bool_decide as Hk.
    + by rewrite bool_decide_eq_true_2 by (by right).
    + destruct (decide (k = object_key rt)) as [->|Hne].
      * rewrite lookup_delete_eq. by rewrite bool_decide_eq_true_2 by (by left).
      * rewrite lookup_delete_ne by done. rewrite bool_decide_eq_false_2; [done|].
        intros [|]%elem_of_cons; done.
Qed.

(** ** What the policy lists *)

(** A managed target of this syncer's upstream, as the policy selects them. *)
Definition branch_target (rt : RemoteTarget) : bool :=
  list_matches (branch_target_options ns) (rt_Meta rt) &&
  (String.eqb (UpstreamRepository (rt_Spec rt)) up && String.eqb (UpstreamBranch (rt_Spec rt)) upb).

Definition stored_target (w : W) (b : string) : Prop :=
  ∃ k rt, rts w !! k = Some rt ∧ branch_target rt = true ∧ TargetBranch (rt_Spec rt) = b.

(** The other syncers that draw their targets from the same identity namespace, under a
    policy. *)
Definition other_syncer_with (key : string) (w : W) (o : Syncer) : Prop :=
  match o with
  | SyncerRS rs => (∃ k, v_rs (view w) !! k = Some rs) ∧ (ns = "" ∨ om_Namespace (rs_Meta rs) = ns)
  | SyncerCW cw => (∃ k, v_cwrs (view w) !! k = Some cw) ∧ cw_IdentityStoreNamespace (cwrs_Spec cw) = ns
  end ∧ isSameSyncer o s = false ∧ syncer_annotation o key ≠ "".
Definition other_syncer : W → Syncer → Prop := other_syncer_with RtAnnotationKeyOneOrManyBranches.

Definition used_elsewhere (w : W) (b : string) : Prop :=
  ∃ o, other_syncer w o ∧ RemoteRepository (SyncerSpec o) = up ∧ DefaultBranch (SyncerSpec o) = upb ∧
    b ∈ syncer_branches o.

Lemma list_elems {T} `{Object T, Stamp T, Kind T, !Store W T, !StoreLaws W T view} opts w :
  ∃ l, client_List opts w = (Ok l, w) ∧
    ∀ o : T, o ∈ l ↔ (∃ k, v_get (view w) !! k = Some o) ∧ list_matches opts (get_meta o) = true.
Proof.
  destruct (list_all opts w) as (l & Hl & Hperm). exists l. split; [done|]. intros o.
  rewrite Hperm, list_elem_of_In, filter_In, <- list_elem_of_In, list_elem_of_fmap.
  f_equiv. split.
  - intros ([k o'] & -> & Hk%elem_of_map_to_list). by exists k.
  - intros [k Hk]. exists (k, o). split; [done|]. by apply elem_of_map_to_list.
Qed.

Lemma elem_filter {A} (p : A → bool) l x : x ∈ List.filter p l ↔ x ∈ l ∧ p x = true.
Proof. by rewrite list_elem_of_In, filter_In, <- list_elem_of_In. Qed.

Lemma list_branch_targets w : keyed (rts w) →
  ∃ l, listManagedBranchTargets ns w = (Ok l, w) ∧
    ∀ rt, rt ∈ filterByUpstream l up upb ↔ rts w !! object_key rt = Some rt ∧ branch_target rt = true.
Proof.
  intros Hkeyed. destruct (list_elems (T := RemoteTarget) (branch_target_options ns) w) as (l & Hl & Hin).
  exists l. split; [done|]. intros rt. unfold filterByUpstream. rewrite elem_filter, Hin.
  unfold branch_target. rewrite !andb_true_iff. split.
  - intros [[[k Hk] Hm] Hu]. simpl in *. by rewrite (Hkeyed _ _ Hk).
  - intros [Hk [Hm Hu]]. split_and!; [by eexists|done|apply Hu|apply Hu].
Qed.

Lemma others_with_run key w :
  ∃ others, getOtherSyncersWith s key w = (Ok others, w) ∧ ∀ o, o ∈ others ↔ other_syncer_with key w o.
Proof.
  unfold getOtherSyncersWith.
  destruct (list_elems (T := RemoteSyncer) (mkListOptions ns None) w) as (l1 & Hl1 & Hin1).
  destruct (list_elems (T := ClusterWideRemoteSyncer) (mkListOptions "" None) w) as (l2 & Hl2 & Hin2).
  eexists. split.
  { by rewrite (bind_ok _ _ _ _ _ Hl1), (bind_ok _ _ _ _ _ Hl2). }
  intros o. rewrite elem_of_app, !elem_filter, !list_elem_of_fmap, negb_true_iff, orb_false_iff.
  rewrite andb_true_iff, negb_true_iff, orb_false_iff, !String.eqb_neq, String.eqb_eq.
  unfold other_syncer_with. destruct o as [rs|cw]; (split; [intros [(Hex & Hs & Ha)|Hx]|]).
  - destruct Hex as (rs' & [= <-] & [Hk Hm]%Hin1). split_and!; [done| |done|done].
    unfold list_matches in Hm. simpl in Hm. rewrite andb_true_r, orb_true_iff, !String.eqb_eq in Hm. done.
  - destruct Hx as ((? & [=] & _) & _).
  - intros ([Hk Hm] & Hs & Ha). left. split_and!; [|done|done]. exists rs. split; [done|].
    apply Hin1. split; [done|]. unfold list_matches. simpl.
    by rewrite andb_true_r, orb_true_iff, !String.eqb_eq.
  - destruct Hex as (? & [=] & _).
  - destruct Hx as ((cw' & [= <-] & [Hk _]%Hin2) & Hns & Hs & Ha). done.
  - intros ([Hk Hm] & Hs & Ha). right. split_and!; [|done..]. exists cw. split; [done|]. by apply Hin2.
Qed.
Lemma others_run w :
  ∃ others, getOtherSyncersWithBranchPolicy s w = (Ok others, w) ∧ ∀ o, o ∈ others ↔ other_syncer w o.
Proof. apply others_with_run. Qed.

Lemma existsb_elem b l : existsb (String.eqb b) l = true ↔ b ∈ l.
Proof.
  rewrite existsb_exists. split.
  - intros (x & Hx & ->%String.eqb_eq). by apply list_elem_of_In.
  - intros Hb. exists b. by rewrite <- list_elem_of_In, String.eqb_refl.
Qed.

Lemma prunable_spec w others b :
  (∀ o, o ∈ others ↔ other_syncer w o) →
  prunable s (syncer_branches s) others b = true ↔ (b ∉ syncer_branches s) ∧ ¬ used_elsewhere w b.
Proof.
  intros Ho. unfold prunable. rewrite andb_true_iff, !negb_true_iff, <- !not_true_iff_false.
  rewrite existsb_elem. f_equiv. unfold isBranchUsedByOtherSyncer, used_elsewhere.
  rewrite existsb_exists. apply not_iff_compat. f_equiv. intros o.
  rewrite <- list_elem_of_In, Ho, !andb_true_iff, !String.eqb_eq, existsb_elem. tauto.
Qed.

Lemma used_dec w b : used_elsewhere w b ∨ ¬ used_elsewhere w b.
Proof.
  destruct (others_run w) as (others & _ & Ho).
  pose proof (prunable_spec w others b Ho) as Hp. unfold prunable in Hp.
  destruct (isBranchUsedByOtherSyncer b up upb others) eqn:E.
  - left. unfold isBranchUsedByOtherSyncer in E. apply existsb_exists in E as (o & Hin & E).
    bool_hyps. exists o. rewrite list_elem_of_In, Ho in Hin || rewrite <- list_elem_of_In, Ho in Hin.
    split_and!; [done..|]. by apply existsb_elem.
  - right. intros (o & Hin & Hr1 & Hr2 & Hr3). rewrite <- not_true_iff_false in E. apply E.
    unfold isBranchUsedByOtherSyncer. apply existsb_exists. exists o.
    rewrite <- list_elem_of_In, Ho, Hr1, Hr2, !String.eqb_refl. split; [done|]. by apply existsb_elem.
Qed.

Lemma by_branch_lookup l b rt : by_branch l !! b = Some rt → rt ∈ l ∧ TargetBranch (rt_Spec rt) = b.
Proof.
  unfold by_branch. induction l as [|x l IH] using rev_ind; simpl; [done|].
  rewrite foldl_app. simpl. intros [[<- <-]|[_ Hl]]%lookup_insert_Some.
  - split; [|done]. apply elem_of_app. right. by left.
  - destruct (IH Hl). split; [|done]. apply elem_of_app. by left.
Qed.

Lemma by_branch_some l rt : rt ∈ l → is_Some (by_branch l !! TargetBranch (rt_Spec rt)).
Proof.
  unfold by_branch. induction l as [|x l IH] using rev_ind; simpl; [by intros ?%not_elem_of_nil|].
  rewrite foldl_app. simpl. intros [Hin| ->%list_elem_of_singleton]%elem_of_app.
  - apply lookup_insert_is_Some'. right. by apply IH.
  - rewrite lookup_insert_eq. by eexists.
Qed.

(** ** The policy *)

Abbreviation desired := (syncer_branches s).

(** A server at rest: nobody deletes or protects what the policy changes, the
    upstream has one managed target per branch, and the names of the wanted targets
    are distinct and not taken by other objects. *)
Record calm (w : W) : Prop := {
  calm_rts : keyed (rts w);
  calm_rubs : keyed (rubs w);
  calm_free : map_Forall (λ _, free_rub) (rubs w);
  calm_fin : map_Forall (λ _ rt, om_Finalizers (rt_Meta rt) = []) (rts w);
  calm_build : ∀ b, b ∈ desired → ∃ rt, target_for b rt;
  calm_names : ∀ b rt rt0, b ∈ desired → target_for b rt → rts w !! object_key rt = Some rt0 →
    branch_target rt0 = true ∧ TargetBranch (rt_Spec rt0) = b;
  calm_inj : ∀ b1 b2 rt1 rt2, b1 ∈ desired → b2 ∈ desired → target_for b1 rt1 → target_for b2 rt2 →
    object_key rt1 = object_key rt2 → b1 = b2;
  calm_one : ∀ k1 k2 rt1 rt2, rts w !! k1 = Some rt1 → rts w !! k2 = Some rt2 →
    branch_target rt1 = true → branch_target rt2 = true →
    TargetBranch (rt_Spec rt1) = TargetBranch (rt_Spec rt2) → k1 = k2 }.

(** The run, with what it did to the targets: first [m1], all the wanted ones added,
    then the prunable entries of [existing] gone. *)
Lemma reconcile_run ord w :
  (∀ m, ord m ≡ₚ map_to_list m) → calm w →
  ∃ w' existing m1, BranchTarget_Reconcile ord s w = (Ok (no_requeue, None), w') ∧
    added_for existing desired (rts w) m1 ∧
    (∀ b rt, existing !! b = Some rt ↔
       rts w !! object_key rt = Some rt ∧ branch_target rt = true ∧ TargetBranch (rt_Spec rt) = b) ∧
    ∀ k rt, rts w' !! k = Some rt ↔ m1 !! k = Some rt ∧
      ¬ (∃ b rt0, existing !! b = Some rt0 ∧ object_key rt0 = k ∧ (b ∉ desired) ∧ ¬ used_elsewhere w b).
Proof.
  intros Hord Hc. destruct (rand_spec 5 w) as [n Hn].
  destruct (list_branch_targets w (calm_rts w Hc)) as (l & Hl & Hin).
  set (existing := by_branch (filterByUpstream l up upb)).
  destruct (create_loop existing desired w (calm_build w Hc)) as (m1 & w1 & Hcr & Hv1 & Hadd).
  destruct (others_run w1) as (others & Ho & Hothers).
  assert (Hrts1 : rts w1 = m1) by (by rewrite Hv1).
  assert (Hrub1 : rubs w1 = rubs w) by (by rewrite Hv1).
  destruct (prune_loop (mkResult (requeueAfter + n * 1000000000)) desired others (ord existing) w1)
    as (w' & Hpr & Hpost).
  { rewrite Hrub1. apply Hc. } { rewrite Hrub1. apply Hc. }
  { rewrite Hrts1. intros k rt Hk. destruct Hadd as (_ & _ & Hnew).
    destruct (Hnew k rt Hk) as [Hk0|(b & rt1 & rv & _ & Ht & _ & _ & ->)].
    - exact (calm_fin w Hc _ _ Hk0).
    - by apply target_for_spec in Ht as (_ & _ & _ & _ & Hfin & _). }
  exists w', existing, m1. split_and!; [|exact Hadd| |].
  - assert (Hj : jitter w = (Ok (mkResult (requeueAfter + n * 1000000000)), w))
      by (unfold jitter; by rewrite (bind_ok _ _ _ _ _ Hn)).
    unfold BranchTarget_Reconcile. rewrite (bind_ok _ _ _ _ _ Hj), (check_ok _ _ _ _ _ _ Hl).
    cbv zeta. fold existing. by rewrite (check_ok _ _ _ _ _ _ Hcr), (check_ok _ _ _ _ _ _ Ho).
  - intros b rt. split.
    + intros [Hrt Hb]%by_branch_lookup. by apply Hin in Hrt as [? ?].
    + intros (Hk & Hbt & <-). destruct (by_branch_some (filterByUpstream l up upb) rt) as [rt' Hrt'].
      { by apply Hin. }
      fold existing in Hrt'. rewrite Hrt'. f_equal.
      apply by_branch_lookup in Hrt' as [Hrt' Hb']. apply Hin in Hrt' as [Hk' Hbt'].
      pose proof (calm_one w Hc _ _ _ _ Hk' Hk Hbt' Hbt Hb') as Heq. rewrite Heq in Hk'. congruence.
  - intros k rt. rewrite Hpost, Hrts1.
    assert (Hu : ∀ b, used_elsewhere w1 b ↔ used_elsewhere w b).
    { intros b. unfold used_elsewhere, other_syncer, other_syncer_with. by rewrite Hv1. }
    case_bool_decide as Hk.
    + split; [done|]. intros [_ Hno]. exfalso. apply Hno.
      apply list_elem_of_fmap in Hk as ([b rt0] & -> & Hb%elem_filter).
      destruct Hb as [Hb Hp]. rewrite (Hord existing), elem_of_map_to_list in Hb.
      apply (prunable_spec w1 others b Hothers) in Hp as [Hd Hnu]. exists b, rt0. by rewrite <- Hu.
    + split; [|by intros []]. intros Hm. split; [done|]. intros (b & rt0 & Hb & <- & Hd & Hnu).
      apply Hk. apply list_elem_of_fmap. exists (b, rt0). split; [done|]. apply elem_filter.
      rewrite (Hord existing), elem_of_map_to_list. split; [done|].
      apply (prunable_spec w1 others b Hothers). by rewrite Hu.
Qed.

Lemma target_for_stamp b rt rv : target_for b rt →
  branch_target (stamp rv rt) = true ∧ TargetBranch (rt_Spec (stamp rv rt)) = b.
Proof.
  intros Ht. pose proof (target_for_spec b rt Ht) as (Hn & Hb & Hu & Hub & _ & Hl1 & Hl2).
  split; [|exact Hb]. unfold branch_target, list_matches, branch_target_options. simpl.
  rewrite Hn, Hu, Hub, !String.eqb_refl, !andb_true_r, orb_true_r. simpl.
  unfold stamp. simpl. apply from_set_matches. intros k v [[<- <-]|[_ Hk]]%lookup_insert_Some; [done|].
  apply lookup_insert_Some in Hk as [[<- <-]|[_ Hk]]; [done|]. by rewrite lookup_empty in Hk.
Qed.

(** (C5) The branch policy converges in one pass on a server at rest: afterwards the
    managed targets of the syncer's upstream are exactly those of the branches it asks
    for, and those another syncer of its identity namespace still uses; every other
    target is left as it was. *)
Theorem BranchTarget_converges ord w :
  (∀ m, ord m ≡ₚ map_to_list m) → calm w →
  ∃ w', BranchTarget_Reconcile ord s w = (Ok (no_requeue, None), w') ∧
    (∀ b, stored_target w' b ↔ b ∈ desired ∨ (stored_target w b ∧ used_elsewhere w b)) ∧
    (∀ k rt, rts w !! k = Some rt → branch_target rt = false → rts w' !! k = Some rt).
Proof.
  intros Hord Hc.
  destruct (reconcile_run ord w Hord Hc) as (w' & existing & m1 & Hrun & (Hsub & Hadd & Hnew) & Hex & Hpost).
  exists w'. split; [done|]. split.
  - intros b. split.
    + intros (k & rt & Hk & Hbt & Hb). apply Hpost in Hk as [Hk Hno].
      destruct (Hnew k rt Hk) as [Hk0|(b1 & rt1 & rv & Hin & Ht & -> & _ & ->)].
      * destruct (decide (b ∈ desired)) as [|Hnd]; [by left|right].
        assert (Hkr := calm_rts w Hc _ _ Hk0). simpl in Hkr.
        split; [by exists k, rt|]. destruct (used_dec w b) as [|Hnu]; [done|]. exfalso. apply Hno.
        exists b, rt. split_and!; [|done..]. apply Hex. by rewrite Hkr.
      * left. destruct (target_for_stamp b1 rt1 rv Ht) as [_ Hb1]. congruence.
    + assert (Hkeep : ∀ k rt, rts w !! k = Some rt → branch_target rt = true → TargetBranch (rt_Spec rt) = b →
          b ∈ desired ∨ used_elsewhere w b → stored_target w' b).
      { intros k rt Hk Hbt Hb Hor. exists k, rt. split_and!; [|done..]. apply Hpost. split.
        - by eapply lookup_weaken.
        - intros (b0 & rt0 & Hb0 & Hkr & Hd & Hnu). apply Hex in Hb0 as (Hk0 & _ & Hbb).
          rewrite Hkr in Hk0. assert (rt0 = rt) as -> by congruence. naive_solver. }
      intros [Hb|[(k & rt & Hk & Hbt & Hb) Hu]]; [|by eapply Hkeep; eauto].
      destruct (existing !! b) as [rt0|] eqn:E.
      { apply Hex in E as (Hk & Hbt & Hbb). eapply Hkeep; eauto. }
      destruct (calm_build w Hc b Hb) as [rt Ht].
      destruct (Hadd b rt Hb E Ht) as [rt' Hk].
      assert (Hnone : rts w !! object_key rt = None).
      { destruct (rts w !! object_key rt) as [rt0|] eqn:Hk0; [|done]. exfalso.
        destruct (calm_names w Hc b rt rt0 Hb Ht Hk0) as [Hbt Hbb].
        assert (Hkr := calm_rts w Hc _ _ Hk0). simpl in Hkr.
        rewrite (proj2 (Hex b rt0)) in E; [done|]. by rewrite Hkr. }
      destruct (Hnew _ _ Hk) as [?|(b1 & rt1 & rv & Hin & Ht1 & Hkk & _ & ->)]; [congruence|].
      assert (b = b1) as <- by (by eapply (calm_inj w Hc)).
      destruct (target_for_stamp b rt1 rv Ht1) as [Hbt Hbb].
      exists (object_key rt), (stamp rv rt1). split_and!; [|done..]. apply Hpost. split; [done|].
      intros (b0 & rt0 & Hb0 & Hkr & _). apply Hex in Hb0 as (Hk0 & _). congruence.
  - intros k rt Hk Hbt. apply Hpost. split; [by eapply lookup_weaken|].
    intros (b0 & rt0 & Hb0 & Hkr & _). apply Hex in Hb0 as (Hk0 & Hbt0 & _). congruence.
Qed.
End BranchTarget.

(** ** A concrete namespace, for the witnesses *)

Definition plain_spec (repo branch : string) : RemoteSyncerSpec :=
  mkRemoteSyncerSpec repo branch (mkScopedResources None None []) CommitApply MultipleTarget
    None "" [] [] "" false None [] false BlockDefaultUser BlockPushError 1
    None None false (mkRef "" "") (mkSOPSConfig false (mkRef "" "")).
Definition branch_syncer (branches : string) : Syncer :=
  SyncerRS (mkRemoteSyncer
    (set_annotations {[RtAnnotationKeyOneOrManyBranches := branches]} (new_meta "rs" "team" ∅))
    (plain_spec "https://git.x/org/app.git" "main") (mkRemoteSyncerStatus [] None None None)).
Definition app_target (b : string) : RemoteTarget :=
  match buildRemoteTarget "team" "https://git.x/org/app.git" "main" b with
  | Ok rt => rt
  | _ => team_target
  end.
Definition target_world (b : string) : World :=
  world_of (mkView ∅ {[mkNN "team" "associated-rub-alice" := rub_with [om_Name (rt_Meta (app_target b))]]}
              {[object_key (app_target b) := app_target b]} ∅ ∅ ∅ ∅ ∅).

Lemma singleton_lookup {K A} `{Countable K} (k k' : K) (x y : A) :
  ({[k := x]} : gmap K A) !! k' = Some y → k' = k ∧ y = x.
Proof. intros [-> ->]%lookup_singleton_Some. done. Qed.

Lemma target_world_calm : calm (branch_syncer "dev") (target_world "old").
Proof.
  split.
  - apply map_Forall_singleton. reflexivity.
  - apply map_Forall_singleton. reflexivity.
  - apply map_Forall_singleton. split; reflexivity.
  - apply map_Forall_singleton. reflexivity.
  - intros b Hb. change (b ∈ ["dev"]) in Hb. apply list_elem_of_singleton in Hb as ->.
    exists (app_target "dev"). vm_compute. reflexivity.
  - intros b rt rt0 Hb Ht Hk. change (b ∈ ["dev"]) in Hb. apply list_elem_of_singleton in Hb as ->.
    apply singleton_lookup in Hk as [Hk _]. exfalso. revert Ht Hk. unfold target_for.
    vm_compute. intros [= <-]. discriminate.
  - intros b1 b2 rt1 rt2 Hb1 Hb2 _ _ _. change (b1 ∈ ["dev"]) in Hb1. change (b2 ∈ ["dev"]) in Hb2.
    apply list_elem_of_singleton in Hb1 as ->. by apply list_elem_of_singleton in Hb2 as ->.
  - intros k1 k2 rt1 rt2 [-> _]%singleton_lookup [-> _]%singleton_lookup. done.
Qed.

Lemma BranchTarget_converges_witness :
  ∃ w' : World, BranchTarget_Reconcile map_to_list (branch_syncer "dev") (target_world "old") =
      (Ok (no_requeue, None), w') ∧
    (∀ b, stored_target (branch_syncer "dev") w' b ↔
       b ∈ syncer_branches (branch_syncer "dev") ∨
       (stored_target (branch_syncer "dev") (target_world "old") b ∧
        used_elsewhere (branch_syncer "dev") (target_world "old") b)) ∧
    (∀ k rt, v_rt (view (target_world "old")) !! k = Some rt →
       branch_target (branch_syncer "dev") rt = false → v_rt (view w') !! k = Some rt).
Proof. apply BranchTarget_converges; [reflexivity|apply target_world_calm]. Defined.

(** The managed name folds the case of the branch: renaming a wanted branch in case
    only leaves the syncer without any target after a pass that reports success and
    asks for no requeue. The create of the new target finds the name taken, which is
    tolerated, and the prune then deletes the object that took it. *)
Theorem BranchTarget_case_rename :
  let run := BranchTarget_Reconcile map_to_list (branch_syncer "feature") (target_world "Feature") in
  fst run = Ok (no_requeue, None) ∧ v_rt (view (snd run)) = ∅.
Proof. split; vm_compute; reflexivity. Qed.
