(* ===== verification/Render.v ===== *)
(** * Rendering the intercepted object ([pkg/render])

    Decoding the JSON of the request, removing the excluded fields, and marshalling
    to YAML. The decoded document is a tree without sharing, so the in-place deletes
    of the Go code are a functional update. *)

From S2P Require Import Prelude GoStr Api Errors External Refs Sim.
From Stdlib Require Import Ascii.

(** ** Excluded fields ([excludedfields.go]) *)

Record path_state := mkPathState { ps_parts : list string; ps_current : string; ps_inBrackets : bool }.

(** [if current != "" { parts = append(parts, current) }; current = ""]. *)
Definition flush (b : bool) (s : path_state) : path_state :=
  mkPathState (if String.eqb (ps_current s) "" then ps_parts s else ps_parts s ++ [ps_current s]) "" b.
Definition push_char (char : string) (s : path_state) : path_state :=
  mkPathState (ps_parts s) (ps_current s ++ char) (ps_inBrackets s).

Definition path_step (s : path_state) (char : string) : path_state :=
  if String.eqb char "." then
    if ps_inBrackets s then push_char char s else flush (ps_inBrackets s) s
  else if String.eqb char "[" then flush true s
  else if String.eqb char "]" then flush false s
  else push_char char s.

(** The parts of a path. *)
Definition path_parts (path : string) : list string :=
  ps_parts (flush false (foldl path_step (mkPathState [] "" false) (runes path))).

(** The descent and the [delete] at the last part. *)
Fixpoint delete_parts (parts : list string) (m : gmap string value) : gmap string value :=
  match parts with
  | [] => m
  | [last] => delete last m
  | part :: parts' =>
      match m !! part with
      | Some (VMap next) => <[part := VMap (delete_parts parts' next)]> m
      | _ => m
      end
  end.

Definition RemoveExcludedField (data : json_map) (path : string) : json_map :=
  delete_parts (path_parts path) <$> data.

Definition ContainsDeletionTimestamp (data : json_map) : bool :=
  match default ∅ data !! "metadata" with
  | Some (VMap metadata) => bool_decide (is_Some (metadata !! "deletionTimestamp"))
  | _ => false
  end.

Section Render.
Context {W : Type} `{Cluster W, Lib}.

Definition ExcludedFieldsFromConfigMap (configMapName configMapNamespace : string)
  : M error W (list string) :=
  excludedFieldsConfig ⇐ client_Get (T := ConfigMap) (mkNN configMapNamespace configMapName);;
  match yaml_Unmarshal_strings (mget (cm_Data excludedFieldsConfig) "excludedFields") with
  | Err _ => throw (wrongYamlFormat "failed to convert the excludedFields from the ConfigMap")
  | Panic => panic
  | Ok excludedFields => ret excludedFields
  end.

Definition JSONToMap (rawObject : string) : result error json_map := json_Unmarshal_map rawObject.

Definition default_fields_label : gmap string string :=
  {["syngit.io/cluster-default-excluded-fields" := "true"]}.

(** All the excluded paths: the cluster defaults, the syncer's own, then the
    referenced ConfigMaps. *)
Definition excluded_paths (syngitNamespace : string) (spec : RemoteSyncerSpec) (refOwnerNamespace : string)
  : M error W (list string) :=
  cms ⇐ client_List (T := ConfigMap)
          (mkListOptions syngitNamespace (Some (SelectorFromSet default_fields_label)));;
  paths ⇐ for_fold (λ paths cm,
      fields ⇐ ExcludedFieldsFromConfigMap (om_Name (cm_Meta cm)) (om_Namespace (cm_Meta cm));;
      ret (paths ++ fields)%list) [] cms;;
  for_foldi 0 (λ i paths ref,
    match ref with
    | None => ret paths
    | Some ref =>
        cmNamespace ⇐ lift (ResolveNamespace (ref_Namespace ref) refOwnerNamespace
                         (FIndex (FPath ["spec"; "excludedFieldsConfigMapsRef"]) i));;
        fields ⇐ ExcludedFieldsFromConfigMap (ref_Name ref) cmNamespace;;
        ret (paths ++ fields)%list
    end) (paths ++ ExcludedFields spec)%list (ExcludedFieldsConfigMapsRef spec).

Definition ObjectToYAML (rawObject syngitNamespace : string) (spec : RemoteSyncerSpec)
    (refOwnerNamespace : string) : M error W string :=
  data ⇐ lift (JSONToMap rawObject);;
  paths ⇐ excluded_paths syngitNamespace spec refOwnerNamespace;;
  lift (yaml_Marshal (foldl RemoveExcludedField data paths)).
End Render.

(** ** What removing a path means *)

(** The value a document holds at a path. *)
Fixpoint at_path (parts : list string) (v : value) : option value :=
  match parts with
  | [] => Some v
  | p :: ps => match v with VMap m => match m !! p with Some v' => at_path ps v' | None => None end | _ => None end
  end.

Lemma delete_parts_at parts m :
  parts ≠ [] → at_path parts (VMap (delete_parts parts m)) = None.
Proof.
  revert m; induction parts as [|p ps IH]; intros m Hne; [done|].
  destruct ps as [|q ps]; [cbn; by rewrite lookup_delete_eq|].
  cbn [delete_parts]. destruct (m !! p) as [[]|] eqn:E; cbn [at_path]; rewrite ?E; try done.
  rewrite lookup_insert_eq. by apply IH.
Qed.

(** Two paths that part ways. *)
Inductive diverge : list string → list string → Prop :=
| diverge_here p q ps qs : p ≠ q → diverge (p :: ps) (q :: qs)
| diverge_later p ps qs : diverge ps qs → diverge (p :: ps) (p :: qs).

Lemma delete_parts_other parts other m :
  diverge parts other → at_path other (VMap (delete_parts parts m)) = at_path other (VMap m).
Proof.
  intros Hd. revert m. induction Hd as [p q ps qs Hne|p ps qs Hd IH]; intros m.
  - destruct ps as [|p' ps]; cbn [delete_parts at_path]; [by rewrite lookup_delete_ne|].
    destruct (m !! p) as [[]|]; cbn [at_path]; rewrite ?lookup_insert_ne; done.
  - destruct ps as [|p' ps]; [inversion Hd|]. cbn [delete_parts].
    destruct (m !! p) as [[| | | | |next]|] eqn:E; cbn [at_path]; rewrite ?E; try done.
    rewrite lookup_insert_eq. exact (IH next).
Qed.

(** ** The path syntax *)

(** A key that a bracket can quote: not empty, ASCII, without brackets. *)
Definition quotable (p : string) : Prop :=
  p ≠ "" ∧ Forall (λ c, byte_in 0 127 c = true ∧ c ≠ "["%char ∧ c ≠ "]"%char) (String.list_ascii_of_string p).
Definition quote_path (parts : list string) : string :=
  Join (map (λ p, "[" ++ (p ++ "]")) parts) "".

Lemma runes_ascii c s : byte_in 0 127 c = true → runes (String c s) = String c "" :: runes s.
Proof.
  intros Hc. unfold runes. cbn [runes_go].
  assert (Hl : rune_len (String c s) = 1%nat).
  { unfold byte_in in Hc. apply andb_true_iff in Hc as [_ Hc%Nat.leb_le].
    assert (Hin : ∀ lo hi, (127 < lo)%nat → byte_in lo hi c = false).
    { intros lo hi Hlo. unfold byte_in. by rewrite (proj2 (Nat.leb_gt lo _)) by lia. }
    assert (His : ∀ k, (127 < k)%nat → byte_is k c = false).
    { intros k Hk. unfold byte_is. apply Nat.eqb_neq. lia. }
    unfold rune_len. rewrite !Hin, !His by lia. reflexivity. }
  by rewrite Hl, Hc.
Qed.

Lemma runes_append a b :
  Forall (λ c, byte_in 0 127 c = true) (String.list_ascii_of_string a) →
  runes (a ++ b) = (runes a ++ runes b)%list.
Proof.
  induction a as [|c a IH]; intros Ha; [done|]. cbn [String.list_ascii_of_string] in Ha.
  inversion Ha as [|? ? Hc Ha']; subst. cbn [String.append].
  rewrite !runes_ascii by done. cbn. by rewrite IH.
Qed.

Lemma fold_quoted p parts cur :
  Forall (λ c, byte_in 0 127 c = true ∧ c ≠ "["%char ∧ c ≠ "]"%char) (String.list_ascii_of_string p) →
  foldl path_step (mkPathState parts cur true) (runes p) = mkPathState parts (cur ++ p) true.
Proof.
  revert cur; induction p as [|c p IH]; intros cur Hp; [cbn; by rewrite append_nil_r|].
  cbn [String.list_ascii_of_string] in Hp. inversion Hp as [|? ? (Ha & Hl & Hr) Hp']; subst.
  rewrite runes_ascii by done. cbn [foldl].
  assert (Hstep : path_step (mkPathState parts cur true) (String c "") =
                  mkPathState parts (cur ++ String c "") true).
  { unfold path_step, push_char. cbn [ps_parts ps_current ps_inBrackets].
    destruct (String.eqb_spec (String c "") "."); [done|].
    destruct (String.eqb_spec (String c "") "["); [congruence|].
    destruct (String.eqb_spec (String c "") "]"); [congruence|]. done. }
  rewrite Hstep, IH by done. by rewrite append_assoc.
Qed.

(** ** Properties *)

(** (C29) Removing an excluded field removes what the path designates and nothing else:
    afterwards the document has nothing there, and holds at every path that parts from
    it what it held before. *)
Theorem RemoveExcludedField_exact m path :
  path_parts path ≠ [] →
  ∃ m', RemoveExcludedField (Some m) path = Some m' ∧
    at_path (path_parts path) (VMap m') = None ∧
    ∀ other, diverge (path_parts path) other → at_path other (VMap m') = at_path other (VMap m).
Proof.
  intros Hne. eexists. split; [reflexivity|]. split; [by apply delete_parts_at|].
  intros other Hd. by apply delete_parts_other.
Qed.

(** Any list of keys can be written as a path: quoted with brackets, whatever the
    dots they contain, the parser reads them back. *)
Theorem path_parts_quoted parts : Forall quotable parts → path_parts (quote_path parts) = parts.
Proof.
  intros Hq. unfold path_parts.
  enough (∀ acc, foldl path_step (mkPathState acc "" false) (runes (quote_path parts)) =
                 mkPathState (acc ++ parts)%list "" false) as -> by done.
  induction Hq as [|p ps [Hne Hp] Hps IH]; intros acc; [cbn; by rewrite app_nil_r|].
  assert (Hsplit : quote_path (p :: ps) = ("[" ++ (p ++ "]")) ++ quote_path ps).
  { unfold quote_path, Join. cbn [map]. destruct ps; cbn [map]; [cbn; by rewrite append_nil_r|].
    by rewrite concat_cons. }
  assert (Hasc : Forall (λ c, byte_in 0 127 c = true) (String.list_ascii_of_string p)).
  { eapply Forall_impl; [exact Hp|]. by intros c (? & _). }
  rewrite Hsplit, append_assoc. cbn [String.append].
  rewrite runes_ascii, append_assoc, runes_append by done. cbn [foldl].
  change (path_step (mkPathState acc "" false) "[") with (mkPathState acc "" true).
  rewrite foldl_app, fold_quoted by done. cbn [String.append].
  rewrite runes_ascii by done. cbn [foldl].
  assert (Hstep : path_step (mkPathState acc p true) "]" = mkPathState (acc ++ [p])%list "" false).
  { unfold path_step, flush. cbn. apply String.eqb_neq in Hne. by rewrite Hne. }
  rewrite Hstep, IH. by rewrite <- app_assoc.
Qed.

Definition sample_doc : gmap string value :=
  {["metadata" := VMap {["annotations" := VMap {["a.b/c" := VStr "x"; "keep" := VStr "y"]}]};
    "kind" := VStr "ConfigMap"]}.

Lemma RemoveExcludedField_exact_witness :
  path_parts ".metadata.annotations[a.b/c]" = ["metadata"; "annotations"; "a.b/c"] ∧
  ∃ m', RemoveExcludedField (Some sample_doc) ".metadata.annotations[a.b/c]" = Some m' ∧
    at_path ["metadata"; "annotations"; "a.b/c"] (VMap m') = None ∧
    at_path ["metadata"; "annotations"; "keep"] (VMap m') = Some (VStr "y").
Proof.
  split; [vm_compute; reflexivity|].
  destruct (RemoveExcludedField_exact sample_doc ".metadata.annotations[a.b/c]") as (m' & Hm & Hnone & Hoth).
  - vm_compute. discriminate.
  - exists m'. split; [exact Hm|]. split; [exact Hnone|].
    rewrite (Hoth ["metadata"; "annotations"; "keep"]); [vm_compute; reflexivity|].
    change (path_parts ".metadata.annotations[a.b/c]") with ["metadata"; "annotations"; "a.b/c"].
    apply diverge_later, diverge_later, diverge_here. discriminate.
Defined.

Lemma path_parts_quoted_witness :
  path_parts ".test4[this.string-is:the/same*key]test5[test6]" =
    ["test4"; "this.string-is:the/same*key"; "test5"; "test6"] ∧
  path_parts (quote_path ["spec"; "a.b"; "c"]) = ["spec"; "a.b"; "c"].
Proof.
  split; [vm_compute; reflexivity|]. apply path_parts_quoted.
  repeat constructor; discriminate.
Defined.
