(* ===== verification/Feature.v ===== *)
(** * Feature gates ([pkg/feature/features.go])

    [FeatureGates] is a map the methods change in place: [Set] answers the map it
    leaves behind with its error. *)

From S2P Require Import Prelude GoStr Api Errors.
From Stdlib Require Import Ascii.

Definition FeatureGates : Type := gmap string bool.

Definition ResourceFinder_gate : string := "ResourceFinder".
Definition HelmValuesMutation : string := "HelmValuesMutation".
Definition FluxHelmRelease : string := "FluxHelmRelease".
Definition SopsEncryption : string := "SopsEncryption".
Definition Kustomize : string := "Kustomize".

Definition LoadedFeatureGates : FeatureGates :=
  {[ResourceFinder_gate := true; HelmValuesMutation := true; FluxHelmRelease := true;
    SopsEncryption := true; Kustomize := true]}.

Definition Enabled (f : FeatureGates) (feature : string) : bool :=
  match f !! feature with Some enabled => enabled | None => false end.

(** [strconv.ParseBool]. *)
Definition ParseBool (s : string) : option bool :=
  if existsb (String.eqb s) ["1"; "t"; "T"; "TRUE"; "true"; "True"] then Some true
  else if existsb (String.eqb s) ["0"; "f"; "F"; "FALSE"; "false"; "False"] then Some false
  else None.
Definition FormatBool (b : bool) : string := if b then "true" else "false".

Fixpoint set_pairs (f : FeatureGates) (l : list string) : FeatureGates * option error :=
  match l with
  | [] => (f, None)
  | s :: rest =>
      let s := TrimSpace s in
      if String.eqb s "" then set_pairs f rest
      else match Cut s "=" with
           | None => (f, Some (plainError ("invalid feature gate format: " ++ s)))
           | Some (a, b) =>
               let feature := TrimSpace a in
               let value := TrimSpace b in
               match f !! feature with
               | None => (f, Some (plainError ("unknown feature gate: " ++ feature)))
               | Some _ =>
                   match ParseBool value with
                   | None => (f, Some (plainError ("invalid value for " ++ (feature ++ (": " ++
                                    (value ++ " (must be true or false)"))))))
                   | Some boolValue => set_pairs (<[feature := boolValue]> f) rest
                   end
               end
           end
  end.

Definition Set_gates (f : FeatureGates) (value : string) : FeatureGates * option error :=
  if String.eqb value "" then (f, None) else set_pairs f (Split value ",").

Definition gate_string (p : string * bool) : string := p.1 ++ ("=" ++ FormatBool p.2).
(** [String]; the map is visited in the order [ord] gives. *)
Definition gates_String (ord : FeatureGates → list (string * bool)) (f : FeatureGates) : string :=
  Join (map gate_string (ord f)) ",".

(** ** Round trip *)

(** A name that can be written in a gate string: no comma or equals sign, not empty,
    and nothing to trim around it. *)
Definition gate_name (n : string) : Prop :=
  n ≠ "" ∧ has_byte "," n = false ∧ has_byte "=" n = false ∧
  TrimSpace n = n ∧ ∀ b, TrimSpace (gate_string (n, b)) = gate_string (n, b).

Lemma Cut_gate n b : has_byte "=" n = false → Cut (gate_string (n, b)) "=" = Some (n, FormatBool b).
Proof.
  unfold gate_string. cbn [fst snd]. generalize (FormatBool b); intros v.
  induction n as [|c n IH]; intros Hn.
  - cbn. by destruct v.
  - cbn [has_byte] in Hn. apply orb_false_iff in Hn as [Hc Hn].
    change (String c n ++ ("=" ++ v)) with (String c (n ++ ("=" ++ v))).
    cbn [Cut]. rewrite prefix_one, Hc. by rewrite IH.
Qed.

Lemma set_pairs_roundtrip f l :
  Forall (λ p, gate_name p.1 ∧ is_Some (f !! p.1)) l →
  set_pairs f (map gate_string l) = (foldl (λ f p, <[p.1 := p.2]> f) f l, None).
Proof.
  revert f; induction l as [|[n b] l IH]; intros f Hl; [done|].
  inversion Hl as [|? ? [(Hne & Hc & He & Ht & Hts) [old Hold]] Hl']; subst. cbn [fst] in *.
  cbn [map set_pairs foldl fst snd]. rewrite Hts.
  assert (Hne' : String.eqb (gate_string (n, b)) "" = false).
  { apply String.eqb_neq. unfold gate_string. cbn [fst]. by destruct n. }
  rewrite Hne', Cut_gate, Ht, Hold by done.
  assert (Hp : ParseBool (TrimSpace (FormatBool b)) = Some b) by (by destruct b).
  rewrite Hp. apply IH. eapply Forall_impl; [exact Hl'|]. intros p [Hn [o Ho]]. split; [done|].
  apply lookup_insert_is_Some'. right. eauto.
Qed.

Lemma foldl_insert_list (f : gmap string bool) l : NoDup l.*1 →
  foldl (λ (f : gmap string bool) p, <[p.1 := p.2]> f) f l = (list_to_map l : gmap string bool) ∪ f.
Proof.
  revert f; induction l as [|[k v] l IH]; intros f Hnd; cbn [foldl]; [by rewrite list_to_map_nil, (left_id_L ∅ (∪))|].
  cbn in Hnd. apply NoDup_cons in Hnd as [Hk Hnd]. rewrite IH by done. rewrite list_to_map_cons.
  cbn [fst snd]. rewrite <- insert_union_l, insert_union_r; [done|]. by apply not_elem_of_list_to_map_1.
Qed.

(** ** Properties *)

(** Printing gates and reading them back: [Set] on the output of [String], in whatever
    order the map was printed, succeeds and overrides exactly the printed gates. *)
Theorem gates_roundtrip (ord : gmap string bool → list (string * bool)) (g f : gmap string bool) :
  (∀ m, ord m ≡ₚ map_to_list m) → map_Forall (λ n _, gate_name n) g → dom g ⊆ dom f →
  Set_gates f (gates_String ord g) = (g ∪ f, None).
Proof.
  intros Hord Hn Hdom. pose proof (Hord g) as Hg. unfold Set_gates, gates_String.
  assert (Hl : Forall (λ p : string * bool, gate_name p.1 ∧ is_Some (f !! p.1)) (ord g)).
  { rewrite Forall_forall. intros [n b] Hin. rewrite Hg in Hin. apply elem_of_map_to_list in Hin.
    split; [exact (Hn _ _ Hin)|]. apply elem_of_dom, Hdom, elem_of_dom. eauto. }
  assert (Hnd : NoDup (ord g).*1) by (rewrite Hg; apply NoDup_fst_map_to_list).
  assert (Hm : (list_to_map (ord g) : gmap string bool) = g).
  { rewrite <- (list_to_map_to_list g) at 2. by apply list_to_map_proper. }
  destruct (ord g) as [|p l] eqn:El.
  { cbn. cbn in Hm. by rewrite <- Hm, (left_id_L ∅ (∪)). }
  rewrite <- El in *.
  assert (Hfin : foldl (λ (f : gmap string bool) p, <[p.1 := p.2]> f) f (ord g) = g ∪ f)
    by (rewrite foldl_insert_list by done; by rewrite Hm).
  rewrite Split_Join; [|rewrite Forall_map; eapply Forall_impl; [exact Hl|] |by rewrite El].
  - rewrite set_pairs_roundtrip by done.
    destruct (String.eqb_spec (Join (map gate_string (ord g)) ",") "") as [E|]; [|by f_equal].
    exfalso. apply (f_equal (has_byte "=")) in E. rewrite El in E. unfold Join in E. cbn [map] in E.
    assert (Hg1 : has_byte "=" (gate_string p) = true).
    { unfold gate_string. rewrite !has_byte_append. by rewrite orb_true_r. }
    destruct (map gate_string l); [cbn in E|rewrite concat_cons, has_byte_append in E by done];
      by rewrite Hg1 in E.
  - intros [n b] [(_ & Hc & _) _]. unfold gate_string. cbn [fst snd] in *.
    rewrite !has_byte_append, Hc. by destruct b.
Qed.

Lemma gates_roundtrip_witness :
  (Set_gates LoadedFeatureGates " Kustomize = false ,").1 !! "Kustomize" = Some false ∧
  (∃ e, (Set_gates LoadedFeatureGates "Kustomize=false,Other=true").2 = Some e) ∧
  Set_gates LoadedFeatureGates (gates_String map_to_list {["Kustomize" := false]}) =
    ({["Kustomize" := false]} ∪ LoadedFeatureGates, None).
Proof.
  split; [vm_compute; reflexivity|]. split; [by eexists|]. apply gates_roundtrip.
  - reflexivity.
  - apply map_Forall_singleton. split; [discriminate|]. split; [reflexivity|]. split; [reflexivity|].
    split; [reflexivity|]. intros []; reflexivity.
  - apply (bool_decide_unpack _). vm_compute. reflexivity.
Defined.
