(* ===== verification/Target.v ===== *)
(** * Who pushes where ([internal/interceptor]: [target.go], [subject.go],
    [k8s_references.go]; [pkg/interceptor/tls.go])

    From the Kubernetes user of a request to the git credentials and the
    RemoteTargets the change is pushed with. *)

From S2P Require Import Prelude GoStr Api Errors External Refs Sim.

(** ** [subject.go] *)

Definition IsBypassSubject (userInfo : UserInfo) (sc : SyncerContext) : bool * option error :=
  let userCountLoop := length (List.filter (λ s, String.eqb (sub_Name s) (ui_Username userInfo))
                                 (BypassInterceptionSubjects (sc_Spec sc))) in
  let isBypassSubject := (0 <? userCountLoop)%nat in
  if (1 <? userCountLoop)%nat
  then (isBypassSubject, Some (tooMuchSubject ("the name of the user is not unique (" ++ (Itoa userCountLoop ++
          "); this version of the operator work with the name as unique identifier for users"))))
  else (isBypassSubject, None).

Definition serviceAccountUsernamePrefix : string := "system:serviceaccount:".
Definition IsServiceAccount (userInfo : UserInfo) : bool :=
  HasPrefix (ui_Username userInfo) serviceAccountUsernamePrefix.

(** [map[GitUserInfo][]RemoteTarget]. *)
Abbreviation TargetMap := (gmap GitUserInfo (list RemoteTarget)).
Definition append_target (gu : GitUserInfo) (rt : RemoteTarget) (m : TargetMap) : TargetMap :=
  <[gu := (default [] (m !! gu) ++ [rt])%list]> m.
Definition total_targets (m : TargetMap) : nat :=
  list_sum (map (λ p : GitUserInfo * list RemoteTarget, length p.2) (map_to_list m)).

Section Target.
Context {W : Type} `{Cluster W, Lib}.

(** ** [k8s_references.go] *)

Definition resolveRefs {T} `{Store W T} (objectRefs : list ObjectReference) (ownerNamespace fieldName : string)
  : M error W (list T) :=
  for_foldi 0 (λ i resolved ref,
    if String.eqb (ref_Name ref) "" then ret resolved
    else
      namespace ⇐ lift (ResolveNamespace (ref_Namespace ref) ownerNamespace
                          (FIndex (FPath ["spec"; fieldName]) i));;
      r ⇐ attempt (client_Get (mkNN namespace (ref_Name ref)));;
      match r with
      | inr e => if IsNotFound e then ret resolved else throw e
      | inl object => ret (resolved ++ [object])%list
      end) [] objectRefs.

(** ** [target.go] *)

Definition GetGitUserInfoByRemoteUser (remoteUser : RemoteUser) : M error W GitUserInfo :=
  secretNamespace ⇐ lift (ResolveNamespace (ref_Namespace (ru_SecretRef (ru_Spec remoteUser)))
                            (om_Namespace (ru_Meta remoteUser)) (FPath ["spec"; "secretRef"]));;
  let name := ref_Name (ru_SecretRef (ru_Spec remoteUser)) in
  r ⇐ attempt (client_Get (T := Secret) (mkNN secretNamespace name));;
  match r with
  | inr e =>
      if IsNotFound e
      then throw (credentialsNotFound ("secret not found for remote user: " ++ om_Name (ru_Meta remoteUser)) name)
      else throw (credentialsNotFound "connection error" name)
  | inl secret =>
      let token := mget (sec_Data secret) "password" in
      if String.eqb token ""
      then throw (credentialsNotFound
        "token not found; the token must be specified in the password field and the secret type must be kubernetes.io/basic-auth" name)
      else ret (mkGitUserInfo (mget (sec_Data secret) "username") (ru_Email (ru_Spec remoteUser)) token)
  end.

(** The loop carries the count and the last credentials. *)
Definition GetGitUserInfoByRemoteUserBinding (rub : RemoteUserBinding) (fqdn : string)
  : M error W (option GitUserInfo) :=
  '(remoteUserCount, gitUser) ⇐ for_foldi 0 (λ i '(count, gitUser) ref,
      namespace ⇐ lift (ResolveNamespace (ref_Namespace ref) (om_Namespace (rub_Meta rub))
                          (FIndex (FPath ["spec"; "remoteUserRefs"]) i));;
      r ⇐ attempt (client_Get (T := RemoteUser) (mkNN namespace (ref_Name ref)));;
      match r with
      | inr _ => ret (count, gitUser)
      | inl remoteUser =>
          if String.eqb (ru_GitBaseDomainFQDN (ru_Spec remoteUser)) fqdn then
            gu ⇐ GetGitUserInfoByRemoteUser remoteUser;;
            ret (S count, Some gu)
          else ret (count, gitUser)
      end) (O, None) (rub_RemoteUserRefs (rub_Spec rub));;
  if (remoteUserCount =? 0)%nat
  then throw (remoteUserNotFound ("no RemoteUser found for the current user for " ++ fqdn))
  else if (1 <? remoteUserCount)%nat
  then throw (tooMuchRemoteUser ("more than one RemoteUser found for the current user for" ++ fqdn) remoteUserCount)
  else ret gitUser.

(** [LabelSelectorAsSelector], with the message of the caller. *)
Definition parse_selector (what : string) (ls : LabelSelector) : M error W Selector :=
  match LabelSelectorAsSelector ls with
  | Ok s => ret s
  | Err e => throw (wrongLabelParsing ("error parsing the LabelSelector for the " ++ (what ++ (": " ++ Error e))))
  | Panic => panic
  end.
Definition parse_selector_opt (what : string) (ls : option LabelSelector) : M error W (option Selector) :=
  match ls with
  | None => ret None
  | Some ls => s ⇐ parse_selector what ls;; ret (Some s)
  end.

Definition GetRemoteUserBindingByUsername (sc : SyncerContext) (username fqdn : string)
  : M error W (option RemoteUserBinding) :=
  selector ⇐ parse_selector_opt "remoteUserBindingSelector" (RemoteUserBindingSelector (sc_Spec sc));;
  items ⇐ client_List (T := RemoteUserBinding) (mkListOptions (sc_RUBNamespace sc) selector);;
  '(userCountLoop, rub) ⇐ for_fold (λ '(count, rub) rubItem,
      if String.eqb (sub_Name (rub_Subject (rub_Spec rubItem))) username then
        GetGitUserInfoByRemoteUserBinding rubItem fqdn;;;
        ret (S count, Some rubItem)
      else ret (count, rub)) (O, None) items;;
  if (1 <? userCountLoop)%nat
  then throw (tooMuchRemoteUserBinding
    "multiple RemoteUserBinding found OR the name of the user is not unique; this version of the operator work with the name as unique identifier for users"
    userCountLoop)
  else match rub with
       | None => ret None
       | Some rub => fresh ⇐ client_Get (object_key rub);; ret (Some fresh)
       end.

(** The two nested loops that associate RemoteUsers with RemoteTargets. *)
Definition associate_users (rtUrl : URL) (remoteTarget : RemoteTarget) (remoteUsers : list RemoteUser)
    (m : TargetMap) : M error W TargetMap :=
  for_fold (λ m remoteUser,
    if String.eqb (url_Host rtUrl) (ru_GitBaseDomainFQDN (ru_Spec remoteUser)) then
      gitUserInfo ⇐ GetGitUserInfoByRemoteUser remoteUser;;
      ret (append_target gitUserInfo remoteTarget m)
    else ret m) m remoteUsers.

Definition upstream_matches (sc : SyncerContext) (rt : RemoteTarget) : bool :=
  String.eqb (UpstreamRepository (rt_Spec rt)) (RemoteRepository (sc_Spec sc)) &&
  String.eqb (UpstreamBranch (rt_Spec rt)) (DefaultBranch (sc_Spec sc)).

Definition associate_targets (sc : SyncerContext) (labelSelector : option Selector)
    (remoteTargets : list RemoteTarget) (remoteUsers : list RemoteUser) : M error W TargetMap :=
  for_fold (λ m remoteTarget,
    if match labelSelector with
       | Some s => negb (sel_Matches s (om_Labels (rt_Meta remoteTarget)))
       | None => false
       end
    then ret m
    else
      rtUrl ⇐ lift (url_Parse (TargetRepository (rt_Spec remoteTarget)));;
      if upstream_matches sc remoteTarget then associate_users rtUrl remoteTarget remoteUsers m
      else ret m) ∅ remoteTargets.

(** The branch of a user that has a binding. *)
Definition bound_targets (sc : SyncerContext) (rub : RemoteUserBinding) : M error W TargetMap :=
  labelSelector ⇐ parse_selector_opt "remoteTargetSelector" (RemoteTargetSelector (sc_Spec sc));;
  remoteTargets ⇐ resolveRefs (T := RemoteTarget) (rub_RemoteTargetRefs (rub_Spec rub))
                    (om_Namespace (rub_Meta rub)) "remoteTargetRefs";;
  remoteUsers ⇐ resolveRefs (T := RemoteUser) (rub_RemoteUserRefs (rub_Spec rub))
                  (om_Namespace (rub_Meta rub)) "remoteUserRefs";;
  m ⇐ associate_targets sc labelSelector remoteTargets remoteUsers;;
  if String.eqb (TargetStrategy (sc_Spec sc)) OneTarget && (1 <? total_targets m)%nat
  then throw (tooMuchRemoteTarget
    "multiple RemoteTargets found for OneTarget set as the TargetStrategy in the RemoteSyncer" (total_targets m))
  else if bool_decide (m = ∅) then throw (remoteTargetNotFound "no matching remote target found")
  else ret m.

Definition named_ref (r : option ObjectReference) : option ObjectReference :=
  match r with
  | Some ref => if String.eqb (ref_Name ref) "" then None else Some ref
  | None => None
  end.

Definition wrong_default_target (rt : RemoteTarget) : error :=
  wrongRemoteSyncerConfig
    ("the RemoteSyncer's repository or branch does not match the upstream repository or branch of the default RemoteTarget. RemoteSyncer repo: " ++
      (UpstreamRepository (rt_Spec rt) ++ ("; RemoteSyncer branch: " ++
      (UpstreamBranch (rt_Spec rt) ++ ("; RemoteTarget upstream repo: " ++
      (TargetRepository (rt_Spec rt) ++ ("; RemoteTarget upstream branch: " ++
      TargetBranch (rt_Spec rt)))))))).

(** The branch of a user without a binding: the default RemoteUser, when the syncer
    allows it. *)
Definition default_targets (sc : SyncerContext) (username : string) (repoUrl : URL) : M error W TargetMap :=
  match (if String.eqb (DefaultUnauthorizedUserMode (sc_Spec sc)) UseDefaultUser
         then named_ref (DefaultRemoteUserRef (sc_Spec sc)) else None) with
  | None => throw (remoteUserBindingNotFound username)
  | Some userRef =>
      userNamespace ⇐ lift (ResolveNamespace (ref_Namespace userRef) (sc_RefOwnerNamespace sc)
                              (FPath ["spec"; "defaultRemoteUserRef"]));;
      u ⇐ attempt (client_Get (T := RemoteUser) (mkNN userNamespace (ref_Name userRef)));;
      match u with
      | inr _ => throw (remoteUserNotFound "the default RemoteUser is not found")
      | inl remoteUser =>
          if negb (String.eqb (ru_GitBaseDomainFQDN (ru_Spec remoteUser)) (url_Host repoUrl))
          then throw (wrongRemoteTargetConfig (sc_String sc) (om_Name (ru_Meta remoteUser)))
          else
            gitUserInfo ⇐ GetGitUserInfoByRemoteUser remoteUser;;
            match named_ref (DefaultRemoteTargetRef (sc_Spec sc)) with
            | None => throw (remoteTargetNotFound "no default remote target is set")
            | Some targetRef =>
                targetNamespace ⇐ lift (ResolveNamespace (ref_Namespace targetRef) (sc_RefOwnerNamespace sc)
                                          (FPath ["spec"; "defaultRemoteTargetRef"]));;
                t ⇐ attempt (client_Get (T := RemoteTarget) (mkNN targetNamespace (ref_Name targetRef)));;
                match t with
                | inr _ => throw (remoteTargetNotFound ("default remote target does not exist: " ++ ref_Name targetRef))
                | inl remoteTarget =>
                    if negb (upstream_matches sc remoteTarget) then throw (wrong_default_target remoteTarget)
                    else ret (append_target gitUserInfo remoteTarget ∅)
                end
            end
      end
  end.

Definition GetUserInfoRemoteTargetsAssociation (user : UserInfo) (remoteSyncerRemoteRepoUrl : URL)
    (sc : SyncerContext) : M error W TargetMap :=
  remoteUserBinding ⇐ GetRemoteUserBindingByUsername sc (ui_Username user) (url_Host remoteSyncerRemoteRepoUrl);;
  match remoteUserBinding with
  | Some rub => bound_targets sc rub
  | None => default_targets sc (ui_Username user) remoteSyncerRemoteRepoUrl
  end.

(** ** [tls.go] *)

Definition ErrCaSecretWrongType : error :=
  plainError ("the CA bundle secret must be of type " ++ (quote ++ ("kubernetes.io/ts" ++ quote))).
(** [errors.Is(err, ErrCaSecretWrongType)]: the only error of this shape that
    [FindCABundle] returns; the others come from the client. *)
Definition is_wrong_type (e : error) : bool :=
  match e, ErrCaSecretWrongType with plainError m, plainError m' => String.eqb m m' | _, _ => false end.

(** [nil] when there is no name or no [tls.crt] entry. *)
Definition FindCABundle (namespace name : string) : M error W (option string) :=
  if String.eqb name "" then ret None
  else
    caBundleSecret ⇐ client_Get (T := Secret) (mkNN namespace name);;
    if negb (String.eqb (sec_Type caBundleSecret) "kubernetes.io/tls") then throw ErrCaSecretWrongType
    else ret (sec_Data caBundleSecret !! "tls.crt").

Definition FindGlobalCABundle (managerNamespace host : string) : M error W (option string) :=
  FindCABundle managerNamespace (host ++ "-ca-cert").

Definition CABundleBuilder (managerNamespace : string) (sc : SyncerContext) (repoUrl : URL)
  : M error W (option string) :=
  let host := match Split (url_Host repoUrl) ":" with h :: _ => h | [] => "" end in
  g ⇐ attempt (FindGlobalCABundle managerNamespace host);;
  match g with
  | inr e => if is_wrong_type e then throw e else ret None
  | inl ca => ret ca
  end;;;
  let caBundle := match g with inl ca => ca | inr _ => None end in
  let ref := CABundleSecretRef (sc_Spec sc) in
  if String.eqb (ref_Name ref) "" then ret caBundle
  else
    ns ⇐ lift (ResolveNamespace (ref_Namespace ref) (sc_RefOwnerNamespace sc)
                 (FPath ["spec"; "caBundleSecretRef"]));;
    caBundleRsy ⇐ FindCABundle ns (ref_Name ref);;
    ret match caBundleRsy with Some ca => Some ca | None => caBundle end.
End Target.

(** ** What an association may contain *)

Section Sound.
Context {W : Type} `{ApiServer W, Lib}.

Definition in_namespace (owner ns : string) : string := if String.eqb ns "" then owner else ns.
Definition resolved (owner : string) (ref : ObjectReference) : NamespacedName :=
  mkNN (in_namespace owner (ref_Namespace ref)) (ref_Name ref).

(** The credentials stored for a RemoteUser. *)
Definition credentials_of (w : W) (ru : RemoteUser) (gu : GitUserInfo) : Prop :=
  ∃ secret, v_sec (view w) !! resolved (om_Namespace (ru_Meta ru)) (ru_SecretRef (ru_Spec ru)) = Some secret ∧
    gu = mkGitUserInfo (mget (sec_Data secret) "username") (ru_Email (ru_Spec ru)) (mget (sec_Data secret) "password") ∧
    gu_Token gu ≠ "".

Lemma resolve_inv ns owner p w r (w' : W) :
  lift (ResolveNamespace ns owner p) w = (Ok r, w') → w' = w ∧ r = in_namespace owner ns.
Proof.
  unfold lift, ResolveNamespace, in_namespace. destruct (String.eqb ns ""); simpl; [|by intros [= <- <-]].
  destruct (String.eqb owner ""); [done|by intros [= <- <-]].
Qed.

Lemma credentials_inv ru w gu w' :
  GetGitUserInfoByRemoteUser ru w = (Ok gu, w') → w' = w ∧ credentials_of w ru gu.
Proof.
  unfold GetGitUserInfoByRemoteUser. intros Hr.
  apply bind_ok_inv in Hr as (ns & w1 & Hns & Hr). apply resolve_inv in Hns as [-> ->].
  apply bind_ok_inv in Hr as (r & w1 & Hg & Hr). apply attempt_ok_inv in Hg.
  destruct r as [secret|e]; apply get_inv in Hg as [-> Hg]; simpl in Hg; [|destruct (IsNotFound e); inv_ok].
  destruct (String.eqb_spec (mget (sec_Data secret) "password") ""); inv_ok. split; [done|]. by exists secret.
Qed.

Lemma resolveRefs_inv {T} `{Object T, Stamp T, Kind T, !Store W T, !StoreLaws W T view}
    refs owner field w (l : list T) w' :
  resolveRefs refs owner field w = (Ok l, w') →
  w' = w ∧ ∀ o, o ∈ l → ∃ ref, ref ∈ refs ∧ v_get (view w) !! resolved owner ref = Some o.
Proof.
  intros Hr. enough (w' = w ∧ ∀ o, o ∈ l → ∃ ref, ref ∈ refs ∧ v_get (view w) !! resolved owner ref = Some o) by done.
  eapply (for_foldi_ok _ _ (λ l w', w' = w ∧ ∀ o, o ∈ l → ∃ ref, ref ∈ refs ∧ v_get (view w) !! resolved owner ref = Some o));
    [| |exact Hr].
  { split; [done|]. by intros o ?%not_elem_of_nil. }
  clear Hr l w'. intros i l ref w1 l' w2 Href [-> Hl] Hb. simpl in Hb.
  destruct (String.eqb (ref_Name ref) ""); [by inv_ok|].
  apply bind_ok_inv in Hb as (ns & w1 & Hns & Hb). apply resolve_inv in Hns as [-> ->].
  apply bind_ok_inv in Hb as (r & w1 & Hg & Hb). apply attempt_ok_inv in Hg.
  destruct r as [o|e]; apply get_inv in Hg as [-> Hg]; [|destruct (IsNotFound e); by inv_ok].
  inv_ok. split; [done|]. intros o' [Ho'| ->%list_elem_of_singleton]%elem_of_app; [auto|]. by exists ref.
Qed.

(** Bindings in the scope of a syncer, for a user name. *)
Definition in_scope (sc : SyncerContext) (selector : option Selector) (username : string)
    (r : RemoteUserBinding) : Prop :=
  list_matches (mkListOptions (sc_RUBNamespace sc) selector) (rub_Meta r) = true ∧
  sub_Name (rub_Subject (rub_Spec r)) = username.

Definition parsed (ls : option LabelSelector) (s : option Selector) : Prop :=
  match ls with None => s = None | Some ls => ∃ s0, LabelSelectorAsSelector ls = Ok s0 ∧ s = Some s0 end.

Lemma parse_selector_inv what ls w s (w' : W) :
  parse_selector_opt what ls w = (Ok s, w') → w' = w ∧ parsed ls s.
Proof.
  destruct ls as [ls|]; simpl; intros Hr; [|by inv_ok]. unfold parse_selector in Hr.
  destruct (LabelSelectorAsSelector ls) eqn:E; [|by inv_ok..].
  rewrite bind_ret in Hr. inv_ok. split; [done|]. by eexists.
Qed.

Lemma binding_credentials_readonly rub fqdn w r w' :
  GetGitUserInfoByRemoteUserBinding rub fqdn w = (Ok r, w') → w' = w.
Proof.
  unfold GetGitUserInfoByRemoteUserBinding. intros Hr.
  apply bind_ok_inv in Hr as ([n gu] & w1 & Hl & Hr).
  assert (w1 = w) as ->.
  { eapply (for_foldi_ok _ _ (λ _ w1, w1 = w)); [done| |exact Hl].
    clear Hl Hr. intros i [n0 gu0] ref w2 s' w3 _ -> Hb.
    apply bind_ok_inv in Hb as (ns & w2 & Hns & Hb). apply resolve_inv in Hns as [-> ->].
    apply bind_ok_inv in Hb as (u & w2 & Hg & Hb). apply attempt_ok_inv in Hg.
    destruct u as [ru|e]; apply get_inv in Hg as [-> Hg]; [|by inv_ok].
    destruct (String.eqb _ fqdn); [|by inv_ok].
    apply bind_ok_inv in Hb as (gu' & w2 & Hgu & Hb). apply credentials_inv in Hgu as [-> _]. by inv_ok. }
  destruct (n =? 0)%nat; [by inv_ok|]. destruct (1 <? n)%nat; by inv_ok.
Qed.

(** The scan over the listed bindings: how many match, and the last of them. *)
Lemma scan_inv username fqdn items w n rub w' :
  for_fold (λ '(count, rub) rubItem,
      if String.eqb (sub_Name (rub_Subject (rub_Spec rubItem))) username then
        GetGitUserInfoByRemoteUserBinding rubItem fqdn;;;
        ret (S count, Some rubItem)
      else ret (count, rub)) (O, @None RemoteUserBinding) items w = (Ok (n, rub), w') →
  w' = w ∧ n = length (List.filter (λ r, String.eqb (sub_Name (rub_Subject (rub_Spec r))) username) items) ∧
  rub = last (List.filter (λ r, String.eqb (sub_Name (rub_Subject (rub_Spec r))) username) items).
Proof.

  enough (∀ pre n0 r0 w0, w0 = w →
    n0 = length (List.filter (λ r, String.eqb (sub_Name (rub_Subject (rub_Spec r))) username) pre) →
    r0 = last (List.filter (λ r, String.eqb (sub_Name (rub_Subject (rub_Spec r))) username) pre) →
    for_fold (λ '(count, rub) rubItem,
      if String.eqb (sub_Name (rub_Subject (rub_Spec rubItem))) username then
        GetGitUserInfoByRemoteUserBinding rubItem fqdn;;;
        ret (S count, Some rubItem)
      else ret (count, rub)) (n0, r0) items w0 = (Ok (n, rub), w') →
    w' = w ∧ n = length (List.filter (λ r, String.eqb (sub_Name (rub_Subject (rub_Spec r))) username) (pre ++ items)%list) ∧
    rub = last (List.filter (λ r, String.eqb (sub_Name (rub_Subject (rub_Spec r))) username) (pre ++ items)%list))
    as Hgen by (by apply (Hgen [])).
  induction items as [|r items IH]; intros pre n0 r0 w0 -> Hn Hr0 Hr; simpl in Hr.
  { inv_ok. by rewrite app_nil_r. }
  apply bind_ok_inv in Hr as ([n1 r1] & w1 & Hb & Hr).
  rewrite (cons_middle r pre items), (app_assoc pre [r] items). destruct (String.eqb _ username) eqn:E.
  - apply bind_ok_inv in Hb as (g & w2 & Hg & Hb). apply binding_credentials_readonly in Hg as ->.
    inv_ok. eapply IH; [done| | |exact Hr]; rewrite List.filter_app; simpl; rewrite E.
    + rewrite length_app. simpl. lia.
    + by rewrite last_snoc.
  - inv_ok. eapply IH; [done| | |exact Hr]; rewrite List.filter_app; simpl; rewrite E, app_nil_r; done.
Qed.

(** The binding that was found: the only one in scope for the user. *)
Definition sole_binding (sc : SyncerContext) (w : W) (username : string) (rub : RemoteUserBinding) : Prop :=
  ∃ sel, parsed (RemoteUserBindingSelector (sc_Spec sc)) sel ∧
    v_rub (view w) !! object_key rub = Some rub ∧ in_scope sc sel username rub ∧
    ∀ k r, v_rub (view w) !! k = Some r → in_scope sc sel username r → r = rub.
Definition no_binding (sc : SyncerContext) (w : W) (username : string) : Prop :=
  ∃ sel, parsed (RemoteUserBindingSelector (sc_Spec sc)) sel ∧
    ∀ k r, v_rub (view w) !! k = Some r → ¬ in_scope sc sel username r.

Lemma binding_inv sc username fqdn w r w' :
  keyed (v_rub (view w)) →
  GetRemoteUserBindingByUsername sc username fqdn w = (Ok r, w') →
  w' = w ∧ match r with
           | Some rub => sole_binding sc w username rub
           | None => no_binding sc w username
           end.
Proof.
  intros Hkeyed Hr. unfold GetRemoteUserBindingByUsername in Hr.
  apply bind_ok_inv in Hr as (sel & w1 & Hsel & Hr). apply parse_selector_inv in Hsel as [-> Hsel].
  destruct (list_spec (T := RemoteUserBinding) (mkListOptions (sc_RUBNamespace sc) sel) w
    ltac:(exact Hkeyed)) as (items & Hl & _ & Hin).
  rewrite (bind_ok _ _ _ _ _ Hl) in Hr.
  apply bind_ok_inv in Hr as ([n rub] & w1 & Hscan & Hr). apply scan_inv in Hscan as (-> & -> & ->).
  set (mine := List.filter (λ r, String.eqb (sub_Name (rub_Subject (rub_Spec r))) username) items) in *.
  assert (Hmine : ∀ r, r ∈ mine ↔ v_rub (view w) !! object_key r = Some r ∧ in_scope sc sel username r).
  { intros r0. unfold mine, in_scope. rewrite list_elem_of_In, filter_In, <- list_elem_of_In, Hin.
    rewrite String.eqb_eq. simpl. tauto. }
  assert (Hstored : ∀ k r0, v_rub (view w) !! k = Some r0 → in_scope sc sel username r0 → r0 ∈ mine).
  { intros k r0 Hk Hs. apply Hmine. split; [|done]. by rewrite (Hkeyed _ _ Hk). }
  destruct mine as [|r0 [|r1 rest]]; simpl in Hr.
  - inv_ok. split; [done|]. exists sel. split; [done|]. intros k r0 Hk Hs.
    by eapply not_elem_of_nil, Hstored.
  - apply bind_ok_inv in Hr as (fresh & w1 & Hg & Hr). apply get_inv in Hg as [-> Hg]. inv_ok.
    destruct (proj1 (Hmine r0) ltac:(left)) as [Hk0 Hs0]. simpl in Hg.
    assert (fresh = r0) as -> by congruence. split; [done|]. exists sel. split_and!; [done..|].
    intros k r Hk Hs. by apply list_elem_of_singleton, (Hstored k).
  - by inv_ok.
Qed.

(** What one entry of the association relies on. *)
Record entry_ok (w : W) (sc : SyncerContext) (ru : RemoteUser) (gu : GitUserInfo) (rt : RemoteTarget) : Prop := {
  eo_credentials : credentials_of w ru gu;
  eo_repository : UpstreamRepository (rt_Spec rt) = RemoteRepository (sc_Spec sc);
  eo_branch : UpstreamBranch (rt_Spec rt) = DefaultBranch (sc_Spec sc) }.

Lemma upstream_matches_inv sc rt : upstream_matches sc rt = true →
  UpstreamRepository (rt_Spec rt) = RemoteRepository (sc_Spec sc) ∧
  UpstreamBranch (rt_Spec rt) = DefaultBranch (sc_Spec sc).
Proof. intros [?%String.eqb_eq ?%String.eqb_eq]%andb_true_iff. done. Qed.

(** An entry that comes from a binding. *)
Definition bound_entry (w : W) (sc : SyncerContext) (rub : RemoteUserBinding) (gu : GitUserInfo)
    (rt : RemoteTarget) : Prop :=
  ∃ ru uref tref u sel, entry_ok w sc ru gu rt ∧
    uref ∈ rub_RemoteUserRefs (rub_Spec rub) ∧ tref ∈ rub_RemoteTargetRefs (rub_Spec rub) ∧
    v_ru (view w) !! resolved (om_Namespace (rub_Meta rub)) uref = Some ru ∧
    v_rt (view w) !! resolved (om_Namespace (rub_Meta rub)) tref = Some rt ∧
    url_Parse (TargetRepository (rt_Spec rt)) = Ok u ∧ url_Host u = ru_GitBaseDomainFQDN (ru_Spec ru) ∧
    parsed (RemoteTargetSelector (sc_Spec sc)) sel ∧
    match sel with Some s => sel_Matches s (om_Labels (rt_Meta rt)) = true | None => True end.

(** An entry of the default user. *)
Definition default_entry (w : W) (sc : SyncerContext) (repoUrl : URL) (gu : GitUserInfo)
    (rt : RemoteTarget) : Prop :=
  ∃ ru uref tref, entry_ok w sc ru gu rt ∧
    DefaultUnauthorizedUserMode (sc_Spec sc) = UseDefaultUser ∧
    DefaultRemoteUserRef (sc_Spec sc) = Some uref ∧ DefaultRemoteTargetRef (sc_Spec sc) = Some tref ∧
    v_ru (view w) !! resolved (sc_RefOwnerNamespace sc) uref = Some ru ∧
    v_rt (view w) !! resolved (sc_RefOwnerNamespace sc) tref = Some rt ∧
    ru_GitBaseDomainFQDN (ru_Spec ru) = url_Host repoUrl.

(** Every entry of a map satisfies [P], and no key is there without a target. *)
Definition all_entries (P : GitUserInfo → RemoteTarget → Prop) (m : TargetMap) : Prop :=
  ∀ gu rts, m !! gu = Some rts → rts ≠ [] ∧ ∀ rt, rt ∈ rts → P gu rt.

Lemma all_entries_empty P : all_entries P ∅.
Proof. intros gu rts Hl. by rewrite lookup_empty in Hl. Qed.

Lemma all_entries_total P m : all_entries P m → m ≠ ∅ → (1 ≤ total_targets m)%nat.
Proof.
  intros Hm Hne. apply map_choose in Hne as (gu & rts & Hl). destruct (Hm gu rts Hl) as [Hrts _].
  apply elem_of_map_to_list in Hl. unfold total_targets.
  induction (map_to_list m) as [|[g l] ls IH]; [by apply not_elem_of_nil in Hl|]. simpl.
  apply elem_of_cons in Hl as [[= <- <-]|Hl]; [|specialize (IH Hl); lia].
  destruct rts; [done|simpl; lia].
Qed.

Lemma append_entries (P : GitUserInfo → RemoteTarget → Prop) gu rt m :
  P gu rt → all_entries P m → all_entries P (append_target gu rt m).
Proof.
  intros Hp Hm gu' rts Hl. unfold append_target in Hl.
  apply lookup_insert_Some in Hl as [[<- <-]|[_ Hl]]; [|by eapply Hm].
  split; [by intros [_ ?]%app_eq_nil|]. intros rt' [Hrt| ->%list_elem_of_singleton]%elem_of_app; [|done].
  destruct (m !! gu) as [old|] eqn:E; [by eapply Hm|by apply not_elem_of_nil in Hrt].
Qed.

Lemma associate_users_inv (P : GitUserInfo → RemoteTarget → Prop) u rt users m w m' w' :
  (∀ ru gu, ru ∈ users → url_Host u = ru_GitBaseDomainFQDN (ru_Spec ru) → credentials_of w ru gu → P gu rt) →
  all_entries P m → associate_users u rt users m w = (Ok m', w') → w' = w ∧ all_entries P m'.
Proof.
  intros HP Hm Hr. eapply (for_fold_ok _ _ (λ m' w', w' = w ∧ all_entries P m')); [done| |exact Hr].
  clear Hr m' w' Hm m. intros m ru w1 m' w2 Hru [-> Hm] Hb. simpl in Hb.
  destruct (String.eqb_spec (url_Host u) (ru_GitBaseDomainFQDN (ru_Spec ru))); [|by inv_ok].
  apply bind_ok_inv in Hb as (gu & w1 & Hg & Hb). apply credentials_inv in Hg as [-> Hg]. inv_ok.
  split; [done|]. apply append_entries; eauto.
Qed.

Lemma bound_targets_inv sc rub w m w' :
  bound_targets sc rub w = (Ok m, w') →
  w' = w ∧ m ≠ ∅ ∧ all_entries (bound_entry w sc rub) m ∧
  (TargetStrategy (sc_Spec sc) = OneTarget → (total_targets m ≤ 1)%nat).
Proof.
  intros Hr. unfold bound_targets in Hr.
  apply bind_ok_inv in Hr as (sel & w1 & Hsel & Hr). apply parse_selector_inv in Hsel as [-> Hsel].
  apply bind_ok_inv in Hr as (rts & w1 & Hrts & Hr). apply resolveRefs_inv in Hrts as [-> Hrts].
  apply bind_ok_inv in Hr as (rus & w1 & Hrus & Hr). apply resolveRefs_inv in Hrus as [-> Hrus].
  apply bind_ok_inv in Hr as (m1 & w1 & Hm & Hr).
  assert (Hass : w1 = w ∧ all_entries (bound_entry w sc rub) m1).
  { eapply (for_fold_ok _ _ (λ m w1, w1 = w ∧ all_entries (bound_entry w sc rub) m)); [| |exact Hm].
    { split; [done|apply all_entries_empty]. }
    clear Hm Hr m w' m1 w1. intros m rt w1 m' w2 Hrt [-> Hm] Hb. simpl in Hb.
    destruct (match sel with Some s => negb _ | None => false end) eqn:Es; [by inv_ok|].
    apply bind_ok_inv in Hb as (u & w1 & Hu & Hb).
    unfold lift in Hu. injection Hu as Hu <-.
    destruct (upstream_matches sc rt) eqn:Eu; [|by inv_ok].
    eapply associate_users_inv; [|exact Hm|exact Hb]. intros ru gu Hru Hhost Hcred.
    destruct (Hrus ru Hru) as (uref & Huref & Hkru). destruct (Hrts rt Hrt) as (tref & Htref & Hkrt).
    apply upstream_matches_inv in Eu as [??].
    exists ru, uref, tref, u, sel. split_and!; try done.
    destruct sel; [|done]. by apply negb_false_iff in Es. }
  destruct Hass as [-> Hass].
  destruct (String.eqb_spec (TargetStrategy (sc_Spec sc)) OneTarget); simpl in Hr.
  - destruct (Nat.ltb_spec 1 (total_targets m1)); [by inv_ok|].
    destruct (bool_decide_reflect (m1 = ∅)); [by inv_ok|]. inv_ok. split_and!; auto.
  - destruct (bool_decide_reflect (m1 = ∅)); [by inv_ok|]. inv_ok. split_and!; auto. done.
Qed.

Lemma default_targets_inv sc username u w m w' :
  default_targets sc username u w = (Ok m, w') →
  w' = w ∧ all_entries (default_entry w sc u) m ∧ total_targets m = 1%nat.
Proof.
  unfold default_targets. intros Hr.
  destruct (String.eqb_spec (DefaultUnauthorizedUserMode (sc_Spec sc)) UseDefaultUser) as [Hmode|]; [|by inv_ok].
  destruct (DefaultRemoteUserRef (sc_Spec sc)) as [uref|] eqn:Eu; simpl in Hr; [|by inv_ok].
  destruct (String.eqb (ref_Name uref) ""); [by inv_ok|].
  apply bind_ok_inv in Hr as (ns & w1 & Hns & Hr). apply resolve_inv in Hns as [-> ->].
  apply bind_ok_inv in Hr as (r & w1 & Hg & Hr). apply attempt_ok_inv in Hg.
  destruct r as [ru|e]; apply get_inv in Hg as [-> Hru]; [|by inv_ok].
  destruct (String.eqb_spec (ru_GitBaseDomainFQDN (ru_Spec ru)) (url_Host u)) as [Hf|]; simpl in Hr; [|by inv_ok].
  apply bind_ok_inv in Hr as (gu & w1 & Hgu & Hr). apply credentials_inv in Hgu as [-> Hgu].
  destruct (DefaultRemoteTargetRef (sc_Spec sc)) as [tref|] eqn:Et; simpl in Hr; [|by inv_ok].
  destruct (String.eqb (ref_Name tref) ""); [by inv_ok|].
  apply bind_ok_inv in Hr as (ns & w1 & Hns & Hr). apply resolve_inv in Hns as [-> ->].
  apply bind_ok_inv in Hr as (r & w1 & Hg & Hr). apply attempt_ok_inv in Hg.
  destruct r as [rt|e]; apply get_inv in Hg as [-> Hrt]; [|by inv_ok].
  destruct (upstream_matches sc rt) eqn:Eup; simpl in Hr; [|by inv_ok]. inv_ok.
  split_and!; [done| |].
  - apply append_entries; [|apply all_entries_empty]. apply upstream_matches_inv in Eup as [??].
    exists ru, uref, tref. split_and!; done.
  - unfold total_targets, append_target. rewrite lookup_empty. simpl.
    by rewrite insert_empty, map_to_list_singleton.
Qed.

(** ** Properties *)

Lemma association_pairs user repoUrl sc w m w' :
  keyed (v_rub (view w)) →
  GetUserInfoRemoteTargetsAssociation user repoUrl sc w = (Ok m, w') →
  w' = w ∧
  ((∃ rub, sole_binding sc w (ui_Username user) rub ∧ all_entries (bound_entry w sc rub) m) ∨
   (no_binding sc w (ui_Username user) ∧ all_entries (default_entry w sc repoUrl) m)).
Proof.
  intros Hkeyed Hr. apply bind_ok_inv in Hr as (rub & w1 & Hb & Hr).
  apply binding_inv in Hb as [-> Hb]; [|done]. destruct rub as [rub|].
  - apply bound_targets_inv in Hr as (-> & _ & Hall & _). split; [done|]. left. eauto.
  - apply default_targets_inv in Hr as (-> & Hall & _). split; [done|]. by right.
Qed.

(** (C1) A change is pushed only with credentials the author is entitled to. Whatever the
    association answers, it read the cluster and changed nothing, and every pair of
    credentials and target in it is either taken from the one binding in the syncer's
    scope that names the author as its subject - a stored RemoteUser and a stored
    RemoteTarget that binding references, the user of the host of the target repository,
    the target for the syncer's upstream and picked by its selector - or, when no binding
    names the author, is the default RemoteUser and RemoteTarget of a syncer that opted
    in: the target for the syncer's upstream, the user of the host of the syncer's
    repository. The host of the default target's own repository is compared with nothing
    ([default_credentials_other_host]). *)
Theorem association_sound user repoUrl sc w m w' :
  keyed (v_rub (view w)) →
  GetUserInfoRemoteTargetsAssociation user repoUrl sc w = (Ok m, w') →
  w' = w ∧
  ((∃ rub, sole_binding sc w (ui_Username user) rub ∧ all_entries (bound_entry w sc rub) m) ∨
   (no_binding sc w (ui_Username user) ∧ all_entries (default_entry w sc repoUrl) m)).
Proof. apply association_pairs. Qed.

(** An association that succeeds has a target to push to, and under the target strategy
    [OneTarget] it has exactly one. *)
Theorem association_one_target user repoUrl sc w m w' :
  GetUserInfoRemoteTargetsAssociation user repoUrl sc w = (Ok m, w') →
  (1 ≤ total_targets m)%nat ∧
  (TargetStrategy (sc_Spec sc) = OneTarget → total_targets m = 1%nat).
Proof.
  intros Hr. apply bind_ok_inv in Hr as (rub & w1 & Hb & Hr). destruct rub as [rub|].
  - apply bound_targets_inv in Hr as (_ & Hne & Hall & Hle).
    pose proof (all_entries_total _ _ Hall Hne). split; [done|]. intros Hone. specialize (Hle Hone). lia.
  - apply default_targets_inv in Hr as (_ & _ & ->). by split; [lia|].
Qed.
End Sound.

(** ** A concrete namespace, for the witnesses *)

Definition demo_spec : RemoteSyncerSpec :=
  mkRemoteSyncerSpec "https://git.x/org/app.git" "main" (mkScopedResources None None []) CommitApply OneTarget
    None "" [] [] "" false None [] false BlockDefaultUser BlockPushError 1
    None None false (mkRef "" "") (mkSOPSConfig false (mkRef "" "")).
Definition demo_syncer : RemoteSyncer :=
  mkRemoteSyncer (new_meta "rs" "team" ∅) demo_spec (mkRemoteSyncerStatus [] None None None).
Definition demo_sc : SyncerContext := NewRemoteSyncerContext demo_syncer "team".
Definition demo_ru : RemoteUser :=
  mkRemoteUser (new_meta "alice-git" "team" ∅) (mkRemoteUserSpec (mkRef "" "alice-secret") "alice@x" "git.x")
    (mkRemoteUserStatus [] "" "" "" "").
Definition demo_rt : RemoteTarget :=
  mkRemoteTarget (new_meta "app-main" "team" ∅)
    (mkRemoteTargetSpec "https://git.x/org/app.git" "main" "https://git.x/org/app.git" "main" "") [].
Definition demo_rub : RemoteUserBinding :=
  mkRUB (new_meta "alice" "team" ∅)
    (mkRUBSpec (mkSubject "User" "alice" "") [mkRef "" "alice-git"] [mkRef "" "app-main"])
    (mkRUBStatus [] "" [] "").
Definition demo_secret : Secret :=
  mkSecret (new_meta "alice-secret" "team" ∅) "kubernetes.io/basic-auth"
    {["username" := "alice-g"; "password" := "t0k3n"]}.
Definition demo_view : View :=
  mkView {[object_key demo_ru := demo_ru]} {[object_key demo_rub := demo_rub]}
    {[object_key demo_rt := demo_rt]} {[object_key demo_syncer := demo_syncer]} ∅
    {[object_key demo_secret := demo_secret]} ∅ ∅.
Definition demo_world : World := world_of demo_view.
Definition demo_user : UserInfo := mkUserInfo "alice" "1" [] [].
Definition demo_url : URL := mkURL "git.x" "/org/app.git".
Definition demo_git : GitUserInfo := mkGitUserInfo "alice-g" "alice@x" "t0k3n".

Lemma association_sound_witness :
  ∃ m w', GetUserInfoRemoteTargetsAssociation demo_user demo_url demo_sc demo_world = (Ok m, w') ∧
  map om_Name (map rt_Meta (default [] (m !! demo_git))) = ["app-main"] ∧
  w' = demo_world ∧
  ((∃ rub, sole_binding demo_sc demo_world "alice" rub ∧
      all_entries (bound_entry demo_world demo_sc rub) m) ∨
   (no_binding demo_sc demo_world "alice" ∧
      all_entries (default_entry demo_world demo_sc demo_url) m)).
Proof.
  destruct (run_ok (GetUserInfoRemoteTargetsAssociation demo_user demo_url demo_sc demo_world)
    (λ m, bool_decide (map om_Name (map rt_Meta (default [] (m !! demo_git))) = ["app-main"])))
    as (m & w' & E & Hm); [vm_compute; reflexivity|].
  exists m, w'. split; [exact E|]. split; [exact (proj1 (bool_decide_eq_true _) Hm)|].
  apply (association_sound demo_user demo_url demo_sc demo_world m w'); [|exact E].
  apply map_Forall_singleton. reflexivity.
Defined.

(** The default target may be on any host: the credentials of the default user, an account of
    the host of the syncer's repository, are paired with it. *)
Definition bot_ru : RemoteUser :=
  mkRemoteUser (new_meta "bot" "team" ∅) (mkRemoteUserSpec (mkRef "" "alice-secret") "bot@x" "git.x")
    (mkRemoteUserStatus [] "" "" "" "").
Definition elsewhere_rt : RemoteTarget :=
  mkRemoteTarget (new_meta "elsewhere" "team" ∅)
    (mkRemoteTargetSpec "https://git.x/org/app.git" "main" "https://git.y/org/copy.git" "main" "") [].
Definition default_sc : SyncerContext :=
  NewRemoteSyncerContext (mkRemoteSyncer (new_meta "rs" "team" ∅)
    (mkRemoteSyncerSpec "https://git.x/org/app.git" "main" (mkScopedResources None None []) CommitApply OneTarget
      None "" [] [] "" false None [] false UseDefaultUser BlockPushError 1
      (Some (mkRef "" "bot")) (Some (mkRef "" "elsewhere")) false (mkRef "" "") (mkSOPSConfig false (mkRef "" "")))
    (mkRemoteSyncerStatus [] None None None)) "team".
Lemma default_credentials_other_host :
  let w := world_of (mkView {[object_key bot_ru := bot_ru]} ∅ {[object_key elsewhere_rt := elsewhere_rt]} ∅ ∅
                       {[object_key demo_secret := demo_secret]} ∅ ∅) in
  GetUserInfoRemoteTargetsAssociation demo_user demo_url default_sc w =
    (Ok {[mkGitUserInfo "alice-g" "bot@x" "t0k3n" := [elsewhere_rt]]}, w) ∧
  url_Parse (TargetRepository (rt_Spec elsewhere_rt)) = Ok (mkURL "git.y" "/org/copy.git") ∧
  ru_GitBaseDomainFQDN (ru_Spec bot_ru) = "git.x".
Proof. split_and!; vm_compute; reflexivity. Qed.

Lemma association_one_target_witness :
  TargetStrategy (sc_Spec demo_sc) = OneTarget ∧
  ∃ m w', GetUserInfoRemoteTargetsAssociation demo_user demo_url demo_sc demo_world = (Ok m, w') ∧
    (1 ≤ total_targets m)%nat ∧
    (TargetStrategy (sc_Spec demo_sc) = OneTarget → total_targets m = 1%nat).
Proof.
  split; [reflexivity|].
  destruct (run_ok (GetUserInfoRemoteTargetsAssociation demo_user demo_url demo_sc demo_world) (λ _, true))
    as (m & w' & E & _); [vm_compute; reflexivity|].
  exists m, w'. split; [exact E|].
  exact (association_one_target demo_user demo_url demo_sc demo_world m w' E).
Defined.
