(* ===== verification/AssociationProps.v ===== *)
(** * Correctness of the association policy on a healthy server

    [AssociationPolicy] puts a RemoteUser and the targets of the branch policy into the
    managed binding of its user, which it makes when there is none. The binding is
    recognised by its labels, not by its subject: [association_trusts_labels]. *)

From S2P Require Import Prelude GoStr Api Errors External Naming Managed Policy Policies PolicyProps Target Sim.

Lemma mget_some (m : gmap string string) k v : v ≠ "" → mget m k = v ↔ m !! k = Some v.
Proof. intros Hv. unfold mget. destruct (m !! k); simpl; naive_solver. Qed.

Section Association.
Context {W : Type} `{ApiServer W, Lib, !Lib_laws}.

Abbreviation rubs w := (v_rub (view w)).
Abbreviation rts w := (v_rt (view w)).

Context (ru : RemoteUser).
Abbreviation ns := (om_Namespace (ru_Meta ru)).
Abbreviation name := (om_Name (ru_Meta ru)).
Abbreviation user := (mget (om_Labels (ru_Meta ru)) K8sUserLabelKey).
Abbreviation raw := (mget (om_Annotations (ru_Meta ru)) K8sUserLabelKey).

(** The managed bindings of the user, by their labels. *)
Definition labelled (r : RemoteUserBinding) : Prop :=
  om_Namespace (rub_Meta r) = ns ∧ om_Labels (rub_Meta r) !! ManagedByLabelKey = Some ManagedByLabelValue ∧
  om_Labels (rub_Meta r) !! K8sUserLabelKey = Some user.
(** The targets of the branch policies of the namespace. *)
Definition shared_target (rt : RemoteTarget) : Prop :=
  om_Namespace (rt_Meta rt) = ns ∧ om_Labels (rt_Meta rt) !! ManagedByLabelKey = Some ManagedByLabelValue ∧
  om_Labels (rt_Meta rt) !! RtLabelKeyPolicy = Some RtLabelValueOneOrManyBranches.

(** The names the policy tries for a new binding. *)
Definition candidate (i : nat) : string :=
  let baseName := RubNamePrefix ++ ("-" ++ user) in
  match i with O => baseName | _ => baseName ++ ("-" ++ Itoa i) end.

Lemma selected_iff {T} `{Object T} (o : T) (k1 v1 k2 v2 : string) : ns ≠ "" → k1 ≠ k2 →
  list_matches (mkListOptions ns (selector [(k1, v1); (k2, v2)])) (get_meta o) = true ↔
  om_Namespace (get_meta o) = ns ∧ om_Labels (get_meta o) !! k1 = Some v1 ∧ om_Labels (get_meta o) !! k2 = Some v2.
Proof.
  intros Hns Hk. unfold list_matches. cbn [lo_Namespace lo_LabelSelector selector]. apply String.eqb_neq in Hns. rewrite Hns.
  cbn [orb]. rewrite andb_true_iff, String.eqb_eq. f_equiv. unfold selector. rewrite from_set_matches. split.
  - intros Hall. split; apply Hall; simpl; simplify_map_eq; done.
  - intros [H1' H2'] k v Hkv. simpl in Hkv.
    apply lookup_insert_Some in Hkv as [[<- <-]|[_ Hkv]]; [done|].
    apply lookup_insert_Some in Hkv as [[<- <-]|[_ Hkv]]; [done|]. by rewrite lookup_empty in Hkv.
Qed.

(** The loop that claims a name makes the binding under the first name that is free. *)
Lemma claim_name_run w n i j : keyed (rubs w) → user ≠ "" → (∀ k r, rubs w !! k = Some r → ¬ labelled r) →
  (i ≤ j < i + n)%nat → rubs w !! mkNN ns (candidate j) = None →
  (∀ l, (i ≤ l < j)%nat → is_Some (rubs w !! mkNN ns (candidate l))) →
  ∃ rv w', claim_name n i ru user raw w = (Ok (stamp rv (managed_rub (candidate j) ru user raw)), w') ∧
    view w' = v_set (<[mkNN ns (candidate j) := stamp rv (managed_rub (candidate j) ru user raw)]> (rubs w)) (view w).
Proof.
  intros Hkeyed Huser Hforeign Hj Hfree Htaken. revert i Hj Htaken. induction n as [|n IH]; intros i Hj Htaken; [lia|].
  cbn [claim_name]. cbv zeta. fold (candidate i).
  set (rub := managed_rub (candidate i) ru user raw).
  assert (Hkey : object_key rub = mkNN ns (candidate i)) by done.
  destruct (decide (i = j)) as [->|Hne].
  - destruct (create_new rub w ltac:(by rewrite Hkey)) as (rv & w' & Hcr & Hv). exists rv, w'. split; [|done].
    assert (Ha : attempt (client_Create rub) w = (Ok (inl (stamp rv rub)), w')) by (unfold attempt; by rewrite Hcr).
    by rewrite (bind_ok _ _ _ _ _ Ha).
  - destruct (Htaken i ltac:(lia)) as [r Hr].
    destruct (create_exists rub w) as [msg Hcr]; [by exists r|].
    assert (Ha : attempt (client_Create rub) w = (Ok (inr (apiError AlreadyExists msg)), w)) by (unfold attempt; by rewrite Hcr).
    rewrite (bind_ok _ _ _ _ _ Ha). change (IsAlreadyExists (apiError AlreadyExists msg)) with true. cbn [negb].
    assert (Hg0 : client_Get (mkNN ns (candidate i)) w = (Ok r, w)) by (by apply get_found).
    assert (Hg : attempt (client_Get (mkNN ns (candidate i))) w = (Ok (inl r), w)) by (unfold attempt; by rewrite Hg0).
    rewrite (bind_ok _ _ _ _ _ Hg).
    destruct (String.eqb_spec (mget (om_Labels (rub_Meta r)) ManagedByLabelKey) ManagedByLabelValue) as [E1|];
      [destruct (String.eqb_spec (mget (om_Labels (rub_Meta r)) K8sUserLabelKey) user) as [E2|]|]; cbn [andb].
    2-3: apply IH; [lia|intros l Hl; apply Htaken; lia].
    exfalso. apply (Hforeign _ _ Hr). apply mget_some in E1; [|done]. apply mget_some in E2; [|done].
    split_and!; [|done..]. apply Hkeyed in Hr. unfold object_key in Hr. cbn in Hr. unfold meta_key in Hr. congruence.
Qed.
(** What the policy makes of a binding: the reference of the user, then those of [l]. *)
Definition with_user (r : RemoteUserBinding) : RemoteUserBinding :=
  let refs := rub_RemoteUserRefs (rub_Spec r) in
  if existsb (λ ref, String.eqb (ref_Name ref) name) refs then r else set_user_refs (refs ++ [mkRef "" name])%list r.
Definition with_targets (l : list RemoteTarget) (r : RemoteUserBinding) : RemoteUserBinding :=
  foldl (λ r rt, AddRemoteTargetRef (om_Name (rt_Meta rt)) r) r l.

Lemma stamp_user rv r : with_user (stamp rv r) = stamp rv (with_user r).
Proof. unfold with_user. simpl. by destruct (existsb _ _). Qed.
Lemma stamp_targets rv l r : with_targets l (stamp rv r) = stamp rv (with_targets l r).
Proof.
  revert r; induction l as [|rt l IH]; intros r; [done|]. simpl. rewrite <- IH. f_equal.
  unfold AddRemoteTargetRef. simpl. by destruct (existsb _ _).
Qed.
Lemma stamp_twice rv rv' (r : RemoteUserBinding) : stamp rv (stamp rv' r) = stamp rv r.
Proof. done. Qed.

Lemma user_meta r : rub_Meta (with_user r) = rub_Meta r.
Proof. unfold with_user. cbv zeta. by destruct (existsb _ _). Qed.
Lemma targets_same l r : rub_Meta (with_targets l r) = rub_Meta r ∧
  rub_Subject (rub_Spec (with_targets l r)) = rub_Subject (rub_Spec r) ∧
  rub_RemoteUserRefs (rub_Spec (with_targets l r)) = rub_RemoteUserRefs (rub_Spec r).
Proof.
  revert r; induction l as [|rt l IH]; intros r; [done|]. simpl. destruct (IH (AddRemoteTargetRef (om_Name (rt_Meta rt)) r)) as (-> & -> & ->).
  unfold AddRemoteTargetRef. by destruct (existsb _ _).
Qed.
Lemma user_held r : ∃ ref, ref ∈ rub_RemoteUserRefs (rub_Spec (with_user r)) ∧ ref_Name ref = name.
Proof.
  unfold with_user. cbv zeta. destruct (existsb _ _) eqn:E.
  - apply existsb_exists in E as (ref & Hin & Hn). exists ref. rewrite list_elem_of_In. split; [done|by apply String.eqb_eq].
  - exists (mkRef "" name). simpl. set_solver.
Qed.
Lemma refs_some r : (∃ ref : ObjectReference, ref ∈ rub_RemoteUserRefs (rub_Spec r)) → no_refs r = false.
Proof. intros [ref Hr]. unfold no_refs. destruct (rub_RemoteUserRefs (rub_Spec r)); [by apply elem_of_nil in Hr|done]. Qed.
Lemma targets_appended l r : rub_Status (with_targets l r) = rub_Status r ∧
  ∃ names, rub_RemoteTargetRefs (rub_Spec (with_targets l r)) = (rub_RemoteTargetRefs (rub_Spec r) ++ map (mkRef "") names)%list.
Proof.
  revert r; induction l as [|rt l IH]; intros r; [split; [done|]; exists []; by rewrite app_nil_r|]. simpl.
  destruct (IH (AddRemoteTargetRef (om_Name (rt_Meta rt)) r)) as (-> & names & ->).
  unfold AddRemoteTargetRef. destruct (existsb _ _); (split; [done|]); [by exists names|].
  exists (om_Name (rt_Meta rt) :: names). simpl. by rewrite <- app_assoc.
Qed.
Lemma targets_refer l r n : refers (with_targets l r) n = refers r n || existsb (λ rt, String.eqb (om_Name (rt_Meta rt)) n) l.
Proof.
  revert r; induction l as [|rt l IH]; intros r; simpl; [by rewrite orb_false_r|]. rewrite IH, add_refers.
  by rewrite <- orb_assoc.
Qed.

(** Nobody deletes the bindings of the user, and one of the names is free. *)
Record settled (w : W) : Prop := {
  st_named : ns ≠ "" ∧ user ≠ "" ∧ raw ≠ "";
  st_rubs : keyed (rubs w);
  st_rts : keyed (rts w);
  st_free : ∀ k r, rubs w !! k = Some r → labelled r → free_rub r;
  st_name : ∃ j, (j < maxAttempts)%nat ∧ rubs w !! mkNN ns (candidate j) = None }.

(** The binding the policy works on: one that is labelled, or, when there is none, a new one
    under the first name that is free. *)
Definition chosen (w : W) (r : RemoteUserBinding) : Prop :=
  (rubs w !! object_key r = Some r ∧ labelled r) ∨
  ((∀ k r0, rubs w !! k = Some r0 → ¬ labelled r0) ∧ ∃ j rv, (j < maxAttempts)%nat ∧
     r = stamp rv (managed_rub (candidate j) ru user raw) ∧ rubs w !! mkNN ns (candidate j) = None ∧
     ∀ l, (l < j)%nat → is_Some (rubs w !! mkNN ns (candidate l))).
Lemma first_such (P : nat → Prop) `{∀ j, Decision (P j)} n j : (j < n)%nat → P j →
  ∃ i, (i < n)%nat ∧ P i ∧ ∀ l, (l < i)%nat → ¬ P l.
Proof.
  intros Hj HP. revert Hj HP. induction (lt_wf j) as [j _ IH]. intros Hj HP.
  destruct (decide (Exists P (seq 0 j))) as [He|Hn].
  - apply Exists_exists in He as (l & [_ Hl]%elem_of_seq & HP'). apply (IH l); [lia..|done].
  - exists j. split_and!; [done..|]. intros l Hl HP'. apply Hn, Exists_exists. exists l. split; [apply elem_of_seq; lia|done].
Qed.

Lemma stored_back w r : rubs w !! object_key r = Some r → view w = v_set (<[object_key r := r]> (rubs w)) (view w).
Proof. intros Hr. rewrite insert_id by done. by destruct (view w). Qed.

Lemma choose_run w : settled w → ∃ r w', findOrCreateManagedRUB ru user raw w = (Ok r, w') ∧ chosen w r ∧
  view w' = v_set (<[object_key r := r]> (rubs w)) (view w).
Proof.
  intros [(Hns & Huser & Hraw) Hk _ Hfree (j & Hj & Hnone)].
  destruct (list_spec (T := RemoteUserBinding) (mkListOptions ns (selector (managed_user_labels user))) w)
    as (l & Hl & _ & Hin); [exact Hk|].
  assert (Hsel : ∀ o : RemoteUserBinding, o ∈ l ↔ rubs w !! object_key o = Some o ∧ labelled o).
  { intros o. rewrite Hin. unfold managed_user_labels. by rewrite (selected_iff o). }
  unfold findOrCreateManagedRUB. cbv zeta. rewrite (bind_ok _ _ _ _ _ Hl). destruct l as [|r l].
  - assert (Hnolab : ∀ k r0, rubs w !! k = Some r0 → ¬ labelled r0).
    { intros k r0 Hr0 Hlab. assert (Hi : r0 ∈ []) by (apply Hsel; by rewrite (Hk _ _ Hr0)). by apply elem_of_nil in Hi. }
    destruct (first_such (λ i, rubs w !! mkNN ns (candidate i) = None) _ _ Hj Hnone) as (i & Hi & Hfi & Hti).
    destruct (claim_name_run w maxAttempts 0 i) as (rv & w' & Hrun & Hv); [done|done|done|lia|done| |].
    { intros k [_ Hki]. specialize (Hti k Hki). destruct (rubs w !! mkNN ns (candidate k)); [by eexists|done]. }
    eexists _, w'. split; [exact Hrun|]. split; [|exact Hv]. right. split; [done|]. exists i, rv. split_and!; [done..|].
    intros k Hki. specialize (Hti k Hki). destruct (rubs w !! mkNN ns (candidate k)); [by eexists|done].
  - destruct (proj1 (Hsel r) ltac:(by left)) as [Hr Hlab].
    assert (Hkey : mkNN ns (om_Name (rub_Meta r)) = object_key r).
    { destruct Hlab as (Hn & _). unfold object_key. cbn. unfold meta_key. by rewrite Hn. }
    exists r, w. rewrite Hkey. split; [by apply get_found|]. split; [by left|by apply stored_back].
Qed.

Lemma chosen_facts w r : settled w → chosen w r → om_Namespace (rub_Meta r) = ns ∧ free_rub r.
Proof.
  intros Hs [[Hr Hl]|(_ & j & rv & _ & -> & _)]; [|done]. split; [apply Hl|]. by eapply st_free.
Qed.

(** One change of the binding that was chosen. *)
Lemma change_run (mutate : RemoteUserBinding → M error W RemoteUserBinding) f r w :
  mutate r w = (Ok (f r), w) → rub_Meta (f r) = rub_Meta r → no_refs (f r) = false → free_rub r →
  rubs w !! object_key r = Some r →
  ∃ rv w', MutateOrDeleteRemoteUserBinding (object_key r) mutate w = (Ok tt, w') ∧
    view w' = v_set (<[object_key r := stamp rv (f r)]> (rubs w)) (view w).
Proof.
  intros Hm Hf Hno [Hdel Hfin] Hr. destruct (mutate_one_at mutate f r w) as (rv & w' & Hrun & Hv); [done..|by split|].
  exists rv, w'. split; [done|]. rewrite Hv. f_equal. unfold mutated. rewrite Hno. apply map_eq. intros k.
  destruct (decide (k = object_key r)) as [->|Hne]; [by rewrite lookup_partial_alter_eq, lookup_insert_eq|].
  by rewrite lookup_partial_alter_ne, lookup_insert_ne by done.
Qed.
Lemma ensure_run r w : free_rub r → rubs w !! object_key r = Some r →
  ∃ rv w', ensureRemoteUserRef r name w = (Ok tt, w') ∧
    view w' = v_set (<[object_key r := stamp rv (with_user r)]> (rubs w)) (view w).
Proof.
  intros Hfree Hr. unfold ensureRemoteUserRef. apply (change_run _ with_user); [|apply user_meta| |done..].
  - cbv zeta. unfold with_user. by destruct (existsb _ _).
  - apply refs_some. destruct (user_held r) as (ref & Hin & _). by exists ref.
Qed.

Lemma associate_run r w : keyed (rts w) → ns ≠ "" → om_Namespace (rub_Meta r) = ns → free_rub r → no_refs r = false →
  (∃ ref : ObjectReference, ref ∈ rub_RemoteUserRefs (rub_Spec r)) →
  rubs w !! object_key r = Some r → ∀ r0, object_key r0 = object_key r → om_Namespace (rub_Meta r0) = ns →
  ∃ l rv w', associateExistingRemoteTargets r0 w = (Ok tt, w') ∧
    (∀ rt, rt ∈ l ↔ rts w !! object_key rt = Some rt ∧ shared_target rt) ∧
    view w' = v_set (<[object_key r := stamp rv (with_targets l r)]> (rubs w)) (view w).
Proof.
  intros Hk Hns Hn Hfree Hno Href Hr r0 Hkey Hn0.
  destruct (list_spec (T := RemoteTarget) (mkListOptions ns (selector
    [(ManagedByLabelKey, ManagedByLabelValue); (RtLabelKeyPolicy, RtLabelValueOneOrManyBranches)])) w)
    as (l & Hl & _ & Hin); [exact Hk|].
  destruct (targets_same l r) as (Hmeta & _ & Hrefs).
  unfold associateExistingRemoteTargets. cbv zeta. rewrite Hn0, Hkey.
  destruct (change_run (λ fresh, rtList ⇐ client_List (T := RemoteTarget) (mkListOptions ns (selector
    [(ManagedByLabelKey, ManagedByLabelValue); (RtLabelKeyPolicy, RtLabelValueOneOrManyBranches)]));;
    ret (foldl (λ r rt, AddRemoteTargetRef (om_Name (rt_Meta rt)) r) fresh rtList)) (with_targets l) r w)
    as (rv & w' & Hrun & Hv); [by rewrite (bind_ok _ _ _ _ _ Hl)|done|by apply refs_some; rewrite Hrefs|done..|].
  exists l, rv, w'. split; [exact Hrun|]. split; [|exact Hv]. intros rt. rewrite Hin. by rewrite (selected_iff rt).
Qed.

(** The binding afterwards: the one that was chosen, with a reference to the RemoteUser and
    to each target of the branch policies added, and nothing removed. *)
Record grown (w : W) (r r' : RemoteUserBinding) : Prop := {
  gr_meta : ∃ rv, rub_Meta r' = rub_Meta (stamp rv r);
  gr_subject : rub_Subject (rub_Spec r') = rub_Subject (rub_Spec r);
  gr_status : rub_Status r' = rub_Status r;
  gr_appended : ∃ l, rub_RemoteTargetRefs (rub_Spec r') = (rub_RemoteTargetRefs (rub_Spec r) ++ map (mkRef "") l)%list;
  gr_user : ∃ ref, ref ∈ rub_RemoteUserRefs (rub_Spec r') ∧ ref_Name ref = name;
  gr_users : ∀ ref, ref ∈ rub_RemoteUserRefs (rub_Spec r') ↔
    ref ∈ rub_RemoteUserRefs (rub_Spec r) ∨
    (ref = mkRef "" name ∧ ∀ ref0, ref0 ∈ rub_RemoteUserRefs (rub_Spec r) → ref_Name ref0 ≠ name);
  gr_targets : ∀ n, refers r' n = true ↔
    refers r n = true ∨ ∃ k rt, rts w !! k = Some rt ∧ shared_target rt ∧ om_Name (rt_Meta rt) = n }.

Lemma user_refs r ref : ref ∈ rub_RemoteUserRefs (rub_Spec (with_user r)) ↔
  ref ∈ rub_RemoteUserRefs (rub_Spec r) ∨
  (ref = mkRef "" name ∧ ∀ ref0, ref0 ∈ rub_RemoteUserRefs (rub_Spec r) → ref_Name ref0 ≠ name).
Proof.
  unfold with_user. cbv zeta. destruct (existsb _ _) eqn:E.
  - apply existsb_exists in E as (ref0 & Hin & Hn). apply list_elem_of_In in Hin. apply String.eqb_eq in Hn. naive_solver.
  - assert (Hall : ∀ ref0, ref0 ∈ rub_RemoteUserRefs (rub_Spec r) → ref_Name ref0 ≠ name).
    { intros ref0 Hin Hn. apply not_true_iff_false in E. apply E, existsb_exists. exists ref0.
      rewrite <- list_elem_of_In. split; [done|by apply String.eqb_eq]. }
    simpl. rewrite elem_of_app, list_elem_of_singleton. naive_solver.
Qed.

Lemma grown_by w l rv r : keyed (rts w) → (∀ rt, rt ∈ l ↔ rts w !! object_key rt = Some rt ∧ shared_target rt) →
  grown w r (stamp rv (with_targets l (with_user r))).
Proof.
  intros Hk Hin. destruct (targets_same l (with_user r)) as (Hm & Hs & Hu). split.
  - exists rv. simpl. by rewrite Hm, user_meta.
  - simpl. rewrite Hs. unfold with_user. cbv zeta. by destruct (existsb _ _).
  - simpl. rewrite (proj1 (targets_appended l _)). unfold with_user. cbv zeta. by destruct (existsb _ _).
  - destruct (proj2 (targets_appended l (with_user r))) as [names Hn]. exists names. simpl. rewrite Hn.
    unfold with_user. cbv zeta. by destruct (existsb _ _).
  - simpl. rewrite Hu. apply user_held.
  - intros ref. simpl. rewrite Hu. apply user_refs.
  - intros n. rewrite refers_stamp, targets_refer, orb_true_iff.
    assert (Hr : refers (with_user r) n = refers r n) by (unfold with_user; cbv zeta; by destruct (existsb _ _)).
    rewrite Hr. f_equiv. rewrite existsb_exists. split.
    + intros (rt & Hrt & Hn). apply list_elem_of_In, Hin in Hrt as [Hrt Hst]. apply String.eqb_eq in Hn. eauto.
    + intros (k & rt & Hrt & Hst & Hn). exists rt. rewrite <- list_elem_of_In, Hin, String.eqb_eq.
      split; [|done]. split; [|done]. by rewrite (Hk _ _ Hrt).
Qed.

(** (C15) The association policy converges in one pass on a server at rest. It takes a managed
    binding of the user, or makes one under the first free name, with the user as its
    subject; afterwards the binding refers to the RemoteUser and to every target of the
    branch policies of the namespace, what it referred to before comes first and unchanged,
    and nothing else in the cluster has changed. *)
Theorem association_converges w : settled w →
  ∃ r r' w', Association_Reconcile ru w = (Ok (no_requeue, None), w') ∧ chosen w r ∧ grown w r r' ∧
    view w' = v_set (<[object_key r := r']> (rubs w)) (view w).
Proof.
  intros Hs. pose proof Hs as [(Hns & Huser & Hraw) Hk Hkt _ _].
  destruct (rand_spec 5 w) as [n Hn]. destruct (choose_run w Hs) as (r & w1 & Hr1 & Hc & Hv1).
  destruct (chosen_facts w r Hs Hc) as [Hnr Hfree].
  assert (Hs1 : rubs w1 !! object_key r = Some r) by (by rewrite Hv1; simpl; rewrite lookup_insert_eq).
  destruct (ensure_run r w1 Hfree Hs1) as (rv2 & w2 & Hr2 & Hv2).
  set (r2 := stamp rv2 (with_user r)) in *.
  assert (Hkey : object_key r2 = object_key r) by (unfold r2, object_key; simpl; by rewrite user_meta).
  assert (Hs2 : rubs w2 !! object_key r2 = Some r2) by (by rewrite Hkey, Hv2; simpl; rewrite lookup_insert_eq).
  assert (Href2 : ∃ ref : ObjectReference, ref ∈ rub_RemoteUserRefs (rub_Spec r2)).
  { destruct (user_held r) as (ref & Href & _). by exists ref. }
  assert (Hrts : rts w2 = rts w) by (by rewrite Hv2, Hv1).
  destruct (associate_run r2 w2) with (r0 := r) as (l & rv3 & w3 & Hr3 & Hin & Hv3); try done.
  { by rewrite Hrts. } { unfold r2. simpl. by rewrite user_meta. }
  { unfold free_rub, r2. simpl. by rewrite user_meta. } { by apply refs_some. }
  exists r, (stamp rv3 (with_targets l (with_user r))), w3. split_and!; [|done| |].
  - assert (Hj : jitter w = (Ok (mkResult (requeueAfter + n * 1000000000)), w))
      by (unfold jitter; by rewrite (bind_ok _ _ _ _ _ Hn)).
    unfold Association_Reconcile. rewrite (bind_ok _ _ _ _ _ Hj). cbv zeta.
    apply String.eqb_neq in Huser. apply String.eqb_neq in Hraw. rewrite Huser, Hraw. cbn [orb].
    by rewrite (check_ok _ _ _ _ _ _ Hr1), (check_ok _ _ _ _ _ _ Hr2), (check_ok _ _ _ _ _ _ Hr3).
  - apply grown_by; [done|]. intros rt. by rewrite Hin, Hrts.
  - rewrite Hv3, Hv2, Hv1, Hkey. unfold r2. rewrite stamp_targets, stamp_twice. simpl. by rewrite !insert_insert_eq.
Qed.
End Association.

(** ** A concrete namespace *)

(** The RemoteUser of [alice], stamped by the mutating webhook. *)
Definition stamped_ru : RemoteUser :=
  mkRemoteUser (set_annotations {[RubAnnotationKeyManaged := "true"; K8sUserLabelKey := "alice"]}
    (new_meta "alice-git" "team" {[K8sUserLabelKey := "a11ce"]})) (ru_Spec demo_ru) (ru_Status demo_ru).
Definition association_world (rubs : gmap NamespacedName RemoteUserBinding) : World :=
  world_of (mkView {[object_key stamped_ru := stamped_ru]} rubs {[object_key demo_rt := demo_rt]}
    {[object_key demo_syncer := demo_syncer]} ∅ {[object_key demo_secret := demo_secret]} ∅ ∅).

Lemma association_world_settled : settled stamped_ru (association_world ∅).
Proof.
  split.
  - by split_and!; vm_compute.
  - apply map_Forall_empty.
  - apply map_Forall_singleton. reflexivity.
  - intros k r Hr. simpl in Hr. by rewrite lookup_empty in Hr.
  - exists 0%nat. split; [unfold maxAttempts; lia|]. apply lookup_empty.
Qed.

Lemma association_converges_witness :
  ∃ r r' w', Association_Reconcile stamped_ru (association_world ∅) = (Ok (no_requeue, None), w') ∧
    chosen stamped_ru (association_world ∅) r ∧ grown stamped_ru (association_world ∅) r r' ∧
    view w' = v_set (<[object_key r := r']> (v_rub (view (association_world ∅)))) (view (association_world ∅)).
Proof. exact (association_converges stamped_ru (association_world ∅) association_world_settled). Defined.

(** A binding somebody else made, for [mallory], with the labels of the managed binding of
    [alice]. It refers to no RemoteUser. *)
Definition mallory_rub : RemoteUserBinding :=
  mkRUB (new_meta "mallory" "team" (list_to_map (managed_user_labels "a11ce")))
    (mkRUBSpec (mkSubject "User" "mallory" "") [] [mkRef "" "app-main"]) (mkRUBStatus [] "" [] "").
Definition credentials_of_mallory (w : World) : option GitUserInfo :=
  match (GetUserInfoRemoteTargetsAssociation (mkUserInfo "mallory" "2" [] []) demo_url demo_sc w).1 with
  | Ok m => match map_to_list m with (gu, _) :: _ => Some gu | [] => None end
  | _ => None
  end.

(** The policy takes it for the binding of [alice], and [mallory] pushes with the
    credentials of [alice] from then on. *)
Lemma association_trusts_labels :
  let w := association_world {[object_key mallory_rub := mallory_rub]} in
  credentials_of_mallory w = None ∧
  credentials_of_mallory (Association_Reconcile stamped_ru w).2 = Some demo_git.
Proof. vm_compute. by split. Qed.
