(* ===== verification/UserSpecificProps.v ===== *)
(** * Correctness of the user-specific policy on a healthy server

    [UserSpecificPolicy] gives every user who has a managed binding in the identity namespace
    of a syncer a target of their own, held by the binding, and takes away the targets
    of the users who left, unless another syncer works on the same upstream. *)

From S2P Require Import Prelude GoStr Api Errors External Naming Managed Policy Policies PolicyProps Target Sim AssociationProps.

(** ** Bindings that differ in their target references only *)

Definition like (r r' : RemoteUserBinding) : Prop :=
  ∃ rv refs, r' = stamp rv (set_target_refs refs r).

#[global] Instance like_preorder : PreOrder like.
Proof.
  split.
  - intros r. exists (om_ResourceVersion (rub_Meta r)), (rub_RemoteTargetRefs (rub_Spec r)).
    by destruct r as [[] []].
  - intros r1 r2 r3 (rv & refs & ->) (rv' & refs' & ->). by exists rv', refs'.
Qed.

Lemma like_key r r' : like r r' → object_key r' = object_key r.
Proof. by intros (rv & refs & ->). Qed.
Lemma like_free r r' : like r r' → free_rub r → free_rub r'.
Proof. by intros (rv & refs & ->). Qed.
Lemma like_labels r r' : like r r' → om_Labels (rub_Meta r') = om_Labels (rub_Meta r).
Proof. by intros (rv & refs & ->). Qed.
Lemma like_namespace r r' : like r r' → om_Namespace (rub_Meta r') = om_Namespace (rub_Meta r).
Proof. by intros (rv & refs & ->). Qed.
Lemma like_users r r' : like r r' → rub_RemoteUserRefs (rub_Spec r') = rub_RemoteUserRefs (rub_Spec r).
Proof. by intros (rv & refs & ->). Qed.
Lemma like_add rv n r : like r (stamp rv (AddRemoteTargetRef n r)).
Proof.
  unfold AddRemoteTargetRef. destruct (existsb _ _); [|by eexists rv, _].
  exists rv, (rub_RemoteTargetRefs (rub_Spec r)). by destruct r as [? []].
Qed.
Lemma like_remove rv n r : like r (stamp rv (RemoveRemoteTargetRef n r)).
Proof. by eexists rv, _. Qed.

(** A binding after some names were added to its targets and others removed; one that
    nothing was done to is left as it is. *)
Record changed (given : string → Prop) (gone : string → bool) (r r' : RemoteUserBinding) : Prop := {
  ch_like : like r r';
  ch_refers n : refers r' n = true ↔ (refers r n = true ∨ given n) ∧ gone n = false;
  ch_same : (∀ n, ¬ given n) → (∀ n, gone n = false) → r' = r }.

Definition no_name : string → Prop := λ _, False.
Definition none_gone : string → bool := λ _, false.

(** What a loop that adds names does to the store of bindings. *)
Definition grown_all (given : RemoteUserBinding → string → Prop) (m m' : gmap NamespacedName RemoteUserBinding) : Prop :=
  ∀ k, match m !! k with
       | None => m' !! k = None
       | Some r => ∃ r', m' !! k = Some r' ∧ changed (given r) none_gone r r'
       end.
(** What a loop that removes names does: a binding goes exactly when a name was taken away and
    no reference of it is left, to a target or to a user. *)
Definition shrunk_all (gone : RemoteUserBinding → string → bool) (m m' : gmap NamespacedName RemoteUserBinding) : Prop :=
  ∀ k, match m !! k with
       | None => m' !! k = None
       | Some r => (∃ r', m' !! k = Some r' ∧ changed no_name (gone r) r r' ∧ ((∃ n, gone r n = true) → no_refs r' = false)) ∨
                   (m' !! k = None ∧ rub_RemoteUserRefs (rub_Spec r) = [] ∧ (∃ n, gone r n = true) ∧
                      ∀ n, refers r n = true → gone r n = true)
       end.

Lemma changed_nothing r : changed no_name none_gone r r.
Proof. split; [done| |done]. unfold no_name, none_gone. naive_solver. Qed.
Lemma grown_all_refl m : grown_all (λ _, no_name) m m.
Proof. intros k. destruct (m !! k) as [r|]; [|done]. exists r. split; [done|apply changed_nothing]. Qed.
Lemma shrunk_all_refl m : shrunk_all (λ _, none_gone) m m.
Proof. intros k. destruct (m !! k) as [r|]; [|done]. left. exists r. split_and!; [done|apply changed_nothing|by intros [n ?]]. Qed.

Lemma grown_all_trans (g1 g2 : RemoteUserBinding → string → Prop) m1 m2 m3 :
  (∀ r r' n, like r r' → g2 r' n ↔ g2 r n) →
  grown_all g1 m1 m2 → grown_all g2 m2 m3 → grown_all (λ r n, g1 r n ∨ g2 r n) m1 m3.
Proof.
  intros Hst H1' H2' k. specialize (H1' k). specialize (H2' k). destruct (m1 !! k) as [r|]; [|by rewrite H1' in H2'].
  destruct H1' as (r1 & Hk1 & [Hl1 Hr1 Hs1]). rewrite Hk1 in H2'. destruct H2' as (r2 & Hk2 & [Hl2 Hr2 Hs2]).
  exists r2. split; [done|]. split; [by etrans| |].
  - intros n. rewrite Hr2, Hr1, (Hst _ _ _ Hl1). unfold none_gone. tauto.
  - intros Hg _. assert (r1 = r) as -> by (apply Hs1; [|done]; intros n Hn; apply (Hg n); auto).
    apply Hs2; [|done]. intros n Hn. apply (Hg n). auto.
Qed.
Lemma shrunk_all_trans (x1 x2 : RemoteUserBinding → string → bool) m1 m2 m3 :
  (∀ r r' n, like r r' → x2 r' n = x2 r n) →
  shrunk_all x1 m1 m2 → shrunk_all x2 m2 m3 → shrunk_all (λ r n, x1 r n || x2 r n) m1 m3.
Proof.
  intros Hst H1' H2' k. specialize (H1' k). specialize (H2' k). destruct (m1 !! k) as [r|]; [|by rewrite H1' in H2'].
  destruct H1' as [(r1 & Hk1 & [Hl1 Hr1 Hs1] & Hno1)|(Hk1 & Hu & [n0 Hn0] & Hall)]; rewrite Hk1 in H2'.
  2:{ right. split_and!; [done|done|exists n0; by rewrite Hn0|]. intros n Hn. by rewrite Hall. }
  destruct H2' as [(r2 & Hk2 & [Hl2 Hr2 Hs2] & Hno2)|(Hk2 & Hu & [n0 Hn0] & Hall)].
  - left. exists r2. split; [done|]. split; [split; [by etrans| |]|].
    + intros n. rewrite Hr2, Hr1, (Hst _ _ _ Hl1), orb_false_iff. unfold no_name. tauto.
    + intros _ Hg. assert (r1 = r) as -> by (apply Hs1; [by intros n []|]; intros n; by destruct (orb_false_elim _ _ (Hg n))).
      apply Hs2; [by intros n []|]. intros n. by destruct (orb_false_elim _ _ (Hg n)).
    + intros [n Hn]. destruct (no_refs r2) eqn:E; [|done]. exfalso.
      assert (Hall : ∀ n, x2 r1 n = false).
      { intros n'. apply not_true_iff_false. intros Hx. specialize (Hno2 (ex_intro _ n' Hx)). congruence. }
      assert (r2 = r1) as -> by (apply Hs2; [by intros ? []|done]).
      rewrite <- (Hst _ _ _ Hl1), Hall, orb_false_r in Hn. specialize (Hno1 (ex_intro _ n Hn)). congruence.
  - right. split_and!; [done|by rewrite <- (like_users _ _ Hl1)|exists n0; by rewrite <- (Hst _ _ _ Hl1), Hn0, orb_true_r|]. intros n Hn.
    destruct (x1 r n) eqn:E; [done|]. simpl. rewrite <- (Hst _ _ _ Hl1). apply Hall, Hr1. auto.
Qed.

Section UserSpecific.
Context {W : Type} `{ApiServer W, Lib, !Lib_laws}.

Abbreviation rubs w := (v_rub (view w)).
Abbreviation rts w := (v_rt (view w)).

Context (s : Syncer).
Abbreviation ns := (IdentityNamespace s).
Abbreviation up := (RemoteRepository (SyncerSpec s)).
Abbreviation upb := (DefaultBranch (SyncerSpec s)).
Abbreviation annotation := (syncer_annotation s RtAnnotationKeyUserSpecific).

Definition binding_user (r : RemoteUserBinding) : string := mget (om_Labels (rub_Meta r)) K8sUserLabelKey.
Definition target_user (rt : RemoteTarget) : string := mget (om_Labels (rt_Meta rt)) K8sUserLabelKey.

(** A managed target of a user, of the upstream of the syncer. *)
Definition user_target (rt : RemoteTarget) : bool :=
  list_matches (mkListOptions ns (selector [(ManagedByLabelKey, ManagedByLabelValue);
    (RtLabelKeyPolicy, RtLabelValueOneUserOneBranch)])) (rt_Meta rt) &&
  (String.eqb (UpstreamRepository (rt_Spec rt)) up && String.eqb (UpstreamBranch (rt_Spec rt)) upb).

(** The target the policy builds for the user of a binding. *)
Definition target_of (r : RemoteUserBinding) (rt : RemoteTarget) : Prop :=
  buildUserSpecificTarget ns up upb (sub_Name (rub_Subject (rub_Spec r))) (binding_user r) annotation = Ok rt.

Lemma target_of_spec r rt : target_of r rt →
  om_Namespace (rt_Meta rt) = ns ∧ target_user rt = binding_user r ∧
  UpstreamRepository (rt_Spec rt) = up ∧ UpstreamBranch (rt_Spec rt) = upb ∧ om_Finalizers (rt_Meta rt) = [] ∧
  om_Labels (rt_Meta rt) !! ManagedByLabelKey = Some ManagedByLabelValue ∧
  om_Labels (rt_Meta rt) !! RtLabelKeyPolicy = Some RtLabelValueOneUserOneBranch.
Proof.
  unfold target_of, buildUserSpecificTarget. cbv zeta. destruct (RemoteTargetName _ _ _ _); intros [= <-].
  unfold target_user. cbn [rt_Meta rt_Spec UpstreamRepository UpstreamBranch].
  by destruct (String.eqb (if String.eqb annotation _ then _ else _) "").
Qed.

(** The loop over the bindings works on those with the label of a user. *)
Definition active_in (l : list RemoteUserBinding) : gset string :=
  foldr (λ r us, if String.eqb (binding_user r) "" then us else {[binding_user r]} ∪ us) ∅ l.

Lemma active_in_spec l u : u ∈ active_in l ↔ u ≠ "" ∧ ∃ r, r ∈ l ∧ binding_user r = u.
Proof.
  induction l as [|r l IH]; simpl.
  - split; [by intros ?%not_elem_of_empty|by intros (_ & r & ?%not_elem_of_nil & _)].
  - destruct (String.eqb_spec (binding_user r) "") as [E|E]; rewrite ?elem_of_union, ?elem_of_singleton, IH.
    + split; [intros (? & x & ? & ?); split; [done|]; exists x; by rewrite elem_of_cons; auto|].
      intros (Hu & x & [->|Hx]%elem_of_cons & Hb); [congruence|]. eauto.
    + split.
      * intros [->|(? & x & ? & ?)]; [split; [done|]; exists r; rewrite elem_of_cons; auto|].
        split; [done|]. exists x. rewrite elem_of_cons. auto.
      * intros (Hu & x & [->|Hx]%elem_of_cons & Hb); [by left|]. right. eauto.
Qed.

(** The name of the target the binding is given. *)
Definition given_name (existing : gmap string RemoteTarget) (r : RemoteUserBinding) (n : string) : Prop :=
  match existing !! binding_user r with
  | Some rt => n = om_Name (rt_Meta rt)
  | None => ∃ rt, target_of r rt ∧ n = om_Name (rt_Meta rt)
  end.

(** ** The loop over the bindings *)

(** The names the loop gives to a stored binding. *)
Definition given_by (existing : gmap string RemoteTarget) (l : list RemoteUserBinding) (r : RemoteUserBinding)
    (n : string) : Prop :=
  ∃ r0, r0 ∈ l ∧ object_key r0 = object_key r ∧ binding_user r0 ≠ "" ∧ given_name existing r0 n.

Definition added_targets (existing : gmap string RemoteTarget) (l : list RemoteUserBinding)
    (m m' : gmap NamespacedName RemoteTarget) : Prop :=
  m ⊆ m' ∧
  (∀ r rt, r ∈ l → binding_user r ≠ "" → existing !! binding_user r = None → target_of r rt →
     is_Some (m' !! object_key rt)) ∧
  ∀ k rt', m' !! k = Some rt' → m !! k = Some rt' ∨
    ∃ r rt rv, (r ∈ l ∧ existing !! binding_user r = None) ∧ binding_user r ≠ "" ∧ target_of r rt ∧ k = object_key rt ∧ m !! k = None ∧ rt' = stamp rv rt.

Lemma ensure_target_run r0 r n w : keyed (rubs w) → free_rub r → object_key r0 = object_key r → rubs w !! object_key r = Some r →
  ∃ mr w', ensureRTRefInRUB r0 n w = (Ok tt, w') ∧ view w' = v_set mr (view w) ∧
    grown_all (λ r' n', object_key r' = object_key r0 ∧ n' = n) (rubs w) mr.
Proof.
  intros Hkeyed Hfree Hkey Hr. unfold ensureRTRefInRUB. rewrite Hkey.
  destruct (change_run (λ fresh, ret (AddRemoteTargetRef n fresh)) (AddRemoteTargetRef n) r w)
    as (rv & w' & Hrun & Hv); [done|apply add_meta|apply add_not_empty|done..|].
  eexists _, w'. split_and!; [exact Hrun|exact Hv|]. intros k.
  destruct (decide (k = object_key r)) as [->|Hne].
  - rewrite Hr, lookup_insert_eq. eexists. split; [done|]. split; [apply like_add| |].
    + intros n'. rewrite refers_stamp, add_refers, orb_true_iff, String.eqb_eq. unfold none_gone. naive_solver.
    + intros Hg _. destruct (Hg n). done.
  - rewrite lookup_insert_ne by done. destruct (rubs w !! k) as [r1|] eqn:Hk1; [|done]. exists r1. split; [done|].
    split; [done| |done]. intros n'. split; [by auto|]. intros [[?|[Hk' _]] _]; [done|].
    rewrite (Hkeyed _ _ Hk1) in Hk'. congruence.
Qed.

Lemma grown_all_keyed g m m' : grown_all g m m' → keyed m → keyed m'.
Proof.
  intros Hg Hk k r' Hr'. specialize (Hg k). destruct (m !! k) as [r|] eqn:E; [|congruence].
  destruct Hg as (r1 & Hr1 & [Hl _ _]). assert (r1 = r') as -> by congruence.
  rewrite (like_key _ _ Hl). exact (Hk _ _ E).
Qed.

Lemma grown_all_weaken (g g' : RemoteUserBinding → string → Prop) m m' : (∀ r n, g r n ↔ g' r n) →
  grown_all g m m' → grown_all g' m m'.
Proof.
  intros Hgg Hg k. specialize (Hg k). destruct (m !! k) as [r|]; [|done].
  destruct Hg as (r' & Hr' & [Hl Hr Hs]). exists r'. split; [done|]. split; [done| |].
  - intros n. rewrite Hr. by rewrite Hgg.
  - intros Hn. apply Hs. intros n. by rewrite Hgg.
Qed.

(** What the loop needs of the bindings it was given: they are still there. *)
Definition present (w : W) (r : RemoteUserBinding) : Prop :=
  ∃ r1, rubs w !! object_key r = Some r1 ∧ like r r1 ∧ free_rub r.

Lemma present_grown w w' g r : grown_all g (rubs w) (rubs w') → present w r → present w' r.
Proof.
  intros Hg (r1 & Hr1 & Hl & Hf). specialize (Hg (object_key r)). rewrite Hr1 in Hg.
  destruct Hg as (r2 & Hr2 & [Hl2 _ _]). exists r2. split_and!; [done|by etrans|done].
Qed.

(** One binding: its target is there afterwards, and it refers to it. *)
Lemma user_step existing r w : keyed (rubs w) → present w r → binding_user r ≠ "" →
  (existing !! binding_user r = None → ∃ rt, target_of r rt) →
  ∃ n mr mt w', given_name existing r n ∧ (∀ n', given_name existing r n' → n' = n) ∧
    view w' = v_set mr (v_set mt (view w)) ∧ added_targets existing [r] (rts w) mt ∧
    grown_all (λ r' n', object_key r' = object_key r ∧ n' = n) (rubs w) mr ∧
    (∀ requeue rest active, reconcileUserTargets requeue s (r :: rest) existing annotation active w =
       reconcileUserTargets requeue s rest existing annotation ({[binding_user r]} ∪ active) w').
Proof.
  intros Hkeyed (r1 & Hr1 & Hl & Hf) Huser Hbuild. pose proof (like_free _ _ Hl Hf) as Hf1.
  pose proof (like_key _ _ Hl) as Hkey. rewrite <- Hkey in Hr1. apply String.eqb_neq in Huser as Heqb.
  unfold given_name. destruct (existing !! binding_user r) as [rt|] eqn:Ex.
  - destruct (ensure_target_run r r1 (om_Name (rt_Meta rt)) w) as (mr & w' & Hrun & Hv & Hg); [done..|].
    exists (om_Name (rt_Meta rt)), mr, (rts w), w'. split_and!; [done|by intros|by rewrite Hv; destruct (view w)| |done|].
    + split_and!; [done| |by auto]. intros r0 rt0 ->%list_elem_of_singleton _. congruence.
    + intros requeue rest active. cbn [reconcileUserTargets]. cbv zeta. fold (binding_user r). rewrite Heqb, Ex.
      unfold attempt at 1, bind at 1. by rewrite Hrun.
  - destruct (Hbuild eq_refl) as [rt Hrt].
    destruct (create_tolerant_run rt w) as (w1 & Hc & mt & Hv1 & Hsub & Hex & Hnew).
    assert (Hrubs1 : rubs w1 = rubs w) by (by rewrite Hv1).
    destruct (ensure_target_run r r1 (om_Name (rt_Meta rt)) w1) as (mr & w' & Hrun & Hv & Hg);
      [by rewrite Hrubs1|done|done|by rewrite Hrubs1|].
    rewrite Hrubs1 in Hg. exists (om_Name (rt_Meta rt)), mr, mt, w'.
    split_and!; [by exists rt| |by rewrite Hv, Hv1| |done|].
    + intros n' (rt' & Hrt' & ->). unfold target_of in *. congruence.
    + split_and!; [done| |].
      * intros r0 rt0 ->%list_elem_of_singleton _ _ Hrt0. unfold target_of in *. by assert (rt0 = rt) as -> by congruence.
      * intros k rt' Hk. destruct (Hnew k rt' Hk) as [?|(Hno & -> & rv & ->)]; [by left|right].
        exists r, rt, rv. split_and!; try done. by left.
    + intros requeue rest active. cbn [reconcileUserTargets]. cbv zeta. fold (binding_user r). rewrite Heqb, Ex.
      unfold target_of in Hrt. unfold lift, attempt at 1, bind at 1. rewrite Hrt. unfold attempt at 1, bind at 1.
      rewrite Hc. unfold attempt at 1, bind at 1. by rewrite Hrun.
Qed.

Lemma added_targets_cons existing r l m m1 m2 : binding_user r ≠ "" →
  added_targets existing [r] m m1 → added_targets existing l m1 m2 → added_targets existing (r :: l) m m2.
Proof.
  intros Hu (Hs1 & Ha1 & Hn1) (Hs2 & Ha2 & Hn2). split_and!; [by etrans| |].
  - intros r0 rt [->|Hin]%elem_of_cons Hu0 He Ht; [|by eapply Ha2].
    destruct (Ha1 r rt ltac:(by left) Hu He Ht) as [x Hx]. exists x. by eapply lookup_weaken.
  - intros k rt' Hk. destruct (Hn2 k rt' Hk) as [Hk1|(r0 & rt & rv & [Hin He] & Hu0 & Ht & Hkk & Hno & ->)].
    + destruct (Hn1 k rt' Hk1) as [?|(r0 & rt & rv & [->%list_elem_of_singleton He] & Hrest)]; [by left|right].
      exists r, rt, rv. split; [split; [by left|done]|done].
    + right. exists r0, rt, rv. split_and!; try done; [by right|].
      destruct (m !! k) as [x|] eqn:E; [|done]. by rewrite (lookup_weaken _ _ _ _ E Hs1) in Hno.
Qed.

Lemma users_loop requeue existing l w active : keyed (rubs w) → Forall (present w) l →
  (∀ r, r ∈ l → binding_user r ≠ "" → existing !! binding_user r = None → ∃ rt, target_of r rt) →
  ∃ mr mt w', reconcileUserTargets requeue s l existing annotation active w =
      (Ok (active_in l ∪ active, (no_requeue, None)), w') ∧
    view w' = v_set mr (v_set mt (view w)) ∧ added_targets existing l (rts w) mt ∧
    grown_all (given_by existing l) (rubs w) mr.
Proof.
  revert w active. induction l as [|r l IH]; intros w active Hkeyed Hp Hb.
  { exists (rubs w), (rts w), w. split_and!; [simpl; by rewrite union_empty_l_L|by destruct (view w)| |].
    - split_and!; [done| |by auto]. intros ?? Hin. by apply not_elem_of_nil in Hin.
    - eapply grown_all_weaken; [|apply grown_all_refl]. intros r n. split; [done|].
      intros (r0 & Hin & _). by apply not_elem_of_nil in Hin. }
  apply Forall_cons in Hp as [Hpr Hpl].
  assert (Hbl : ∀ r, r ∈ l → binding_user r ≠ "" → existing !! binding_user r = None → ∃ rt, target_of r rt)
    by (intros r0 Hin; apply Hb; by right).
  destruct (decide (binding_user r = "")) as [Hu|Hu].
  - destruct (IH w active Hkeyed Hpl Hbl) as (mr & mt & w' & Hrun & Hv & (Hs & Ha & Hn) & Hg).
    exists mr, mt, w'. cbn [reconcileUserTargets active_in foldr]. cbv zeta. fold (binding_user r) (active_in l).
    rewrite Hu. cbn [String.eqb]. split_and!; [done|done| |].
    + split_and!; [done|intros r0 rt [->|Hin]%elem_of_cons; [done|by eapply Ha]|].
      intros k rt' Hk. destruct (Hn k rt' Hk) as [?|(r0 & rt & rv & [Hin He] & Hrest)]; [by left|right].
      exists r0, rt, rv. split; [split; [by right|done]|done].
    + eapply grown_all_weaken; [|exact Hg]. intros r1 n. unfold given_by. split.
      * intros (r0 & Hin & Hrest). exists r0. split; [by right|done].
      * intros (r0 & [->|Hin]%elem_of_cons & Hrest); [by destruct Hrest as (_ & ? & _)|by exists r0].
  - destruct (user_step existing r w Hkeyed Hpr Hu (Hb r ltac:(by left) Hu))
      as (n & mr1 & mt1 & w1 & Hgn & Huniq & Hv1 & Ha1 & Hg1 & Hstep).
    assert (Hrubs1 : rubs w1 = mr1) by (by rewrite Hv1). assert (Hrts1 : rts w1 = mt1) by (by rewrite Hv1).
    destruct (IH w1 ({[binding_user r]} ∪ active)) as (mr & mt & w' & Hrun & Hv & Ha & Hg).
    { rewrite Hrubs1. by eapply grown_all_keyed. }
    { eapply Forall_impl; [exact Hpl|]. intros r0. apply (present_grown _ _ (λ r' n', object_key r' = object_key r ∧ n' = n)). by rewrite Hrubs1. }
    { done. }
    rewrite Hrubs1 in Hg. rewrite Hrts1 in Ha. exists mr, mt, w'. rewrite Hstep, Hrun. split_and!.
    + cbn [active_in foldr]. fold (active_in l). apply String.eqb_neq in Hu as ->. do 2 f_equal. f_equal. set_solver.
    + by rewrite Hv, Hv1.
    + by eapply added_targets_cons.
    + eapply grown_all_weaken; [|eapply grown_all_trans; [|exact Hg1|exact Hg]].
      * intros r1 n1. unfold given_by. split.
        -- intros [[Hk ->]|(r0 & Hin & Hrest)]; [exists r; split; [by left|done]|exists r0; split; [by right|done]].
        -- intros (r0 & [->|Hin]%elem_of_cons & Hk & Hu0 & Hgn0); [left; split; [done|by apply Huniq]|right; by exists r0].
      * intros r1 r2 n1 Hl. unfold given_by. by rewrite (like_key _ _ Hl).
Qed.

(** ** The loop over the users who left *)

Definition stale (active : gset string) (others : list Syncer) : string * RemoteTarget → bool :=
  λ '(u, rt), negb (bool_decide (u ∈ active) || isRTUsedByOtherSyncer rt others).

(** The names taken away from the managed bindings. *)
Definition taken (l : list (string * RemoteTarget)) (r : RemoteUserBinding) (n : string) : bool :=
  managed_in ns r && bool_decide (n ∈ map (λ '(_, rt), om_Name (rt_Meta rt)) l).

Lemma like_managed r r' : like r r' → managed_in ns r' = managed_in ns r.
Proof. by intros (rv & refs & ->). Qed.

Lemma removal_shrinks rt m m' : mutated_at (RemoveRemoteTargetRef (om_Name (rt_Meta rt))) (managed_in ns) m m' →
  shrunk_all (taken [("", rt)]) m m'.
Proof.
  intros Hm k. specialize (Hm k). destruct (m !! k) as [r|]; [|done]. unfold taken.
  destruct (managed_in ns r); cbn [andb].
  - destruct Hm as [rv Hm]. unfold mutated in Hm. destruct (no_refs _) eqn:E.
    + right. split_and!; [done| |exists (om_Name (rt_Meta rt)); apply bool_decide_eq_true_2; by left|].
      { unfold no_refs in E. simpl in E. by destruct (rub_RemoteUserRefs (rub_Spec r)). }
      intros n Hn. apply bool_decide_eq_true. apply list_elem_of_singleton.
      destruct (String.eqb_spec (om_Name (rt_Meta rt)) n) as [->|Hne]; [done|]. exfalso.
      apply String.eqb_neq in Hne. pose proof (remove_refers r (om_Name (rt_Meta rt)) n) as Hr.
      rewrite Hn, Hne in Hr. unfold refers in Hr. unfold no_refs in E.
      destruct (rub_RemoteUserRefs _), (rub_RemoteTargetRefs (rub_Spec (RemoveRemoteTargetRef (om_Name (rt_Meta rt)) r))); done.
    + left. eexists. split; [exact Hm|]. split; [split; [apply like_remove| |]|by intros _].
      * intros n. rewrite refers_stamp, remove_refers, andb_true_iff, negb_true_iff, String.eqb_neq, bool_decide_eq_false.
        unfold no_name. simpl. rewrite list_elem_of_singleton. naive_solver.
      * intros _ Hg. specialize (Hg (om_Name (rt_Meta rt))). apply bool_decide_eq_false in Hg. destruct Hg. by left.
  - left. exists r. split; [done|]. split; [split; [done| |done]|by intros [n ?]]. intros n. unfold no_name. naive_solver.
Qed.

Lemma shrunk_all_calm x m m' : shrunk_all x m m' → keyed m → map_Forall (λ _, free_rub) m →
  keyed m' ∧ map_Forall (λ _, free_rub) m'.
Proof.
  intros Hs Hk Hf.
  enough (∀ k r', m' !! k = Some r' → object_key r' = k ∧ free_rub r') as Hall.
  { split; intros k r' Hr'; by apply (Hall k r'). }
  intros k r' Hr'. specialize (Hs k). destruct (m !! k) as [r|] eqn:E; [|congruence].
  destruct Hs as [(r1 & Hr1 & [Hl _ _] & _)|(Hn & _)]; [|congruence]. assert (r1 = r') as -> by congruence.
  split; [rewrite (like_key _ _ Hl); exact (Hk _ _ E)|]. eapply like_free; [exact Hl|]. exact (Hf _ _ E).
Qed.

Lemma shrunk_all_weaken (x x' : RemoteUserBinding → string → bool) m m' : (∀ r n, x r n = x' r n) →
  shrunk_all x m m' → shrunk_all x' m m'.
Proof.
  intros Hx Hs k. specialize (Hs k). destruct (m !! k) as [r|]; [|done].
  destruct Hs as [(r' & Hr' & [Hl Hr Hs] & Hno)|(Hn & Hu & [n Hxn] & Hall)].
  - left. exists r'. split; [done|]. split; [split; [done| |]|].
    + intros n. by rewrite Hr, Hx.
    + intros ? Hg. apply Hs; [done|]. intros n. by rewrite Hx.
    + intros [n Hn]. apply Hno. exists n. by rewrite Hx.
  - right. split_and!; [done|done|exists n; by rewrite <- Hx|]. intros n' Hn'. rewrite <- Hx. auto.
Qed.

Lemma users_prune requeue active others l w :
  keyed (rubs w) → map_Forall (λ _, free_rub) (rubs w) →
  map_Forall (λ _ rt, om_Finalizers (rt_Meta rt) = []) (rts w) →
  (∀ u rt, (u, rt) ∈ l → om_Namespace (rt_Meta rt) = ns) →
  ∃ mr mt w', prune_users requeue active others l w = (Ok (no_requeue, None), w') ∧
    view w' = v_set mr (v_set mt (view w)) ∧
    (∀ k, mt !! k = if bool_decide (k ∈ keys_of (List.filter (stale active others) l)) then None else rts w !! k) ∧
    shrunk_all (taken (List.filter (stale active others) l)) (rubs w) mr.
Proof.
  revert w; induction l as [|[u rt] l IH]; intros w Hkeyed Hfree Hfin Hns.
  { exists (rubs w), (rts w), w. split_and!; [done|by destruct (view w)|done|].
    eapply shrunk_all_weaken; [|apply shrunk_all_refl]. intros r n. unfold taken. simpl. by rewrite andb_false_r. }
  assert (Hns' : ∀ u rt, (u, rt) ∈ l → om_Namespace (rt_Meta rt) = ns) by (intros u0 rt0 ?; apply (Hns u0); by right).
  cbn [prune_users List.filter stale]. destruct (bool_decide (u ∈ active) || isRTUsedByOtherSyncer rt others); cbn [negb].
  { by apply IH. }
  destruct (RemoveRemoteTargetRefFromRUBs_run (om_Namespace (rt_Meta rt)) (om_Name (rt_Meta rt)) w)
    as (mr1 & w1 & Hrm & Hv1 & Hmut); [done|intros k r Hk _; destruct (Hfree _ _ Hk); split; auto|].
  rewrite (Hns u rt ltac:(by left)) in Hmut, Hrm. apply removal_shrinks in Hmut.
  destruct (shrunk_all_calm _ _ _ Hmut Hkeyed Hfree) as [Hkeyed1 Hfree1].
  destruct (delete_tolerant_run rt w1) as (w2 & Hdel & Hv2).
  { rewrite Hv1. simpl. intros rt0 E. exact (Hfin _ _ E). }
  assert (Hrubs2 : rubs w2 = mr1) by (by rewrite Hv2, Hv1).
  assert (Hrts2 : rts w2 = delete (object_key rt) (rts w)) by (by rewrite Hv2, Hv1).
  destruct (IH w2) as (mr & mt & w' & Hrun & Hv & Hmt & Hsh);
    [by rewrite Hrubs2|by rewrite Hrubs2|rewrite Hrts2; by apply map_Forall_delete|done|].
  rewrite Hrubs2 in Hsh. exists mr, mt, w'. split_and!.
  - rewrite (Hns u rt ltac:(by left)). by rewrite (check_ok _ _ _ _ _ _ Hrm), (check_ok _ _ _ _ _ _ Hdel).
  - by rewrite Hv, Hv2, Hv1.
  - intros k. rewrite Hmt, Hrts2. cbn [keys_of map]. unfold compose at 1. simpl. case_bool_decide as Hk.
    + by rewrite bool_decide_eq_true_2 by (by right).
    + destruct (decide (k = object_key rt)) as [->|Hne].
      * by rewrite lookup_delete_eq, bool_decide_eq_true_2 by (by left).
      * rewrite lookup_delete_ne by done. rewrite bool_decide_eq_false_2; [done|]. by intros [|]%elem_of_cons.
  - eapply shrunk_all_weaken; [|eapply shrunk_all_trans; [|exact Hmut|exact Hsh]].
    + intros r n. unfold taken. simpl. destruct (managed_in ns r); [|done]. simpl.
      apply eq_bool_prop_intro. rewrite orb_True, !bool_decide_spec, !elem_of_cons.
      split; [intros [[?|?%not_elem_of_nil]|?]; [by left|done|by right]|intros [?|?]; auto].
    + intros r r' n Hl. unfold taken. by rewrite (like_managed _ _ Hl).
Qed.

(** ** What the policy lists *)

Lemma by_user_lookup l u rt : by_user l !! u = Some rt → rt ∈ l ∧ target_user rt = u ∧ u ≠ "".
Proof.
  unfold by_user. induction l as [|x l IH] using rev_ind; simpl; [done|]. rewrite foldl_app. simpl.
  fold (target_user x). destruct (String.eqb_spec (target_user x) "") as [E|E].
  - intros Hl. destruct (IH Hl) as (? & ? & ?). split_and!; [|done..]. apply elem_of_app. by left.
  - intros [[<- <-]|[_ Hl]]%lookup_insert_Some.
    + split_and!; [|done..]. apply elem_of_app. right. by left.
    + destruct (IH Hl) as (? & ? & ?). split_and!; [|done..]. apply elem_of_app. by left.
Qed.
Lemma by_user_some l rt : rt ∈ l → target_user rt ≠ "" → is_Some (by_user l !! target_user rt).
Proof.
  unfold by_user. induction l as [|x l IH] using rev_ind; simpl; [by intros ?%not_elem_of_nil|].
  rewrite foldl_app. simpl. fold (target_user x).
  intros [Hin| ->%list_elem_of_singleton]%elem_of_app Hu.
  - destruct (String.eqb (target_user x) ""); [by apply IH|]. apply lookup_insert_is_Some'. right. by apply IH.
  - apply String.eqb_neq in Hu. rewrite Hu, lookup_insert_eq. by eexists.
Qed.

Definition stored_user (w : W) (u : string) : Prop :=
  ∃ k rt, rts w !! k = Some rt ∧ user_target rt = true ∧ target_user rt = u.
(** A user with a managed binding in the identity namespace. *)
Definition active_user (w : W) (u : string) : Prop :=
  u ≠ "" ∧ ∃ k r, rubs w !! k = Some r ∧ managed_in ns r = true ∧ binding_user r = u.
(** Another syncer with the policy works on the same branch of the same repository. *)
Definition upstream_shared (w : W) : Prop :=
  ∃ o, other_syncer_with s RtAnnotationKeyUserSpecific w o ∧
    RemoteRepository (SyncerSpec o) = up ∧ DefaultBranch (SyncerSpec o) = upb.

(** A server at rest: nobody deletes or protects what the policy changes; the targets of the
    active users can be named, by names that are distinct and not taken by other objects; and
    a user has one managed target for the upstream. *)
Record calm_users (w : W) : Prop := {
  cu_ns : ns ≠ "";
  cu_rts : keyed (rts w);
  cu_rubs : keyed (rubs w);
  cu_free : map_Forall (λ _, free_rub) (rubs w);
  cu_fin : map_Forall (λ _ rt, om_Finalizers (rt_Meta rt) = []) (rts w);
  cu_build : ∀ k r, rubs w !! k = Some r → managed_in ns r = true → binding_user r ≠ "" → ∃ rt, target_of r rt;
  cu_names : ∀ k r rt rt0, rubs w !! k = Some r → managed_in ns r = true → binding_user r ≠ "" → target_of r rt →
    rts w !! object_key rt = Some rt0 → user_target rt0 = true ∧ target_user rt0 = binding_user r;
  cu_inj : ∀ r1 r2 rt1 rt2, target_of r1 rt1 → target_of r2 rt2 → object_key rt1 = object_key rt2 →
    binding_user r1 ≠ "" → binding_user r2 ≠ "" → (∃ k1, rubs w !! k1 = Some r1) → (∃ k2, rubs w !! k2 = Some r2) →
    binding_user r1 = binding_user r2;
  cu_one : ∀ k1 k2 rt1 rt2, rts w !! k1 = Some rt1 → rts w !! k2 = Some rt2 →
    user_target rt1 = true → user_target rt2 = true → target_user rt1 ≠ "" →
    target_user rt1 = target_user rt2 → k1 = k2 }.

Lemma user_target_namespace rt : ns ≠ "" → user_target rt = true → om_Namespace (rt_Meta rt) = ns.
Proof.
  intros Hns Hu. unfold user_target in Hu. bool_hyps.
  match goal with E : list_matches _ _ = true |- _ => rename E into Hm end.
  unfold list_matches in Hm. cbn [lo_Namespace] in Hm. apply String.eqb_neq in Hns. rewrite Hns in Hm. bool_hyps.
  by apply String.eqb_eq.
Qed.

Lemma target_of_stamp r rt rv : target_of r rt →
  user_target (stamp rv rt) = true ∧ target_user (stamp rv rt) = binding_user r.
Proof.
  intros Ht. destruct (target_of_spec r rt Ht) as (Hn & Hu & Hup & Hub & _ & Hl1 & Hl2). split; [|exact Hu].
  unfold user_target, list_matches. simpl. rewrite Hn, Hup, Hub, !String.eqb_refl, !andb_true_r, orb_true_r. simpl.
  apply from_set_matches. intros k v [[<- <-]|[_ Hk]]%lookup_insert_Some; [done|].
  apply lookup_insert_Some in Hk as [[<- <-]|[_ Hk]]; [done|]. by rewrite lookup_empty in Hk.
Qed.

Lemma list_users w : calm_users w → ∃ l, listManagedRUBs ns w = (Ok l, w) ∧
  ∀ r, r ∈ l ↔ rubs w !! object_key r = Some r ∧ managed_in ns r = true.
Proof.
  intros Hc. unfold listManagedRUBs.
  destruct (list_spec (T := RemoteUserBinding) (mkListOptions ns (selector [(ManagedByLabelKey, ManagedByLabelValue)])) w)
    as (l & Hl & _ & Hin); [apply Hc|].
  exists l. split; [done|]. exact Hin.
Qed.
Lemma list_user_targets w : calm_users w → ∃ l, listUserSpecificTargets ns up upb w = (Ok l, w) ∧
  ∀ rt, rt ∈ l ↔ rts w !! object_key rt = Some rt ∧ user_target rt = true.
Proof.
  intros Hc. unfold listUserSpecificTargets.
  destruct (list_spec (T := RemoteTarget) (mkListOptions ns (selector [(ManagedByLabelKey, ManagedByLabelValue);
    (RtLabelKeyPolicy, RtLabelValueOneUserOneBranch)])) w) as (l & Hl & _ & Hin); [apply Hc|].
  eexists. split; [by rewrite (bind_ok _ _ _ _ _ Hl)|]. intros rt. rewrite elem_filter, Hin.
  unfold user_target. rewrite !andb_true_iff. tauto.
Qed.

Lemma used_by_other w others rt : (∀ o, o ∈ others ↔ other_syncer_with s RtAnnotationKeyUserSpecific w o) →
  user_target rt = true → isRTUsedByOtherSyncer rt others = true ↔ upstream_shared w.
Proof.
  intros Ho Hu. unfold user_target in Hu. apply andb_true_iff in Hu as [_ [Hup Hub]%andb_true_iff].
  apply String.eqb_eq in Hup, Hub.
  unfold isRTUsedByOtherSyncer, upstream_shared. rewrite existsb_exists. f_equiv. intros o.
  by rewrite <- list_elem_of_In, Ho, andb_true_iff, !String.eqb_eq, Hup, Hub.
Qed.

(** The index of the targets listed holds, for each user, the one target of that user. *)
Lemma existing_spec w lt : calm_users w →
  (∀ rt, rt ∈ lt ↔ rts w !! object_key rt = Some rt ∧ user_target rt = true) →
  ∀ u rt, by_user lt !! u = Some rt ↔
    u ≠ "" ∧ rts w !! object_key rt = Some rt ∧ user_target rt = true ∧ target_user rt = u.
Proof.
  intros Hc Hint u rt. split.
  - intros (Hrt & Hu & Hne)%by_user_lookup. apply Hint in Hrt as [? ?]. done.
  - intros (Hne & Hk & Hut & <-). destruct (by_user_some lt rt) as [rt' Hrt']; [by apply Hint|done|].
    rewrite Hrt'. f_equal. apply by_user_lookup in Hrt' as (Hin' & Hu' & _).
    apply Hint in Hin' as [Hk' Hut'].
    pose proof (cu_one w Hc _ _ _ _ Hk Hk' Hut Hut' Hne (eq_sym Hu')) as Heq. rewrite <- Heq in Hk'. congruence.
Qed.

(** No target carries a finalizer after the loop over the users either. *)
Lemma added_unfinalized w existing l m1 : calm_users w → added_targets existing l (rts w) m1 →
  map_Forall (λ _ rt, om_Finalizers (rt_Meta rt) = []) m1.
Proof.
  intros Hc (_ & _ & Hnew) k rt Hk.
  destruct (Hnew k rt Hk) as [Hk0|(r & rt1 & rv & _ & _ & Ht & _ & _ & ->)]; [exact (cu_fin w Hc _ _ Hk0)|].
  by apply target_of_spec in Ht as (_ & _ & _ & _ & Hfin & _).
Qed.

Lemma stale_spec w active others u rt : (∀ o, o ∈ others ↔ other_syncer_with s RtAnnotationKeyUserSpecific w o) →
  user_target rt = true → stale active others (u, rt) = true ↔ (u ∉ active) ∧ ¬ upstream_shared w.
Proof.
  intros Ho Hut. unfold stale. rewrite negb_true_iff, orb_false_iff, bool_decide_eq_false.
  by rewrite <- (used_by_other w others rt Ho Hut), not_true_iff_false.
Qed.

(** What a pass does, in the terms of what it was given: the targets first, then those of
    the users who left gone, and the bindings after both loops. *)
Record pass (w w' : W) (l : list RemoteUserBinding) (existing : gmap string RemoteTarget)
    (m1 : gmap NamespacedName RemoteTarget) (mr : gmap NamespacedName RemoteUserBinding)
    (pruned : list (string * RemoteTarget)) : Prop := {
  ps_in r : r ∈ l ↔ rubs w !! object_key r = Some r ∧ managed_in ns r = true;
  ps_existing u rt : existing !! u = Some rt ↔
    u ≠ "" ∧ rts w !! object_key rt = Some rt ∧ user_target rt = true ∧ target_user rt = u;
  ps_added : added_targets existing l (rts w) m1;
  ps_grown : grown_all (given_by existing l) (rubs w) mr;
  ps_pruned u rt : (u, rt) ∈ pruned ↔ existing !! u = Some rt ∧ (u ∉ active_in l) ∧ ¬ upstream_shared w;
  ps_targets k : rts w' !! k = if bool_decide (k ∈ keys_of pruned) then None else m1 !! k;
  ps_shrunk : shrunk_all (taken pruned) mr (rubs w');
  ps_rest : view w' = v_set (rubs w') (v_set (rts w') (view w)) }.

Lemma user_run ord w : (∀ m, ord m ≡ₚ map_to_list m) → calm_users w →
  ∃ w' l existing m1 mr pruned, UserSpecific_Reconcile ord s w = (Ok (no_requeue, None), w') ∧
    pass w w' l existing m1 mr pruned.
Proof.
  intros Hord Hc. pose proof (cu_ns _ Hc) as Hns. destruct (rand_spec 5 w) as [n Hn].
  set (requeue := mkResult (requeueAfter + n * 1000000000)).
  destruct (list_users w Hc) as (l & Hl & Hin). destruct (list_user_targets w Hc) as (lt & Hlt & Hint).
  set (existing := by_user lt).
  pose proof (existing_spec w lt Hc Hint) as Hex. fold existing in Hex.
  destruct (users_loop requeue existing l w ∅) as (mr1 & m1 & w1 & Hrun1 & Hv1 & Hadd & Hgrown).
  { apply Hc. }
  { apply Forall_forall. intros r [Hr _]%Hin. exists r. split_and!; [done|done|]. exact (cu_free w Hc _ _ Hr). }
  { intros r [Hr Hm]%Hin Hu _. exact (cu_build w Hc _ _ Hr Hm Hu). }
  assert (Hrubs1 : rubs w1 = mr1) by (by rewrite Hv1). assert (Hrts1 : rts w1 = m1) by (by rewrite Hv1).
  destruct (others_with_run s RtAnnotationKeyUserSpecific w1) as (others & Ho & Hothers).
  assert (Hsame : ∀ o, other_syncer_with s RtAnnotationKeyUserSpecific w1 o ↔ other_syncer_with s RtAnnotationKeyUserSpecific w o).
  { intros o. unfold other_syncer_with. by rewrite Hv1. }
  set (active := active_in l ∪ ∅). set (pruned := List.filter (stale active others) (ord existing)).
  assert (Hfree1 : map_Forall (λ _, free_rub) mr1).
  { intros k r' Hr'. specialize (Hgrown k). destruct (rubs w !! k) as [r|] eqn:E; [|congruence].
    destruct Hgrown as (r1 & Hr1 & [Hlk _ _]). assert (r1 = r') as -> by congruence.
    eapply like_free; [exact Hlk|]. exact (cu_free w Hc _ _ E). }
  pose proof (added_unfinalized w existing l m1 Hc Hadd) as Hfin1.
  destruct (users_prune requeue active others (ord existing) w1) as (mr & mt & w' & Hrun2 & Hv2 & Hmt & Hsh).
  { rewrite Hrubs1. eapply grown_all_keyed; [exact Hgrown|apply Hc]. }
  { by rewrite Hrubs1. } { by rewrite Hrts1. }
  { intros u rt Hur. rewrite Hord in Hur. apply elem_of_map_to_list, Hex in Hur as (_ & _ & Hut & _).
    by apply user_target_namespace. }
  rewrite Hrubs1 in Hsh. rewrite Hrts1 in Hmt.
  exists w', l, existing, m1, mr1, pruned. split; [|split; [exact Hin|exact Hex|exact Hadd|exact Hgrown| | |by rewrite Hv2|by rewrite Hv2, Hv1]].
  - assert (Hj : jitter w = (Ok requeue, w)) by (unfold jitter; by rewrite (bind_ok _ _ _ _ _ Hn)).
    unfold UserSpecific_Reconcile. rewrite (bind_ok _ _ _ _ _ Hj). cbv zeta.
    rewrite (check_ok _ _ _ _ _ _ Hl), (check_ok _ _ _ _ _ _ Hlt). cbv zeta. fold existing.
    rewrite (bind_ok _ _ _ _ _ Hrun1). unfold pruneStaleTargets, getOtherSyncersWithUserSpecific.
    by rewrite (check_ok _ _ _ _ _ _ Ho).
  - intros u rt. unfold pruned. rewrite elem_filter, (Hord existing), elem_of_map_to_list.
    unfold active. rewrite union_empty_r_L.
    pose proof (stale_spec w (active_in l) others u rt ltac:(intros o; by rewrite Hothers)) as Hst.
    split; intros [Hu Hs]; (split; [done|]); apply Hst; try done; by apply Hex in Hu as (_ & _ & ? & _).
  - intros k. by rewrite Hv2, <- Hmt.
Qed.

Lemma active_spec w l u : (∀ r, r ∈ l ↔ rubs w !! object_key r = Some r ∧ managed_in ns r = true) → keyed (rubs w) →
  u ∈ active_in l ↔ active_user w u.
Proof.
  intros Hin Hkeyed. rewrite active_in_spec. unfold active_user. f_equiv. split.
  - intros (r & [Hr Hm]%Hin & Hu). eauto.
  - intros (k & r & Hr & Hm & Hu). exists r. split; [|done]. apply Hin. by rewrite (Hkeyed _ _ Hr).
Qed.

Lemma shared_dec w : upstream_shared w ∨ ¬ upstream_shared w.
Proof.
  destruct (others_with_run s RtAnnotationKeyUserSpecific w) as (others & _ & Ho). unfold upstream_shared.
  destruct (existsb (λ o, String.eqb (RemoteRepository (SyncerSpec o)) up && String.eqb (DefaultBranch (SyncerSpec o)) upb) others) eqn:E.
  - left. apply existsb_exists in E as (o & Hin%list_elem_of_In%Ho & [Hr Hb]%andb_true_iff).
    apply String.eqb_eq in Hr, Hb. eauto.
  - right. intros (o & Hin & Hr & Hb). apply not_true_iff_false in E. apply E, existsb_exists. exists o.
    rewrite <- list_elem_of_In, Ho, andb_true_iff, !String.eqb_eq. done.
Qed.

(** What becomes of the targets: [left_behind] is the target of a user without a managed
    binding, when no other syncer works on the upstream. *)
Definition left_behind (w : W) (rt : RemoteTarget) : Prop :=
  user_target rt = true ∧ target_user rt ≠ "" ∧ ¬ active_user w (target_user rt) ∧ ¬ upstream_shared w.
Definition target_after (w : W) (k : NamespacedName) (o : option RemoteTarget) : Prop :=
  match rts w !! k with
  | Some rt => (o = None ∧ left_behind w rt) ∨ (o = Some rt ∧ ¬ left_behind w rt)
  | None =>
      match o with
      | Some rt' => ∃ k0 r rt rv, rubs w !! k0 = Some r ∧ managed_in ns r = true ∧ binding_user r ≠ "" ∧
          ¬ stored_user w (binding_user r) ∧ target_of r rt ∧ k = object_key rt ∧ rt' = stamp rv rt
      | None => ∀ k0 r rt, rubs w !! k0 = Some r → managed_in ns r = true → binding_user r ≠ "" →
          ¬ stored_user w (binding_user r) → target_of r rt → k ≠ object_key rt
      end
  end.

(** What becomes of a binding: the name it is given is that of the target its user has, or
    of the one the policy builds; the names it loses are those of the targets that go. *)
Definition own_name (w : W) (r : RemoteUserBinding) (n : string) : Prop :=
  managed_in ns r = true ∧ binding_user r ≠ "" ∧
  ((∃ k rt, rts w !! k = Some rt ∧ user_target rt = true ∧ target_user rt = binding_user r ∧ n = om_Name (rt_Meta rt)) ∨
   (¬ stored_user w (binding_user r) ∧ ∃ rt, target_of r rt ∧ n = om_Name (rt_Meta rt))).
Definition taken_name (w : W) (r : RemoteUserBinding) (n : string) : Prop :=
  managed_in ns r = true ∧ ∃ k rt, rts w !! k = Some rt ∧ left_behind w rt ∧ n = om_Name (rt_Meta rt).
Definition binding_after (w : W) (r : RemoteUserBinding) (o : option RemoteUserBinding) : Prop :=
  match o with
  | Some r' => like r r' ∧ (∀ n, refers r' n = true ↔ (refers r n = true ∨ own_name w r n) ∧ ¬ taken_name w r n) ∧
      ((∀ n, ¬ own_name w r n) → (∀ n, ¬ taken_name w r n) → r' = r) ∧
      ((∃ n, taken_name w r n) → no_refs r' = false)
  | None => rub_RemoteUserRefs (rub_Spec r) = [] ∧ (∃ n, taken_name w r n) ∧
      ∀ n, refers r n = true ∨ own_name w r n → taken_name w r n
  end.

Section Pass.
Context {w w' : W} {l existing m1 mr pruned} (Hc : calm_users w) (Hp : pass w w' l existing m1 mr pruned).

Lemma pruned_key k : k ∈ keys_of pruned ↔ ∃ u rt, (u, rt) ∈ pruned ∧ object_key rt = k.
Proof.
  unfold keys_of. rewrite list_elem_of_fmap. split.
  - intros ([u rt] & -> & Hur). by exists u, rt.
  - intros (u & rt & Hur & <-). by exists (u, rt).
Qed.
Lemma pruned_name r n : taken pruned r n = true ↔
  managed_in ns r = true ∧ ∃ u rt, (u, rt) ∈ pruned ∧ om_Name (rt_Meta rt) = n.
Proof.
  unfold taken. rewrite andb_true_iff, bool_decide_eq_true, list_elem_of_fmap. f_equiv. split.
  - intros ([u rt] & -> & Hur). by exists u, rt.
  - intros (u & rt & Hur & <-). by exists (u, rt).
Qed.

(** What is pruned was stored, is a target of a user who left, and stays in the namespace. *)
Lemma pruned_stored u rt : (u, rt) ∈ pruned →
  rts w !! object_key rt = Some rt ∧ user_target rt = true ∧ target_user rt = u ∧ om_Namespace (rt_Meta rt) = ns ∧
  ¬ active_user w u ∧ ¬ upstream_shared w.
Proof.
  intros (He & Ha & Hs)%(ps_pruned _ _ _ _ _ _ _ Hp). apply (ps_existing _ _ _ _ _ _ _ Hp) in He as (_ & Hk & Hut & Hu).
  split_and!; [done..| | |done].
  - apply user_target_namespace; [apply Hc|done].
  - by rewrite <- (active_spec w l u (ps_in _ _ _ _ _ _ _ Hp) (cu_rubs _ Hc)).
Qed.

Lemma target_kept k rt : m1 !! k = Some rt → k ∉ keys_of pruned → rts w' !! k = Some rt.
Proof. intros Hk Hn. rewrite (ps_targets _ _ _ _ _ _ _ Hp). by rewrite bool_decide_eq_false_2. Qed.
Lemma target_stays k rt : rts w !! k = Some rt → k ∉ keys_of pruned → rts w' !! k = Some rt.
Proof. intros Hk. apply target_kept. eapply lookup_weaken; [exact Hk|]. apply (ps_added _ _ _ _ _ _ _ Hp). Qed.

(** The target of a user with a managed binding. *)
Lemma own_target k r : rubs w !! k = Some r → managed_in ns r = true → binding_user r ≠ "" →
  ∃ k' rt, rts w' !! k' = Some rt ∧ user_target rt = true ∧ target_user rt = binding_user r ∧
    given_name existing r (om_Name (rt_Meta rt)) ∧ k' = mkNN ns (om_Name (rt_Meta rt)) ∧ k' ∉ keys_of pruned.
Proof.
  intros Hr Hm Hu. pose proof (cu_ns _ Hc) as Hns. unfold given_name. destruct (existing !! binding_user r) as [rt|] eqn:E.
  - pose proof (proj1 (ps_existing _ _ _ _ _ _ _ Hp _ _) E) as (_ & Hk & Hut & Htu).
    assert (Hnp : object_key rt ∉ keys_of pruned).
    { intros (u' & rt' & Hin & Hkk)%pruned_key. apply pruned_stored in Hin as (Hk' & _ & Hu' & _ & Ha & _).
      rewrite Hkk in Hk'. assert (rt' = rt) as -> by congruence. apply Ha. split; [congruence|]. exists k, r. split_and!; [done..|congruence]. }
    exists (object_key rt), rt. split_and!; [by apply target_stays|done..| |done].
    unfold object_key. simpl. unfold meta_key. by rewrite (user_target_namespace rt Hns Hut).
  - destruct (cu_build _ Hc _ _ Hr Hm Hu) as [rt0 Ht0]. destruct (ps_added _ _ _ _ _ _ _ Hp) as (_ & Hadd & Hnew).
    assert (Hrl : r ∈ l) by (apply (ps_in _ _ _ _ _ _ _ Hp); by rewrite (cu_rubs _ Hc _ _ Hr)).
    destruct (Hadd r rt0 Hrl Hu E Ht0) as [rt Hrt].
    assert (Hnone : rts w !! object_key rt0 = None).
    { destruct (rts w !! object_key rt0) as [rt1|] eqn:E1; [|done]. exfalso.
      destruct (cu_names _ Hc _ _ _ _ Hr Hm Hu Ht0 E1) as [Hut Htu].
      rewrite (proj2 (ps_existing _ _ _ _ _ _ _ Hp (binding_user r) rt1)) in E; [done|].
      split_and!; [done| |done..]. by rewrite (cu_rts _ Hc _ _ E1). }
    destruct (Hnew _ _ Hrt) as [?|(r1 & rt1 & rv & [Hin1 _] & Hu1 & Ht1 & Hkk & _ & ->)]; [congruence|].
    apply (ps_in _ _ _ _ _ _ _ Hp) in Hin1 as [Hr1 _].
    assert (Hbu : binding_user r = binding_user r1) by (eapply (cu_inj _ Hc r r1); eauto).
    destruct (target_of_stamp r1 rt1 rv Ht1) as [Hut Htu]. destruct (target_of_spec r rt0 Ht0) as (Hn0 & _).
    assert (Hnames : om_Name (rt_Meta rt1) = om_Name (rt_Meta rt0)) by (by injection Hkk).
    assert (Hnp : object_key rt0 ∉ keys_of pruned).
    { intros (u' & rt' & Hin & Hk')%pruned_key. apply pruned_stored in Hin as (Hs' & _). congruence. }
    exists (object_key rt0), (stamp rv rt1). split_and!; [by apply target_kept|done|congruence|by exists rt0| |done].
    unfold object_key. simpl. unfold meta_key. by rewrite Hn0, <- Hnames.
Qed.

(** A binding through both loops. *)
Lemma through_loops k r : rubs w !! k = Some r →
  (∃ r', rubs w' !! k = Some r' ∧ like r r' ∧
     (∀ n, refers r' n = true ↔ (refers r n = true ∨ given_by existing l r n) ∧ taken pruned r n = false) ∧
     ((∀ n, ¬ given_by existing l r n) → (∀ n, taken pruned r n = false) → r' = r) ∧
     ((∃ n, taken pruned r n = true) → no_refs r' = false)) ∨
  (rubs w' !! k = None ∧ rub_RemoteUserRefs (rub_Spec r) = [] ∧ (∃ n, taken pruned r n = true) ∧
     ∀ n, refers r n = true ∨ given_by existing l r n → taken pruned r n = true).
Proof.
  intros Hk. pose proof (ps_grown _ _ _ _ _ _ _ Hp k) as Hg. rewrite Hk in Hg. destruct Hg as (r1 & Hk1 & [Hl1 Hr1 Hs1]).
  pose proof (ps_shrunk _ _ _ _ _ _ _ Hp k) as Hs. rewrite Hk1 in Hs.
  assert (Ht : ∀ n, taken pruned r1 n = taken pruned r n) by (intros n; unfold taken; by rewrite (like_managed _ _ Hl1)).
  destruct Hs as [(r2 & Hk2 & [Hl2 Hr2 Hs2] & Hno)|(Hk2 & Hu & [n0 Hn0] & Hall)].
  - left. exists r2. split_and!; [done|by etrans| | |].
    + intros n. rewrite Hr2, Hr1, Ht. unfold no_name, none_gone. tauto.
    + intros Hng Hnt. assert (r1 = r) as -> by (by apply Hs1). by apply Hs2; [intros n []|].
    + intros [n Hn]. apply Hno. exists n. by rewrite Ht.
  - right. split_and!; [done|by rewrite <- (like_users _ _ Hl1)|exists n0; by rewrite <- Ht|].
    intros n Hn. rewrite <- Ht. apply Hall, Hr1. unfold none_gone. tauto.
Qed.

Lemma binding_keeps_target k r : rubs w !! k = Some r → managed_in ns r = true → binding_user r ≠ "" →
  ∃ r' k' rt, rubs w' !! k = Some r' ∧ like r r' ∧ rts w' !! k' = Some rt ∧ user_target rt = true ∧
    target_user rt = binding_user r ∧ refers r' (om_Name (rt_Meta rt)) = true.
Proof.
  intros Hr Hm Hu. destruct (own_target k r Hr Hm Hu) as (k' & rt & Hrt & Hut & Htu & Hgn & Hk' & Hnp).
  assert (Hgiven : given_by existing l r (om_Name (rt_Meta rt))).
  { exists r. split_and!; [|done..]. apply (ps_in _ _ _ _ _ _ _ Hp). by rewrite (cu_rubs _ Hc _ _ Hr). }
  assert (Hnt : taken pruned r (om_Name (rt_Meta rt)) = false).
  { apply not_true_iff_false. rewrite pruned_name. intros [_ (u' & rt' & Hin & Hn)]. apply Hnp, pruned_key.
    exists u', rt'. split; [done|]. apply pruned_stored in Hin as (_ & _ & _ & Hns' & _).
    unfold object_key. simpl. unfold meta_key. by rewrite Hk', Hn, Hns'. }
  destruct (through_loops k r Hr) as [(r' & Hr' & Hl & Href & _)|(_ & _ & _ & Hall)].
  - exists r', k', rt. split_and!; [done..|]. apply Href. auto.
  - rewrite Hall in Hnt by auto. done.
Qed.

Lemma binding_loses_target k rt k' r' : rts w !! k = Some rt → rts w' !! k = None →
  rubs w' !! k' = Some r' → managed_in ns r' = true → refers r' (om_Name (rt_Meta rt)) = false.
Proof.
  intros Hrt Hgone Hr' Hm.
  assert (Hin : ∃ u, (u, rt) ∈ pruned).
  { destruct (decide (k ∈ keys_of pruned)) as [(u & rt' & Hin & Hk)%pruned_key|Hnp].
    - exists u. pose proof (pruned_stored _ _ Hin) as (Hst & _). rewrite Hk in Hst. by assert (rt' = rt) as -> by congruence.
    - rewrite (target_stays k rt) in Hgone; done. }
  destruct Hin as [u Hin]. destruct (rubs w !! k') as [r|] eqn:E.
  - destruct (through_loops k' r E) as [(r1 & Hr1 & Hl & Href & _)|(Hn & _)]; [|congruence].
    assert (r1 = r') as -> by congruence. apply not_true_iff_false. rewrite Href. intros [_ Ht].
    rewrite (proj2 (pruned_name r (om_Name (rt_Meta rt)))) in Ht; [done|]. rewrite <- (like_managed _ _ Hl). eauto.
  - pose proof (ps_grown _ _ _ _ _ _ _ Hp k') as Hg. rewrite E in Hg.
    pose proof (ps_shrunk _ _ _ _ _ _ _ Hp k') as Hs. rewrite Hg in Hs. congruence.
Qed.

Lemma users_with_target u : u ≠ "" → stored_user w' u ↔ active_user w u ∨ (stored_user w u ∧ upstream_shared w).
Proof.
  intros Hu. split.
  - intros (k & rt & Hk & Hut & Htu). rewrite (ps_targets _ _ _ _ _ _ _ Hp) in Hk. case_bool_decide as Hnp; [done|].
    destruct (ps_added _ _ _ _ _ _ _ Hp) as (_ & _ & Hnew).
    destruct (Hnew _ _ Hk) as [Hk0|(r & rt1 & rv & [Hin _] & _ & Ht & _ & _ & ->)].
    + destruct (decide (u ∈ active_in l)) as [Ha|Ha].
      { left. by apply (active_spec w l u (ps_in _ _ _ _ _ _ _ Hp) (cu_rubs _ Hc)). }
      destruct (shared_dec w) as [Hs|Hs]; [right; split; [by exists k, rt|done]|].
      exfalso. apply Hnp, pruned_key. exists u, rt. split; [|exact (cu_rts _ Hc _ _ Hk0)].
      apply (ps_pruned _ _ _ _ _ _ _ Hp). split_and!; [|done..]. apply (ps_existing _ _ _ _ _ _ _ Hp).
      split_and!; [done| |done..]. by rewrite (cu_rts _ Hc _ _ Hk0).
    + left. apply (ps_in _ _ _ _ _ _ _ Hp) in Hin as [Hr Hm]. destruct (target_of_stamp r rt1 rv Ht) as [_ Hbu].
      split; [done|]. exists (object_key r), r. split_and!; [done..|congruence].
  - intros [(_ & k & r & Hr & Hm & <-)|[(k & rt & Hk & Hut & Htu) Hs]].
    + destruct (own_target k r Hr Hm Hu) as (k' & rt & Hrt & Hut & Htu & _). by exists k', rt.
    + exists k, rt. split_and!; [|done..]. apply target_stays; [done|].
      intros (u' & rt' & Hin & _)%pruned_key. by apply pruned_stored in Hin as (_ & _ & _ & _ & _ & ?).
Qed.
(** The names a binding is given are those of the target of its user. *)
Lemma given_iff k r n : rubs w !! k = Some r → given_by existing l r n ↔ own_name w r n.
Proof.
  intros Hr. unfold given_by, own_name.
  assert (Hself : ∀ r0, r0 ∈ l ∧ object_key r0 = object_key r ↔ r0 = r ∧ managed_in ns r = true).
  { intros r0. rewrite (ps_in _ _ _ _ _ _ _ Hp). split.
    - intros [[Hr0 Hm] Hk]. rewrite Hk, (cu_rubs _ Hc _ _ Hr), Hr in Hr0. by simplify_eq.
    - intros [-> Hm]. by rewrite (cu_rubs _ Hc _ _ Hr). }
  assert (Hgn : binding_user r ≠ "" → given_name existing r n ↔
    (∃ k rt, rts w !! k = Some rt ∧ user_target rt = true ∧ target_user rt = binding_user r ∧ n = om_Name (rt_Meta rt)) ∨
    (¬ stored_user w (binding_user r) ∧ ∃ rt, target_of r rt ∧ n = om_Name (rt_Meta rt))).
  { intros Hu. unfold given_name. destruct (existing !! binding_user r) as [rt|] eqn:E.
    - apply (ps_existing _ _ _ _ _ _ _ Hp) in E as (_ & Hk & Hut & Htu). split.
      + intros ->. left. by exists (object_key rt), rt.
      + intros [(k' & rt' & Hk' & Hut' & Htu' & ->)|[[] _]]; [|by exists (object_key rt), rt].
        assert (Heq : k' = object_key rt) by (apply (cu_one _ Hc _ _ rt' rt); [done..|congruence|congruence]).
        subst k'. by simplify_eq.
    - assert (Hns : ∀ k' rt', rts w !! k' = Some rt' → user_target rt' = true → target_user rt' = binding_user r → False).
      { intros k' rt' Hk' Hut Htu. rewrite (proj2 (ps_existing _ _ _ _ _ _ _ Hp (binding_user r) rt')) in E; [done|].
        split_and!; [done| |done..]. by rewrite (cu_rts _ Hc _ _ Hk'). }
      split; [intros Ht; right; split; [intros (k' & rt' & ? & ? & ?); by eapply Hns|done]|].
      intros [(k' & rt' & ? & ? & ? & _)|[_ ?]]; [exfalso; by eapply Hns|done]. }
  split.
  - intros (r0 & Hin & Hk & Hu & Hn). destruct (proj1 (Hself r0) (conj Hin Hk)) as [-> Hm]. split_and!; [done..|]. by apply Hgn.
  - intros (Hm & Hu & Hn). destruct (proj2 (Hself r) (conj eq_refl Hm)) as [Hin Hk]. exists r. split_and!; [done..|]. by apply Hgn.
Qed.

Lemma taken_iff r n : taken pruned r n = true ↔ taken_name w r n.
Proof.
  rewrite pruned_name. unfold taken_name, left_behind. f_equiv. split.
  - intros (u & rt & Hin & <-). pose proof (pruned_stored _ _ Hin) as (Hk & Hut & Htu & _ & Ha & Hs).
    apply (ps_pruned _ _ _ _ _ _ _ Hp) in Hin as ((Hu & _)%(ps_existing _ _ _ _ _ _ _ Hp) & _).
    exists (object_key rt), rt. by rewrite Htu.
  - intros (k & rt & Hk & (Hut & Hu & Ha & Hs) & ->). exists (target_user rt), rt. split; [|done].
    apply (ps_pruned _ _ _ _ _ _ _ Hp). split_and!; [| |done].
    + apply (ps_existing _ _ _ _ _ _ _ Hp). split_and!; [done| |done..]. by rewrite (cu_rts _ Hc _ _ Hk).
    + by rewrite (active_spec w l _ (ps_in _ _ _ _ _ _ _ Hp) (cu_rubs _ Hc)).
Qed.

Lemma binding_after_pass k r : rubs w !! k = Some r → binding_after w r (rubs w' !! k).
Proof.
  intros Hr. destruct (through_loops k r Hr) as [(r' & -> & Hl & Href & Hsame & Hno)|(-> & Hu & [n0 Hn0] & Hall)].
  - split_and!; [done| | |].
    + intros n. by rewrite Href, (given_iff k r n Hr), <- not_true_iff_false, taken_iff.
    + intros Hg Ht. apply Hsame; intros n; [rewrite (given_iff k r n Hr); apply Hg|].
      apply not_true_iff_false. rewrite taken_iff. apply Ht.
    + intros [n Hn%taken_iff]. apply Hno. by exists n.
  - split_and!; [done|exists n0; by apply taken_iff|]. intros n Hn. apply taken_iff, Hall. by rewrite (given_iff k r n Hr).
Qed.

Lemma target_after_pass k : target_after w k (rts w' !! k).
Proof.
  unfold target_after. destruct (rts w !! k) as [rt|] eqn:E.
  - destruct (decide (k ∈ keys_of pruned)) as [Hin|Hn].
    + left. rewrite (ps_targets _ _ _ _ _ _ _ Hp), bool_decide_eq_true_2 by done. split; [done|].
      apply pruned_key in Hin as (u & rt' & Hin & Hk). pose proof (pruned_stored _ _ Hin) as (Hk' & Hut & Htu & _ & Ha & Hs).
      rewrite Hk, E in Hk'. simplify_eq. split_and!; [done| |done..].
      by apply (ps_pruned _ _ _ _ _ _ _ Hp) in Hin as ((Hu & _)%(ps_existing _ _ _ _ _ _ _ Hp) & _).
    + right. split; [by apply target_stays|]. intros Hl. apply Hn, pruned_key. exists (target_user rt), rt.
      split; [|exact (cu_rts _ Hc _ _ E)]. destruct Hl as (Hut & Hu & Ha & Hs).
      apply (ps_pruned _ _ _ _ _ _ _ Hp). split_and!; [| |done].
      * apply (ps_existing _ _ _ _ _ _ _ Hp). split_and!; [done| |done..]. by rewrite (cu_rts _ Hc _ _ E).
      * by rewrite (active_spec w l _ (ps_in _ _ _ _ _ _ _ Hp) (cu_rubs _ Hc)).
  - rewrite (ps_targets _ _ _ _ _ _ _ Hp), bool_decide_eq_false_2.
    2: { intros (u & rt' & Hin & Hk)%pruned_key. apply pruned_stored in Hin as (Hk' & _). congruence. }
    assert (Hnew : ∀ r, existing !! binding_user r = None → binding_user r ≠ "" → ¬ stored_user w (binding_user r)).
    { intros r He Hu (k' & rt' & Hk' & Hut & Htu). rewrite (proj2 (ps_existing _ _ _ _ _ _ _ Hp (binding_user r) rt')) in He; [done|].
      split_and!; [done| |done..]. by rewrite (cu_rts _ Hc _ _ Hk'). }
    destruct (ps_added _ _ _ _ _ _ _ Hp) as (_ & Hadd & Hall). destruct (m1 !! k) as [rt'|] eqn:E1.
    + destruct (Hall _ _ E1) as [?|(r & rt & rv & [Hin He] & Hu & Ht & -> & _ & ->)]; [congruence|].
      apply (ps_in _ _ _ _ _ _ _ Hp) in Hin as [Hr Hm]. exists (object_key r), r, rt, rv. split_and!; try done. by apply Hnew.
    + intros k0 r rt Hr Hm Hu Hns Ht Hk. destruct (existing !! binding_user r) as [rt0|] eqn:Ex.
      { apply (ps_existing _ _ _ _ _ _ _ Hp) in Ex as (_ & ? & ? & ?). destruct Hns. by exists (object_key rt0), rt0. }
      destruct (Hadd r rt) as [x Hx]; [|done..|congruence].
      apply (ps_in _ _ _ _ _ _ _ Hp). by rewrite (cu_rubs _ Hc _ _ Hr).
Qed.
End Pass.

(** (C16) The user-specific policy converges in one pass on a server at rest, and what it leaves is
    determined: the users with a managed target for the upstream of the syncer are those with
    a managed binding in its identity namespace, and, when another syncer works on the same
    upstream, those who had one before; every managed binding of a user is still there and refers
    to the target of that user. In detail, a target goes when its user left and nobody else
    works on the upstream, a target is made for a user who had none, and every other target
    stays as it is ([target_after]); a binding has the references it had and the one to the
    target of its user, less the targets that went; one without changes of these is
    untouched, and one is removed only when nothing is left in it ([binding_after]); nothing
    else of the cluster has changed. *)
Theorem UserSpecific_converges ord w : (∀ m, ord m ≡ₚ map_to_list m) → calm_users w →
  ∃ w', UserSpecific_Reconcile ord s w = (Ok (no_requeue, None), w') ∧
    (∀ u, u ≠ "" → stored_user w' u ↔ active_user w u ∨ (stored_user w u ∧ upstream_shared w)) ∧
    (∀ k r, rubs w !! k = Some r → managed_in ns r = true → binding_user r ≠ "" →
       ∃ r' k' rt, rubs w' !! k = Some r' ∧ like r r' ∧ rts w' !! k' = Some rt ∧ user_target rt = true ∧
         target_user rt = binding_user r ∧ refers r' (om_Name (rt_Meta rt)) = true) ∧
    (∀ k rt, rts w !! k = Some rt → rts w' !! k = None →
       ∀ k' r', rubs w' !! k' = Some r' → managed_in ns r' = true → refers r' (om_Name (rt_Meta rt)) = false) ∧
    (∀ k, target_after w k (rts w' !! k)) ∧
    (∀ k, match rubs w !! k with Some r => binding_after w r (rubs w' !! k) | None => rubs w' !! k = None end) ∧
    view w' = v_set (rubs w') (v_set (rts w') (view w)).
Proof.
  intros Hord Hc. destruct (user_run ord w Hord Hc) as (w' & l & existing & m1 & mr & pruned & Hrun & Hp).
  exists w'. split_and!; [done|..].
  - intros u. by eapply users_with_target.
  - intros k r. by eapply binding_keeps_target.
  - intros k rt Hk Hg k' r'. by eapply binding_loses_target.
  - intros k. by eapply target_after_pass.
  - intros k. destruct (rubs w !! k) as [r|] eqn:E; [by eapply binding_after_pass|].
    pose proof (ps_grown _ _ _ _ _ _ _ Hp k) as Hg. rewrite E in Hg.
    pose proof (ps_shrunk _ _ _ _ _ _ _ Hp k) as Hs. by rewrite Hg in Hs.
  - apply Hp.
Qed.
End UserSpecific.

(** ** A concrete namespace *)

Definition user_syncer : Syncer :=
  SyncerRS (mkRemoteSyncer
    (set_annotations {[RtAnnotationKeyUserSpecific := RtAnnotationValueOneUserOneBranch]} (new_meta "rs" "team" ∅))
    (plain_spec "https://git.x/org/app.git" "main") (mkRemoteSyncerStatus [] None None None)).
(** [alice] has a managed binding; [bob] left, and his target is still there. *)
Definition user_rub (label name : string) : RemoteUserBinding :=
  mkRUB (new_meta ("associated-rub-" ++ label) "team" (list_to_map (managed_user_labels label)))
    (mkRUBSpec (mkSubject "User" name "") [mkRef "" (name ++ "-git")] []) (mkRUBStatus [] "" [] "").
Definition user_rt (label name : string) : RemoteTarget :=
  match buildUserSpecificTarget "team" "https://git.x/org/app.git" "main" name label RtAnnotationValueOneUserOneBranch with
  | Ok rt => rt
  | _ => team_target
  end.
Definition user_world : World :=
  world_of (mkView ∅ {[object_key (user_rub "a11ce" "alice") := user_rub "a11ce" "alice"]}
    {[object_key (user_rt "b0b" "bob") := user_rt "b0b" "bob"]} ∅ ∅ ∅ ∅ ∅).

Lemma user_world_calm : calm_users user_syncer user_world.
Proof.
  split.
  - done.
  - apply map_Forall_singleton. reflexivity.
  - apply map_Forall_singleton. reflexivity.
  - apply map_Forall_singleton. split; reflexivity.
  - apply map_Forall_singleton. reflexivity.
  - intros k r [-> ->]%singleton_lookup _ _. exists (user_rt "a11ce" "alice"). vm_compute. reflexivity.
  - intros k r rt rt0 [-> ->]%singleton_lookup _ _ Ht [Hk _]%singleton_lookup. exfalso. revert Ht Hk.
    unfold target_of. vm_compute. intros [= <-]. discriminate.
  - intros r1 r2 rt1 rt2 _ _ _ _ _ [k1 [_ ->]%singleton_lookup] [k2 [_ ->]%singleton_lookup]. done.
  - intros k1 k2 rt1 rt2 [-> _]%singleton_lookup [-> _]%singleton_lookup. done.
Qed.

Lemma UserSpecific_converges_witness :
  ∃ w' : World, UserSpecific_Reconcile map_to_list user_syncer user_world = (Ok (no_requeue, None), w') ∧
    (∀ u, u ≠ "" → stored_user user_syncer w' u ↔
       active_user user_syncer user_world u ∨ (stored_user user_syncer user_world u ∧ upstream_shared user_syncer user_world)).
Proof.
  destruct (UserSpecific_converges user_syncer map_to_list user_world ltac:(reflexivity) user_world_calm)
    as (w' & Hrun & Husers & _).
  exists w'. by split.
Defined.

(** Two users whose names differ in a forbidden character push to the same branch:
    the target branch is the sanitized name, although the targets are named after the labels. *)
Lemma users_share_a_branch :
  SoftSanitize "alice@x" = SoftSanitize "alice-x" ∧
  ∃ rt1 rt2,
    buildUserSpecificTarget "team" "https://git.x/org/app.git" "main" "alice@x" "a11ce" RtAnnotationValueOneUserOneBranch = Ok rt1 ∧
    buildUserSpecificTarget "team" "https://git.x/org/app.git" "main" "alice-x" "b0b" RtAnnotationValueOneUserOneBranch = Ok rt2 ∧
    object_key rt1 ≠ object_key rt2 ∧ rt_Spec rt1 = rt_Spec rt2.
Proof.
  split; [vm_compute; reflexivity|]. eexists _, _. split_and!; [vm_compute; reflexivity..|discriminate|reflexivity].
Qed.

(** The value of the annotation is read for new targets only: a syncer that goes from one
    branch to one fork per user keeps the branch targets of the users who have one. *)
Lemma annotation_change_ignored :
  let w := world_of (mkView ∅ {[object_key (user_rub "a11ce" "alice") := user_rub "a11ce" "alice"]}
    {[object_key (user_rt "a11ce" "alice") := user_rt "a11ce" "alice"]} ∅ ∅ ∅ ∅ ∅) in
  let s := SyncerRS (mkRemoteSyncer
    (set_annotations {[RtAnnotationKeyUserSpecific := RtAnnotationValueOneUserOneFork]} (new_meta "rs" "team" ∅))
    (plain_spec "https://git.x/org/app.git" "main") (mkRemoteSyncerStatus [] None None None)) in
  let run := UserSpecific_Reconcile map_to_list s w in
  fst run = Ok (no_requeue, None) ∧ v_rt (view (snd run)) = {[object_key (user_rt "a11ce" "alice") := user_rt "a11ce" "alice"]}.
Proof. split; vm_compute; reflexivity. Qed.
