(* ===== verification/Pipeline.v ===== *)
(** * The interception pipeline ([internal/interceptor]: [pipeline.go], [response.go],
    [k8s_utils.go], [dynamic_webhook_handlers.go]; [pkg/webhooks/request.go])

    One admission request, from the webhook path to the admission response: bypass,
    authorization, association, rendering, git push, decision, and the status of the
    syncer. What the pipeline needs of the git side is the interface [GitPush]. *)

From S2P Require Import Prelude GoStr Api Errors External Kube Refs Rbac Render Target Sim.
From Stdlib Require Import Ascii.

(** ** Requests and responses *)

Record AdmissionRequest := mkAdmissionRequest {
  ar_UID : string; ar_Name : string; ar_Namespace : string; ar_Operation : string;
  ar_UserInfo : UserInfo; ar_Resource : GVR; ar_RequestResource : option GVR;
  ar_Object : string; ar_OldObject : string }.

Record AdmissionReview := mkReview {
  rev_UID : string; rev_Allowed : bool; rev_Status : string; rev_Message : string }.

Record ObjectMetadata := mkObjectMetadata { md_GVR : GVR; md_Name : string; md_Namespace : string }.

(** The dereference of a nil [RequestResource] panics. *)
Definition ExtractObjectMetadata (r : AdmissionRequest) : result error ObjectMetadata :=
  match ar_RequestResource r with
  | Some gvr => Ok (mkObjectMetadata gvr (ar_Name r) (ar_Namespace r))
  | None => Panic
  end.

Record GitPipelineParams := mkGitParams {
  gp_Syncer : SyncerContext; gp_RemoteTarget : RemoteTarget;
  gp_InterceptedManifest : string; gp_DeletedManifest : string;
  gp_InterceptedGVR : GVR; gp_InterceptedName : string; gp_GitUserInfo : GitUserInfo;
  gp_Operation : string; gp_CABundle : option string }.

(** What the pipeline asks of the git side: one push to one target. *)
Class GitPush (W : Type) := { RunGitPipeline : GitPipelineParams → M error W GitPushResponse }.

Section Pipeline.
Context {W : Type} `{Cluster W, Lib, GitPush W}.

(** ** [k8s_utils.go] *)

(** The mutation of the live status; an error is logged and dropped. *)
Definition updateRemoteSyncerStatus (sc : SyncerContext) (mutate : RemoteSyncerStatus → RemoteSyncerStatus)
  : M error W unit :=
  attempt (RetryOnConflict (
    if sc_ClusterWide sc then
      cwrs ⇐ client_Get (sc_Ref sc);;
      client_StatusUpdate (mkClusterWideRemoteSyncer (cwrs_Meta cwrs) (cwrs_Spec cwrs) (mutate (cwrs_Status cwrs)));;;
      ret tt
    else
      rsy ⇐ client_Get (sc_Ref sc);;
      client_StatusUpdate (mkRemoteSyncer (rs_Meta rsy) (rs_Spec rsy) (mutate (rs_Status rsy)));;;
      ret tt));;;
  ret tt.

Inductive ObservedState :=
| LastBypassedObjectStateKey | LastObservedObjectStateKey | LastPushedObjectStateKey.

Definition request_gvrn (r : AdmissionRequest) : JsonGVRN :=
  mkGVRN (gvr_Group (ar_Resource r)) (gvr_Version (ar_Resource r)) (gvr_Resource (ar_Resource r)) (ar_Name r).

Definition UpdateRemoteSyncerState (r : AdmissionRequest) (sc : SyncerContext)
    (targetRepos : list GitPushResponse) (kind : ObservedState) (lastPushDetails : string) : M error W unit :=
  let gvrn := request_gvrn r in
  let repos := map gpr_URL targetRepos in
  let commitHashes := map gpr_CommitHash targetRepos in
  let repoPaths := ([""] ++ concat (map gpr_Paths targetRepos))%list in
  time ⇐ now;;
  updateRemoteSyncerStatus sc (λ st,
    match kind with
    | LastBypassedObjectStateKey =>
        mkRemoteSyncerStatus (st_Conditions st) (Some (mkLastBypassed time (ar_UserInfo r) gvrn))
          (st_LastObserved st) (st_LastPushed st)
    | LastObservedObjectStateKey =>
        mkRemoteSyncerStatus (st_Conditions st) (st_LastBypassed st)
          (Some (mkLastObserved time (ui_Username (ar_UserInfo r)) gvrn)) (st_LastPushed st)
    | LastPushedObjectStateKey =>
        mkRemoteSyncerStatus (st_Conditions st) (st_LastBypassed st) (st_LastObserved st)
          (Some (mkLastPushed time (ui_Username (ar_UserInfo r)) repos repoPaths commitHashes gvrn lastPushDetails))
    end).

Definition BuildErrorCondition (details : string) : M error W Condition :=
  time ⇐ now;; ret (mkCondition "Synced" "False" "WebhookHandlerError" details time).
Definition BuildSuccessCondition (details : string) : M error W Condition :=
  time ⇐ now;; ret (mkCondition "Synced" "True" "WebhookHandlerSucceeded" details time).

Definition UpdateRemoteSyncerConditions (sc : SyncerContext) (condition : Condition) : M error W unit :=
  updateRemoteSyncerStatus sc (λ st,
    mkRemoteSyncerStatus (SetCondition (st_Conditions st) condition) (st_LastBypassed st)
      (st_LastObserved st) (st_LastPushed st)).

(** ** [response.go] *)

Definition defaultFailureMessage : string :=
  "the changes have not been pushed to the remote git repository: ".
Definition defaultSuccessMessage : string :=
  "the changes were correctly been pushed on the remote git repository".

Definition AdmissionReviewBuilder (addionalMessage : string) (r : AdmissionRequest)
    (requestAllowed processErrored : bool) (sc : SyncerContext) : M error W AdmissionReview :=
  let successMessage := if String.eqb (DefaultBlockAppliedMessage (sc_Spec sc)) "" then defaultSuccessMessage
                        else DefaultBlockAppliedMessage (sc_Spec sc) in
  let status := if processErrored then "Failure" else "Success" in
  let message := (if processErrored then defaultFailureMessage else successMessage) ++ addionalMessage in
  condition ⇐ (if processErrored then BuildErrorCondition addionalMessage else BuildSuccessCondition "");;
  UpdateRemoteSyncerConditions sc condition;;;
  UpdateRemoteSyncerState r sc [] LastObservedObjectStateKey message;;;
  ret (mkReview (ar_UID r) requestAllowed status message).

(** ** [pipeline.go] *)

(** The pushes of one request, in the order the map is visited. *)
Definition flatten (l : list (GitUserInfo * list RemoteTarget)) : list (GitUserInfo * RemoteTarget) :=
  concat (map (λ p, map (pair p.1) p.2) l).

Record GitPushParameters := mkPushParameters {
  pp_UserInfoRemoteTargets : TargetMap; pp_Syncer : SyncerContext;
  pp_InterceptedManifest : string; pp_DeletedManifest : string;
  pp_ObjectMetadata : ObjectMetadata; pp_Operation : string; pp_CABundle : option string }.

Definition push_params (p : GitPushParameters) (gu : GitUserInfo) (rt : RemoteTarget) : GitPipelineParams :=
  mkGitParams (pp_Syncer p) rt (pp_InterceptedManifest p) (pp_DeletedManifest p)
    (md_GVR (pp_ObjectMetadata p)) (md_Name (pp_ObjectMetadata p)) gu (pp_Operation p) (pp_CABundle p).

Definition push_one (p : GitPushParameters) (gu : GitUserInfo) (responses : list GitPushResponse)
    (rt : RemoteTarget) : M error W (list GitPushResponse) :=
  res ⇐ RunGitPipeline (push_params p gu rt);;
  if String.eqb (gpr_CommitHash res) "" then throw (plainError "the commit hash is empty")
  else ret (responses ++ [res])%list.

Definition RunGitPushPipeline (ord : TargetMap → list (GitUserInfo * list RemoteTarget))
    (p : GitPushParameters) : M error W (list GitPushResponse) :=
  for_fold (λ responses '(gu, remoteTargets), for_fold (push_one p gu) responses remoteTargets) []
    (ord (pp_UserInfoRemoteTargets p)).

Definition IsWebhookAllowed (sc : SyncerContext) (pipelineErrored : bool) : bool :=
  negb pipelineErrored && String.eqb (Strategy (sc_Spec sc)) CommitApply.

Definition BuildWebhookSuccessMessage (responses : list GitPushResponse) : string :=
  foldl (λ message res,
    (foldl (λ m path, m ++ ("    " ++ (path ++ nls)))
       (message ++ ("- repo: " ++ (gpr_URL res ++ (nls ++ "  paths:")))) (gpr_Paths res))
    ++ ("  commit hash: " ++ gpr_CommitHash res))
    ("The resource has been push to:" ++ nls) responses.

Definition DeleteOp : string := "DELETE".

(** The manifests of the request: the rendered object, or the deleted one. *)
Definition request_manifests (r : AdmissionRequest) (sc : SyncerContext) (managerNamespace : string)
  : M error W (string * string) :=
  if negb (String.eqb (ar_Operation r) DeleteOp) then
    y ⇐ ObjectToYAML (ar_Object r) managerNamespace (sc_Spec sc) (sc_RefOwnerNamespace sc);; ret (y, "")
  else d ⇐ lift (json_to_yaml (ar_OldObject r));; ret ("", d).

(** From the push on. *)
Definition push_and_decide (ord : TargetMap → list (GitUserInfo * list RemoteTarget)) (r : AdmissionRequest)
    (sc : SyncerContext) (p : GitPushParameters) : M error W AdmissionReview :=
  pushed ⇐ attempt (RunGitPushPipeline ord p);;
  match pushed with
  | inr err =>
      let message := BuildInterceptorPipelineErr (Error err) in
      if String.eqb (Strategy (sc_Spec sc)) CommitApply &&
         String.eqb (DefaultPushErrorBehavior (sc_Spec sc)) PassPushError
      then AdmissionReviewBuilder message r true true sc
      else AdmissionReviewBuilder message r false true sc
  | inl responses =>
      UpdateRemoteSyncerState r sc responses LastPushedObjectStateKey "";;;
      if negb (IsWebhookAllowed sc false)
      then AdmissionReviewBuilder (BuildInterceptorPipelineErr "the remote syncer is in CommitOnly mode") r false false sc
      else AdmissionReviewBuilder (BuildWebhookSuccessMessage responses) r true false sc
  end.

(** From the rendering on. *)
Definition render_and_push (ord : TargetMap → list (GitUserInfo * list RemoteTarget)) (r : AdmissionRequest)
    (sc : SyncerContext) (managerNamespace : string) (repoUrl : URL) (md : ObjectMetadata)
    (userRemoteTargets : TargetMap) : M error W AdmissionReview :=
  manifests ⇐ attempt (request_manifests r sc managerNamespace);;
  match manifests with
  | inr err => AdmissionReviewBuilder (BuildInterceptorPipelineErr (Error err)) r false true sc
  | inl (interceptedManifest, deletedManifest) =>
      deleting ⇐ (if String.eqb (ar_Object r) "" then ret (inl false)
                  else attempt (m ⇐ lift (JSONToMap (ar_Object r));; ret (ContainsDeletionTimestamp m)));;
      match deleting with
      | inr err => AdmissionReviewBuilder (Error err) r false true sc
      | inl true =>
          AdmissionReviewBuilder
            (BuildInterceptorPipelineErr "object is being deleted and the interception already happened") r true false sc
      | inl false =>
          ca ⇐ attempt (CABundleBuilder managerNamespace sc repoUrl);;
          match ca with
          | inr err => AdmissionReviewBuilder (BuildInterceptorPipelineErr (Error err)) r false true sc
          | inl caBundle =>
              push_and_decide ord r sc
                (mkPushParameters userRemoteTargets sc interceptedManifest deletedManifest md (ar_Operation r) caBundle)
          end
      end
  end.

(** From the authorization on. *)
Definition authorize_and_push (ord : TargetMap → list (GitUserInfo * list RemoteTarget)) (r : AdmissionRequest)
    (sc : SyncerContext) (managerNamespace : string) (repoUrl : URL) : M error W AdmissionReview :=
  let userInfo := ar_UserInfo r in
  match RemoteSyncerRefs (sc_Spec sc) (sc_RefOwnerNamespace sc) with
  | Panic => panic
  | Err err => AdmissionReviewBuilder (Error err) r false true sc
  | Ok objectRefs =>
      d ⇐ attempt (AuthorizeCrossNamespaceRefs userInfo objectRefs (sc_RefOwnerNamespace sc) [managerNamespace]);;
      match d with
      | inr err => AdmissionReviewBuilder (BuildInterceptorPipelineErr (Error err)) r false true sc
      | inl (Some denied) =>
          AdmissionReviewBuilder (Error (crossNamespaceRefDenied userInfo (path_String (or_FieldPath denied))
            (or_Resource denied) (or_Namespace denied) (or_Name denied))) r false true sc
      | inl None =>
          md ⇐ lift (ExtractObjectMetadata r);;
          t ⇐ attempt (GetUserInfoRemoteTargetsAssociation userInfo repoUrl sc);;
          match t with
          | inr err => AdmissionReviewBuilder (Error err) r false true sc
          | inl userRemoteTargets => render_and_push ord r sc managerNamespace repoUrl md userRemoteTargets
          end
      end
  end.

Definition RunInterceptionPipeline (ord : TargetMap → list (GitUserInfo * list RemoteTarget))
    (r : AdmissionRequest) (sc : SyncerContext) (managerNamespace : string) : M error W AdmissionReview :=
  match url_Parse (RemoteRepository (sc_Spec sc)) with
  | Panic => panic
  | Err _ =>
      AdmissionReviewBuilder (BuildInterceptorPipelineErr "cannot parse the RemoteSyncer's upstream URL") r false true sc
  | Ok repoUrl =>
      if BypassAllServiceAccounts (sc_Spec sc) && IsServiceAccount (ar_UserInfo r)
      then AdmissionReviewBuilder (BuildInterceptorPipelineErr "service account bypasses the interception") r true false sc
      else
        match IsBypassSubject (ar_UserInfo r) sc with
        | (_, Some err) => AdmissionReviewBuilder (Error err) r false true sc
        | (true, None) =>
            AdmissionReviewBuilder (BuildInterceptorPipelineErr "subject bypasses the interception") r true false sc
        | (false, None) => authorize_and_push ord r sc managerNamespace repoUrl
        end
  end.
End Pipeline.

(** ** What a decision means *)

Section Decision.
Context {W : Type} `{Cluster W, Lib, GitPush W}.

Lemma builder_inv msg r a e sc (w : W) rev w' :
  AdmissionReviewBuilder msg r a e sc w = (Ok rev, w') →
  rev_Allowed rev = a ∧ rev_UID rev = ar_UID r ∧
  rev_Status rev = if e then "Failure" else "Success".
Proof.
  unfold AdmissionReviewBuilder. intros Hr. inv_ok. done.
Qed.

Ltac denied :=
  match goal with
  | H : AdmissionReviewBuilder _ _ _ _ _ _ = (Ok _, _) |- _ => apply builder_inv in H as (? & _); congruence
  end.

(** Every pair pushed in turn, each with a commit to show for it. *)
Inductive pushes (p : GitPushParameters)
  : list (GitUserInfo * RemoteTarget) → list GitPushResponse → W → W → Prop :=
| pushes_nil w : pushes p [] [] w w
| pushes_cons gu rt rest res rs w w1 w2 :
    RunGitPipeline (push_params p gu rt) w = (Ok res, w1) → gpr_CommitHash res ≠ "" →
    pushes p rest rs w1 w2 → pushes p ((gu, rt) :: rest) (res :: rs) w w2.

Lemma pushes_app p l1 l2 rs1 rs2 w w1 w2 :
  pushes p l1 rs1 w w1 → pushes p l2 rs2 w1 w2 → pushes p (l1 ++ l2)%list (rs1 ++ rs2)%list w w2.
Proof. induction 1; intros Hp2; [done|]. simpl. econstructor; eauto. Qed.

(** The push that stopped the loop. *)
Definition push_failed (p : GitPushParameters) (x : GitUserInfo * RemoteTarget) (e : error) (w w' : W) : Prop :=
  RunGitPipeline (push_params p x.1 x.2) w = (Err e, w') ∨
  ∃ res, RunGitPipeline (push_params p x.1 x.2) w = (Ok res, w') ∧ gpr_CommitHash res = "" ∧
    e = plainError "the commit hash is empty".

(** How a loop over pushes ends: all done, or stopped at the first failure, with the
    ones before it done. *)
Definition push_outcome (p : GitPushParameters) (l : list (GitUserInfo * RemoteTarget))
    (acc : list GitPushResponse) (w : W) (r : result error (list GitPushResponse)) (w' : W) : Prop :=
  match r with
  | Ok rs => ∃ new, rs = (acc ++ new)%list ∧ pushes p l new w w'
  | Err e => ∃ before x after new w1, l = (before ++ x :: after)%list ∧
      pushes p before new w w1 ∧ push_failed p x e w1 w'
  | Panic => True
  end.

Lemma push_user_outcome p gu rts acc w r w' :
  for_fold (push_one p gu) acc rts w = (r, w') → push_outcome p (map (pair gu) rts) acc w r w'.
Proof.
  revert acc w; induction rts as [|rt rts IH]; intros acc w Hr; simpl in Hr.
  { injection Hr as <- <-. exists []. rewrite app_nil_r. split; [done|constructor]. }
  unfold bind at 1 in Hr. destruct (push_one p gu acc rt w) as [[a|e|] w1] eqn:E.
  - unfold push_one in E. apply bind_ok_inv in E as (res & w2 & Hrun & E).
    destruct (String.eqb_spec (gpr_CommitHash res) ""); inv_ok. apply IH in Hr.
    destruct r as [rs|e|]; simpl in *; [| |done].
    + destruct Hr as (new & -> & Hp). exists (res :: new). rewrite <- app_assoc. split; [done|].
      by econstructor.
    + destruct Hr as (before & x & after & new & w3 & -> & Hp & Hf).
      exists ((gu, rt) :: before), x, after, (res :: new), w3. split_and!; [done|by econstructor|done].
  - injection Hr as <- <-. unfold push_one, bind in E. exists [], (gu, rt), (map (pair gu) rts), [], w.
    split_and!; [done|constructor|]. unfold push_failed. simpl.
    destruct (RunGitPipeline _ w) as [[res|e'|] w2]; [|left; congruence|done].
    destruct (String.eqb_spec (gpr_CommitHash res) ""); [|done]. right. exists res.
    unfold throw in E. by simplify_eq.
  - by injection Hr as <- <-.
Qed.

Lemma push_outcome_app p l1 l2 acc w rs w1 r w' :
  push_outcome p l1 acc w (Ok rs) w1 → push_outcome p l2 rs w1 r w' →
  push_outcome p (l1 ++ l2)%list acc w r w'.
Proof.
  intros (new1 & -> & Hp1) Hout. destruct r as [rs|e|]; simpl in *; [| |done].
  - destruct Hout as (new & -> & Hp). exists (new1 ++ new)%list. rewrite <- app_assoc.
    split; [done|]. by eapply pushes_app.
  - destruct Hout as (before & x & after & new & w2 & -> & Hp & Hf).
    exists (l1 ++ before)%list, x, after, (new1 ++ new)%list, w2. rewrite <- app_assoc.
    split_and!; [done| |done]. by eapply pushes_app.
Qed.

Lemma push_all_outcome p l acc w r w' :
  for_fold (λ responses '(gu, rts), for_fold (push_one p gu) responses rts) acc l w = (r, w') →
  push_outcome p (flatten l) acc w r w'.
Proof.
  revert acc w; induction l as [|[gu rts] l IH]; intros acc w Hr; simpl in Hr.
  { injection Hr as <- <-. exists []. rewrite app_nil_r. split; [done|constructor]. }
  unfold bind at 1 in Hr. unfold flatten in *. simpl.
  destruct (for_fold (push_one p gu) acc rts w) as [r1 w1] eqn:E. apply push_user_outcome in E.
  destruct r1 as [rs|e|]; [by eapply push_outcome_app; [exact E|apply IH]| |by injection Hr as <- <-].
  injection Hr as <- <-. destruct E as (before & x & after & new & w2 & He & Hp & Hf).
  exists before, x, (after ++ concat (map (λ p0, map (pair p0.1) p0.2) l))%list, new, w2.
  rewrite He, <- app_assoc. done.
Qed.

(** The author may get every object the syncer references outside of its namespace
    and of the manager's. *)
Definition authorised (r : AdmissionRequest) (sc : SyncerContext) (managerNamespace : string) (w w' : W) : Prop :=
  ∃ objectRefs, RemoteSyncerRefs (sc_Spec sc) (sc_RefOwnerNamespace sc) = Ok objectRefs ∧
    AuthorizeCrossNamespaceRefs (ar_UserInfo r) objectRefs (sc_RefOwnerNamespace sc) [managerNamespace] w =
      (Ok None, w').

Definition being_deleted (r : AdmissionRequest) : Prop :=
  ar_Object r ≠ "" ∧ ∃ d, JSONToMap (ar_Object r) = Ok d ∧ ContainsDeletionTimestamp d = true.

(** The run [p] of the pushes from [w], answered by [rev] in [w']: the syncer commits and applies,
    and every push was made and its outcome recorded in the status, or a push failed and the
    syncer lets the change pass anyway. *)
Definition pushed_or_passed (ord : TargetMap → list (GitUserInfo * list RemoteTarget)) (r : AdmissionRequest)
    (p : GitPushParameters) (w : W) (rev : AdmissionReview) (w' : W) : Prop :=
  let sc := pp_Syncer p in
  Strategy (sc_Spec sc) = CommitApply ∧
  ((∃ rs w1 w2, pushes p (flatten (ord (pp_UserInfoRemoteTargets p))) rs w w1 ∧
      UpdateRemoteSyncerState r sc rs LastPushedObjectStateKey "" w1 = (Ok tt, w2) ∧
      AdmissionReviewBuilder (BuildWebhookSuccessMessage rs) r true false sc w2 = (Ok rev, w')) ∨
   (DefaultPushErrorBehavior (sc_Spec sc) = PassPushError ∧ ∃ e w1, RunGitPushPipeline ord p w = (Err e, w1) ∧
      AdmissionReviewBuilder (BuildInterceptorPipelineErr (Error e)) r true true sc w1 = (Ok rev, w'))).

(** From the association [m] on: the object is on its way to deletion, or the pushes were run
    with the manifests rendered for the request, the certificates of the syncer and the
    targets of the association. *)
Definition rendered_and_pushed (ord : TargetMap → list (GitUserInfo * list RemoteTarget)) (r : AdmissionRequest)
    (sc : SyncerContext) (managerNamespace : string) (u : URL) (md : ObjectMetadata) (m : TargetMap)
    (w : W) (rev : AdmissionReview) (w' : W) : Prop :=
  ∃ im dm w1, request_manifests r sc managerNamespace w = (Ok (im, dm), w1) ∧
    (being_deleted r ∨ ∃ ca w2, CABundleBuilder managerNamespace sc u w1 = (Ok ca, w2) ∧
       pushed_or_passed ord r (mkPushParameters m sc im dm md (ar_Operation r) ca) w2 rev w').

Lemma push_and_decide_inv ord r p (w : W) rev w' :
  push_and_decide ord r (pp_Syncer p) p w = (Ok rev, w') → rev_Allowed rev = true →
  pushed_or_passed ord r p w rev w'.
Proof.
  intros Hr Ha. unfold push_and_decide in Hr. apply bind_ok_inv in Hr as (pushed & w1 & Hp & Hr).
  apply attempt_ok_inv in Hp. destruct pushed as [rs|e].
  - apply bind_ok_inv in Hr as ([] & w2 & Hst & Hr).
    destruct (negb (IsWebhookAllowed (pp_Syncer p) false)) eqn:Ew.
    + by denied.
    + unfold IsWebhookAllowed in Ew. simpl in Ew. apply negb_false_iff, String.eqb_eq in Ew. split; [done|].
      apply push_all_outcome in Hp as (new & -> & Hp). left. by exists new, w1, w2.
  - destruct (String.eqb_spec (Strategy (sc_Spec (pp_Syncer p))) CommitApply) as [Hs|]; simpl in Hr.
    + destruct (String.eqb_spec (DefaultPushErrorBehavior (sc_Spec (pp_Syncer p))) PassPushError) as [Hb|].
      * split; [done|]. right. split; [done|]. by exists e, w1.
      * by denied.
    + by denied.
Qed.

Lemma render_and_push_inv ord r sc mns u md m (w : W) rev w' :
  render_and_push ord r sc mns u md m w = (Ok rev, w') → rev_Allowed rev = true →
  rendered_and_pushed ord r sc mns u md m w rev w'.
Proof.
  intros Hr Ha. unfold render_and_push in Hr. apply bind_ok_inv in Hr as (mf & w1 & Hmf & Hr).
  apply attempt_ok_inv in Hmf. destruct mf as [[im dm]|e]; [|by denied]. exists im, dm, w1. split; [done|].
  apply bind_ok_inv in Hr as (del & w2 & Hd & Hr).
  destruct del as [[|]|e]; [| |by denied].
  - left. unfold being_deleted. destruct (String.eqb_spec (ar_Object r) ""); [by inv_ok|].
    split; [done|]. apply attempt_ok_inv in Hd. inv_ok. eexists. split; [eassumption|]. congruence.
  - assert (w2 = w1) as ->.
    { destruct (String.eqb (ar_Object r) ""); [by inv_ok|]. apply attempt_ok_inv in Hd. by inv_ok. }
    apply bind_ok_inv in Hr as (ca & w3 & Hca & Hr). apply attempt_ok_inv in Hca.
    destruct ca as [ca|e]; [|by denied]. right. exists ca, w3. split; [done|].
    by apply (push_and_decide_inv ord r (mkPushParameters m sc im dm md (ar_Operation r) ca)).
Qed.

(** ** Properties *)

(** (C2) A change is admitted only for a reason: its author bypasses the syncer - a service
    account under a syncer that lets them all through, or a listed subject - or the
    author passed the review of the syncer's cross-namespace references and was
    associated with git targets, and then either the object is on its way to deletion,
    or the syncer commits and applies and every associated target was pushed, with what was
    rendered for this request, or a push of this request failed and the syncer is told to
    let such changes pass. The states follow one another from the request to the answer. *)
Theorem allowed_justified ord r sc mns (w : W) rev w' :
  RunInterceptionPipeline ord r sc mns w = (Ok rev, w') → rev_Allowed rev = true →
  (BypassAllServiceAccounts (sc_Spec sc) = true ∧ IsServiceAccount (ar_UserInfo r) = true) ∨
  IsBypassSubject (ar_UserInfo r) sc = (true, None) ∨
  ∃ u md m w1 w2, url_Parse (RemoteRepository (sc_Spec sc)) = Ok u ∧ authorised r sc mns w w1 ∧
    ExtractObjectMetadata r = Ok md ∧
    GetUserInfoRemoteTargetsAssociation (ar_UserInfo r) u sc w1 = (Ok m, w2) ∧
    rendered_and_pushed ord r sc mns u md m w2 rev w'.
Proof.
  unfold RunInterceptionPipeline. intros Hr Ha.
  destruct (url_Parse _) as [u|e|] eqn:Eu; [|by denied|done].
  destruct (BypassAllServiceAccounts (sc_Spec sc)) eqn:E1, (IsServiceAccount (ar_UserInfo r)) eqn:E2; simpl in Hr;
    try (by left).
  all: right; destruct (IsBypassSubject (ar_UserInfo r) sc) as [[] [e|]] eqn:E3;
    try (by left); try (by denied).
  all: right; unfold authorize_and_push in Hr.
  all: destruct (RemoteSyncerRefs _ _) as [refs|e|] eqn:E4;
    [|by denied|done].
  all: apply bind_ok_inv in Hr as (d & w1 & Hd & Hr); apply attempt_ok_inv in Hd.
  all: destruct d as [[d|]|e]; try (by denied).
  all: apply bind_ok_inv in Hr as (md & w2 & Hmd & Hr); unfold lift in Hmd; injection Hmd as Hmd <-.
  all: apply bind_ok_inv in Hr as (t & w2 & Ht & Hr); apply attempt_ok_inv in Ht.
  all: destruct t as [m|e]; [|by denied].
  all: exists u, md, m, w1, w2; split_and!; [done|by exists refs|done|done|by apply render_and_push_inv].
Qed.

(** (C26) The pushes of a request are made one after the other and stop at the first
    failure: on success every associated pair was pushed and has a commit; on failure
    exactly the pairs before the failing one were, and stay pushed. *)
Theorem push_pipeline_outcome ord p (w : W) r w' :
  RunGitPushPipeline ord p w = (r, w') →
  match r with
  | Ok rs => pushes p (flatten (ord (pp_UserInfoRemoteTargets p))) rs w w'
  | Err e => ∃ before x after rs w1,
      flatten (ord (pp_UserInfoRemoteTargets p)) = (before ++ x :: after)%list ∧
      pushes p before rs w w1 ∧ push_failed p x e w1 w'
  | Panic => True
  end.
Proof.
  intros Hr. apply push_all_outcome in Hr. destruct r; simpl in Hr; [|done..].
  by destruct Hr as (new & -> & Hp).
Qed.
End Decision.

(** ** The webhook server ([dynamic_webhook_handlers.go]) *)

Definition remoteSyncerPathPrefix : string := "/syngit/namespace-scoped-validate/".
Definition clusterWidePathPrefix : string := "/syngit/cluster-scoped-validate/".
Definition RemoteSyncerWebhookPath (n : NamespacedName) : string :=
  remoteSyncerPathPrefix ++ (nn_Namespace n ++ ("/" ++ nn_Name n)).
Definition ClusterWideRemoteSyncerWebhookPath (name : string) : string := clusterWidePathPrefix ++ name.

(** The registered copy of the syncer ([DynamicWebhookHandler]); the map is behind a
    lock held by each operation. *)
Definition Handlers : Type := gmap string Syncer.

Definition syncerContext (handler : Syncer) (interceptedNamespace : string) : SyncerContext :=
  match handler with
  | SyncerCW cw => NewClusterWideSyncerContext cw interceptedNamespace
  | SyncerRS rs => NewRemoteSyncerContext rs interceptedNamespace
  end.

Definition handlerFor (path : string) (hs : Handlers) : option Syncer := hs !! path.
Definition register (path : string) (s : Syncer) (hs : Handlers) : Handlers := <[path := s]> hs.
Definition Register (rs : RemoteSyncer) (path : string) : Handlers → Handlers := register path (SyncerRS rs).
Definition RegisterClusterWide (cw : ClusterWideRemoteSyncer) (path : string) : Handlers → Handlers :=
  register path (SyncerCW cw).
Definition Unregister (path : string) (hs : Handlers) : Handlers := delete path hs.

Section Server.
Context {W : Type} `{Cluster W}.

(** The lookup of the two routes: the cached handler, or the object of the cluster,
    registered on the way; [None] is the 404. The state is the world and the map. *)
Definition serve_namespaced (namespace name : string) : M error (W * Handlers) (option Syncer) := λ '(w, hs),
  let path := RemoteSyncerWebhookPath (mkNN namespace name) in
  match handlerFor path hs with
  | Some s => (Ok (Some s), (w, hs))
  | None =>
      match client_Get (T := RemoteSyncer) (mkNN namespace name) w with
      | (Ok found, w') => (Ok (Some (SyncerRS found)), (w', Register found path hs))
      | (Err _, w') => (Ok None, (w', hs))
      | (Panic, w') => (Panic, (w', hs))
      end
  end.
Definition serve_cluster_wide (name : string) : M error (W * Handlers) (option Syncer) := λ '(w, hs),
  let path := ClusterWideRemoteSyncerWebhookPath name in
  match handlerFor path hs with
  | Some s => (Ok (Some s), (w, hs))
  | None =>
      match client_Get (T := ClusterWideRemoteSyncer) (mkNN "" name) w with
      | (Ok found, w') => (Ok (Some (SyncerCW found)), (w', RegisterClusterWide found path hs))
      | (Err _, w') => (Ok None, (w', hs))
      | (Panic, w') => (Panic, (w', hs))
      end
  end.
End Server.

(** The path a syncer belongs under. *)
Definition path_of (s : Syncer) : string :=
  match s with
  | SyncerRS rs => RemoteSyncerWebhookPath (object_key rs)
  | SyncerCW cw => ClusterWideRemoteSyncerWebhookPath (om_Name (cwrs_Meta cw))
  end.
Definition well_routed (hs : Handlers) : Prop := map_Forall (λ path s, path = path_of s) hs.

(** A name the API server accepts as a path segment. *)
Definition segment (s : string) : Prop := has_byte "/"%char s = false.

Lemma segments_inj a b c d :
  segment a → segment c → a ++ ("/" ++ b) = c ++ ("/" ++ d) → a = c ∧ b = d.
Proof.
  unfold segment. revert c; induction a as [|x a IH]; intros [|y c]; cbn; intros Ha Hc [=]; subst;
    try done.
  apply orb_false_iff in Ha as [_ Ha], Hc as [_ Hc]. match goal with He : _ = _ ++ String _ _ |- _ => by destruct (IH _ Ha Hc He) as [-> ->] end.
Qed.

Lemma namespaced_path_inj n m : segment (nn_Namespace n) → segment (nn_Namespace m) →
  RemoteSyncerWebhookPath n = RemoteSyncerWebhookPath m → n = m.
Proof.
  unfold RemoteSyncerWebhookPath. intros Hn Hm He. apply append_inj_l in He.
  destruct n as [a b], m as [c d]; simpl in *. by destruct (segments_inj a b c d Hn Hm He) as [-> ->].
Qed.

Lemma paths_disjoint n name : RemoteSyncerWebhookPath n ≠ ClusterWideRemoteSyncerWebhookPath name.
Proof. by unfold RemoteSyncerWebhookPath, ClusterWideRemoteSyncerWebhookPath. Qed.

(** The operations of the controllers on the map: a syncer is registered and
    unregistered under the path built from its own name. *)
Inductive handler_op := HRegister (s : Syncer) | HUnregister (path : string).
Definition apply_op (o : handler_op) (hs : Handlers) : Handlers :=
  match o with
  | HRegister s => register (path_of s) s hs
  | HUnregister path => Unregister path hs
  end.

Lemma well_routed_ops ops hs : well_routed hs → well_routed (foldl (flip apply_op) hs ops).
Proof.
  revert hs; induction ops as [|o ops IH]; intros hs Hw; simpl; [done|]. apply IH.
  destruct o as [s|path]; simpl; [by apply map_Forall_insert_2|by apply map_Forall_delete].
Qed.

(** A request is always judged by the syncer its path names, whatever was registered
    and unregistered before: namespaces and names that are path segments never
    collide, and the two kinds never share a path. *)
Theorem requests_reach_their_syncer {W} `{ApiServer W} ops (w : W) namespace name s st :
  segment namespace → keyed (v_rs (view w)) →
  Forall (λ o, match o with HRegister r => segment (om_Namespace (syncer_meta r)) | _ => True end) ops →
  serve_namespaced namespace name (w, foldl (flip apply_op) ∅ ops) = (Ok (Some s), st) →
  ∃ rs, s = SyncerRS rs ∧ object_key rs = mkNN namespace name ∧ well_routed st.2.
Proof.
  intros Hns Hkeyed Hops Hr.
  assert (Hw : well_routed (foldl (flip apply_op) ∅ ops)) by (apply well_routed_ops, map_Forall_empty).
  assert (Hseg : map_Forall (λ _ r, segment (om_Namespace (syncer_meta r))) (foldl (flip apply_op) ∅ ops)).
  { clear Hr Hw. assert (He : map_Forall (λ (_ : string) r, segment (om_Namespace (syncer_meta r))) (∅ : Handlers))
      by apply map_Forall_empty. revert He. generalize (∅ : Handlers) as hs.
    induction Hops as [|o ops Ho Hops IH]; intros hs Hhs; simpl; [done|]. apply IH.
    destruct o as [r|path]; simpl; [by apply map_Forall_insert_2|by apply map_Forall_delete]. }
  unfold serve_namespaced, handlerFor in Hr. destruct (_ !! RemoteSyncerWebhookPath _) as [s0|] eqn:E.
  - simplify_eq. pose proof (Hw _ _ E) as Hp. pose proof (Hseg _ _ E) as Hs. simpl in Hp, Hs.
    destruct s as [rs|cw]; [|by apply paths_disjoint in Hp]. exists rs. split_and!; [done| |done].
    symmetry. apply namespaced_path_inj; [done..|]. exact Hp.
  - destruct (client_Get _ w) as [[found|e|] w'] eqn:Eg; simplify_eq.
    apply get_inv in Eg as [-> Hg]. simpl in Hg. pose proof (Hkeyed _ _ Hg) as Hk. simpl in Hk.
    exists found. split_and!; [done|done|]. simpl. apply map_Forall_insert_2; [|done].
    simpl. by rewrite Hk.
Qed.

(** ** Witnesses *)

(** A git side that always commits. *)
#[local] Instance sim_git : GitPush World :=
  {| RunGitPipeline p := λ w, (Ok (mkPushResponse ["team/app.yaml"] "c0ffee" (TargetRepository (rt_Spec (gp_RemoteTarget p)))), w) |}.

Definition demo_request : AdmissionRequest :=
  mkAdmissionRequest "u-1" "app" "team" "CREATE" demo_user (mkGVR "" "v1" "configmaps")
    (Some (mkGVR "" "v1" "configmaps")) "{}" "".
Definition demo_ord : TargetMap → list (GitUserInfo * list RemoteTarget) := map_to_list.

Lemma allowed_justified_witness :
  ∃ rev w', RunInterceptionPipeline demo_ord demo_request demo_sc "syngit" demo_world = (Ok rev, w') ∧
    rev_Allowed rev = true ∧
    ((BypassAllServiceAccounts (sc_Spec demo_sc) = true ∧ IsServiceAccount demo_user = true) ∨
     IsBypassSubject demo_user demo_sc = (true, None) ∨
     ∃ u md m w1 w2, url_Parse (RemoteRepository (sc_Spec demo_sc)) = Ok u ∧
       authorised demo_request demo_sc "syngit" demo_world w1 ∧ ExtractObjectMetadata demo_request = Ok md ∧
       GetUserInfoRemoteTargetsAssociation demo_user u demo_sc w1 = (Ok m, w2) ∧
       rendered_and_pushed demo_ord demo_request demo_sc "syngit" u md m w2 rev w').
Proof.
  destruct (run_ok (RunInterceptionPipeline demo_ord demo_request demo_sc "syngit" demo_world) rev_Allowed)
    as (rev & w' & E & Ha); [vm_compute; reflexivity|].
  exists rev, w'. split; [exact E|]. split; [exact Ha|]. exact (allowed_justified demo_ord demo_request demo_sc "syngit" demo_world rev w' E Ha).
Defined.

Definition demo_push : GitPushParameters :=
  mkPushParameters {[demo_git := [demo_rt]]} demo_sc "kind: ConfigMap" ""
    (mkObjectMetadata (mkGVR "" "v1" "configmaps") "app" "team") "CREATE" None.

Lemma push_pipeline_outcome_witness :
  pushes demo_push [(demo_git, demo_rt)]
    [mkPushResponse ["team/app.yaml"] "c0ffee" "https://git.x/org/app.git"] demo_world demo_world.
Proof.
  apply (push_pipeline_outcome demo_ord demo_push demo_world
    (Ok [mkPushResponse ["team/app.yaml"] "c0ffee" "https://git.x/org/app.git"]) demo_world).
  vm_compute. reflexivity.
Defined.

Lemma requests_reach_their_syncer_witness :
  ∃ st, serve_namespaced "team" "rs" (demo_world, foldl (flip apply_op) ∅ [HRegister (SyncerRS demo_syncer)]) =
      (Ok (Some (SyncerRS demo_syncer)), st) ∧
    ∃ rs, SyncerRS demo_syncer = SyncerRS rs ∧ object_key rs = mkNN "team" "rs" ∧ well_routed st.2.
Proof.
  eexists. split; [reflexivity|].
  apply (requests_reach_their_syncer [HRegister (SyncerRS demo_syncer)] demo_world "team" "rs").
  - reflexivity.
  - apply map_Forall_singleton. reflexivity.
  - repeat constructor.
  - reflexivity.
Defined.
