(* ===== verification/Webhook.v ===== *)
(** * The admission webhooks of the syngit kinds ([internal/webhook/v1beta5])

    Two independent gates stand before every syngit object: the permission handlers,
    which ask whether the author may reach what the object reaches, and the
    validators, which check the object itself. Decoding of a request, the listing
    of namespaces by selector and JSON marshalling are parameters. *)

From S2P Require Import Prelude GoStr Api Errors External Refs Rbac Naming Pipeline Sim.
From Stdlib Require Import Ascii.

(** What a handler answers, by the controller-runtime constructor it calls; the last
    is the JSON patch from the original document to the current one. *)
Inductive Response :=
| Allowed (message : string)
| Denied (reason : string)
| Errored (code : Z) (err : error)
| PatchResponseFromRaw (original current : string).

(** The request goes through. *)
Definition lets_through (r : Response) : bool :=
  match r with Allowed _ | PatchResponseFromRaw _ _ => true | Denied _ | Errored _ _ => false end.

Class Decoder (T : Type) := {
  Decode : AdmissionRequest → result error T;       (** the new object *)
  DecodeRaw : string → result error T }.
Class RemoteUserJson := { json_Marshal : RemoteUser → result error string }.
(** The names of the namespaces whose labels match. *)
Class NamespaceLister (W : Type) := { list_namespaces : Selector → M error W (list string) }.

Definition DecodeObject {T} `{Decoder T} (req : AdmissionRequest) : result error T :=
  if negb (String.eqb (ar_Operation req) "DELETE") then Decode req else DecodeRaw (ar_OldObject req).

(** ** [utils.go] *)

Definition doesUserBypassWebhook (user : UserInfo) (managerNs : string) : bool :=
  existsb (String.eqb "system:masters") (ui_Groups user) ||
  HasPrefix (ui_Username user) ("system:serviceaccount:" ++ managerNs).

Definition isInvalidCombinationError (err : error) : bool :=
  Contains (Error err) "no matches for kind" || Contains (Error err) "could not find the requested resource".

Section Handlers.
Context {W : Type} `{Cluster W, Lib}.

Definition cross_denied (user : UserInfo) (denied : ObjectRef) : Response :=
  Denied (Error (crossNamespaceRefDenied user (path_String (or_FieldPath denied)) (or_Resource denied)
    (or_Namespace denied) (or_Name denied))).

Definition denyRef (user : UserInfo) (denied : ObjectRef) (ownerNamespace : string)
    (sameNamespaceErr : error) : Response :=
  if negb (String.eqb (or_Namespace denied) ownerNamespace) then cross_denied user denied
  else Denied (Error sameNamespaceErr).

(** ** [syncer_permissions.go] *)

(** The inner loop: whether one of the verbs is granted in a namespace. [None] is the
    early return on an invalid combination. *)
Fixpoint verb_allowed (user : UserInfo) (namespace group version resource : string)
    (verbs : list string) : M error W (option bool) :=
  match verbs with
  | [] => ret (Some false)
  | verb :: rest =>
      r ⇐ attempt (CheckAccess user (mkAttrs namespace verb group version resource ""));;
      match r with
      | inr err => if isInvalidCombinationError err then ret None else throw err
      | inl true => ret (Some true)
      | inl false => verb_allowed user namespace group version resource rest
      end
  end.

Fixpoint isOperationAllowed (user : UserInfo) (namespaces : list string)
    (group version resource : string) (verbs : list string) : M error W bool :=
  match namespaces with
  | [] => ret true
  | namespace :: rest =>
      allowedHere ⇐ verb_allowed user namespace group version resource verbs;;
      match allowedHere with
      | None => ret true
      | Some false => ret false
      | Some true => isOperationAllowed user rest group version resource verbs
      end
  end.

Definition forbidden_operation (user : UserInfo) (namespaces : list string)
    (group version resource : string) (forbiddenOperations : list string) (operation : string)
  : M error W (list string) :=
  match OperationToVerb operation with
  | Err _ | Panic => ret forbiddenOperations
  | Ok verbs =>
      allowed ⇐ isOperationAllowed user namespaces group version resource verbs;;
      ret (if allowed then forbiddenOperations else (forbiddenOperations ++ [operation])%list)
  end.

Definition forbidden_resource (user : UserInfo) (namespaces : list string) (rule : RuleWithOperations)
    (group version : string) (forbidden : gmap string string) (resource : string)
  : M error W (gmap string string) :=
  forbiddenOperations ⇐ for_fold (forbidden_operation user namespaces group version resource) []
    (rule_Operations rule);;
  ret (match forbiddenOperations with
       | [] => forbidden
       | _ => <[group ++ ("/" ++ (version ++ (" " ++ resource))) := Join forbiddenOperations ", "]> forbidden
       end).

Definition forbidden_rule (user : UserInfo) (namespaces : list string)
    (forbidden : gmap string string) (rule : RuleWithOperations) : M error W (gmap string string) :=
  for_fold (λ forbidden group,
    for_fold (λ forbidden version,
      for_fold (forbidden_resource user namespaces rule group version) forbidden (rule_Resources rule))
      forbidden (rule_APIVersions rule))
    forbidden (rule_APIGroups rule).

(** [ord] is the iteration order of the map of forbidden resources. *)
Definition hasRightResourcesPermissions (ord : gmap string string → list (string * string))
    (scopedResources : ScopedResources) (user : UserInfo) (namespaces : list string)
  : M error W (bool * list string) :=
  forbiddenResourcesMap ⇐ for_fold (forbidden_rule user namespaces) ∅ (sr_Rules scopedResources);;
  let forbiddenResources :=
    map (λ '(k, v), k ++ (" [" ++ (v ++ "]"))) (ord forbiddenResourcesMap) in
  ret ((length forbiddenResources =? 0)%nat, forbiddenResources).

Definition identity_attrs (identityNamespace : string) : ResourceAttributes :=
  mkAttrs identityNamespace "list" GroupVersion_Group GroupVersion_Version "remoteuserbindings" "".

(** The last part: the references outside of the syncer's own namespace. *)
Definition authorize_references (syncer : Syncer) (user : UserInfo) : M error W Response :=
  let ownNamespace := om_Namespace (syncer_meta syncer) in
  match RemoteSyncerRefs (SyncerSpec syncer) ownNamespace with
  | Panic => panic
  | Err err => ret (Errored 400 err)
  | Ok objectRefs =>
      denied ⇐ attempt (AuthorizeCrossNamespaceRefs user objectRefs ownNamespace []);;
      ret (match denied with
           | inr err => Errored 500 err
           | inl (Some denied) => cross_denied user denied
           | inl None => Allowed ("The user " ++ (format_user user ++
                           " is allowed to scope all of the listed resources"))
           end)
  end.

(** The middle part: the identity store of another namespace. *)
Definition authorize_identities (syncer : Syncer) (user : UserInfo) : M error W Response :=
  let identityNamespace := IdentityNamespace syncer in
  if negb (String.eqb identityNamespace (om_Namespace (syncer_meta syncer))) then
    allowed ⇐ attempt (CheckAccess user (identity_attrs identityNamespace));;
    match allowed with
    | inr err => ret (Errored 500 err)
    | inl false => ret (Denied ("the user " ++ (ui_Username user ++
        (" is not allowed to list the remoteuserbindings of the identity store namespace " ++
          identityNamespace))))
    | inl true => authorize_references syncer user
    end
  else authorize_references syncer user.

Definition authorizeSyncer (ord : gmap string string → list (string * string)) (syncer : Syncer)
    (user : UserInfo) (namespaces : list string) : M error W Response :=
  r ⇐ attempt (hasRightResourcesPermissions ord (Scoped (SyncerSpec syncer)) user namespaces);;
  match r with
  | inr err => ret (Errored 500 err)
  | inl (false, forbiddenResources) =>
      ret (Denied (Error (resourceScopeForbidden user forbiddenResources)))
  | inl (true, _) => authorize_identities syncer user
  end.

(** ** The rules-permissions handlers *)

Definition system_scopes : Response := Allowed "System user is allowed to scope any resources".

Definition RemoteSyncer_Handle `{Decoder RemoteSyncer} (ord : gmap string string → list (string * string))
    (managerNs : string) (req : AdmissionRequest) : M error W Response :=
  let user := ar_UserInfo req in
  if doesUserBypassWebhook user managerNs then ret system_scopes
  else match DecodeObject req with
       | Panic => panic
       | Err err => ret (Errored 400 err)
       | Ok rs => authorizeSyncer ord (SyncerRS rs) user [om_Namespace (rs_Meta rs)]
       end.

Definition selectedNamespaces `{NamespaceLister W} (cwrs : ClusterWideRemoteSyncer)
  : M error W (list string) :=
  match cw_NamespaceSelector (cwrs_Spec cwrs) with
  | None => ret [""]
  | Some ls =>
      selector ⇐ lift (LabelSelectorAsSelector ls);;
      if sel_Empty selector then ret [""] else list_namespaces selector
  end.

Definition ClusterWideRemoteSyncer_Handle `{Decoder ClusterWideRemoteSyncer, NamespaceLister W}
    (ord : gmap string string → list (string * string)) (managerNs : string) (req : AdmissionRequest)
  : M error W Response :=
  let user := ar_UserInfo req in
  if doesUserBypassWebhook user managerNs then ret system_scopes
  else match DecodeObject req with
       | Panic => panic
       | Err err => ret (Errored 400 err)
       | Ok cwrs =>
           namespaces ⇐ attempt (selectedNamespaces cwrs);;
           match namespaces with
           | inr err => ret (Errored 500 err)
           | inl namespaces => authorizeSyncer ord (SyncerCW cwrs) user namespaces
           end
       end.

(** ** The handlers of the objects that hold references *)

Definition RemoteUserPermissions_Handle `{Decoder RemoteUser} (req : AdmissionRequest)
  : M error W Response :=
  let user := ar_UserInfo req in
  match DecodeObject req with
  | Panic => panic
  | Err err => ret (Errored 400 err)
  | Ok ru =>
      let ns := om_Namespace (ru_Meta ru) in
      match RemoteUserRefs (ru_Spec ru) ns with
      | Panic => panic
      | Err err => ret (Errored 400 err)
      | Ok objectRefs =>
          denied ⇐ attempt (AuthorizeRefs user objectRefs);;
          ret (match denied with
               | inr err => Errored 400 err
               | inl (Some denied) =>
                   denyRef user denied ns (credentialsNotFound
                     ("the user " ++ (format_user user ++
                       " is not allowed to get the secret for its own remote user"))
                     (ref_Name (ru_SecretRef (ru_Spec ru))))
               | inl None =>
                   Allowed ("The user " ++ (format_user user ++ (" is allowed to get the secret: " ++
                     ref_Name (ru_SecretRef (ru_Spec ru)))))
               end)
      end
  end.

Definition binding_denied (user : UserInfo) (denied : ObjectRef) : error :=
  let ref := mkRef (or_Namespace denied) (or_Name denied) in
  if String.eqb (or_Resource denied) "remotetargets" then denyGetRemoteTarget user ref
  else denyGetRemoteUser user ref.

Definition RemoteUserBindingPermissions_Handle `{Decoder RemoteUserBinding} (req : AdmissionRequest)
  : M error W Response :=
  let user := ar_UserInfo req in
  match DecodeObject req with
  | Panic => panic
  | Err err => ret (Errored 400 err)
  | Ok rub =>
      let ns := om_Namespace (rub_Meta rub) in
      match RemoteUserBindingRefs (rub_Spec rub) ns with
      | Panic => panic
      | Err err => ret (Errored 400 err)
      | Ok objectRefs =>
          denied ⇐ attempt (AuthorizeRefs user objectRefs);;
          ret (match denied with
               | inr err => Errored 400 err
               | inl (Some denied) => denyRef user denied ns (binding_denied user denied)
               | inl None => Allowed ("The user " ++ (format_user user ++
                   " is allowed to get all the referenced remoteusers and remotetargets."))
               end)
      end
  end.
End Handlers.

(** ** The managed RemoteUsers ([remoteuser_managed_permissions.go]) *)

Section Managed.
Context `{Lib, Decoder RemoteUser, RemoteUserJson}.

Definition is_managed (ru : RemoteUser) : bool :=
  String.eqb (mget (om_Annotations (ru_Meta ru)) RubAnnotationKeyManaged) "true".

(** The label of the owner against the requesting user. *)
Definition owned_by (ru : RemoteUser) (user : UserInfo) : bool :=
  String.eqb (mget (om_Labels (ru_Meta ru)) K8sUserLabelKey) (Sanitize (ui_Username user)).

Definition stamp_owner (user : UserInfo) (ru : RemoteUser) : RemoteUser :=
  let m := ru_Meta ru in
  let m := set_labels (<[K8sUserLabelKey := Sanitize (ui_Username user)]> (om_Labels m)) m in
  let m := set_annotations (<[K8sUserLabelKey := ui_Username user]> (om_Annotations m)) m in
  mkRemoteUser m (ru_Spec ru) (ru_Status ru).

(** From the [CREATE] comment on. *)
Definition stamp_response (req : AdmissionRequest) (ru : RemoteUser) : result error Response :=
  if is_managed ru then
    match json_Marshal (stamp_owner (ar_UserInfo req) ru) with
    | Panic => Panic
    | Err err => Ok (Errored 500 err)
    | Ok marshaledRu => Ok (PatchResponseFromRaw (ar_Object req) marshaledRu)
    end
  else Ok (Allowed "The RemoteUser is not managed").

(** The old object, when the user does not own it and it is managed. *)
Definition check_owner (req : AdmissionRequest) (denied : string) (k : result error Response)
  : result error Response :=
  match DecodeRaw (ar_OldObject req) with
  | Panic => Panic
  | Err err => Ok (Errored 400 err)
  | Ok oldRu => if is_managed oldRu && negb (owned_by oldRu (ar_UserInfo req)) then Ok (Denied denied)
                else k
  end.

Definition RemoteUserManaged_Handle (managerNs : string) (req : AdmissionRequest)
  : result error Response :=
  match DecodeObject req with
  | Panic => Panic
  | Err err => Ok (Errored 400 err)
  | Ok ru =>
      if String.eqb (ar_Operation req) "DELETE" then
        if doesUserBypassWebhook (ar_UserInfo req) managerNs then
          Ok (Allowed "System user is allowed to delete any RemoteUser")
        else if is_managed ru then
          match DecodeRaw (ar_OldObject req) with
          | Panic => Panic
          | Err err => Ok (Errored 400 err)
          | Ok oldRu =>
              if negb (owned_by oldRu (ar_UserInfo req)) then
                Ok (Denied "The user is not allowed to delete the RemoteUser of another user")
              else Ok (Allowed "The user is allowed to delete its own RemoteUser")
          end
        else stamp_response req ru
      else if String.eqb (ar_Operation req) "UPDATE" then
        if doesUserBypassWebhook (ar_UserInfo req) managerNs then
          Ok (Allowed "System user is allowed to update any RemoteUser")
        else check_owner req "The user is not allowed to update the RemoteUser of another user"
               (stamp_response req ru)
      else stamp_response req ru
  end.
End Managed.

(** ** Specification *)

Section Gates.
Context {W : Type} `{Cluster W, Lib}.

(** One of the verbs granted in every namespace, or a combination of group, version and
    resource that the server does not know; all at moments of a run from [w] to [w']. *)
Definition operation_granted (user : UserInfo) (namespaces : list string)
    (group version resource : string) (verbs : list string) (w w' : W) : Prop :=
  (∀ ns, ns ∈ namespaces → ∃ verb, verb ∈ verbs ∧
     granted_during user (mkAttrs ns verb group version resource "") w w') ∨
  (∃ ns verb w1 w2 err, ns ∈ namespaces ∧ verb ∈ verbs ∧ rtc review_step w w1 ∧
     CheckAccess user (mkAttrs ns verb group version resource "") w1 = (Err err, w2) ∧
     isInvalidCombinationError err = true).

Definition rules_granted (user : UserInfo) (namespaces : list string) (rules : list RuleWithOperations)
    (w w' : W) : Prop :=
  ∀ rule group version resource operation verbs,
    rule ∈ rules → group ∈ rule_APIGroups rule → version ∈ rule_APIVersions rule →
    resource ∈ rule_Resources rule → operation ∈ rule_Operations rule →
    OperationToVerb operation = Ok verbs →
    operation_granted user namespaces group version resource verbs w w'.

Definition reference_granted (user : UserInfo) (ownNamespace : string) (w w' : W) (ref : ObjectRef) : Prop :=
  or_Namespace ref = ownNamespace ∨ granted_during user (get_attrs ref) w w'.

(** What the author of a syncer must be allowed to do. *)
Record syncer_authorised (syncer : Syncer) (user : UserInfo) (namespaces : list string) (w w' : W) : Prop := {
  auth_rules : rules_granted user namespaces (sr_Rules (Scoped (SyncerSpec syncer))) w w';
  auth_identities : IdentityNamespace syncer = om_Namespace (syncer_meta syncer) ∨
                    granted_during user (identity_attrs (IdentityNamespace syncer)) w w';
  auth_references : ∃ objectRefs,
    RemoteSyncerRefs (SyncerSpec syncer) (om_Namespace (syncer_meta syncer)) = Ok objectRefs ∧
    Forall (reference_granted user (om_Namespace (syncer_meta syncer)) w w') objectRefs }.

Ltac grant_at Ha := eapply granted_mono; [|exact Ha|]; done.

Lemma operation_granted_mono user nss g v r verbs w w1 w2 w' :
  rtc review_step w w1 → operation_granted user nss g v r verbs w1 w2 → rtc review_step w2 w' →
  operation_granted user nss g v r verbs w w'.
Proof.
  intros Hl [Hg|(ns & verb & wa & wb & err & Hns & Hv & Hr & Hc)] Hu.
  - left. intros ns Hns. destruct (Hg ns Hns) as (verb & Hv & Ha). exists verb. split; [done|grant_at Ha].
  - right. exists ns, verb, wa, wb, err. split_and!; try done; [by etrans|by destruct Hc..].
Qed.

Lemma verb_allowed_inv user ns g v r verbs (w w' : W) b :
  verb_allowed user ns g v r verbs w = (Ok b, w') →
  rtc review_step w w' ∧
  match b with
  | Some true => ∃ verb, verb ∈ verbs ∧ granted_during user (mkAttrs ns verb g v r "") w w'
  | None => ∃ verb w1 w2 err, verb ∈ verbs ∧ rtc review_step w w1 ∧
      CheckAccess user (mkAttrs ns verb g v r "") w1 = (Err err, w2) ∧ isInvalidCombinationError err = true
  | Some false => True
  end.
Proof.
  revert w; induction verbs as [|verb verbs IH]; intros w Hr; simpl in Hr; inv_ok; [done|].
  match goal with E : attempt _ _ = _ |- _ => apply attempt_ok_inv in E; rename E into Hc end.
  match type of Hc with match ?x with _ => _ end => destruct x as [[]|err] end.
  - inv_ok. split; [by eapply review_run|]. exists verb. split; [left|by apply granted_now].
  - destruct (IH _ Hr) as [Hrun Hb]. apply review_run in Hc. split; [by etrans|].
    destruct b as [[]|]; [|done|].
    + destruct Hb as (vb & Hin & Ha). exists vb. split; [by right|grant_at Ha].
    + destruct Hb as (vb & w2 & w3 & err & Hin & Hw & Ha). exists vb, w2, w3, err.
      split_and!; [by right|by etrans|by destruct Ha..].
  - destruct (isInvalidCombinationError err) eqn:Hi; inv_ok. split; [by eapply review_run|].
    eexists verb, w, _, err. split_and!; [left|done|eauto..].
Qed.

Lemma isOperationAllowed_inv user nss g v r verbs (w w' : W) b :
  isOperationAllowed user nss g v r verbs w = (Ok b, w') →
  rtc review_step w w' ∧ (b = true → operation_granted user nss g v r verbs w w').
Proof.
  revert w; induction nss as [|ns nss IH]; intros w Hr; simpl in Hr; inv_ok.
  { split; [done|]. left. by intros ns ?%not_elem_of_nil. }
  match goal with E : verb_allowed _ _ _ _ _ _ _ = _ |- _ => apply verb_allowed_inv in E as [Hrun Hv] end.
  destruct x as [[]|].
  - destruct (IH _ Hr) as [Hrun' Hg]. split; [by etrans|]. intros Hb.
    destruct (Hg Hb) as [Hall|(n & vb & w1 & w2 & err & Hn & Hvb & Hw & Hrest)].
    + left. intros n [->|Hn]%elem_of_cons.
      * destruct Hv as (vb & Hin & Ha). exists vb. split; [done|grant_at Ha].
      * destruct (Hall n Hn) as (vb & Hin & Ha). exists vb. split; [done|grant_at Ha].
    + right. exists n, vb, w1, w2, err. split_and!; [by right|done|by etrans|by destruct Hrest..].
  - by inv_ok.
  - inv_ok. split; [done|]. intros _. destruct Hv as (vb & w1 & w2 & err & Hin & Hrest).
    right. exists ns, vb, w1, w2, err. split; [left|done].
Qed.

Lemma forbidden_operation_inv user nss g v res op (s s' : list string) (w w' : W) :
  forbidden_operation user nss g v res s op w = (Ok s', w') →
  rtc review_step w w' ∧ (s' = [] → s = [] ∧ ∀ verbs, OperationToVerb op = Ok verbs →
    operation_granted user nss g v res verbs w w').
Proof.
  unfold forbidden_operation. intros Hb.
  destruct (OperationToVerb op) as [verbs|e|]; inv_ok; [|split; [done|intros ->; split; [done|by intros]]..].
  match goal with E : isOperationAllowed _ _ _ _ _ _ _ = _ |- _ =>
    apply isOperationAllowed_inv in E as [Hrun Ho] end.
  split; [done|]. destruct x; [|by destruct s]. intros ->. split; [done|]. intros verbs' [= <-]. auto.
Qed.

(** A resource, a version, a group, a rule: the four nested loops, one by one. *)
Definition resource_granted user nss (rule : RuleWithOperations) g v res (w w' : W) : Prop :=
  ∀ op, op ∈ rule_Operations rule → ∀ verbs, OperationToVerb op = Ok verbs →
    operation_granted user nss g v res verbs w w'.
Definition version_granted user nss rule g v (w w' : W) : Prop :=
  ∀ res, res ∈ rule_Resources rule → resource_granted user nss rule g v res w w'.
Definition group_granted user nss rule g (w w' : W) : Prop :=
  ∀ v, v ∈ rule_APIVersions rule → version_granted user nss rule g v w w'.
Definition rule_granted user nss (rule : RuleWithOperations) (w w' : W) : Prop :=
  ∀ g, g ∈ rule_APIGroups rule → group_granted user nss rule g w w'.

Lemma forbidden_resource_inv user nss rule g v res (f f' : gmap string string) (w w' : W) :
  forbidden_resource user nss rule g v f res w = (Ok f', w') →
  rtc review_step w w' ∧ (f' = ∅ → f = ∅ ∧ resource_granted user nss rule g v res w w').
Proof.
  unfold forbidden_resource. intros Hr. inv_ok.
  match goal with E : for_fold _ _ _ _ = _ |- _ => rename E into Hf end.
  destruct (for_fold_stays _ _ [] (rtc review_step) (λ op w w', ∀ verbs, OperationToVerb op = Ok verbs →
    operation_granted user nss g v res verbs w w') _ _ _ _
    (λ op s w s' w', forbidden_operation_inv user nss g v res op s s' w w') Hf) as [Hrun Hq].
  split; [done|].
  destruct x as [|o ops]; [|by intros ?%insert_non_empty]. intros He. split; [exact He|].
  intros op Hop verbs Hv. destruct (proj2 (Hq eq_refl) op Hop) as (wa & wb & ? & Hg & ?).
  by eapply operation_granted_mono; [|eapply Hg|].
Qed.

Lemma forbidden_rule_inv user nss rule (f f' : gmap string string) (w w' : W) :
  forbidden_rule user nss f rule w = (Ok f', w') →
  rtc review_step w w' ∧ (f' = ∅ → f = ∅ ∧ rule_granted user nss rule w w').
Proof.
  assert (Hver : ∀ g v f w f' w',
    for_fold (forbidden_resource user nss rule g v) f (rule_Resources rule) w = (Ok f', w') →
    rtc review_step w w' ∧ (f' = ∅ → f = ∅ ∧ version_granted user nss rule g v w w')).
  { clear. intros g v f w f' w' Hf.
    destruct (for_fold_stays _ _ ∅ (rtc review_step) (resource_granted user nss rule g v) _ _ _ _
      (λ res s w s' w', forbidden_resource_inv user nss rule g v res s s' w w') Hf) as [Hrun Hq].
    split; [done|]. intros He. destruct (Hq He) as [-> Hall]. split; [done|]. intros res Hres op Hop verbs Hv.
    destruct (Hall res Hres) as (wa & wb & ? & Hg & ?). by eapply operation_granted_mono; [|eapply Hg|]. }
  assert (Hgrp : ∀ g f w f' w',
    for_fold (λ f v, for_fold (forbidden_resource user nss rule g v) f (rule_Resources rule)) f
      (rule_APIVersions rule) w = (Ok f', w') →
    rtc review_step w w' ∧ (f' = ∅ → f = ∅ ∧ group_granted user nss rule g w w')).
  { intros g f0 w0 f0' w0' Hf.
    destruct (for_fold_stays _ _ ∅ (rtc review_step) (version_granted user nss rule g) _ _ _ _
      (λ v s w s' w', Hver g v s w s' w') Hf) as [Hrun Hq].
    split; [done|]. intros He. destruct (Hq He) as [-> Hall]. split; [done|].
    intros v Hin res Hres op Hop verbs Hv.
    destruct (Hall v Hin) as (wa & wb & ? & Hg & ?). by eapply operation_granted_mono; [|eapply Hg|]. }
  unfold forbidden_rule. intros Hf.
  destruct (for_fold_stays _ _ ∅ (rtc review_step) (group_granted user nss rule) _ _ _ _
    (λ g s w s' w', Hgrp g s w s' w') Hf) as [Hrun Hq].
  split; [done|]. intros He. destruct (Hq He) as [-> Hall]. split; [done|].
  intros g Hing v Hin res Hres op Hop verbs Hv.
  destruct (Hall g Hing) as (wa & wb & ? & Hg & ?). by eapply operation_granted_mono; [|eapply Hg|].
Qed.

Lemma forbidden_rules_inv user nss rules (f : gmap string string) (w w' : W) :
  for_fold (forbidden_rule user nss) ∅ rules w = (Ok f, w') →
  rtc review_step w w' ∧ (f = ∅ → rules_granted user nss rules w w').
Proof.
  intros Hf.
  destruct (for_fold_stays _ _ ∅ (rtc review_step) (rule_granted user nss) _ _ _ _
    (λ rule s w s' w', forbidden_rule_inv user nss rule s s' w w') Hf) as [Hrun Hq].
  split; [done|]. intros He rule g v res op verbs Hr Hg Hv Hres Hop Hverbs.
  destruct (proj2 (Hq He) rule Hr) as (wa & wb & ? & Hall & ?).
  by eapply operation_granted_mono; [|eapply Hall|].
Qed.
Lemma authorize_references_inv syncer user (w : W) resp w' :
  authorize_references syncer user w = (Ok resp, w') → lets_through resp = true →
  rtc review_step w w' ∧ ∃ objectRefs,
    RemoteSyncerRefs (SyncerSpec syncer) (om_Namespace (syncer_meta syncer)) = Ok objectRefs ∧
    Forall (reference_granted user (om_Namespace (syncer_meta syncer)) w w') objectRefs.
Proof.
  unfold authorize_references. intros Hr Hl. destruct (RemoteSyncerRefs _ _) as [rs|e|]; inv_ok; try done.
  match goal with E : attempt _ _ = _ |- _ => apply attempt_ok_inv in E; rename E into Ha end.
  destruct x as [[d|]|e]; [done| |done]. apply AuthorizeRefs_granted in Ha.
  split; [by eapply all_granted_run|]. exists rs. split; [done|]. apply Forall_forall. intros ref Hin.
  destruct (decide (or_Namespace ref = om_Namespace (syncer_meta syncer))); [by left|right].
  eapply all_granted_elem; [exact Ha|]. apply cross_filter_spec. split; [done|]. split; [done|].
  by intros ?%not_elem_of_nil.
Qed.

Lemma hasRight_inv ord scoped user nss (w w' : W) fr :
  (∀ m, ord m ≡ₚ map_to_list m) →
  hasRightResourcesPermissions ord scoped user nss w = (Ok (true, fr), w') →
  rtc review_step w w' ∧ rules_granted user nss (sr_Rules scoped) w w'.
Proof.
  intros Hord Ha. unfold hasRightResourcesPermissions in Ha. inv_ok.
  match goal with E : for_fold _ _ _ _ = _ |- _ => apply forbidden_rules_inv in E as [Hrun Hg] end.
  split; [done|]. apply Hg, map_to_list_empty_iff, Permutation_nil_r. rewrite <- Hord. symmetry.
  match goal with E : (_ =? 0)%nat = true |- _ => apply Nat.eqb_eq, length_zero_iff_nil, map_eq_nil in E;
      by rewrite E end.
Qed.

Lemma authorizeSyncer_inv ord syncer user nss (w : W) resp w' :
  (∀ m, ord m ≡ₚ map_to_list m) →
  authorizeSyncer ord syncer user nss w = (Ok resp, w') → lets_through resp = true →
  syncer_authorised syncer user nss w w'.
Proof.
  intros Hord Hr Hl. unfold authorizeSyncer in Hr. inv_ok.
  match goal with E : attempt _ _ = _ |- _ => apply attempt_ok_inv in E; rename E into Ha end.
  destruct x as [[[] fr]|e]; inv_ok; try done. apply hasRight_inv in Ha as [Hrun Hrules]; [|done].
  assert (Hlater : ∀ w1, rtc review_step x0 w1 → authorize_references syncer user w1 = (Ok resp, w') →
    rules_granted user nss (sr_Rules (Scoped (SyncerSpec syncer))) w w' ∧
    ∃ objectRefs, RemoteSyncerRefs (SyncerSpec syncer) (om_Namespace (syncer_meta syncer)) = Ok objectRefs ∧
      Forall (reference_granted user (om_Namespace (syncer_meta syncer)) w w') objectRefs).
  { intros w1 Hw1 Href. apply authorize_references_inv in Href as (Hrun' & refs & Hrefs & Hall); [|done].
    split.
    - intros rule g v res op verbs ??????. eapply operation_granted_mono; [|by eapply Hrules|]; [done|by etrans].
    - exists refs. split; [done|]. eapply Forall_impl; [exact Hall|]. intros ref [Hown|Ha']; [by left|right].
      eapply granted_mono; [|exact Ha'|done]. by etrans. }
  unfold authorize_identities in Hr. destruct (String.eqb_spec (IdentityNamespace syncer)
    (om_Namespace (syncer_meta syncer))) as [En|En]; simpl in Hr.
  - destruct (Hlater x0 ltac:(done) Hr). split; [done|by left|done].
  - inv_ok. match goal with E : attempt _ _ = _ |- _ => apply attempt_ok_inv in E; rename E into Hi end.
    match type of Hi with match ?x with _ => _ end => destruct x as [[]|err] end; inv_ok; try done.
    pose proof Hr as Href. apply authorize_references_inv in Href as (Hrun' & _); [|done].
    destruct (Hlater x1 (review_run _ _ _ _ _ Hi) Hr). split; [done| |done].
    right. eapply granted_mono; [exact Hrun|by apply granted_now|done].
Qed.

(** ** Properties *)

(** (C10) A request to create, change or delete a cluster-wide syncer goes through only for a
    bypass user, or when all of the following was reviewed with success during this very
    run. For each supported operation of each scoped rule, its author was granted one of the
    verbs of the operation in every namespace the selector picks (or in all of them at once);
    the exception is a group, version and resource that the API server calls an invalid
    combination in one of these namespaces, for which the operation counts as settled in all
    of them ([operation_granted]). Besides, the author may list the bindings of the identity
    store, and get every object the spec references. *)
Theorem cluster_wide_gate_sound `{Decoder ClusterWideRemoteSyncer, NamespaceLister W}
    ord managerNs req (w : W) resp w' :
  (∀ m, ord m ≡ₚ map_to_list m) →
  ClusterWideRemoteSyncer_Handle ord managerNs req w = (Ok resp, w') → lets_through resp = true →
  doesUserBypassWebhook (ar_UserInfo req) managerNs = true ∨
  ∃ cwrs namespaces w1, DecodeObject req = Ok cwrs ∧ selectedNamespaces cwrs w = (Ok namespaces, w1) ∧
    syncer_authorised (SyncerCW cwrs) (ar_UserInfo req) namespaces w1 w'.
Proof.
  intros Hord Hr Hl. unfold ClusterWideRemoteSyncer_Handle in Hr.
  destruct (doesUserBypassWebhook _ _); [by left|right].
  destruct (DecodeObject req) as [cwrs|e|]; inv_ok; try done.
  match goal with E : attempt _ _ = _ |- _ => apply attempt_ok_inv in E; rename E into Hs end.
  destruct x as [nss|e]; inv_ok; try done.
  eexists cwrs, nss, _. split_and!; [done|exact Hs|]. by eapply authorizeSyncer_inv.
Qed.

(** The same for a namespaced syncer: its own namespace is the one the scoped rules are
    reviewed in, and the bindings it uses are its own. *)
Theorem namespaced_gate_sound `{Decoder RemoteSyncer} ord managerNs req (w : W) resp w' :
  (∀ m, ord m ≡ₚ map_to_list m) →
  RemoteSyncer_Handle ord managerNs req w = (Ok resp, w') → lets_through resp = true →
  doesUserBypassWebhook (ar_UserInfo req) managerNs = true ∨
  ∃ rs, DecodeObject req = Ok rs ∧
    syncer_authorised (SyncerRS rs) (ar_UserInfo req) [om_Namespace (rs_Meta rs)] w w'.
Proof.
  intros Hord Hr Hl. unfold RemoteSyncer_Handle in Hr.
  destruct (doesUserBypassWebhook _ _); [by left|right].
  destruct (DecodeObject req) as [rs|e|]; inv_ok; try done.
  eexists rs. split; [done|]. by eapply authorizeSyncer_inv.
Qed.

(** A binding goes through only when its author was granted [get] on every RemoteUser
    and RemoteTarget it names, the ones of its own namespace included, whoever the
    author is; and when the handler denies, one of them was refused. *)
Theorem binding_gate_exact `{Decoder RemoteUserBinding} req (w : W) resp w' :
  RemoteUserBindingPermissions_Handle req w = (Ok resp, w') →
  match resp with
  | Allowed _ => ∃ rub objectRefs, DecodeObject req = Ok rub ∧
      RemoteUserBindingRefs (rub_Spec rub) (om_Namespace (rub_Meta rub)) = Ok objectRefs ∧
      Forall (λ ref, granted_during (ar_UserInfo req) (get_attrs ref) w w') objectRefs
  | Denied _ => ∃ rub objectRefs ref w1, DecodeObject req = Ok rub ∧
      RemoteUserBindingRefs (rub_Spec rub) (om_Namespace (rub_Meta rub)) = Ok objectRefs ∧
      ref ∈ objectRefs ∧ CheckAccess (ar_UserInfo req) (get_attrs ref) w1 = (Ok false, w')
  | Errored code _ => code = 400%Z
  | PatchResponseFromRaw _ _ => False
  end.
Proof.
  unfold RemoteUserBindingPermissions_Handle. intros Hr.
  destruct (DecodeObject req) as [rub|e|] eqn:Ed; inv_ok; try done.
  destruct (RemoteUserBindingRefs _ _) as [rs|e|] eqn:Er; inv_ok; try done.
  match goal with E : attempt _ _ = _ |- _ => apply attempt_ok_inv in E; rename E into Ha end.
  destruct x as [[d|]|e]; [| |done].
  - apply AuthorizeRefs_denied in Ha as (before & after & w1 & -> & _ & Hrev).
    unfold denyRef, cross_denied.
    assert (Hd : ∃ rub0 objectRefs ref w1, Ok (E := error) rub = Ok rub0 ∧
      RemoteUserBindingRefs (rub_Spec rub0) (om_Namespace (rub_Meta rub0)) = Ok objectRefs ∧
      ref ∈ objectRefs ∧ CheckAccess (ar_UserInfo req) (get_attrs ref) w1 = (Ok false, w')).
    { eexists rub, _, d, w1. split_and!; [done|exact Er| |exact Hrev].
      apply elem_of_app. right. left. }
    by destruct (negb _).
  - apply AuthorizeRefs_granted in Ha. exists rub, rs. split_and!; [done..|].
    apply Forall_forall. intros ref Hin. by eapply all_granted_elem.
Qed.
End Gates.

(** An operation the code does not translate to verbs, such as the wildcard [*] that
    admission rules accept, is not reviewed at all: a rule made of such operations is
    granted to every user, whatever the API server would answer. *)
Theorem unsupported_operations_unreviewed {W} `{Cluster W} ord scoped user namespaces (w : W) :
  ord ∅ = [] →
  (∀ rule op, rule ∈ sr_Rules scoped → op ∈ rule_Operations rule →
     op ≠ "CREATE" ∧ op ≠ "DELETE" ∧ op ≠ "UPDATE" ∧ op ≠ "CONNECT") →
  hasRightResourcesPermissions ord scoped user namespaces w = (Ok (true, []), w).
Proof.
  intros Hord Hops. unfold hasRightResourcesPermissions.
  rewrite (bind_ok _ _ w ∅ w); [by rewrite Hord|].
  apply for_fold_id. intros rule Hrule. apply for_fold_id. intros g _. apply for_fold_id. intros v _. apply for_fold_id. intros res _.
  unfold forbidden_resource. rewrite (bind_ok _ _ w [] w); [done|]. apply for_fold_id. intros op Hop.
  destruct (Hops rule op Hrule Hop) as (?&?&?&?). unfold forbidden_operation, OperationToVerb.
  by repeat case_eqb.
Qed.

(** The bypass compares the user name with the manager's namespace as a bare prefix: a
    service account of any namespace whose name merely starts with the manager's
    bypasses the webhooks. *)
Theorem bypass_matches_prefixed_namespaces managerNs suffix name user :
  ui_Username user = "system:serviceaccount:" ++ ((managerNs ++ suffix) ++ (":" ++ name)) →
  doesUserBypassWebhook user managerNs = true.
Proof.
  intros Hu. unfold doesUserBypassWebhook, HasPrefix. rewrite Hu. apply orb_true_iff. right.
  apply prefix_iff. exists (suffix ++ (":" ++ name)). by rewrite !append_assoc.
Qed.

Section ManagedUsers.
Context `{Lib, Decoder RemoteUser, RemoteUserJson}.

Definition owner_checked (old : RemoteUser) (user : UserInfo) : Prop :=
  is_managed old = true → mget (om_Labels (ru_Meta old)) K8sUserLabelKey = Sanitize (ui_Username user).

(** (C13) The ownership of managed RemoteUsers. A bypass user, that is the manager or a service
    account whose name has the prefix of its namespace, may update and delete any of them, and
    its update goes through unstamped. For everybody else a managed RemoteUser is updated or deleted
    only by the user its label names. And whoever creates a managed RemoteUser, bypass user
    or not, or updates one without the bypass, finds it labelled and annotated with the user
    who asked, whatever the request claimed. *)
Theorem managed_remoteusers_owned managerNs req resp :
  RemoteUserManaged_Handle managerNs req = Ok resp → lets_through resp = true →
  (doesUserBypassWebhook (ar_UserInfo req) managerNs = true ∧
     (ar_Operation req = "UPDATE" ∨ ar_Operation req = "DELETE") ∧ ∃ message, resp = Allowed message) ∨
  ((ar_Operation req = "UPDATE" ∨ ar_Operation req = "DELETE") →
     ∃ old, DecodeRaw (ar_OldObject req) = Ok old ∧ owner_checked old (ar_UserInfo req)) ∧
  (ar_Operation req ≠ "DELETE" →
     ∃ ru, Decode req = Ok ru ∧
       if is_managed ru then
         ∃ json, json_Marshal (stamp_owner (ar_UserInfo req) ru) = Ok json ∧
           resp = PatchResponseFromRaw (ar_Object req) json ∧
           owned_by (stamp_owner (ar_UserInfo req) ru) (ar_UserInfo req) = true
       else resp = Allowed "The RemoteUser is not managed").
Proof.
  assert (Hstamp : ∀ ru, stamp_response req ru = Ok resp → lets_through resp = true →
    if is_managed ru then ∃ json, json_Marshal (stamp_owner (ar_UserInfo req) ru) = Ok json ∧
      resp = PatchResponseFromRaw (ar_Object req) json ∧
      owned_by (stamp_owner (ar_UserInfo req) ru) (ar_UserInfo req) = true
    else resp = Allowed "The RemoteUser is not managed").
  { intros ru. unfold stamp_response. destruct (is_managed ru); [|by intros [= <-]].
    destruct (json_Marshal _) as [j|e|] eqn:Ej; intros [= <-] Hl; [|done]. exists j.
    split_and!; [done..|]. unfold owned_by, mget. simpl. by rewrite lookup_insert_eq, String.eqb_refl. }
  unfold RemoteUserManaged_Handle, DecodeObject, check_owner, owner_checked. intros Hr Hl.
  destruct (String.eqb_spec (ar_Operation req) "DELETE") as [Ed|Ed]; simpl in Hr.
  - destruct (DecodeRaw (ar_OldObject req)) as [ru|e|] eqn:Eo; simplify_eq; try done.
    destruct (doesUserBypassWebhook _ _); [left; injection Hr as <-; eauto|right].
    split; [|by intros ?]. intros _. exists ru. split; [done|]. intros Hm. rewrite Hm in Hr.
    unfold owned_by in Hr. destruct (String.eqb_spec (mget (om_Labels (ru_Meta ru)) K8sUserLabelKey)
      (Sanitize (ui_Username (ar_UserInfo req)))); [done|]. by injection Hr as <-.
  - destruct (Decode req) as [ru|e|] eqn:Edec; simplify_eq; try done.
    destruct (String.eqb_spec (ar_Operation req) "UPDATE") as [Eu|Eu].
    + destruct (doesUserBypassWebhook _ _); [left; injection Hr as <-; eauto|right].
      destruct (DecodeRaw (ar_OldObject req)) as [old|e|] eqn:Eo; simplify_eq; try done.
      destruct (is_managed old && negb (owned_by old (ar_UserInfo req))) eqn:Ho; simplify_eq; try done.
        split; [|intros _; exists ru; split; [done|by apply Hstamp]].
      intros _. exists old. split; [done|]. intros Hm. rewrite Hm in Ho. simpl in Ho. apply negb_false_iff in Ho. by apply String.eqb_eq.
    + right. split; [intros [He|He]; congruence|]. intros _. exists ru. split; [done|by apply Hstamp].
Qed.
End ManagedUsers.

(** ** Witnesses *)

Definition demo_scoped : ScopedResources :=
  mkScopedResources None None [mkRule ["CREATE"; "UPDATE"] [""] ["v1"] ["configmaps"] None].
Definition star_scoped : ScopedResources :=
  mkScopedResources None None [mkRule ["*"] ["*"] ["*"] ["*"] None].
Definition gate_spec : RemoteSyncerSpec :=
  mkRemoteSyncerSpec "https://git.x/org/app.git" "main" demo_scoped CommitApply OneTarget
    None "" [] [] "" false None [] false BlockDefaultUser BlockPushError 1
    None None false (mkRef "vault" "ca") (mkSOPSConfig false (mkRef "" "")).
Definition gate_cwrs : ClusterWideRemoteSyncer :=
  mkClusterWideRemoteSyncer (new_meta "wide" "" ∅)
    (mkCWSpec gate_spec (Some (mkLabelSelector {["env" := "prod"]} [])) "identities")
    (mkRemoteSyncerStatus [] None None None).
Definition gate_rs : RemoteSyncer :=
  mkRemoteSyncer (new_meta "sy" "team" ∅) gate_spec (mkRemoteSyncerStatus [] None None None).
Definition gate_rub : RemoteUserBinding :=
  mkRUB (new_meta "b" "team" ∅) (mkRUBSpec (mkSubject "User" "alice" "") [mkRef "" "me"] [mkRef "other" "t"])
    (mkRUBStatus [] "" [] "").
Definition gate_ru : RemoteUser :=
  mkRemoteUser (set_annotations {[RubAnnotationKeyManaged := "true"]}
      (new_meta "me" "team" {[K8sUserLabelKey := "bob"]}))
    (mkRemoteUserSpec (mkRef "" "creds") "a@x" "git.x") (mkRemoteUserStatus [] "" "" "" "").
Definition constant_decoder {T} (o : T) : Decoder T := {| Decode _ := Ok o; DecodeRaw _ := Ok o |}.
#[local] Instance gate_cwrs_decoder : Decoder ClusterWideRemoteSyncer := constant_decoder gate_cwrs.
#[local] Instance gate_rs_decoder : Decoder RemoteSyncer := constant_decoder gate_rs.
#[local] Instance gate_rub_decoder : Decoder RemoteUserBinding := constant_decoder gate_rub.
#[local] Instance gate_ru_decoder : Decoder RemoteUser := constant_decoder gate_ru.
#[local] Instance two_namespaces : NamespaceLister World :=
  {| list_namespaces _ := λ w, (Ok ["prod-a"; "prod-b"], w) |}.
Definition gate_request (op : string) : AdmissionRequest :=
  mkAdmissionRequest "uid" "x" "team" op alice (mkGVR "syngit.io" "v1beta5" "x") None "new" "old".
Definition sorted_order : gmap string string → list (string * string) := map_to_list.

Lemma cluster_wide_gate_sound_witness :
  let handle w := ClusterWideRemoteSyncer_Handle sorted_order "syngit" (gate_request "CREATE") w in
  (∃ msg, (handle (deny_ns "prod-b")).1 = Ok (Denied msg)) ∧
  (∃ msg, (handle (deny_ns "identities")).1 = Ok (Denied msg)) ∧
  (∃ msg, (handle (deny_ns "vault")).1 = Ok (Denied msg)) ∧
  (doesUserBypassWebhook alice "syngit" = true ∨
   ∃ cwrs namespaces (w1 : World),
     DecodeObject (gate_request "CREATE") = Ok cwrs ∧
     selectedNamespaces cwrs (deny_ns "x") = (Ok namespaces, w1) ∧
     syncer_authorised (SyncerCW cwrs) alice namespaces w1 (deny_ns "x")).
Proof.
  split; [by eexists|]. split; [by eexists|]. split; [by eexists|].
  eapply (cluster_wide_gate_sound sorted_order "syngit" (gate_request "CREATE") (deny_ns "x"));
    [done|reflexivity|done].
Defined.

Lemma namespaced_gate_sound_witness :
  let handle w := RemoteSyncer_Handle
    sorted_order "syngit" (gate_request "CREATE") w in
  (∃ msg, (handle (deny_ns "team")).1 = Ok (Denied msg)) ∧
  (doesUserBypassWebhook alice "syngit" = true ∨
   ∃ rs, DecodeObject (gate_request "CREATE") = Ok rs ∧
     syncer_authorised (SyncerRS rs) alice [om_Namespace (rs_Meta rs)] (deny_ns "x") (deny_ns "x")).
Proof.
  split; [by eexists|].
  eapply (namespaced_gate_sound sorted_order "syngit" (gate_request "CREATE") (deny_ns "x"));
    [done|reflexivity|done].
Defined.

Lemma binding_gate_exact_witness :
  (∃ msg, (RemoteUserBindingPermissions_Handle
     (gate_request "DELETE") (deny_ns "team")).1 = Ok (Denied msg)) ∧
  ∃ rub objectRefs, DecodeObject (gate_request "DELETE") = Ok rub ∧
    RemoteUserBindingRefs (rub_Spec rub) (om_Namespace (rub_Meta rub)) = Ok objectRefs ∧
    Forall (λ ref, granted_during alice (get_attrs ref) (deny_ns "x") (deny_ns "x")) objectRefs.
Proof.
  split; [by eexists|].
  assert (E : ∃ msg, RemoteUserBindingPermissions_Handle (gate_request "DELETE") (deny_ns "x") =
    (Ok (Allowed msg), deny_ns "x")) by (eexists; vm_compute; reflexivity).
  destruct E as [msg E]. exact (binding_gate_exact (gate_request "DELETE") (deny_ns "x") (Allowed msg) _ E).
Defined.

Lemma unsupported_operations_unreviewed_witness :
  let deny_all := mkWorld empty_view 1 (λ _, false) in
  (hasRightResourcesPermissions sorted_order demo_scoped alice [""] deny_all).1 =
    Ok (false, ["/v1 configmaps [CREATE, UPDATE]"]) ∧
  hasRightResourcesPermissions sorted_order star_scoped alice [""] deny_all = (Ok (true, []), deny_all).
Proof.
  split; [vm_compute; reflexivity|].
  apply unsupported_operations_unreviewed; [reflexivity|].
  intros rule op [->|[]%not_elem_of_nil]%elem_of_cons [->|[]%not_elem_of_nil]%elem_of_cons. done.
Defined.

Definition outsider : UserInfo := mkUserInfo "system:serviceaccount:syngit-apps:builder" "9" [] [].

Lemma bypass_matches_prefixed_namespaces_witness :
  doesUserBypassWebhook alice "syngit" = false ∧ doesUserBypassWebhook outsider "syngit" = true.
Proof.
  split; [reflexivity|]. apply (bypass_matches_prefixed_namespaces "syngit" "-apps" "builder"). reflexivity.
Defined.

#[local] Instance plain_json : RemoteUserJson := {| json_Marshal ru := Ok (om_Name (ru_Meta ru)) |}.

Lemma managed_remoteusers_owned_witness :
  let handle op := RemoteUserManaged_Handle
    "syngit" (gate_request op) in
  (∃ msg, handle "UPDATE" = Ok (Denied msg)) ∧ (∃ msg, handle "DELETE" = Ok (Denied msg)) ∧
  handle "CREATE" = Ok (PatchResponseFromRaw "new" "me") ∧
  owned_by gate_ru alice = false ∧
  ∃ ru, Decode (gate_request "CREATE") = Ok ru ∧
    if is_managed ru then
      ∃ json, json_Marshal (stamp_owner alice ru) = Ok json ∧
        PatchResponseFromRaw "new" "me" = PatchResponseFromRaw "new" json ∧
        owned_by (stamp_owner alice ru) alice = true
    else PatchResponseFromRaw "new" "me" = Allowed "The RemoteUser is not managed".
Proof.
  split; [by eexists|]. split; [by eexists|]. split; [reflexivity|]. split; [reflexivity|].
  assert (E : RemoteUserManaged_Handle "syngit" (gate_request "CREATE") =
    Ok (PatchResponseFromRaw "new" "me")) by reflexivity.
  destruct (managed_remoteusers_owned "syngit" (gate_request "CREATE") _ E eq_refl) as [[_ [[Hop|Hop] _]]|[_ Hc]]; [discriminate Hop..|].
  apply Hc. discriminate.
Defined.
