(* ===== verification/Validate.v ===== *)
(** * The validators of the syngit kinds ([internal/webhook/v1beta5])

    The checks of the objects themselves, as lists of field errors, with the two
    regular expressions written as the automata they denote. [apierrors.NewInvalid]
    is kept as its arguments. *)

From S2P Require Import Prelude GoStr Api Errors External Refs Naming Policies Sim.
From Stdlib Require Import Ascii.

(** [field.Error]: its type, path, the offending value as far as the code passes a
    string, and the detail. *)
Inductive field_error :=
| Invalid (path : field_path) (value : string) (detail : string)
| InvalidRef (path : field_path) (value : option ObjectReference) (detail : string)
| InvalidSelector (path : field_path) (value : option LabelSelector) (detail : string)
| Required (path : field_path) (detail : string)
| Forbidden (path : field_path) (detail : string).

(** [apierrors.NewInvalid] of a kind, a name and a non-empty list. *)
Record invalid_error := NewInvalid { inv_Kind : string; inv_Name : string; inv_Errors : list field_error }.

Definition invalid_unless_empty (kind name : string) (allErrs : list field_error) : option invalid_error :=
  match allErrs with [] => None | _ => Some (NewInvalid kind name allErrs) end.

(** ** The regular expressions *)

(** [^(https?|git)\://[^ ]+$] *)
Definition after_scheme (scheme s : string) : bool :=
  HasPrefix s scheme &&
  negb (String.eqb (sdrop (length_str scheme) s) "") &&
  negb (has_byte " "%char (sdrop (length_str scheme) s)).
Definition git_uri (s : string) : bool :=
  after_scheme "http://" s || after_scheme "https://" s || after_scheme "git://" s.

(** [[a-zA-Z0-9_./:-]] *)
Definition path_char (c : ascii) : bool :=
  byte_in 97 122 c || byte_in 65 90 c || byte_in 48 57 c || Ascii.eqb c "_" ||
  Ascii.eqb c "." || Ascii.eqb c "/" || Ascii.eqb c ":" || Ascii.eqb c "-".
(** [[a-zA-Z0-9_*./:-]] *)
Definition bracket_char (c : ascii) : bool := path_char c || Ascii.eqb c "*".

(** The automaton of the pattern of YAML paths. *)
Fixpoint yaml_path (inBrackets : bool) (s : string) : bool :=
  match s with
  | "" => negb inBrackets
  | String c s' =>
      if inBrackets then
        if Ascii.eqb c "]" then yaml_path false s' else bracket_char c && yaml_path true s'
      else
        if Ascii.eqb c "[" then yaml_path true s' else path_char c && yaml_path false s'
  end.
Definition isValidYAMLPath (path : string) : bool := yaml_path false path.

(** ** [syncer_webhook.go] *)

Section Validate.
Context `{Lib}.

Definition spec_path (name : string) : field_path := FChild (FPath ["spec"]) [name].

Definition when {A} (b : bool) (e : A) : list A := if b then [e] else [].

Definition is_some {A} (o : option A) : bool := match o with Some _ => true | None => false end.

Definition check_default_user (r : RemoteSyncerSpec) : list field_error :=
  if String.eqb (DefaultUnauthorizedUserMode r) BlockDefaultUser && is_some (DefaultRemoteUserRef r) then
    [InvalidRef (spec_path "defaultRemoteUserRef") (DefaultRemoteUserRef r)
       ("should not be set when defaultUnauthorizedUserMode is set to " ++ (quote ++ ("Block" ++ quote)))]
  else if String.eqb (DefaultUnauthorizedUserMode r) UseDefaultUser && negb (is_some (DefaultRemoteUserRef r)) then
    [Required (spec_path "defaultRemoteUserRef")
       ("must be set when defaultUnauthorizedUserMode is set to " ++ (quote ++ ("UseDefaultUser" ++ quote)))]
  else [].

Definition check_excluded_field (fieldPath : string) : list field_error :=
  when (negb (isValidYAMLPath fieldPath))
    (Invalid (spec_path "excludedFields") fieldPath
       "must be a valid YAML path. Regex : ^([a-zA-Z0-9_./:-]*(\[[a-zA-Z0-9_*./:-]*\])?)*$").

Definition validateRemoteSyncerSpec (r : RemoteSyncerSpec) : list field_error :=
  (check_default_user r ++
   when (is_some (DefaultRemoteUserRef r) && negb (is_some (DefaultRemoteTargetRef r)))
     (InvalidRef (spec_path "defaultRemoteTargetRef") (DefaultRemoteTargetRef r)
        "should be set when defaultRemoteUserRef is set") ++
   when (negb (is_some (DefaultRemoteUserRef r)) && is_some (DefaultRemoteTargetRef r))
     (InvalidRef (spec_path "defaultRemoteUserRef") (DefaultRemoteUserRef r)
        "should be set when defaultRemoteTargetRef is set") ++
   when (negb (String.eqb (DefaultBlockAppliedMessage r) "") && negb (String.eqb (Strategy r) CommitOnly))
     (Forbidden (spec_path "defaultBlockAppliedMessage")
        ("should not be set if strategy is not set to " ++ (quote ++ (CommitOnly ++ quote)))) ++
   when (negb (String.eqb (Strategy r) CommitOnly) && negb (String.eqb (Strategy r) CommitApply))
     (Invalid (spec_path "strategy") (Strategy r)
        ("must be set to " ++ (quote ++ (CommitApply ++ (quote ++ (" or " ++ (quote ++ (CommitOnly ++ quote)))))))) ++
   when (negb (git_uri (RemoteRepository r)))
     (Invalid (spec_path "remoteRepository") (RemoteRepository r) "invalid Git URI") ++
   concat (map check_excluded_field (ExcludedFields r)) ++
   when (negb (String.eqb (DefaultUnauthorizedUserMode r) BlockDefaultUser) && String.eqb (DefaultBranch r) "")
     (Required (spec_path "defaultBranch")
        "must be set when the defaultUnauthorizedUserMode is set to UseDefaultUser"))%list.

Definition user_specific_values : list string :=
  [""; RtAnnotationValueOneUserOneBranch; RtAnnotationValueOneUserOneFork].

Definition validateSyncer (syncer : Syncer) : list field_error :=
  let userSpecific := mget (om_Annotations (syncer_meta syncer)) RtAnnotationKeyUserSpecific in
  (validateRemoteSyncerSpec (SyncerSpec syncer) ++
   when (negb (existsb (String.eqb userSpecific) user_specific_values))
     (Invalid (FChild (FChild (FPath ["metadata"]) ["annotations"]) [RtAnnotationKeyUserSpecific]) userSpecific
        ("must be either " ++ (RtAnnotationValueOneUserOneBranch ++ (" or " ++
          (RtAnnotationValueOneUserOneFork ++ ("; got " ++ userSpecific)))))))%list.

(** ** [remotesyncer_webhook.go], [clusterwideremotesyncer_webhook.go] *)

Definition validateRemoteSyncer (remoteSyncer : RemoteSyncer) : option invalid_error :=
  invalid_unless_empty "RemoteSyncer" (om_Name (rs_Meta remoteSyncer)) (validateSyncer (SyncerRS remoteSyncer)).

(** What a validator calls on an optional selector: [nil] selects nothing, without error. *)
Definition selector_error (ls : option LabelSelector) : option error :=
  match ls with
  | None => None
  | Some ls => match LabelSelectorAsSelector ls with Err e => Some e | _ => None end
  end.

Definition cluster_wide_errors (cwrs : ClusterWideRemoteSyncer) : list field_error :=
  let spec := cwrs_Spec cwrs in
  (validateSyncer (SyncerCW cwrs) ++
   match RemoteSyncerRefs (cw_RemoteSyncerSpec spec) "" with
   | Err err => [Required (FPath ["spec"]) (Error err)]
   | _ => []
   end ++
   when (String.eqb (cw_IdentityStoreNamespace spec) "")
     (Required (spec_path "identityStoreNamespace")
        "must be set because a cluster-scoped syncer has no namespace to look for RemoteUserBindings in") ++
   match selector_error (cw_NamespaceSelector spec) with
   | Some err => [InvalidSelector (spec_path "namespaceSelector") (cw_NamespaceSelector spec) (Error err)]
   | None => []
   end)%list.

Definition validateClusterWideRemoteSyncer (cwrs : ClusterWideRemoteSyncer) : option invalid_error :=
  invalid_unless_empty "ClusterWideRemoteSyncer" (om_Name (cwrs_Meta cwrs)) (cluster_wide_errors cwrs).

(** ** [remotetarget_webhook.go] *)

(** The upstream and the target are the same branch of the same repository. *)
Definition same_target (r : RemoteTargetSpec) : bool :=
  String.eqb (UpstreamBranch r) (TargetBranch r) && String.eqb (UpstreamRepository r) (TargetRepository r).

Definition validateRemoteTargetSpec (r : RemoteTargetSpec) : list field_error :=
  (when (same_target r && negb (String.eqb (MergeStrategy r) ""))
     (Invalid (spec_path "mergeStrategy") (MergeStrategy r) (Error (wrongRemoteSyncerConfig
        "should not be set when the target repo & target branch are the same as the upstream repo & branch"))) ++
   when (negb (same_target r) && String.eqb (MergeStrategy r) "")
     (Invalid (spec_path "mergeStrategy") (MergeStrategy r) (Error (wrongRemoteSyncerConfig
        "should be set when the target repo & target branch are different from the upstream repo & branch"))))%list.

Definition validateRemoteTarget (remoteTarget : RemoteTarget) : option invalid_error :=
  invalid_unless_empty "RemoteTarget" (om_Name (rt_Meta remoteTarget))
    (validateRemoteTargetSpec (rt_Spec remoteTarget)).

(** ** [remoteuserbinding_webhook.go]: nothing is checked *)

Definition validateRemoteUserBindingSpec (r : RemoteUserBindingSpec) : list field_error := [].
Definition validateRemoteUserBinding (rub : RemoteUserBinding) : option invalid_error :=
  invalid_unless_empty "RemoteUserBinding" (om_Name (rub_Meta rub)) (validateRemoteUserBindingSpec (rub_Spec rub)).
(** ** The validators

    [admission.Validator] of controller-runtime: the warnings and the error. Creation and
    update run the same checks, deletion runs none. *)
Class Validator (T : Type) := {
  ValidateCreate : T → list string * option invalid_error;
  ValidateUpdate : T → T → list string * option invalid_error;
  ValidateDelete : T → list string * option invalid_error }.

Definition RemoteSyncerCustomValidator : Validator RemoteSyncer := {|
  ValidateCreate remotesyncer := ([], validateRemoteSyncer remotesyncer);
  ValidateUpdate oldObj newRemotesyncer := ([], validateRemoteSyncer newRemotesyncer);
  ValidateDelete remotesyncer := ([], None) |}.
Definition ClusterWideRemoteSyncerCustomValidator : Validator ClusterWideRemoteSyncer := {|
  ValidateCreate cwrs := ([], validateClusterWideRemoteSyncer cwrs);
  ValidateUpdate oldObj newCwrs := ([], validateClusterWideRemoteSyncer newCwrs);
  ValidateDelete cwrs := ([], None) |}.
Definition RemoteTargetCustomValidator : Validator RemoteTarget := {|
  ValidateCreate remotetarget := ([], validateRemoteTarget remotetarget);
  ValidateUpdate oldObj newRemotetarget := ([], validateRemoteTarget newRemotetarget);
  ValidateDelete remotetarget := ([], None) |}.
Definition RemoteUserCustomValidator : Validator RemoteUser := {|
  ValidateCreate remoteuser := ([], None);
  ValidateUpdate oldObj newRemoteuser := ([], None);
  ValidateDelete remoteuser := ([], None) |}.
Definition RemoteUserBindingCustomValidator : Validator RemoteUserBinding := {|
  ValidateCreate remoteuserbinding := ([], validateRemoteUserBinding remoteuserbinding);
  ValidateUpdate oldObj newRemoteuserbinding := ([], validateRemoteUserBinding newRemoteuserbinding);
  ValidateDelete remoteuserbinding := ([], None) |}.
End Validate.
#[export] Existing Instances RemoteSyncerCustomValidator ClusterWideRemoteSyncerCustomValidator.
#[export] Existing Instances RemoteTargetCustomValidator RemoteUserCustomValidator RemoteUserBindingCustomValidator.

(** ** The patterns, as regular expressions *)

Inductive regex :=
| Eps
| Chr (p : ascii → bool)
| Seq (a b : regex)
| Alt (a b : regex)
| Star (a : regex).

Inductive matches : regex → string → Prop :=
| m_eps : matches Eps ""
| m_chr p c : p c = true → matches (Chr p) (String c "")
| m_seq a b s t : matches a s → matches b t → matches (Seq a b) (s ++ t)
| m_alt_l a b s : matches a s → matches (Alt a b) s
| m_alt_r a b s : matches b s → matches (Alt a b) s
| m_star_nil a : matches (Star a) ""
| m_star_cons a s t : matches a s → matches (Star a) t → matches (Star a) (s ++ t).

Fixpoint Lit (s : string) : regex :=
  match s with "" => Eps | String c s' => Seq (Chr (Ascii.eqb c)) (Lit s') end.

(** [([a-zA-Z0-9_./:-]*(\[[a-zA-Z0-9_*./:-]*\])?)*] *)
Definition yaml_path_pattern : regex :=
  Star (Seq (Star (Chr path_char))
            (Alt Eps (Seq (Lit "[") (Seq (Star (Chr bracket_char)) (Lit "]"))))).

(** [(https?|git)\://[^ ]+] *)
Definition not_space (c : ascii) : bool := negb (Ascii.eqb c " ").
Definition git_uri_pattern : regex :=
  Seq (Alt (Seq (Lit "http") (Alt Eps (Lit "s"))) (Lit "git"))
      (Seq (Lit "://") (Seq (Chr not_space) (Star (Chr not_space)))).

Lemma matches_lit l s : matches (Lit l) s ↔ s = l.
Proof.
  revert s; induction l as [|c l IH]; intros s; simpl.
  - split; [by inversion 1|intros ->; constructor].
  - split.
    + inversion 1 as [| |a b s1 t1 Hs Ht| | | |]; subst. inversion Hs as [|p d Hd| | | | |]; subst.
      apply Ascii.eqb_eq in Hd as ->. apply IH in Ht as ->. done.
    + intros ->. change (String c l) with (String c "" ++ l). constructor; [|by apply IH].
      constructor. apply Ascii.eqb_refl.
Qed.

Lemma matches_star_chr p s : matches (Star (Chr p)) s ↔ all_chars p s = true.
Proof.
  split.
  - remember (Star (Chr p)) as r eqn:Er. induction 1 as [| | | | | |a s t Hs _ Ht IH]; try done; simplify_eq.
    inversion Hs; subst. simpl. apply andb_true_iff. auto.
  - induction s as [|c s IH]; simpl; intros Hs; [constructor|]. apply andb_true_iff in Hs as [Hc Hs].
    change (String c s) with (String c "" ++ s). constructor; [by constructor|auto].
Qed.

Lemma yaml_path_plain a s : all_chars path_char a = true → yaml_path false (a ++ s) = yaml_path false s.
Proof.
  induction a as [|c a IH]; simpl; [done|]. intros [Hc Ha]%andb_true_iff.
  destruct (Ascii.eqb_spec c "["); [by subst|]. rewrite Hc. auto.
Qed.

Lemma yaml_path_bracket a s :
  all_chars bracket_char a = true → yaml_path true (a ++ String "]" s) = yaml_path false s.
Proof.
  induction a as [|c a IH]; simpl; [done|]. intros [Hc Ha]%andb_true_iff.
  destruct (Ascii.eqb_spec c "]"); [by subst|]. rewrite Hc. auto.
Qed.

Lemma yaml_path_star_cons a s :
  matches (Seq (Star (Chr path_char))
    (Alt Eps (Seq (Lit "[") (Seq (Star (Chr bracket_char)) (Lit "]"))))) a →
  yaml_path false (a ++ s) = yaml_path false s.
Proof.
  inversion 1 as [| |? ? x y Hx Hy| | | |]; subst. apply matches_star_chr in Hx.
  rewrite append_assoc, yaml_path_plain by done. inversion Hy as [| | |? ? ? He|? ? ? Hb| |]; subst.
  - inversion He; subst. done.
  - inversion Hb as [| |? ? l r Hl Hr| | | |]; subst. apply (matches_lit "[") in Hl as ->.
    inversion Hr as [| |? ? i e Hi He| | | |]; subst. apply (matches_lit "]") in He as ->.
    apply matches_star_chr in Hi. simpl. rewrite append_assoc. simpl. by apply yaml_path_bracket.
Qed.

Lemma yaml_path_matches s :
  (yaml_path false s = true → matches yaml_path_pattern s) ∧
  (yaml_path true s = true → ∃ a b, s = a ++ String "]" b ∧ all_chars bracket_char a = true ∧
     matches yaml_path_pattern b).
Proof.
  induction s as [|c s [IHf IHt]]; simpl; [split; [intros _; constructor|done]|]. split.
  - destruct (Ascii.eqb_spec c "[") as [->|_].
    + intros (a & b & -> & Ha & Hb)%IHt.
      replace (String "[" (a ++ String "]" b)) with (("" ++ ("[" ++ (a ++ "]"))) ++ b)
        by (simpl; by rewrite append_assoc).
      constructor; [|done]. constructor; [constructor|]. apply m_alt_r.
      constructor; [by apply matches_lit|]. constructor; [by apply matches_star_chr|by apply matches_lit].
    + intros [Hc Hs]%andb_true_iff. change (String c s) with ((String c "" ++ "") ++ s).
      constructor; [|auto]. constructor; [|apply m_alt_l; constructor].
      apply matches_star_chr. simpl. by rewrite Hc.
  - destruct (Ascii.eqb_spec c "]") as [->|_].
    + intros Hs. exists "", s. auto.
    + intros [Hc (a & b & -> & Ha & Hb)%IHt]%andb_true_iff.
      exists (String c a), b. split_and!; [done| |done]. simpl. by rewrite Hc.
Qed.

Lemma after_scheme_iff scheme s :
  after_scheme scheme s = true ↔
  ∃ r, s = scheme ++ r ∧ matches (Seq (Chr not_space) (Star (Chr not_space))) r.
Proof.
  assert (Hns : ∀ r, all_chars not_space r = negb (has_byte " " r)).
  { induction r as [|c r IH]; [done|]. simpl. rewrite IH. unfold not_space. by rewrite negb_orb. }
  unfold after_scheme, HasPrefix. rewrite !andb_true_iff. split.
  - intros [[Hp Hne] Hsp]. apply prefix_spec in Hp. eexists. split; [exact Hp|].
    destruct (sdrop _ s) as [|c r]; [done|]. rewrite <- Hns in Hsp. simpl in Hsp.
    apply andb_true_iff in Hsp as [Hc Hr]. change (String c r) with (String c "" ++ r).
    constructor; [by constructor|by apply matches_star_chr].
  - intros (r & -> & Hr). split; [split|].
    + apply prefix_append.
    + rewrite sdrop_append. inversion Hr as [| |? ? x y Hx Hy| | | |]; subst. by inversion Hx; subst.
    + rewrite sdrop_append, <- Hns. inversion Hr as [| |? ? x y Hx Hy| | | |]; subst.
      inversion Hx; subst. apply matches_star_chr in Hy. simpl. by apply andb_true_iff.
Qed.

(** ** Well-formed syncers *)

Record well_formed_spec (r : RemoteSyncerSpec) : Prop := {
  wf_block : DefaultUnauthorizedUserMode r = BlockDefaultUser → DefaultRemoteUserRef r = None;
  wf_use_default : DefaultUnauthorizedUserMode r = UseDefaultUser → DefaultRemoteUserRef r ≠ None;
  wf_pair : DefaultRemoteUserRef r = None ↔ DefaultRemoteTargetRef r = None;
  wf_message : DefaultBlockAppliedMessage r = "" ∨ Strategy r = CommitOnly;
  wf_strategy : Strategy r = CommitOnly ∨ Strategy r = CommitApply;
  wf_repository : matches git_uri_pattern (RemoteRepository r);
  wf_excluded : Forall (matches yaml_path_pattern) (ExcludedFields r);
  wf_branch : DefaultUnauthorizedUserMode r = BlockDefaultUser ∨ DefaultBranch r ≠ "" }.

Section Correct.
Context `{Lib}.

Lemma isValidYAMLPath_iff s : isValidYAMLPath s = true ↔ matches yaml_path_pattern s.
Proof.
  split; [apply yaml_path_matches|]. unfold isValidYAMLPath, yaml_path_pattern.
  remember (Star _) as r eqn:Er. induction 1 as [| | | | | |a s t Hs _ Ht IH]; try done; simplify_eq.
  rewrite yaml_path_star_cons; auto.
Qed.

Lemma git_uri_iff s : git_uri s = true ↔ matches git_uri_pattern s.
Proof.
  unfold git_uri. rewrite !orb_true_iff, !after_scheme_iff. split.
  - assert (Hm : ∀ scheme r, matches (Alt (Seq (Lit "http") (Alt Eps (Lit "s"))) (Lit "git")) scheme →
      matches (Seq (Chr not_space) (Star (Chr not_space))) r → matches git_uri_pattern ((scheme ++ "://") ++ r)).
    { intros scheme r Hsch Hr. rewrite append_assoc. constructor; [done|]. constructor; [|done].
      by apply matches_lit. }
    intros [[(r & -> & Hr)|(r & -> & Hr)]|(r & -> & Hr)].
    + apply (Hm "http"); [|done]. apply m_alt_l. apply (m_seq _ _ "http" ""); [by apply matches_lit|].
      apply m_alt_l. constructor.
    + apply (Hm "https"); [|done]. apply m_alt_l. apply (m_seq _ _ "http" "s"); [by apply matches_lit|].
      apply m_alt_r. by apply matches_lit.
    + apply (Hm "git"); [|done]. apply m_alt_r. by apply matches_lit.
  - intros Hm. inversion Hm as [| |? ? sch t Hsch Ht| | | |]; subst.
    inversion Ht as [| |? ? col r Hcol Hr| | | |]; subst. apply (matches_lit "://") in Hcol as ->.
    inversion Hsch as [| | |? ? ? Hh|? ? ? Hg| |]; subst.
    + inversion Hh as [| |? ? x y Hx Hy| | | |]; subst. apply (matches_lit "http") in Hx as ->.
      inversion Hy as [| | |? ? ? He|? ? ? Hs| |]; subst.
      * inversion He; subst. left; left. by exists r.
      * apply (matches_lit "s") in Hs as ->. left; right. by exists r.
    + apply (matches_lit "git") in Hg as ->. right. by exists r.
Qed.

Lemma when_nil {A} b (e : A) : when b e = [] ↔ b = false.
Proof. by destruct b. Qed.

Lemma check_default_user_nil r : check_default_user r = [] ↔
  (DefaultUnauthorizedUserMode r = BlockDefaultUser → DefaultRemoteUserRef r = None) ∧
  (DefaultUnauthorizedUserMode r = UseDefaultUser → DefaultRemoteUserRef r ≠ None).
Proof.
  unfold check_default_user.
  destruct (String.eqb_spec (DefaultUnauthorizedUserMode r) BlockDefaultUser) as [E|E];
  destruct (String.eqb_spec (DefaultUnauthorizedUserMode r) UseDefaultUser) as [E'|E'];
  destruct (DefaultRemoteUserRef r); simpl; try naive_solver.
Qed.

Lemma excluded_nil l : concat (map check_excluded_field l) = [] ↔ Forall (matches yaml_path_pattern) l.
Proof.
  induction l as [|p l IH]; simpl; [by split|]. rewrite app_nil, IH, Forall_cons, <- isValidYAMLPath_iff.
  unfold check_excluded_field. by rewrite when_nil, negb_false_iff.
Qed.

Lemma spec_valid_iff r : validateRemoteSyncerSpec r = [] ↔ well_formed_spec r.
Proof.
  unfold validateRemoteSyncerSpec.
  rewrite !app_nil, check_default_user_nil, !when_nil, excluded_nil, negb_false_iff, git_uri_iff.
  rewrite !andb_false_iff, !negb_false_iff, !String.eqb_eq, !String.eqb_neq.
  split.
  - intros ([Hb Hu] & Hp & Hp' & Hm & Hs & Hr & He & Hbr). split; try done; try tauto.
    destruct (DefaultRemoteUserRef r), (DefaultRemoteTargetRef r); naive_solver.
  - intros [Hb Hu Hp Hm Hs Hr He Hbr]. split_and!; try done; try tauto.
    all: destruct (DefaultRemoteUserRef r), (DefaultRemoteTargetRef r); naive_solver.
Qed.

Lemma validateSyncer_nil s : validateSyncer s = [] ↔
  well_formed_spec (SyncerSpec s) ∧
  mget (om_Annotations (syncer_meta s)) RtAnnotationKeyUserSpecific ∈ user_specific_values.
Proof.
  unfold validateSyncer. rewrite app_nil, spec_valid_iff, when_nil, negb_false_iff, existsb_exists.
  split; intros [? Hx]; (split; [done|]).
  - destruct Hx as (x & Hx & ->%String.eqb_eq). by apply list_elem_of_In.
  - eexists. split; [by apply list_elem_of_In|]. apply String.eqb_refl.
Qed.

Lemma invalid_unless_empty_none k n l : invalid_unless_empty k n l = None ↔ l = [].
Proof. by destruct l. Qed.

(** ** Properties *)

(** (C38) The two hand-checked patterns are the regular expressions of the source: a path is
    accepted exactly when it matches the YAML path pattern, a repository exactly when it
    matches the Git URI pattern. *)
Theorem patterns_decided s :
  (isValidYAMLPath s = true ↔ matches yaml_path_pattern s) ∧
  (git_uri s = true ↔ matches git_uri_pattern s).
Proof. split; [apply isValidYAMLPath_iff|apply git_uri_iff]. Qed.

(** (C28) A cluster-wide syncer is admitted by its validator exactly when its spec is well
    formed, its policy annotation is one of the known values, every named reference
    resolves without a namespace of its own (so no interception can fail on one), it
    names an identity store, and its namespace selector parses. *)
Theorem cluster_wide_validation_exact cwrs :
  validateClusterWideRemoteSyncer cwrs = None ↔
  well_formed_spec (cw_RemoteSyncerSpec (cwrs_Spec cwrs)) ∧
  mget (om_Annotations (cwrs_Meta cwrs)) RtAnnotationKeyUserSpecific ∈ user_specific_values ∧
  (∃ objectRefs, RemoteSyncerRefs (cw_RemoteSyncerSpec (cwrs_Spec cwrs)) "" = Ok objectRefs) ∧
  cw_IdentityStoreNamespace (cwrs_Spec cwrs) ≠ "" ∧
  selector_error (cw_NamespaceSelector (cwrs_Spec cwrs)) = None.
Proof.
  unfold validateClusterWideRemoteSyncer, cluster_wide_errors.
  rewrite invalid_unless_empty_none, !app_nil, validateSyncer_nil, when_nil, String.eqb_neq. simpl.
  assert (Hrefs : match RemoteSyncerRefs (cw_RemoteSyncerSpec (cwrs_Spec cwrs)) "" with
                  | Err err => [Required (FPath ["spec"]) (Error err)] | _ => [] end = [] ↔
    ∃ objectRefs, RemoteSyncerRefs (cw_RemoteSyncerSpec (cwrs_Spec cwrs)) "" = Ok objectRefs).
  { rewrite syncer_refs_eq. unfold enumerate. destruct (List.filter _ _); naive_solver. }
  rewrite Hrefs. destruct (selector_error _); naive_solver.
Qed.

Lemma target_valid_iff rt : validateRemoteTarget rt = None ↔
  (same_target (rt_Spec rt) = true ↔ MergeStrategy (rt_Spec rt) = "").
Proof.
  unfold validateRemoteTarget, validateRemoteTargetSpec. rewrite invalid_unless_empty_none, app_nil, !when_nil.
  destruct (same_target _), (String.eqb_spec (MergeStrategy (rt_Spec rt)) ""); naive_solver.
Qed.

(** (C36) The targets the policies create against the validator of targets: a branch target
    is always admitted; a user-specific one is admitted exactly when the user's branch
    is not the upstream branch of the same repository, since the policy sets a merge
    strategy that the validator forbids there. *)
Theorem policy_targets_admitted :
  (∀ namespace repo branch targetBranch rt,
     buildRemoteTarget namespace repo branch targetBranch = Ok rt → validateRemoteTarget rt = None) ∧
  (∀ namespace repo branch rawUsername user annotation rt,
     buildUserSpecificTarget namespace repo branch rawUsername user annotation = Ok rt →
     validateRemoteTarget rt = None ↔
     ¬ (branch = SoftSanitize rawUsername ∧ (annotation = RtAnnotationValueOneUserOneFork → repo = ""))).
Proof.
  split.
  - intros ns repo b tb rt. unfold buildRemoteTarget. destruct (RemoteTargetName _ _ _ _); intros [= <-].
    apply target_valid_iff. unfold same_target. simpl. rewrite String.eqb_refl, andb_true_r.
    by destruct (String.eqb_spec b tb).
  - intros ns repo b raw user ann rt. unfold buildUserSpecificTarget.
    set (target := if String.eqb ann RtAnnotationValueOneUserOneFork then "" else repo).
    destruct (RemoteTargetName _ _ _ _); intros [= <-]. rewrite target_valid_iff. unfold same_target. simpl.
    rewrite andb_true_iff, !String.eqb_eq. subst target.
    destruct (String.eqb_spec ann RtAnnotationValueOneUserOneFork); naive_solver.
Qed.
End Correct.

Lemma policy_targets_admitted_witness :
  (∃ rt, buildUserSpecificTarget "team" "https://git.x/org/app.git" "main" "main" "u" "one-user-one-branch" = Ok rt ∧
     validateRemoteTarget rt ≠ None) ∧
  ∃ rt, buildRemoteTarget "team" "https://git.x/org/app.git" "main" "dev" = Ok rt ∧ validateRemoteTarget rt = None.
Proof.
  split.
  - eexists. split; [reflexivity|]. vm_compute. discriminate.
  - eexists. split; [reflexivity|].
    apply (proj1 policy_targets_admitted "team" "https://git.x/org/app.git" "main" "dev"). reflexivity.
Defined.
