(* ===== verification/Git.v ===== *)
(** * Programs over go-git and the leases

    The git side of the controller calls go-git and the repository cache. A program is a
    finite tree of such calls with one branch per answer ([prog]); what the calls do is
    outside the repository, so every answer is possible. [wf] is a Hoare logic over
    these trees, for any ghost state: [Pusher.v] uses it on traces and [Lease.v] on locks. *)

From S2P Require Import Prelude GoStr Api Errors Pipeline.

(** ** Programs *)

Section Prog.
Context {call : Type → Type}.

Inductive prog (A : Type) : Type :=
| Ret (a : A)
| Vis {X : Type} (c : call X) (k : X → prog A).
Arguments Ret {A} a.
Arguments Vis {A X} c k.

Fixpoint pbind {A B} (m : prog A) (f : A → prog B) : prog B :=
  match m with
  | Ret a => f a
  | Vis c k => Vis c (λ x, pbind (k x) f)
  end.

Definition do_call {X} (c : call X) : prog X := Vis c Ret.

(** One run: the calls with their answers, in order, and the result. *)
Inductive event :=
| Ev {X : Type} (c : call X) (x : X).
Fixpoint runs {A} (p : prog A) (t : list event) (a : A) : Prop :=
  match p with
  | Ret b => t = [] ∧ a = b
  | Vis c k => ∃ x t', t = Ev c x :: t' ∧ runs (k x) t' a
  end.

(** The run in which every call is answered by a function. *)
Fixpoint drive {A} (answer : ∀ X, call X → X) (p : prog A) : list event * A :=
  match p with
  | Ret a => ([], a)
  | Vis c k => let x := answer _ c in let '(t, a) := drive answer (k x) in (Ev c x :: t, a)
  end.
Lemma drive_runs {A} answer (p : prog A) : runs p (drive answer p).1 (drive answer p).2.
Proof.
  induction p as [a|X c k IH]; simpl; [done|]. specialize (IH (answer X c)).
  destruct (drive answer (k (answer X c))) as [t a]. by exists (answer X c), t.
Qed.

(** ** A program logic

    [pre s c]: call [c] may be made in ghost state [s]; [post s c x s']: after the answer
    [x] the ghost state is [s']. *)
Section Logic.
Context {S : Type} (pre : ∀ X, S → call X → Prop) (post : ∀ X, S → call X → X → S → Prop).

Fixpoint wf {A} (s : S) (p : prog A) (Q : S → A → Prop) : Prop :=
  match p with
  | Ret a => Q s a
  | Vis c k => pre _ s c ∧ ∀ x s', post _ s c x s' → wf s' (k x) Q
  end.

Lemma wf_mono {A} s (p : prog A) (Q Q' : S → A → Prop) :
  (∀ s a, Q s a → Q' s a) → wf s p Q → wf s p Q'.
Proof.
  intros HQ. revert s; induction p as [a|X c k IH]; intros s; simpl; [apply HQ|].
  intros [Hpre Hk]. split; [done|]. intros x s' Hp. by apply IH, Hk.
Qed.

Lemma wf_bind {A B} s (m : prog A) (f : A → prog B) Q :
  wf s m (λ s a, wf s (f a) Q) → wf s (pbind m f) Q.
Proof.
  revert s; induction m as [a|X c k IH]; intros s; simpl; [done|].
  intros [Hpre Hk]. split; [done|]. intros x s' Hp. by apply IH, Hk.
Qed.

Lemma wf_bind_mono {A B} s (m : prog A) (f : A → prog B) (Q : S → A → Prop) Q' :
  wf s m Q → (∀ s a, Q s a → wf s (f a) Q') → wf s (pbind m f) Q'.
Proof. intros Hm Hf. apply wf_bind. eapply wf_mono; [|exact Hm]. exact Hf. Qed.

Lemma wf_call {X B} s (c : call X) (f : X → prog B) Q :
  pre _ s c → (∀ x s', post _ s c x s' → wf s' (f x) Q) → wf s (pbind (do_call c) f) Q.
Proof. by split. Qed.
End Logic.

(** Reading a run off the logic, the ghost state being computed along it. *)
Section Traces.
Context {S : Type} (step : ∀ X, call X → X → S → S).
Definition replay (s : S) (t : list event) : S := foldl (λ s '(Ev c x), step _ c x s) s t.

Definition free (X : Type) (s : S) (c : call X) : Prop := True.
Definition stepped (X : Type) (s : S) (c : call X) (x : X) (s' : S) : Prop := s' = step X c x s.

Lemma wf_runs {A} s (p : prog A) Q t a : wf free stepped s p Q → runs p t a → Q (replay s t) a.
Proof.
  revert s t; induction p as [b|X c k IH]; intros s t Hw Hr; simpl in *; [by destruct Hr as [-> ->]|].
  destruct Hr as (x & t' & -> & Hr). destruct Hw as [_ Hk]. simpl. by apply (IH x); [apply Hk|].
Qed.

(** Reading it off the other way round: the ghost state goes from one state to any state
    that [post] allows. *)
Context (post : ∀ X, S → call X → X → S → Prop).
Fixpoint accepts (s : S) (t : list event) (s' : S) : Prop :=
  match t with
  | [] => s' = s
  | Ev c x :: t' => ∃ s1, post _ s c x s1 ∧ accepts s1 t' s'
  end.

Lemma wf_accepts {A} s (p : prog A) (Q : S → A → Prop) t a s' :
  wf free post s p Q → runs p t a → accepts s t s' → Q s' a.
Proof.
  revert s t; induction p as [b|X c k IH]; intros s t Hw Hr Ha; simpl in *; [by destruct Hr as [-> ->]; simpl in Ha; subst|].
  destruct Hr as (x & t' & -> & Hr). destruct Hw as [_ Hk]. destruct Ha as (s1 & Hp & Ha).
  by apply (IH x s1 t'); [apply Hk|..].
Qed.
End Traces.
End Prog.
Arguments prog call A : clear implicits.
Arguments Ret {call A} a.
Arguments Vis {call A X} c k.

Notation "x ⟵ m ;; k" := (pbind m (λ x, k))
  (at level 20, m at level 99, k at level 200, right associativity) : go_scope.
Notation "' p ⟵ m ;; k" := (pbind m (λ x, match x with p => k end))
  (at level 20, p pattern, m at level 99, k at level 200, right associativity) : go_scope.

(** ** go-git

    Repositories and handles are pointers. The worktree of a repository is a view of it
    and is named by the repository. *)
Definition repo : Type := nat.

(** A handle of the cache: the address of a [repoHandle], with the key it was made for
    (which no code reads). *)
Record handle := mkHandle { h_key : string; h_addr : nat }.
#[export] Instance handle_eq_dec : EqDecision handle.
Proof. solve_decision. Defined.
#[export] Instance handle_countable : Countable handle.
Proof. refine (inj_countable' (λ h, (h_key h, h_addr h)) (λ '(a, b), mkHandle a b) _). by intros []. Defined.

Definition Hash : Type := string.
Record Reference := mkReference { ref_name : string; ref_hash : Hash }.

(** The errors the code compares with. *)
Inductive git_sentinel := NoErrAlreadyUpToDate | ErrReferenceNotFound | ErrRemoteNotFound | ErrEmptyCommit.
#[export] Instance git_sentinel_eq_dec : EqDecision git_sentinel.
Proof. solve_decision. Defined.

(** [ge_same]: the value it is equal to; [ge_chain]: what [errors.Is] finds. *)
Record git_error := mkGitError {
  ge_same : option git_sentinel; ge_chain : list git_sentinel; ge_msg : string }.
Definition is_same (e : git_error) (s : git_sentinel) : bool := bool_decide (ge_same e = Some s).
Definition errors_Is (e : git_error) (s : git_sentinel) : bool :=
  is_same e s || bool_decide (s ∈ ge_chain e).
Definition to_error (e : git_error) : error := plainError (ge_msg e).

Record BasicAuth := mkAuth { ba_Username : string; ba_Password : string }.
Record CloneOptions := mkCloneOptions {
  co_URL : string; co_ReferenceName : string; co_Auth : BasicAuth; co_SingleBranch : bool;
  co_InsecureSkipTLS : bool; co_CABundle : option string }.
Record FetchOptions := mkFetchOptions {
  fo_RemoteName : string; fo_RemoteURL : string; fo_Auth : BasicAuth; fo_RefSpecs : list string;
  fo_InsecureSkipTLS : bool; fo_Force : bool; fo_CABundle : option string }.
Record PullOptions := mkPullOptions {
  po_RemoteName : string; po_ReferenceName : string; po_SingleBranch : bool; po_Auth : BasicAuth;
  po_InsecureSkipTLS : bool; po_CABundle : option string }.
Record PushOptions := mkPushOptions {
  pu_RefSpecs : list string; pu_Auth : BasicAuth; pu_InsecureSkipTLS : bool; pu_Force : bool;
  pu_CABundle : option string }.
Inductive CheckoutOptions :=
| CheckoutBranch (branch : string) (create force : bool)
| CheckoutHash (hash : Hash).

(** The methods the code calls on a repository or on its worktree; the calls that
    report progress also answer the text they wrote. *)
Inductive git : Type → Type :=
| Fetch (o : FetchOptions) : git (string * option git_error)
| Reference_ (name : string) : git (Reference + git_error)
| SetReference (r : Reference) : git (option git_error)
| RemoveReference (name : string) : git (option git_error)
| Branches : git (list string + git_error)
| Remote (name : string) : git (option git_error)
| CreateRemote (name : string) (urls : list string) : git (option git_error)
| DeleteRemote (name : string) : git (option git_error)
| Worktree : git (option git_error)
| Checkout (o : CheckoutOptions) : git (option git_error)
| HardReset (commit : Hash) : git (option git_error)
| Clean : git (option git_error)
| Pull (o : PullOptions) : git (string * option git_error)
| Log (from : Hash) : git (list Hash + git_error)
| MergeFastForward (r : Reference) : git (option git_error)
| Add_ (path : string) : git (option git_error)
| Remove (path : string) : git (option git_error)
| Commit_ (message name email : string) (when : Z) : git (Hash + git_error)
| Head : git (Reference + git_error)
| CommitObject (h : Hash) : git (Hash + git_error)
| Push_ (o : PushOptions) : git (string * option git_error).

(** All that the pusher does to the outside. *)
Inductive call : Type → Type :=
| LoadOrStoreC (key : string) : call handle                  (** of a fresh handle *)
| Lock (h : handle) : call unit
| Unlock (h : handle) : call unit
| ReadRepo (h : handle) : call (option repo)
| WriteRepo (h : handle) (r : repo) : call unit
| DeleteC (key : string) : call unit
| CloneC (o : CloneOptions) : call (string * (repo + git_error))
| GitC {X} (r : repo) (g : git X) : call X
| Now : call Z
| GenerateFinalWorktreeC (p : GitPipelineParams) (worktree : repo) : call (ClaimedPaths + error).

(** Functions of go-git on names. *)
Class GoGit := {
  NewBranchReferenceName : string → string;
  Reference_String : Reference → string;
  HEAD : string }.

Abbreviation P A := (prog call (result error A)).

(** [if err != nil { return ..., wrap(err) }]. *)
Definition or_return {A B} (m : prog call (A + git_error)) (wrap : git_error → error) (k : A → P B) : P B :=
  r ⟵ m;; match r with inl a => k a | inr e => Ret (Err (wrap e)) end.
Definition unless_error {B} (m : prog call (option git_error)) (wrap : git_error → error) (k : P B) : P B :=
  r ⟵ m;; match r with None => k | Some e => Ret (Err (wrap e)) end.
Definition and_then {A B} (m : P A) (k : A → P B) : P B :=
  r ⟵ m;; match r with Ok a => k a | Err e => Ret (Err e) | Panic => Ret Panic end.

Definition on {X} (r : repo) (g : git X) : prog call X := do_call (GitC r g).

(** [fmt.Errorf] with [%w], and with [%v]. *)
Definition wrap (prefix : string) (e : git_error) : error := wrapError prefix (to_error e).
Definition plain (prefix suffix : string) (e : git_error) : error := plainError (prefix ++ (ge_msg e ++ suffix)).
