(* ===== verification/Pusher.v ===== *)
(** * The git pipeline ([internal/pusher])

    One admission request, one push: a lease on a cached clone ([cache.go],
    [repository.go]), the worktree of the target branch ([worktree.go]), the commit
    ([commit.go]) and the push with its retries ([push.go]), in the order of
    [pipeline.go]. What go-git answers is left open; the transformation of the worktree
    is a call. *)

From S2P Require Import Prelude GoStr Api Errors Pipeline Git.

Definition originRemote : string := "origin".
Definition upstreamRemote : string := "upstream".

(** ** [response.go], [cache.go] *)

Definition ResponseBuilder (paths : list string) (commitHash url : string) : GitPushResponse :=
  mkPushResponse paths commitHash url.

Record repoLease := mkLease { rl_key : string; rl_handle : handle }.

Definition acquire (key : string) : prog call repoLease :=
  h ⟵ do_call (LoadOrStoreC key);;
  _ ⟵ do_call (Lock h);;
  Ret (mkLease key h).
Definition lease_repo (l : repoLease) : prog call (option repo) := do_call (ReadRepo (rl_handle l)).
Definition lease_set (l : repoLease) (r : repo) : prog call unit := do_call (WriteRepo (rl_handle l) r).
Definition release (l : repoLease) : prog call unit := do_call (Unlock (rl_handle l)).
Definition discard (l : repoLease) : prog call unit :=
  r ⟵ do_call (ReadRepo (rl_handle l));;
  _ ⟵ match r with None => do_call (DeleteC (rl_key l)) | Some _ => Ret tt end;;
  do_call (Unlock (rl_handle l)).

(** ** [repository.go] *)

Record GetRepositoryParams := mkGetRepo {
  gr_GitUserInfo : GitUserInfo; gr_Syncer : SyncerContext; gr_CABundle : option string;
  gr_Repository : string; gr_Branch : string }.

Definition cacheKey (p : GetRepositoryParams) : string := gr_Repository p ++ ("#" ++ gr_Branch p).
Definition user_auth (u : GitUserInfo) : BasicAuth := mkAuth (gu_User u) (gu_Token u).
Definition basicAuth (p : GetRepositoryParams) : BasicAuth := user_auth (gr_GitUserInfo p).

(** The message block that ends the errors of the pusher. *)
Definition line (label v : string) : string := label ++ (v ++ nls).

(** [if err != nil && err != git.NoErrAlreadyUpToDate { return fail }]. *)
Definition unless_new {A} (r : option git_error) (fail : git_error → error) (k : P A) : P A :=
  match r with
  | Some e => if is_same e NoErrAlreadyUpToDate then k else Ret (Err (fail e))
  | None => k
  end.

Section Pusher.
Context `{GoGit}.

Definition cloneRepository (p : GetRepositoryParams) : P repo :=
  '(progress, r) ⟵ do_call (CloneC (mkCloneOptions (gr_Repository p) (gr_Branch p) (basicAuth p) true
    (InsecureSkipTlsVerify (sc_Spec (gr_Syncer p))) (gr_CABundle p)));;
  match r with
  | inl repository => Ret (Ok repository)
  | inr e =>
      let variables := nls ++ (line "Repository: " (gr_Repository p) ++ (line "Reference: " (gr_Branch p) ++
        (line "Username: " (gu_User (gr_GitUserInfo p)) ++ line "Email: " (gu_Email (gr_GitUserInfo p))))) in
      Ret (Err (plain "failed to clone repository: "
        (nls ++ ("Verbose output: " ++ (progress ++ (nls ++ ("Variables: " ++ variables))))) e))
  end.

(** [for _, name := range staleBranches]. *)
Fixpoint remove_branches (repository : repo) (names : list string) (k : P unit) : P unit :=
  match names with
  | [] => k
  | name :: rest =>
      unless_error (on repository (RemoveReference name))
        (wrap ("failed to remove stale branch " ++ (name ++ ": ")))
        (remove_branches repository rest k)
  end.

Definition pruneStaleState (repository : repo) (keepBranch : string) : P unit :=
  or_return (on repository Branches) (wrap "failed to list branches: ") (λ branches,
    remove_branches repository (List.filter (λ name, negb (String.eqb name keepBranch)) branches) (
      r ⟵ on repository (DeleteRemote upstreamRemote);;
      match r with
      | Some e => if is_same e ErrRemoteNotFound then Ret (Ok tt)
                  else Ret (Err (wrap "failed to remove upstream remote: " e))
      | None => Ret (Ok tt)
      end)).

Definition refreshRepository (repository : repo) (p : GetRepositoryParams) : P unit :=
  let branch := gr_Branch p in
  let branchRef := NewBranchReferenceName branch in
  let remoteTrackingRef := "refs/remotes/" ++ (originRemote ++ ("/" ++ branch)) in
  '(progress, r) ⟵ on repository (Fetch (mkFetchOptions originRemote (gr_Repository p) (basicAuth p)
    ["+refs/heads/" ++ (branch ++ (":refs/remotes/" ++ (originRemote ++ ("/" ++ branch))))]
    (InsecureSkipTlsVerify (sc_Spec (gr_Syncer p))) true (gr_CABundle p)));;
  unless_new r (plain "failed to fetch origin: " (nls ++ ("Verbose output: " ++ progress))) (
  or_return (on repository (Reference_ remoteTrackingRef))
    (wrap ("failed to resolve " ++ (remoteTrackingRef ++ ": "))) (λ remoteRef,
  unless_error (on repository (SetReference (mkReference branchRef (ref_hash remoteRef))))
    (wrap ("failed to reset branch " ++ (branchRef ++ ": "))) (
  unless_error (on repository Worktree) (wrap "failed to get worktree: ") (
  unless_error (on repository (Checkout (CheckoutBranch branchRef false true)))
    (wrap ("failed to checkout branch " ++ (branch ++ ": "))) (
  unless_error (on repository (HardReset (ref_hash remoteRef))) (wrap "failed to hard reset: ") (
  unless_error (on repository Clean) (wrap "failed to clean worktree: ") (
  pruneStaleState repository branchRef))))))).

(** The repository, and the lease to release: none when the cache is disabled. *)
Definition getRepository (enabled : bool) (p : GetRepositoryParams) : P (repo * option repoLease) :=
  if negb enabled then and_then (cloneRepository p) (λ repository, Ret (Ok (repository, None)))
  else
    lease ⟵ acquire (cacheKey p);;
    cached ⟵ lease_repo lease;;
    match cached with
    | None =>
        r ⟵ cloneRepository p;;
        match r with
        | Err err => _ ⟵ discard lease;; Ret (Err err)
        | Ok repository => _ ⟵ lease_set lease repository;; Ret (Ok (repository, Some lease))
        | Panic => Ret Panic
        end
    | Some stale =>
        r ⟵ refreshRepository stale p;;
        match r with
        | Err err =>
            r ⟵ cloneRepository p;;
            match r with
            | Err cloneErr =>
                _ ⟵ discard lease;;
                Ret (Err (wrapError ("failed to refresh cached repository: " ++
                                     (Error err ++ "; re-clone failed: ")) cloneErr))
            | Ok repository => _ ⟵ lease_set lease repository;; Ret (Ok (repository, Some lease))
            | Panic => Ret Panic
            end
        | Ok _ =>
            again ⟵ lease_repo lease;;
            match again with
            | Some repository => Ret (Ok (repository, Some lease))
            | None => Ret Panic
            end
        | Panic => Ret Panic
        end
    end.

Definition get_params (p : GitPipelineParams) (url branch : string) : GetRepositoryParams :=
  mkGetRepo (gp_GitUserInfo p) (gp_Syncer p) (gp_CABundle p) url branch.
Definition GetUpstreamRepository (enabled : bool) (p : GitPipelineParams) : P (repo * option repoLease) :=
  let rt := rt_Spec (gp_RemoteTarget p) in
  getRepository enabled (get_params p (UpstreamRepository rt) (UpstreamBranch rt)).
Definition GetTargetRepository (enabled : bool) (p : GitPipelineParams) : P (repo * option repoLease) :=
  let rt := rt_Spec (gp_RemoteTarget p) in
  getRepository enabled (get_params p (TargetRepository rt) (UpstreamBranch rt)).

(** ** [worktree.go] *)

Definition gp_auth (p : GitPipelineParams) : BasicAuth := user_auth (gp_GitUserInfo p).
Definition gp_insecure (p : GitPipelineParams) : bool := InsecureSkipTlsVerify (sc_Spec (gp_Syncer p)).
Definition user_lines (p : GitPipelineParams) : string :=
  line "Username: " (gu_User (gp_GitUserInfo p)) ++ line "Email: " (gu_Email (gp_GitUserInfo p)).

Definition fetchUpstream (p : GitPipelineParams) (target : repo) : P unit :=
  let upstreamURL := RemoteRepository (sc_Spec (gp_Syncer p)) in
  let fetch :=
    '(progress, r) ⟵ on target (Fetch (mkFetchOptions upstreamRemote upstreamURL (gp_auth p)
      ["+refs/heads/*:refs/remotes/origin/*"; "+refs/heads/*:refs/remotes/upstream/*"]
      (gp_insecure p) false (gp_CABundle p)));;
    unless_new r (plain "failed to fetch remote: " (nls ++ ("Verbose output: " ++ (progress ++ (nls ++
      ("Variables: " ++ (nls ++ (line "Repository: " upstreamURL ++ user_lines p))))))))
      (Ret (Ok tt)) in
  r ⟵ on target (Remote upstreamRemote);;
  match r with
  | Some remErr =>
      if is_same remErr ErrRemoteNotFound then
        unless_error (on target (CreateRemote upstreamRemote [upstreamURL]))
          (wrap "failed to create upstream remote: ") fetch
      else Ret (Err (wrap "failed to get upstream remote: " remErr))
  | None => fetch
  end.

Definition checkoutToBranch (target : repo) (targetBranch : string) : P unit :=
  let localRef := NewBranchReferenceName targetBranch in
  let checkout := unless_error (on target (Checkout (CheckoutBranch localRef false false)))
    (wrap ("failed to checkout branch " ++ (targetBranch ++ ": "))) (Ret (Ok tt)) in
  r ⟵ on target (Reference_ localRef);;
  match r with
  | inr err =>
      if is_same err ErrReferenceNotFound then
        unless_error (on target (Checkout (CheckoutBranch localRef true false)))
          (wrap ("failed to create and checkout branch " ++ (targetBranch ++ ": "))) checkout
      else Ret (Err (wrap "failed to check branch reference: " err))
  | inl _ => checkout
  end.

Definition doesBranchContainsCommit (target : repo) (branchRef : Reference) (commitHash : Hash) : P bool :=
  or_return (on target (Log (ref_hash branchRef))) (wrap "failed to get branch log: ") (λ commits,
  Ret (Ok (existsb (String.eqb commitHash) commits))).

Definition upstreamBasedHardReset (p : GitPipelineParams) (target : repo) : P repo :=
  let targetBranch := TargetBranch (rt_Spec (gp_RemoteTarget p)) in
  let targetBranchRef := NewBranchReferenceName targetBranch in
  let upstreamRemoteRef := "refs/remotes/" ++ (upstreamRemote ++ ("/" ++ DefaultBranch (sc_Spec (gp_Syncer p)))) in
  and_then (fetchUpstream p target) (λ _,
  unless_error (on target Worktree) (wrap "failed to get worktree: ") (
  or_return (on target (Reference_ upstreamRemoteRef))
    (wrap ("failed to find remote reference " ++ (upstreamRemoteRef ++ ": "))) (λ upstreamLastCommitRef,
  unless_error (on target (Checkout (CheckoutHash (ref_hash upstreamLastCommitRef))))
    (wrap "failed to checkout upstream commit: ") (
  unless_error (on target (SetReference (mkReference targetBranchRef (ref_hash upstreamLastCommitRef))))
    (wrap ("failed to create local branch " ++ (targetBranchRef ++ ": "))) (
  and_then (checkoutToBranch target targetBranch) (λ _,
  unless_error (on target (HardReset (ref_hash upstreamLastCommitRef))) (wrap "failed to hard reset: ") (
  Ret (Ok target)))))))).

Definition pull_options (p : GitPipelineParams) (remote branch : string) : PullOptions :=
  mkPullOptions remote (NewBranchReferenceName branch) true (gp_auth p) (gp_insecure p) (gp_CABundle p).
Definition pull_variables (p : GitPipelineParams) (progress : string) : string :=
  nls ++ ("Verbose output: " ++ (progress ++ (nls ++ ("Variables: " ++ (nls ++ (line "Remote: " upstreamRemote ++
    (line "Upstream ref: " HEAD ++ (line "Reference: " (TargetBranch (rt_Spec (gp_RemoteTarget p))) ++ user_lines p)))))))).

(** Steps 3 to 6, once both sides are pulled. *)
Definition merge_upstream (p : GitPipelineParams) (target : repo) : P repo :=
  let targetBranch := NewBranchReferenceName (TargetBranch (rt_Spec (gp_RemoteTarget p))) in
  let upstreamBranch := NewBranchReferenceName (UpstreamBranch (rt_Spec (gp_RemoteTarget p))) in
  or_return (on target (Reference_ targetBranch)) (wrap "failed to get target branch reference: ") (λ targetRef,
  unless_error (on target (SetReference targetRef)) (wrap ("failed to set target branch " ++ (targetBranch ++ ": "))) (
  or_return (on target (Reference_ upstreamBranch)) (wrap "failed to get upstream branch reference: ") (λ upstreamRef,
  contains ⟵ doesBranchContainsCommit target targetRef (ref_hash upstreamRef);;
  match contains with
  | Err err => Ret (Err (wrapError "failed to check if target branch contains commit: " err))
  | Panic => Ret Panic
  | Ok true => Ret (Ok target)
  | Ok false =>
      unless_error (on target (MergeFastForward upstreamRef))
        (λ _, plainError ("failed to merge the " ++ (Reference_String upstreamRef ++ " reference in the current branch"))) (
      unless_error (on target Worktree) (wrap "failed to get updated worktree: ") (
      Ret (Ok target)))
  end))).

Definition upstreamBasedPullFastForward (p : GitPipelineParams) (target : repo) : P repo :=
  let rt := rt_Spec (gp_RemoteTarget p) in
  and_then (fetchUpstream p target) (λ _,
  unless_error (on target Worktree) (wrap "failed to get worktree for target repository: ") (
  and_then (checkoutToBranch target (TargetBranch rt)) (λ _,
  '(progress, r) ⟵ on target (Pull (pull_options p upstreamRemote (UpstreamBranch rt)));;
  unless_new r (plain "failed to pull remote: " (pull_variables p progress)) (
  '(progress2, r) ⟵ on target (Pull (pull_options p originRemote (TargetBranch rt)));;
  match r with
  | Some e =>
      if is_same e NoErrAlreadyUpToDate || Contains (ge_msg e) "reference not found" then merge_upstream p target
      else Ret (Err (plain "failed to pull target remote: " (pull_variables p (progress ++ progress2)) e))
  | None => merge_upstream p target
  end)))).

(** The worktree, and whether the push must be forced. *)
Definition GetWorkTree (p : GitPipelineParams) (target upstream : repo) : P (repo * bool) :=
  let strategy := MergeStrategy (rt_Spec (gp_RemoteTarget p)) in
  if Nat.eqb target upstream && String.eqb strategy "" then
    unless_error (on target Worktree) to_error (Ret (Ok (target, false)))
  else if String.eqb strategy TryFastForwardOrHardReset then
    r ⟵ upstreamBasedPullFastForward p target;;
    match r with
    | Err _ => and_then (upstreamBasedHardReset p target) (λ wt, Ret (Ok (wt, true)))
    | Ok wt => Ret (Ok (wt, false))
    | Panic => Ret Panic
    end
  else if String.eqb strategy TryHardResetOrDie then
    and_then (upstreamBasedHardReset p target) (λ wt, Ret (Ok (wt, true)))
  else if String.eqb strategy TryFastForwardOrDie then
    and_then (upstreamBasedPullFastForward p target) (λ wt, Ret (Ok (wt, false)))
  else Ret (Err (plainError ("wrong target strategy; got " ++ strategy))).

(** ** [commit.go] *)

Definition GetPathsFromClaimedPaths (paths : ClaimedPaths) : list string := (cp_Add paths ++ cp_Delete paths)%list.

Definition buildCommitMessage (p : GitPipelineParams) (paths : ClaimedPaths) : string :=
  let namespacePath := if String.eqb (sc_InterceptedNamespace (gp_Syncer p)) "" then ClusterScopedPathSegment
                       else sc_InterceptedNamespace (gp_Syncer p) in
  let gvr := gp_InterceptedGVR p in
  let resourceMessage := gvr_Resource gvr ++ ("." ++ (gvr_Group gvr ++ ("/" ++ (gvr_Version gvr ++ (": " ++
    (namespacePath ++ ("/" ++ gp_InterceptedName p))))))) in
  let additionMsg := if (0 <? length (cp_Add paths))%nat then Itoa (length (cp_Add paths)) ++ "+" else "" in
  let deletionMsg := if (0 <? length (cp_Delete paths))%nat then Itoa (length (cp_Delete paths)) ++ "-" else "" in
  TrimPrefix (additionMsg ++ (deletionMsg ++ (" " ++ resourceMessage))) " ".

Definition isErrorSkipable (e : git_error) : bool :=
  errors_Is e ErrEmptyCommit ||
  Contains (ge_msg e) "failed to delete file in staging area: entry not found".

Fixpoint stage_adds (worktree : repo) (paths : list string) (k : P Hash) : P Hash :=
  match paths with
  | [] => k
  | path :: rest => unless_error (on worktree (Add_ path)) (plain "failed to add file to staging area: " "")
                      (stage_adds worktree rest k)
  end.
Fixpoint stage_deletes (worktree : repo) (paths : list string) (k : P Hash) : P Hash :=
  match paths with
  | [] => k
  | path :: rest =>
      r ⟵ on worktree (Remove path);;
      match r with
      | Some e => if Contains (ge_msg e) "entry not found" then stage_deletes worktree rest k
                  else Ret (Err (plain "failed to delete file in staging area: " "" e))
      | None => stage_deletes worktree rest k
      end
  end.

Definition Commit (p : GitPipelineParams) (worktree : repo) (paths : ClaimedPaths) (target : repo) : P Hash :=
  stage_adds worktree (cp_Add paths) (
  stage_deletes worktree (cp_Delete paths) (
  time ⟵ do_call Now;;
  r ⟵ on worktree (Commit_ (buildCommitMessage p paths) (gu_User (gp_GitUserInfo p)) (gu_Email (gp_GitUserInfo p)) time);;
  match r with
  | inl commit => Ret (Ok commit)
  | inr e =>
      if isErrorSkipable e then
        or_return (on target Head) to_error (λ ref,
        or_return (on target (CommitObject (ref_hash ref))) to_error (λ commit, Ret (Ok commit)))
      else Ret (Err (plain ("failed to commit changes (" ++ (TargetRepository (rt_Spec (gp_RemoteTarget p)) ++ ("/" ++
                       (TargetBranch (rt_Spec (gp_RemoteTarget p)) ++ "): ")))) "" e))
  end)).

(** ** [push.go] *)

(** The buffer is passed by value: the message shows what was written before the call.
    The text the call writes goes to the buffer of the caller. *)
Definition push_ (target : repo) (o : PushOptions) (verboseOutput variables : string)
  : prog call (string * option error) :=
  '(progress, r) ⟵ on target (Push_ o);;
  Ret (verboseOutput ++ progress,
       match r with
       | None => None
       | Some e => if Contains (ge_msg e) "already up-to-date" then None
                   else Some (plain "failed to push changes: "
                     (nls ++ ("Verbose output:" ++ (verboseOutput ++ (nls ++ ("Variables: " ++ variables))))) e)
       end).

(** [for range PushErrorRetryNumber], left at the first success. *)
Fixpoint retry_push (n : nat) (target : repo) (o : PushOptions) (verboseOutput variables : string)
    (err : option error) : prog call (option error) :=
  match n with
  | O => Ret err
  | S n =>
      '(verboseOutput, err) ⟵ push_ target o verboseOutput variables;;
      match err with
      | None => Ret None
      | Some _ => retry_push n target o verboseOutput variables err
      end
  end.

Definition push_options (p : GitPipelineParams) (needForcePush : bool) : PushOptions :=
  let targetBranch := TargetBranch (rt_Spec (gp_RemoteTarget p)) in
  mkPushOptions ["refs/heads/" ++ (targetBranch ++ (":refs/heads/" ++ targetBranch))] (gp_auth p)
    (gp_insecure p) needForcePush (gp_CABundle p).

Definition Push (p : GitPipelineParams) (target : repo) (needForcePush : bool) : prog call (option error) :=
  let variables := nls ++ (line "Repository: " (RemoteRepository (sc_Spec (gp_Syncer p))) ++
    (line "Reference: " (TargetBranch (rt_Spec (gp_RemoteTarget p))) ++ user_lines p)) in
  let o := push_options p needForcePush in
  '(verboseOutput, err) ⟵ push_ target o "" variables;;
  match err with
  | None => Ret None
  | Some _ => retry_push (Z.to_nat (PushErrorRetryNumber (sc_Spec (gp_Syncer p)))) target o verboseOutput variables err
  end.

(** ** [pipeline.go] *)

(** The deferred release of a lease. *)
Definition deferred {A} (lease : option repoLease) (body : prog call A) : prog call A :=
  a ⟵ body;;
  _ ⟵ match lease with Some l => release l | None => Ret tt end;;
  Ret a.

(** What follows the two leases: the response and the error. *)
Definition push_worktree (p : GitPipelineParams) (target upstream : repo)
  : prog call (result error (GitPushResponse * option error)) :=
  let url := TargetRepository (rt_Spec (gp_RemoteTarget p)) in
  let failed e := Ok (ResponseBuilder [] "" url, Some e) in
  r ⟵ GetWorkTree p target upstream;;
  match r with
  | Panic => Ret Panic
  | Err err => Ret (failed (gitPipeline "failed to get worktree" (Some err)))
  | Ok (worktree, needForcePush) =>
      r ⟵ do_call (GenerateFinalWorktreeC p worktree);;
      match r with
      | inr err => Ret (failed (gitPipeline "failed to generate the worktree" (Some err)))
      | inl modifiedPaths =>
          r ⟵ Commit p worktree modifiedPaths target;;
          match r with
          | Panic => Ret Panic
          | Err err => Ret (Ok (ResponseBuilder (GetPathsFromClaimedPaths modifiedPaths) "" url,
                                Some (gitPipeline "failed to generate the commit" (Some err))))
          | Ok commitHash =>
              err ⟵ Push p target needForcePush;;
              Ret (Ok (ResponseBuilder (GetPathsFromClaimedPaths modifiedPaths) commitHash url, err))
          end
      end
  end.

Definition RunGitPipeline (enabled : bool) (p : GitPipelineParams)
  : prog call (result error (GitPushResponse * option error)) :=
  let rt := rt_Spec (gp_RemoteTarget p) in
  let failed e := Ok (ResponseBuilder [] "" (TargetRepository rt), Some e) in
  r ⟵ GetTargetRepository enabled p;;
  match r with
  | Panic => Ret Panic
  | Err err => Ret (failed err)
  | Ok (target, lease) => deferred lease (
      if negb (String.eqb (MergeStrategy rt) "") &&
         negb (String.eqb (UpstreamRepository rt) (TargetRepository rt)) then
        r ⟵ GetUpstreamRepository enabled p;;
        match r with
        | Panic => Ret Panic
        | Err err => Ret (failed err)
        | Ok (upstream, lease2) => deferred lease2 (push_worktree p target upstream)
        end
      else push_worktree p target target)
  end.
End Pusher.

(** ** What a run pushes *)

(** A push as seen from outside: where, how, and what was answered. *)
Record push_event := mkPush { pe_repo : repo; pe_options : PushOptions; pe_answer : option git_error }.

Definition pushed {X} (c : call X) : X → list push_event :=
  match c in call X return X → list push_event with
  | GitC r g =>
      match g in git X return X → list push_event with
      | Push_ o => λ x, [mkPush r o x.2]
      | _ => λ _, []
      end
  | _ => λ _, []
  end.
Definition push_log (X : Type) (c : call X) (x : X) (s : list push_event) : list push_event := (s ++ pushed c x)%list.
Definition pushes (t : list (@event call)) : list push_event := flat_map (λ '(Ev c x), pushed c x) t.

Lemma replay_pushes s t : replay push_log s t = (s ++ pushes t)%list.
Proof.
  unfold replay. revert s; induction t as [|[X c x] t IH]; intros s; simpl; [by rewrite app_nil_r|].
  rewrite IH. unfold push_log. by rewrite app_assoc.
Qed.

(** The server took the push, or had it already. *)
Definition accepted (a : option git_error) : Prop :=
  match a with None => True | Some e => Contains (ge_msg e) "already up-to-date" = true end.

(** The attempts of one push: refused until the last, at most [n] of them. *)
Inductive attempts (sent : push_event → Prop) (n : nat) (l : list push_event) (ok : Prop) : Prop :=
| attempts_intro l0 last : l = (l0 ++ [last])%list → Forall sent l → (length l0 ≤ n)%nat →
    Forall (λ e, ¬ accepted (pe_answer e)) l0 → (ok ↔ accepted (pe_answer last)) →
    (¬ ok → length l0 = n) → attempts sent n l ok.

Section Runs.
Context `{GoGit}.

Abbreviation logs := (wf free (stepped push_log)).

(** Programs that never push. *)
Definition quiet {A} (p : prog call A) : Prop := ∀ s, logs s p (λ s' _, s' = s).

Lemma quiet_ret {A} (a : A) : quiet (Ret a).
Proof. done. Qed.
Lemma quiet_call {X} (c : call X) : (∀ x, pushed c x = []) → quiet (do_call c).
Proof. intros Hc s. split; [done|]. intros x s' ->. unfold push_log. rewrite Hc. apply app_nil_r. Qed.
Lemma quiet_bind {A B} (m : prog call A) (f : A → prog call B) :
  quiet m → (∀ a, quiet (f a)) → quiet (pbind m f).
Proof. intros Hm Hf s. apply wf_bind. eapply wf_mono; [|apply Hm]. intros s' a ->. apply Hf. Qed.
Lemma quiet_or_return {A B} (m : prog call (A + git_error)) w (k : A → P B) :
  quiet m → (∀ a, quiet (k a)) → quiet (or_return m w k).
Proof. intros Hm Hk. apply quiet_bind; [done|]. by intros []. Qed.
Lemma quiet_unless_error {B} (m : prog call (option git_error)) w (k : P B) :
  quiet m → quiet k → quiet (unless_error m w k).
Proof. intros Hm Hk. apply quiet_bind; [done|]. by intros []. Qed.
Lemma quiet_and_then {A B} (m : P A) (k : A → P B) : quiet m → (∀ a, quiet (k a)) → quiet (and_then m k).
Proof. intros Hm Hk. apply quiet_bind; [done|]. by intros []. Qed.
Lemma quiet_unless_new {B} r w (k : P B) : quiet k → quiet (unless_new r w k).
Proof. intros Hk. unfold unless_new. destruct r as [e|]; [|done]. by destruct (is_same e _). Qed.

Create HintDb quiet.
Ltac quiet :=
  repeat first
    [ match goal with |- ∀ _, _ => intro end
    | solve [auto with quiet]
    | apply quiet_ret
    | apply quiet_or_return
    | apply quiet_unless_error
    | apply quiet_and_then
    | apply quiet_unless_new
    | apply quiet_call; reflexivity
    | match goal with
      | |- quiet (match ?x with _ => _ end) => destruct x
      end
    | apply quiet_bind ].

Lemma clone_quiet p : quiet (cloneRepository p).
Proof. unfold cloneRepository. quiet. Qed.
Hint Resolve clone_quiet : quiet.
Lemma remove_branches_quiet r l k : quiet k → quiet (remove_branches r l k).
Proof. intros Hk. induction l as [|n l IH]; cbn [remove_branches]; quiet. Qed.
Lemma refresh_quiet r p : quiet (refreshRepository r p).
Proof. unfold refreshRepository, pruneStaleState. quiet. apply remove_branches_quiet. quiet. Qed.
Hint Resolve refresh_quiet : quiet.
Lemma discard_quiet l : quiet (discard l).
Proof. unfold discard. quiet. Qed.
Hint Resolve discard_quiet : quiet.
Lemma getRepository_quiet b p : quiet (getRepository b p).
Proof. unfold getRepository, acquire, lease_repo, lease_set. quiet. Qed.
Hint Resolve getRepository_quiet : quiet.
Lemma fetchUpstream_quiet p r : quiet (fetchUpstream p r).
Proof. unfold fetchUpstream. cbv zeta. quiet. Qed.
Hint Resolve fetchUpstream_quiet : quiet.
Lemma checkoutToBranch_quiet r b : quiet (checkoutToBranch r b).
Proof. unfold checkoutToBranch. cbv zeta. quiet. Qed.
Hint Resolve checkoutToBranch_quiet : quiet.
Lemma hardReset_quiet p r : quiet (upstreamBasedHardReset p r).
Proof. unfold upstreamBasedHardReset. cbv zeta. quiet. Qed.
Hint Resolve hardReset_quiet : quiet.
Lemma merge_quiet p r : quiet (merge_upstream p r).
Proof. unfold merge_upstream, doesBranchContainsCommit. cbv zeta. quiet. Qed.
Hint Resolve merge_quiet : quiet.
Lemma pull_quiet p r : quiet (upstreamBasedPullFastForward p r).
Proof. unfold upstreamBasedPullFastForward. cbv zeta. quiet. Qed.
Hint Resolve pull_quiet : quiet.
Lemma commit_quiet p w l r : quiet (Commit p w l r).
Proof.
  unfold Commit. assert (Hd : ∀ k ps, quiet k → quiet (stage_deletes w ps k)).
  { intros k ps Hk. induction ps as [|q ps IH]; cbn [stage_adds stage_deletes]; quiet. }
  assert (Ha : ∀ k ps, quiet k → quiet (stage_adds w ps k)).
  { intros k ps Hk. induction ps as [|q ps IH]; cbn [stage_adds stage_deletes]; quiet. }
  apply Ha, Hd. quiet.
Qed.

(** Every result the program can have. *)
Definition results {A} (p : prog call A) (R : A → Prop) : Prop :=
  wf free (λ _ _ _ _ _, True) tt p (λ _ a, R a).

(** What the log and the result satisfy separately, they satisfy together. *)
Lemma logs_result {A} (p : prog call A) (Q : list push_event → A → Prop) (R : A → Prop) s :
  logs s p Q → results p R → logs s p (λ s' a, Q s' a ∧ R a).
Proof.
  revert s; induction p as [a|X c k IH]; intros s; simpl; [done|].
  intros [_ Hq] [_ Hr]. split; [done|]. intros x s' Hx. apply IH; [by apply Hq|by apply (Hr x tt)].
Qed.

Lemma results_bind {A B} (m : prog call A) (f : A → prog call B) R :
  (∀ a, results (f a) R) → results (pbind m f) R.
Proof.
  intros Hf. unfold results. induction m as [a|X c k IH]; simpl; [apply Hf|]. split; [done|].
  intros x [] _. apply IH.
Qed.
Lemma results_then {A B} (m : P A) (k : A → P B) (R : result error B → Prop) :
  (∀ a, results (k a) R) → (∀ e, R (Err e)) → R Panic → results (and_then m k) R.
Proof. intros Hk He Hp. apply results_bind. intros [a|e|]; [apply Hk|apply He|apply Hp]. Qed.

Definition may_force (p : GitPipelineParams) : Prop :=
  MergeStrategy (rt_Spec (gp_RemoteTarget p)) = TryHardResetOrDie ∨
  MergeStrategy (rt_Spec (gp_RemoteTarget p)) = TryFastForwardOrHardReset.

Lemma GetWorkTree_force p r u s :
  logs s (GetWorkTree p r u) (λ s' a, s' = s ∧ match a with Ok (_, true) => may_force p | _ => True end).
Proof.
  apply logs_result; [revert s; change (quiet (GetWorkTree p r u)); unfold GetWorkTree; cbv zeta; quiet|].
  unfold GetWorkTree, may_force. cbv zeta.
  set (strategy := MergeStrategy _).
  destruct (Nat.eqb r u && String.eqb strategy ""); [apply results_bind; by intros [e|]|].
  destruct (String.eqb_spec strategy TryFastForwardOrHardReset) as [E|_].
  { apply results_bind. intros [wt|e|]; [done| |done]. apply results_then; [|done..]. intros wt. by right. }
  destruct (String.eqb_spec strategy TryHardResetOrDie) as [E|_].
  { apply results_then; [|done..]. intros wt. by left. }
  destruct (String.eqb_spec strategy TryFastForwardOrDie) as [E|_]; [|done]. by apply results_then.
Qed.

(** What one call of [push] logs. *)
Lemma push_one_log r o v vars s :
  logs s (push_ r o v vars) (λ s' a, ∃ ans, s' = (s ++ [mkPush r o ans])%list ∧ (a.2 = None ↔ accepted ans)).
Proof.
  split; [done|]. intros [progress ans] s' ->. simpl. exists ans. split; [done|].
  destruct ans as [e|]; simpl; [|done]. by destruct (Contains (ge_msg e) "already up-to-date").
Qed.

Lemma retry_push_log n r o v vars err s : err ≠ None →
  logs s (retry_push n r o v vars err) (λ s' err', ∃ l, s' = (s ++ l)%list ∧
    Forall (λ e, pe_repo e = r ∧ pe_options e = o) l ∧ (length l ≤ n)%nat ∧
    match err' with
    | None => ∃ l0 last, l = (l0 ++ [last])%list ∧ Forall (λ e, ¬ accepted (pe_answer e)) l0 ∧ accepted (pe_answer last)
    | Some _ => Forall (λ e, ¬ accepted (pe_answer e)) l ∧ length l = n
    end).
Proof.
  revert v err s; induction n as [|n IH]; intros v err s Herr; simpl.
  - exists []. rewrite app_nil_r. split_and!; [done|constructor|done|]. by destruct err.
  - eapply (wf_bind_mono _ _ _ (push_ r o v vars)); [apply push_one_log|].
    intros s1 [v1 [e1|]] (ans & -> & Hans); simpl in Hans.
    + eapply wf_mono; [|apply IH; done]. intros s2 err' (l & -> & Hs & Hl & Hm).
      assert (Hn : ¬ accepted ans) by naive_solver.
      exists (mkPush r o ans :: l). rewrite <- app_assoc. split_and!; [done|by constructor|simpl; lia|].
      destruct err'; [destruct Hm; split; [by constructor|simpl; lia]|].
      destruct Hm as (l0 & last & -> & Hr & Ha). exists (mkPush r o ans :: l0), last. by repeat constructor.
    + exists [mkPush r o ans]. split_and!; [done|by repeat constructor|simpl; lia|].
      exists [], (mkPush r o ans). split_and!; [done|constructor|]. by apply Hans.
Qed.

Definition sent (p : GitPipelineParams) (r : repo) (force : bool) (e : push_event) : Prop :=
  pe_repo e = r ∧ pe_options e = push_options p force.
Definition retries (p : GitPipelineParams) : nat := Z.to_nat (PushErrorRetryNumber (sc_Spec (gp_Syncer p))).

Lemma Push_log p r force s :
  logs s (Push p r force) (λ s' err, ∃ l, s' = (s ++ l)%list ∧ attempts (sent p r force) (retries p) l (err = None)).
Proof.
  unfold Push. cbv zeta. eapply wf_bind_mono; [apply push_one_log|].
  intros s1 [v1 [e1|]] (ans & -> & Hans); simpl in Hans.
  - assert (Hn : ¬ accepted ans) by naive_solver. eapply wf_mono; [|by apply retry_push_log].
    intros s2 err' (l & -> & Hs & Hl & Hm). exists (mkPush r (push_options p force) ans :: l). rewrite <- app_assoc.
    split; [done|]. fold (retries p) in *. destruct err' as [e'|].
    + destruct Hm as [Hr Hlen].
      destruct (exists_last (l := mkPush r (push_options p force) ans :: l)) as (l0 & last & E); [done|].
      assert (Hall : Forall (λ e, ¬ accepted (pe_answer e)) (l0 ++ [last]))
        by (rewrite <- E; by constructor).
      apply Forall_app in Hall as [Hl0 Hlast]. apply Forall_cons in Hlast as [Hlast _].
      assert (Hlen' : length l0 = length l).
      { apply (f_equal length) in E. rewrite length_app in E. simpl in E. lia. }
      exists l0 last; [done|by constructor|lia|done| |lia]. split; [done|]. intros Ha. exfalso. by apply Hlast.
    + destruct Hm as (l0 & last & -> & Hr & Ha). rewrite length_app in Hl. simpl in Hl.
      exists (mkPush r (push_options p force) ans :: l0) last; [done|by constructor|simpl; lia|by constructor|by split|done].
  - exists [mkPush r (push_options p force) ans]. split; [done|].
    exists [] (mkPush r (push_options p force) ans); [done|by repeat constructor|simpl; lia|constructor|exact Hans|done].
Qed.

(** How one request ends: nothing was pushed and it failed, or the push was attempted. *)
Definition request_end (p : GitPipelineParams) (l : list push_event)
    (a : result error (GitPushResponse * option error)) : Prop :=
  match a with
  | Panic | Err _ => l = []
  | Ok (resp, err) =>
      gpr_URL resp = TargetRepository (rt_Spec (gp_RemoteTarget p)) ∧
      ((l = [] ∧ err ≠ None ∧ gpr_CommitHash resp = "") ∨
       ∃ target force, (force = true → may_force p) ∧ attempts (sent p target force) (retries p) l (err = None))
  end.

Lemma push_worktree_log p target upstream :
  logs [] (push_worktree p target upstream) (λ s a, request_end p s a).
Proof.
  unfold push_worktree. cbv zeta. eapply wf_bind_mono; [apply GetWorkTree_force|].
  intros s [[wt force]|e|] [-> Hf]; [|by split; [|left]|done].
  eapply wf_bind_mono; [apply (quiet_call (GenerateFinalWorktreeC p wt)); reflexivity|].
  intros s [paths|e] ->; [|by split; [|left]].
  eapply wf_bind_mono; [apply commit_quiet|]. intros s [h|e|] ->; [|by split; [|left]|done].
  eapply wf_bind_mono; [apply Push_log|]. intros s err (l & -> & Hl). simpl. split; [done|]. right.
  exists target, force. split; [|done]. by intros ->.
Qed.

Lemma deferred_log (lease : option repoLease) {A} (body : prog call A) (Q : list push_event → A → Prop) s :
  logs s body Q → logs s (deferred lease body) Q.
Proof.
  intros Hb. eapply wf_bind_mono; [apply Hb|]. intros s' a Ha.
  eapply wf_bind_mono; [instantiate (1 := λ s2 _, s2 = s'); destruct lease as [l|]; [|done];
    by apply (quiet_call (Unlock (rl_handle l)))|]. by intros s2 _ ->.
Qed.
(** How one request ends, whatever the git server and the other requests do. *)
Lemma request_pushes enabled p t a : runs (RunGitPipeline enabled p) t a → request_end p (pushes t) a.
Proof.
  intros Hr. assert (Hw : wf free (stepped push_log) [] (RunGitPipeline enabled p) (λ s a, request_end p s a)).
  { unfold RunGitPipeline. cbv zeta. eapply wf_bind_mono; [apply getRepository_quiet|].
    intros s [[target lease]|e|] ->; [|by split; [|left]|done]. apply deferred_log.
    destruct (_ && _); [|apply push_worktree_log].
    eapply wf_bind_mono; [apply getRepository_quiet|].
    intros s [[upstream lease2]|e|] ->; [|by split; [|left]|done]. apply deferred_log, push_worktree_log. }
  apply (wf_runs push_log _ _ _ _ _ Hw) in Hr. by rewrite replay_pushes in Hr.
Qed.
End Runs.

(** (C12) One request to the git side pushes to one branch of one repository, forcibly only
    under the two strategies that may reset it, at most [PushErrorRetryNumber] times more
    than once and never after the server took the push; it succeeds exactly when the last
    attempt was taken (or was already there). A request that fails before the push reaches
    no remote branch and reports no commit. *)
Theorem pipeline_pushes `{GoGit} enabled p t resp err :
  runs (RunGitPipeline enabled p) t (Ok (resp, err)) →
  let branch := TargetBranch (rt_Spec (gp_RemoteTarget p)) in
  let strategy := MergeStrategy (rt_Spec (gp_RemoteTarget p)) in
  gpr_URL resp = TargetRepository (rt_Spec (gp_RemoteTarget p)) ∧
  ((pushes t = [] ∧ err ≠ None ∧ gpr_CommitHash resp = "") ∨
   ∃ target, attempts
     (λ e, pe_repo e = target ∧ pu_RefSpecs (pe_options e) = ["refs/heads/" ++ (branch ++ (":refs/heads/" ++ branch))] ∧
           pu_Auth (pe_options e) = mkAuth (gu_User (gp_GitUserInfo p)) (gu_Token (gp_GitUserInfo p)) ∧
           (pu_Force (pe_options e) = true →
              strategy = "TryHardResetOrDie" ∨ strategy = "TryFastForwardOrHardReset"))
     (Z.to_nat (PushErrorRetryNumber (sc_Spec (gp_Syncer p)))) (pushes t) (err = None)).
Proof.
  intros Hr%request_pushes branch strategy.
  destruct Hr as [Hurl [?|(target & force & Hf & [l0 last El Hs Hn Hrej Hok Hfail])]]; split; [done|by left|done|].
  right. exists target. exists l0 last; try done. eapply Forall_impl; [exact Hs|].
  intros e [Hrep Ho]. rewrite Ho. split_and!; [done..|]. intros Hforce. simpl in Hforce. by apply Hf.
Qed.

(** ** Concrete answers and requests, for the witnesses *)

(** go-git succeeds, with nothing to report. *)
Definition demo_answer {X} (g : git X) : X :=
  match g in git X return X with
  | Fetch _ => ("", None) | Reference_ n => inl (mkReference n "c0ffee") | SetReference _ => None
  | RemoveReference _ => None | Branches => inl [] | Remote _ => None | CreateRemote _ _ => None
  | DeleteRemote _ => None | Worktree => None | Checkout _ => None | HardReset _ => None | Clean => None
  | Pull _ => ("", None) | Log _ => inl ["c0ffee"] | MergeFastForward _ => None | Add_ _ => None
  | Remove _ => None | Commit_ _ _ _ _ => inl "c0ffee" | Head => inl (mkReference "HEAD" "c0ffee")
  | CommitObject h => inl h | Push_ _ => ("", None)
  end.

#[local] Instance demo_gogit : GoGit := {|
  NewBranchReferenceName b := "refs/heads/" ++ b; Reference_String r := ref_hash r ++ (" " ++ ref_name r); HEAD := "HEAD" |}.

Definition demo_syncer (url : string) : SyncerContext :=
  NewRemoteSyncerContext (mkRemoteSyncer (new_meta "rs" "team" ∅)
    (mkRemoteSyncerSpec url "main" (mkScopedResources None None []) CommitApply MultipleTarget
      None "" [] [] "" false None [] false BlockDefaultUser BlockPushError 1
      None None false (mkRef "" "") (mkSOPSConfig false (mkRef "" ""))) (mkRemoteSyncerStatus [] None None None)) "team".
(** A push to [target], whose upstream is [upstream]. *)
Definition demo_push (upstream target strategy : string) : GitPipelineParams :=
  mkGitParams (demo_syncer upstream)
    (mkRemoteTarget (new_meta "rt" "team" ∅) (mkRemoteTargetSpec upstream "main" target "main" strategy) [])
    "kind: ConfigMap" "" (mkGVR "" "v1" "configmaps") "cm" (mkGitUserInfo "alice" "a@b.c" "token") "CREATE" None.

Definition direct_push : GitPipelineParams := demo_push "https://git.x/a" "https://git.x/a" "".

Lemma pipeline_pushes_witness : ∃ t resp, runs (RunGitPipeline true direct_push) t (Ok (resp, None)) ∧
  gpr_CommitHash resp = "c0ffee" ∧ gpr_URL resp = "https://git.x/a".
Proof.
  set (answer := λ X (c : call X), match c in call X return X with
    | LoadOrStoreC key => mkHandle key 0 | Lock _ => tt | Unlock _ => tt | ReadRepo _ => None | WriteRepo _ _ => tt
    | DeleteC _ => tt | CloneC _ => ("", inl 0%nat) | GitC _ g => demo_answer g | Now => 0%Z
    | GenerateFinalWorktreeC _ _ => inl (mkClaimedPaths ["app.yaml"] []) end).
  pose proof (drive_runs answer (RunGitPipeline true direct_push)) as Hr.
  set (t := (drive answer (RunGitPipeline true direct_push)).1) in Hr.
  exists t, (mkPushResponse ["app.yaml"] "c0ffee" "https://git.x/a").
  split; [exact Hr|]. split; [reflexivity|]. apply (pipeline_pushes true direct_push t _ None Hr).
Defined.
