(* ===== verification/Lease.v ===== *)
(** * The leases on the cached clones ([internal/pusher/cache.go])

    Requests run concurrently, each one [RunGitPipeline]. They share the repository cache
    and the mutexes of its handles; one step of the system is one call of one request.
    The theorems: no two requests ever work on the same clone, no request ends with a
    lease, a push only goes to a clone of its target; and when requests can and cannot
    block each other for ever. *)

From S2P Require Import Prelude GoStr Api Errors Lfu Pipeline Git Pusher.

(** ** The shared state *)

(** [repoHandle]: the repository and the mutex, with the request that holds it. *)
Record repoHandle := mkCell { rh_repo : option repo; rh_mu : option nat }.

Definition Thread : Type := prog call (result error (GitPushResponse * option error)).

(** [s_next] numbers the addresses; [s_origin] remembers what each clone was made of,
    which no code reads. *)
Record sys := mkSys {
  s_repoCache : option (LFU string handle);
  s_heap : gmap handle repoHandle;
  s_next : nat;
  s_origin : gmap repo string;
  s_threads : list Thread }.

Definition clone_key (o : CloneOptions) : string := co_URL o ++ ("#" ++ co_ReferenceName o).

Definition set_cache (c : option (LFU string handle)) (σ : sys) : sys :=
  mkSys c (s_heap σ) (s_next σ) (s_origin σ) (s_threads σ).
Definition set_heap (m : gmap handle repoHandle) (σ : sys) : sys :=
  mkSys (s_repoCache σ) m (s_next σ) (s_origin σ) (s_threads σ).
Definition set_threads (ts : list Thread) (σ : sys) : sys :=
  mkSys (s_repoCache σ) (s_heap σ) (s_next σ) (s_origin σ) ts.

(** [&repoHandle{}]. *)
Definition new_handle (key : string) (σ : sys) : handle := mkHandle key (s_next σ).

(** The address of a new clone. *)
Definition new_repo (σ : sys) : repo := s_next σ.

(** [exec i c σ x σ']: request [i] makes call [c], which answers [x]. go-git and the
    transformation of the worktree answer anything. *)
Definition exec (i : nat) {X} (c : call X) (σ : sys) : X → sys → Prop :=
  match c in call X return X → sys → Prop with
  | LoadOrStoreC key => λ h σ', ∃ ord : order string handle,
      let fresh := new_handle key σ in
      let r := LoadOrStore ord key fresh (s_repoCache σ) in
      fair ord ∧ h = r.1.1 ∧
      σ' = mkSys r.2 (<[fresh := mkCell None None]> (s_heap σ)) (S (s_next σ)) (s_origin σ) (s_threads σ)
  | Lock h => λ _ σ', ∃ r, s_heap σ !! h = Some (mkCell r None) ∧
      σ' = set_heap (<[h := mkCell r (Some i)]> (s_heap σ)) σ
  | Unlock h => λ _ σ', ∃ r j, s_heap σ !! h = Some (mkCell r (Some j)) ∧
      σ' = set_heap (<[h := mkCell r None]> (s_heap σ)) σ
  | ReadRepo h => λ r σ', ∃ mu, s_heap σ !! h = Some (mkCell r mu) ∧ σ' = σ
  | WriteRepo h r => λ _ σ', ∃ r0 mu, s_heap σ !! h = Some (mkCell r0 mu) ∧
      σ' = set_heap (<[h := mkCell (Some r) mu]> (s_heap σ)) σ
  | DeleteC key => λ _ σ', σ' = set_cache (Delete key (s_repoCache σ)) σ
  | CloneC o => λ x σ',
      match x.2 with
      | inl r => r = new_repo σ ∧
          σ' = mkSys (s_repoCache σ) (s_heap σ) (S (s_next σ)) (<[r := clone_key o]> (s_origin σ)) (s_threads σ)
      | inr _ => σ' = σ
      end
  | _ => λ _ σ', σ' = σ
  end.

Inductive step (σ : sys) : sys → Prop :=
| step_call i {X} (c : call X) k x σ1 :
    s_threads σ !! i = Some (Vis c k) → exec i c σ x σ1 →
    step σ (set_threads (<[i := k x]> (s_threads σ)) σ1).

Definition reachable : sys → sys → Prop := rtc step.

(** A system that starts: an empty cache of any size, one thread per request. *)
Definition start `{GoGit} (maxRepos : Z) (ps : list GitPipelineParams) : sys :=
  mkSys (NewLFU maxRepos) ∅ 0 ∅ (map (RunGitPipeline true) ps).

(** ** What one request holds *)

Record hold := mkHold {
  hd_locks : gmap handle (option repo);    (** the handles it has locked, with their clones *)
  hd_own : gmap repo string;               (** the clones no one else knows *)
  hd_known : gset handle }.                (** the handles it was given *)

Definition nothing : hold := mkHold ∅ ∅ ∅.
Definition with_locks (m : gmap handle (option repo)) (s : hold) : hold := mkHold m (hd_own s) (hd_known s).
Definition with_own (m : gmap repo string) (s : hold) : hold := mkHold (hd_locks s) m (hd_known s).

(** Up to the handles it was given. *)
Definition same_hold (s s' : hold) : Prop := hd_locks s' = hd_locks s ∧ hd_own s' = hd_own s.

(** A clone the request may use: its own, or that of a handle it has locked. *)
Definition held (s : hold) (r : repo) (key : string) : Prop :=
  hd_own s !! r = Some key ∨ ∃ h, hd_locks s !! h = Some (Some r) ∧ h_key h = key.

Definition is_push {X} (g : git X) : bool := match g with Push_ _ => true | _ => false end.

Section Logic.
(** [nest k k']: a lease on [k'] may be taken while one on [k] is held. *)
Variable nest : string → string → Prop.
Variable target : string.

Definition pre (X : Type) (s : hold) (c : call X) : Prop :=
  match c with
  | Lock h => h ∈ hd_known s ∧
      ∀ h', is_Some (hd_locks s !! h') → h_key h' ≠ h_key h ∧ nest (h_key h') (h_key h)
  | Unlock h | ReadRepo h => is_Some (hd_locks s !! h)
  | WriteRepo h r => is_Some (hd_locks s !! h) ∧ hd_own s !! r = Some (h_key h)
  | GitC r g => ∃ key, held s r key ∧ (is_push g = true → key = target)
  | _ => True
  end.

Definition post (X : Type) (s : hold) (c : call X) : X → hold → Prop :=
  match c in call X return X → hold → Prop with
  | LoadOrStoreC key => λ h s', h_key h = key ∧ s' = mkHold (hd_locks s) (hd_own s) ({[h]} ∪ hd_known s)
  | Lock h => λ _ s', hd_locks s !! h = None ∧ ∃ r, s' = with_locks (<[h := r]> (hd_locks s)) s
  | Unlock h => λ _ s', s' = with_locks (delete h (hd_locks s)) s
  | ReadRepo h => λ x s', hd_locks s !! h = Some x ∧ s' = s
  | WriteRepo h r => λ _ s', s' = mkHold (<[h := Some r]> (hd_locks s)) (delete r (hd_own s)) (hd_known s)
  | CloneC o => λ x s',
      match x.2 with
      | inl r => hd_own s !! r = None ∧ s' = with_own (<[r := clone_key o]> (hd_own s)) s
      | inr _ => s' = s
      end
  | _ => λ _ s', s' = s
  end.

(** ** One request, alone *)

Section Typing.
Context `{GoGit}.
Abbreviation safe := (wf pre post).

(** Programs that leave what is held as it is, in the states [ok]. *)
Definition keeps (ok : hold → Prop) {A} (p : prog call A) (R : A → Prop) : Prop :=
  ∀ s, ok s → safe s p (λ s' a, s' = s ∧ R a).
Definition no_panic {A} (a : result error A) : Prop := a ≠ Panic.
Definition anything {A} (a : A) : Prop := True.

(** The states in which the request holds the clone, and those in which it may push. *)
Definition holding (r : repo) (s : hold) : Prop := ∃ key, held s r key.
Definition pushing (r : repo) (s : hold) : Prop := held s r target.

Lemma keeps_ret {A} ok (a : A) (R : A → Prop) : R a → keeps ok (Ret a) R.
Proof. by intros HR s _. Qed.
Lemma keeps_bind {A B} ok (m : prog call A) (f : A → prog call B) R1 R :
  keeps ok m R1 → (∀ a, R1 a → keeps ok (f a) R) → keeps ok (pbind m f) R.
Proof.
  intros Hm Hf s Hs. eapply wf_bind_mono; [by apply Hm|]. intros s' a [-> Ha]. by apply Hf.
Qed.
Lemma keeps_weaken {A} ok (m : prog call A) (R R' : A → Prop) :
  (∀ a, R a → R' a) → keeps ok m R → keeps ok m R'.
Proof. intros HR Hm s Hs. eapply wf_mono; [|by apply Hm]. intros s' a [-> Ha]. auto. Qed.
Lemma keeps_on {X} r (g : git X) : is_push g = false → keeps (holding r) (on r g) anything.
Proof.
  intros Hg s [key Hk]. split; [|by intros x s' ->]. exists key. split; [done|]. by rewrite Hg.
Qed.
Lemma keeps_push r o : keeps (pushing r) (on r (Push_ o)) anything.
Proof. intros s Hk. split; [|by intros x s' ->]. by exists target. Qed.
Lemma pushing_holding {A} r (p : prog call A) R : keeps (holding r) p R → keeps (pushing r) p R.
Proof. intros Hp s Hs. apply Hp. by exists target. Qed.
(** The error branches are all fine. *)
Definition errs {A} (R : result error A → Prop) : Prop := ∀ e, R (Err e).
Lemma errs_no_panic {A} : errs (@no_panic A).
Proof. done. Qed.
Definition gives {A} (Q : A → Prop) (a : result error A) : Prop :=
  match a with Ok x => Q x | Err _ => True | Panic => False end.
Lemma errs_gives {A} (Q : A → Prop) : errs (gives Q).
Proof. done. Qed.
Lemma gives_no_panic {A} (Q : A → Prop) a : gives Q a → no_panic a.
Proof. by destruct a. Qed.

Section Errs.
Context {B : Type} (ok : hold → Prop) (R : result error B → Prop) (HR : errs R).
Lemma keeps_or_return {A} (m : prog call (A + git_error)) w (k : A → P B) :
  keeps ok m anything → (∀ a, keeps ok (k a) R) → keeps ok (or_return m w k) R.
Proof. intros Hm Hk. eapply keeps_bind; [done|]. intros [a|e] _; [apply Hk|apply keeps_ret, HR]. Qed.
Lemma keeps_unless_error (m : prog call (option git_error)) w (k : P B) :
  keeps ok m anything → keeps ok k R → keeps ok (unless_error m w k) R.
Proof. intros Hm Hk. eapply keeps_bind; [done|]. intros [e|] _; [apply keeps_ret, HR|done]. Qed.
Lemma keeps_and_then {A} (m : P A) (k : A → P B) :
  keeps ok m no_panic → (∀ a, keeps ok (k a) R) → keeps ok (and_then m k) R.
Proof.
  intros Hm Hk. eapply keeps_bind; [done|]. intros [a|e|] Hn; [apply Hk|apply keeps_ret, HR|done].
Qed.
Lemma keeps_unless_new r w (k : P B) : keeps ok k R → keeps ok (unless_new r w k) R.
Proof. intros Hk. unfold unless_new. destruct r as [e|]; [|done]. by destruct (is_same e _); [|apply keeps_ret, HR]. Qed.
End Errs.

Create HintDb keeps.
Ltac keeps :=
  repeat first
    [ match goal with |- ∀ _, _ => intro end
    | solve [auto with keeps]
    | apply keeps_ret; done
    | apply keeps_or_return; [done| |]
    | apply keeps_unless_error; [done| |]
    | apply keeps_and_then; [done| |]
    | apply keeps_unless_new; [done|]
    | apply keeps_on; reflexivity
    | match goal with
      | |- keeps _ (match ?x with _ => _ end) _ => destruct x
      | H : no_panic Panic |- _ => by destruct H
      end
    | eapply keeps_bind; [solve [apply keeps_on; reflexivity | auto with keeps]|] ].

Lemma remove_branches_keeps r l k : keeps (holding r) k no_panic → keeps (holding r) (remove_branches r l k) no_panic.
Proof. intros Hk. induction l as [|n l IH]; cbn [remove_branches]; keeps. Qed.
Lemma refresh_keeps r p : keeps (holding r) (refreshRepository r p) no_panic.
Proof. unfold refreshRepository, pruneStaleState. cbv zeta. keeps. apply remove_branches_keeps. keeps. Qed.
Lemma fetchUpstream_keeps p r : keeps (holding r) (fetchUpstream p r) no_panic.
Proof. unfold fetchUpstream. cbv zeta. keeps. Qed.
Hint Resolve fetchUpstream_keeps : keeps.
Lemma checkoutToBranch_keeps r b : keeps (holding r) (checkoutToBranch r b) no_panic.
Proof. unfold checkoutToBranch. cbv zeta. keeps. Qed.
Hint Resolve checkoutToBranch_keeps : keeps.
Lemma hardReset_keeps p r : keeps (holding r) (upstreamBasedHardReset p r) (gives (eq r)).
Proof. unfold upstreamBasedHardReset. cbv zeta. keeps. Qed.
Lemma contains_keeps r b c : keeps (holding r) (doesBranchContainsCommit r b c) no_panic.
Proof. unfold doesBranchContainsCommit. keeps. Qed.
Hint Resolve hardReset_keeps contains_keeps : keeps.
Lemma merge_keeps p r : keeps (holding r) (merge_upstream p r) (gives (eq r)).
Proof. unfold merge_upstream. cbv zeta. keeps. Qed.
Hint Resolve merge_keeps : keeps.
Lemma pull_keeps p r : keeps (holding r) (upstreamBasedPullFastForward p r) (gives (eq r)).
Proof. unfold upstreamBasedPullFastForward. cbv zeta. keeps. Qed.
Hint Resolve pull_keeps : keeps.
Lemma GetWorkTree_keeps p r u : keeps (holding r) (GetWorkTree p r u) (gives (λ x, r = x.1)).
Proof.
  assert (Hreset : keeps (holding r) (and_then (upstreamBasedHardReset p r) (λ wt, Ret (Ok (wt, true))))
    (gives (λ x, r = x.1))).
  { eapply keeps_bind; [apply hardReset_keeps|]. intros [wt|e|] Ha; by apply keeps_ret. }
  unfold GetWorkTree. cbv zeta. destruct (Nat.eqb r u && _); [keeps|].
  destruct (String.eqb _ _).
  { eapply keeps_bind; [apply pull_keeps|]. intros [wt|e|] Ha; [by apply keeps_ret|done|done]. }
  destruct (String.eqb _ _); [done|]. destruct (String.eqb _ _); [|by apply keeps_ret].
  eapply keeps_bind; [apply pull_keeps|]. intros [wt|e|] Ha; by apply keeps_ret.
Qed.
Lemma commit_keeps p l r : keeps (holding r) (Commit p r l r) no_panic.
Proof.
  assert (Hd : ∀ k ps, keeps (holding r) k no_panic → keeps (holding r) (stage_deletes r ps k) no_panic).
  { intros k ps Hk. induction ps as [|q ps IH]; cbn [stage_deletes]; keeps. }
  assert (Ha : ∀ k ps, keeps (holding r) k no_panic → keeps (holding r) (stage_adds r ps k) no_panic).
  { intros k ps Hk. induction ps as [|q ps IH]; cbn [stage_adds]; keeps. }
  unfold Commit. apply Ha, Hd. eapply (keeps_bind _ _ _ anything).
  { intros s Hs. split; [done|]. by intros x s' ->. }
  intros. keeps.
Qed.
Lemma push_keeps p r force : keeps (pushing r) (Push p r force) anything.
Proof.
  assert (Hone : ∀ o v vars, keeps (pushing r) (push_ r o v vars) anything).
  { intros o v vars. eapply keeps_bind; [apply keeps_push|]. intros [progress a] _. by apply keeps_ret. }
  assert (Hmore : ∀ n o v vars err, keeps (pushing r) (retry_push n r o v vars err) anything).
  { intros n o. induction n as [|n IH]; intros v vars err; cbn [retry_push]; [by apply keeps_ret|].
    eapply keeps_bind; [apply Hone|]. intros [v' [e|]] _; [apply IH|by apply keeps_ret]. }
  unfold Push. cbv zeta. eapply keeps_bind; [apply Hone|]. intros [v' [e|]] _; [apply Hmore|by apply keeps_ret].
Qed.
Lemma push_worktree_keeps p r u : keeps (pushing r) (push_worktree p r u) anything.
Proof.
  unfold push_worktree. cbv zeta. eapply keeps_bind; [apply pushing_holding, GetWorkTree_keeps|].
  intros [[wt force]|e|] Ha; [|by apply keeps_ret|done]. simpl in Ha. subst wt.
  eapply (keeps_bind _ _ _ anything). { intros s Hs. split; [done|]. by intros x s' ->. }
  intros [paths|e] _; [|by apply keeps_ret].
  eapply keeps_bind; [apply pushing_holding, commit_keeps|]. intros [h|e|] Hh; [|by apply keeps_ret|done].
  eapply keeps_bind; [apply push_keeps|]. intros err _. by apply keeps_ret.
Qed.

(** The clone of a request is its own until it is put in a handle. *)
Lemma clone_safe gp s : safe s (cloneRepository gp) (λ s' a,
  match a with
  | Ok r => hd_own s !! r = None ∧ s' = with_own (<[r := cacheKey gp]> (hd_own s)) s
  | Err _ => s' = s
  | Panic => False
  end).
Proof.
  split; [done|]. intros [progress [r|e]] s'; simpl; [|done]. done.
Qed.

Lemma discard_safe l s c : hd_locks s !! rl_handle l = Some c →
  safe s (discard l) (λ s' _, s' = with_locks (delete (rl_handle l) (hd_locks s)) s).
Proof.
  intros Hl. unfold discard. apply wf_call; [by eexists|]. intros c' s1 [_ ->].
  apply (wf_bind_mono _ _ _ _ _ (λ s2 _, s2 = s)).
  { destruct c'; [done|]. split; [done|]. by intros x s2 ->. }
  intros s2 _ ->. split; [by eexists|]. by intros x s3 ->.
Qed.

Lemma store_safe l s c r : hd_locks s !! rl_handle l = Some c → hd_own s !! r = Some (h_key (rl_handle l)) →
  safe s (lease_set l r)
    (λ s' _, s' = mkHold (<[rl_handle l := Some r]> (hd_locks s)) (delete r (hd_own s)) (hd_known s)).
Proof. intros Hl Hr. split; [by split; [eexists|]|]. by intros x s' ->. Qed.

(** What a successful [getRepository] takes: one lease, on the handle of its key. *)
Definition leased (gp : GetRepositoryParams) (s s' : hold) (a : result error (repo * option repoLease)) : Prop :=
  match a with
  | Ok (r, Some l) => h_key (rl_handle l) = cacheKey gp ∧ hd_locks s !! rl_handle l = None ∧
      hd_locks s' = <[rl_handle l := Some r]> (hd_locks s) ∧ hd_own s' = hd_own s
  | Ok (_, None) | Panic => False
  | Err _ => same_hold s s'
  end.

(** From the acquired lease on, [s] being what was held before it. *)
Lemma fill_safe gp l s s1 c (wrapped : error → error) :
  h_key (rl_handle l) = cacheKey gp → hd_locks s !! rl_handle l = None →
  hd_locks s1 = <[rl_handle l := c]> (hd_locks s) → hd_own s1 = hd_own s →
  safe s1
    (r ⟵ cloneRepository gp;;
     match r with
     | Err err => _ ⟵ discard l;; Ret (Err (wrapped err))
     | Ok repository => _ ⟵ lease_set l repository;; Ret (Ok (repository, Some l))
     | Panic => Ret Panic
     end) (leased gp s).
Proof.
  intros Hk Hl Hl1 Ho1. eapply wf_bind_mono; [apply clone_safe|]. intros s3 [r|e|] Ha; simpl in Ha; [| |done].
  - destruct Ha as [Ho ->]. eapply wf_bind_mono.
    { apply (store_safe l _ c); simpl; [by rewrite Hl1, lookup_insert_eq|by rewrite lookup_insert_eq, Hk]. }
    intros s4 _ ->. simpl. rewrite Hl1, insert_insert_eq, delete_insert_id by done. done.
  - subst s3. eapply wf_bind_mono; [apply (discard_safe l _ c); by rewrite Hl1, lookup_insert_eq|].
    intros s4 _ ->. split; simpl; [|done]. by rewrite Hl1, delete_insert_id.
Qed.

Lemma getRepository_safe gp s :
  (∀ h, is_Some (hd_locks s !! h) → h_key h ≠ cacheKey gp ∧ nest (h_key h) (cacheKey gp)) →
  safe s (getRepository true gp) (leased gp s).
Proof.
  intros Hn. unfold getRepository. simpl negb. cbv iota.
  apply (wf_bind_mono _ _ _ _ _ (λ s1 l, h_key (rl_handle l) = cacheKey gp ∧ hd_locks s !! rl_handle l = None ∧
    ∃ c, hd_locks s1 = <[rl_handle l := c]> (hd_locks s) ∧ hd_own s1 = hd_own s)).
  { unfold acquire. apply wf_call; [done|]. intros h s1 [Hk ->]. apply wf_call.
    { simpl. split; [set_solver|]. rewrite Hk. exact Hn. }
    intros _ s2 [Hh [c ->]]. simpl. eauto. }
  intros s1 l (Hk & Hl & c & Hl1 & Ho1).
  assert (Hc : hd_locks s1 !! rl_handle l = Some c) by (by rewrite Hl1, lookup_insert_eq).
  apply wf_call; [by eexists|]. intros c' s2 [Hc' ->]. rewrite Hc in Hc'. injection Hc' as <-.
  destruct c as [stale|]; [|by apply (fill_safe gp l s s1 None (λ e, e))].
  eapply wf_bind_mono.
  { apply (refresh_keeps stale gp). exists (cacheKey gp). right. by exists (rl_handle l). }
  intros s3 [u|e|] [-> Ha]; [| |done].
  - apply wf_call; [by eexists|]. intros c' s4 [Hc' ->]. rewrite Hc in Hc'. by injection Hc' as <-.
  - by apply (fill_safe gp l s s1 (Some stale)).
Qed.

Lemma deferred_safe {A} l (body : prog call A) s s1 c : hd_locks s !! rl_handle l = None →
  hd_locks s1 = <[rl_handle l := c]> (hd_locks s) → hd_own s1 = hd_own s →
  safe s1 body (λ s' _, same_hold s1 s') → safe s1 (deferred (Some l) body) (λ s' _, same_hold s s').
Proof.
  intros Hl Hl1 Ho1 Hb. eapply wf_bind_mono; [exact Hb|]. intros s' a [Hl' Ho'].
  apply wf_call; [simpl; rewrite Hl', Hl1, lookup_insert_eq; eauto|]. intros _ s2 ->. split; simpl.
  - by rewrite Hl', Hl1, delete_insert_id.
  - by rewrite Ho', Ho1.
Qed.
End Typing.
End Logic.

(** The keys of the two leases of a request. *)
Definition target_key (p : GitPipelineParams) : string :=
  TargetRepository (rt_Spec (gp_RemoteTarget p)) ++ ("#" ++ UpstreamBranch (rt_Spec (gp_RemoteTarget p))).
Definition upstream_key (p : GitPipelineParams) : string :=
  UpstreamRepository (rt_Spec (gp_RemoteTarget p)) ++ ("#" ++ UpstreamBranch (rt_Spec (gp_RemoteTarget p))).

(** Whether the request takes the second lease. *)
Definition two_leases (p : GitPipelineParams) : Prop :=
  MergeStrategy (rt_Spec (gp_RemoteTarget p)) ≠ "" ∧
  UpstreamRepository (rt_Spec (gp_RemoteTarget p)) ≠ TargetRepository (rt_Spec (gp_RemoteTarget p)).

(** A request gives back all it takes, uses only clones it holds, pushes only to the
    clone of its target, and nests its leases as it must. *)
Lemma RunGitPipeline_safe `{GoGit} nest p :
  (two_leases p → nest (target_key p) (upstream_key p)) →
  wf (pre nest (target_key p)) post nothing (RunGitPipeline true p) (λ s _, same_hold nothing s).
Proof.
  intros Hnest. unfold RunGitPipeline. cbv zeta.
  eapply wf_bind_mono; [apply getRepository_safe; intros h [c Hc]; simpl in Hc; by rewrite lookup_empty in Hc|].
  intros s1 [[target [l|]]|e|] Ha; simpl in Ha; [|done|done|done]. destruct Ha as (Hk & Hl & Hl1 & Ho1).
  assert (Hpush : ∀ s, hd_locks s !! rl_handle l = Some (Some target) → pushing (target_key p) target s).
  { intros s Hs. right. by exists (rl_handle l). }
  eapply deferred_safe; [exact Hl|exact Hl1|exact Ho1|].
  assert (Hs1 : hd_locks s1 !! rl_handle l = Some (Some target)) by (by rewrite Hl1, lookup_insert_eq).
  destruct (_ && _) eqn:E.
  2: { eapply wf_mono; [|by apply push_worktree_keeps, Hpush]. by intros s a [-> _]. }
  apply andb_true_iff in E as [E1%negb_true_iff%String.eqb_neq E2%negb_true_iff%String.eqb_neq].
  eapply wf_bind_mono; [apply getRepository_safe|].
  { intros h [c Hc]. rewrite Hl1 in Hc. apply lookup_insert_Some in Hc as [[<- _]|[_ Hc]]; [|by rewrite lookup_empty in Hc].
    rewrite Hk. split; [|by apply Hnest]. unfold cacheKey. simpl. intros He. apply E2.
    symmetry. by eapply append_inj_r. }
  intros s2 [[upstream [l2|]]|e|] Ha; simpl in Ha; [|done|exact Ha|done]. destruct Ha as (Hk2 & Hl2 & Hl3 & Ho3).
  eapply deferred_safe; [exact Hl2|exact Hl3|exact Ho3|].
  eapply wf_mono; [|apply push_worktree_keeps, Hpush]; [by intros s a [-> _]|].
  rewrite Hl3, lookup_insert_ne; [done|]. intros He. rewrite He in Hl2. congruence.
Qed.

(** ** All requests together *)

Definition cached (c : option (LFU string handle)) (k : string) (h : handle) : Prop :=
  match c with Some c => contents c !! k = Some h | None => False end.

Lemma LoadOrStore_cases ord key v (c : option (LFU string handle)) : fair ord → wf_opt c →
  let r := LoadOrStore ord key v c in
  wf_opt r.2 ∧ (r.1.1 = v ∨ cached c key r.1.1) ∧
  ∀ k h, cached r.2 k h → cached c k h ∨ (k = key ∧ h = v).
Proof.
  intros Hf Hw. destruct c as [c|]; simpl; [|by auto].
  destruct (entries c !! key) as [e|] eqn:E; simpl.
  - split_and!; [by apply touch_wf| |].
    + right. by rewrite contents_lookup, E.
    + intros k h. rewrite touch_contents. auto.
  - destruct (insert_new_spec ord key v c Hf Hw E) as (Hw' & Hsub & _). split_and!; [done|by left|].
    intros k h Hk. eapply lookup_weaken in Hk; [|exact Hsub].
    apply lookup_insert_Some in Hk as [[<- <-]|[_ Hk]]; auto.
Qed.

Lemma Delete_cases key (c : option (LFU string handle)) : wf_opt c →
  wf_opt (Delete key c) ∧ ∀ k h, cached (Delete key c) k h → cached c k h.
Proof.
  intros Hw. destruct c as [c|]; simpl; [|done]. split.
  - apply (run_op_wf (K := string) (V := handle) map_to_list (OpDelete key) (Some c)); [|done].
    by intros m.
  - intros k h. unfold contents. simpl. rewrite !lookup_fmap, !fmap_Some.
    intros (e & He & ->). apply lookup_delete_Some in He as [_ He]. eauto.
Qed.

(** What the shared state and the requests agree on. [H i] is what request [i] holds. *)
Record shared (σ : sys) (H : nat → hold) : Prop := {
  sh_wf : wf_opt (s_repoCache σ);
  sh_lock i h c : hd_locks (H i) !! h = Some c → s_heap σ !! h = Some (mkCell c (Some i));
  sh_owner i h c : s_heap σ !! h = Some (mkCell c (Some i)) → hd_locks (H i) !! h = Some c;
  sh_key h r mu : s_heap σ !! h = Some (mkCell (Some r) mu) → s_origin σ !! r = Some (h_key h);
  sh_inj h1 h2 r mu1 mu2 : s_heap σ !! h1 = Some (mkCell (Some r) mu1) →
    s_heap σ !! h2 = Some (mkCell (Some r) mu2) → h1 = h2;
  sh_own i r k : hd_own (H i) !! r = Some k →
    s_origin σ !! r = Some k ∧ ∀ h mu, s_heap σ !! h ≠ Some (mkCell (Some r) mu);
  sh_apart i j r k k' : hd_own (H i) !! r = Some k → hd_own (H j) !! r = Some k' → i = j;
  sh_fresh r k : s_origin σ !! r = Some k → (r < s_next σ)%nat;
  sh_addr h c : s_heap σ !! h = Some c → (h_addr h < s_next σ)%nat;
  sh_cache k h : cached (s_repoCache σ) k h → is_Some (s_heap σ !! h) ∧ h_key h = k;
  sh_known i h : h ∈ hd_known (H i) → is_Some (s_heap σ !! h) }.

Definition upd (i : nat) (s : hold) (H : nat → hold) (j : nat) : hold := if decide (j = i) then s else H j.
Lemma upd_eq i s H : upd i s H i = s.
Proof. unfold upd. by rewrite decide_True. Qed.
Lemma upd_ne i s H j : j ≠ i → upd i s H j = H j.
Proof. intros Hj. unfold upd. by rewrite decide_False. Qed.

(** Two requests never hold the same clone. *)
Lemma held_apart σ H i j r k k' : shared σ H → held (H i) r k → held (H j) r k' → i = j.
Proof.
  intros Hsh [Ho|(h & Hl & _)] [Ho'|(h' & Hl' & _)].
  - by eapply sh_apart.
  - exfalso. apply (sh_own _ _ Hsh) in Ho as [_ Hn]. apply (Hn h' (Some j)). by apply (sh_lock _ _ Hsh).
  - exfalso. apply (sh_own _ _ Hsh) in Ho' as [_ Hn]. apply (Hn h (Some i)). by apply (sh_lock _ _ Hsh).
  - apply (sh_lock _ _ Hsh) in Hl, Hl'. assert (h = h') as <- by (by eapply sh_inj).
    rewrite Hl in Hl'. by injection Hl'.
Qed.

Lemma held_origin σ H i r k : shared σ H → held (H i) r k → s_origin σ !! r = Some k.
Proof.
  intros Hsh [Ho|(h & Hl & <-)]; [by apply (sh_own _ _ Hsh) in Ho as [? _]|].
  eapply (sh_key _ _ Hsh). by apply (sh_lock _ _ Hsh).
Qed.

(** *** Each call preserves it *)

Lemma shared_load σ H key (ord : order string handle) : shared σ H → fair ord →
  let r := LoadOrStore ord key (new_handle key σ) (s_repoCache σ) in
  h_key r.1.1 = key ∧ is_Some (<[(new_handle key σ) := mkCell None None]> (s_heap σ) !! r.1.1) ∧
  shared (mkSys r.2 (<[(new_handle key σ) := mkCell None None]> (s_heap σ)) (S (s_next σ)) (s_origin σ) (s_threads σ)) H.
Proof.
  intros Hsh Hf r. destruct (LoadOrStore_cases ord key (new_handle key σ) (s_repoCache σ)) as (Hw & Hr & Hc);
    [done|apply Hsh|]. fold r in Hw, Hr, Hc.
  assert (Hnew : s_heap σ !! (new_handle key σ) = None).
  { destruct (s_heap σ !! (new_handle key σ)) as [c|] eqn:E; [|done]. apply (sh_addr _ _ Hsh) in E. simpl in E. lia. }
  assert (Hold : ∀ h c, s_heap σ !! h = Some c → <[(new_handle key σ) := mkCell None None]> (s_heap σ) !! h = Some c).
  { intros h c Hh. rewrite lookup_insert_ne; [done|]. intros He. by rewrite <- He, Hnew in Hh. }
  assert (Hback : ∀ h c, <[(new_handle key σ) := mkCell None None]> (s_heap σ) !! h = Some c →
    s_heap σ !! h = Some c ∨ (h = (new_handle key σ) ∧ c = mkCell None None)).
  { intros h c [[<- <-]|[_ Hh]]%lookup_insert_Some; auto. }
  split.
  { destruct Hr as [->|Hr]; [done|]. by apply (sh_cache _ _ Hsh) in Hr as [_ ?]. }
  split.
  { destruct Hr as [->|Hr]; [rewrite lookup_insert_eq; eauto|]. apply (sh_cache _ _ Hsh) in Hr as [[c Hr] _].
    exists c. by apply Hold. }
  split; simpl.
  - done.
  - intros i h c Hl. apply Hold. by apply (sh_lock _ _ Hsh).
  - intros i h c [Hh|[_ Hh]]%Hback; [by apply (sh_owner _ _ Hsh)|discriminate].
  - intros h r0 mu [Hh|[_ Hh]]%Hback; [by eapply (sh_key _ _ Hsh)|discriminate].
  - intros h1 h2 r0 mu1 mu2 [Hh1|[_ Hh1]]%Hback [Hh2|[_ Hh2]]%Hback; try discriminate. by eapply (sh_inj _ _ Hsh).
  - intros i r0 k Ho. apply (sh_own _ _ Hsh) in Ho as [Ho Hn]. split; [done|].
    intros h mu [Hh|[_ Hh]]%Hback; [by eapply Hn|discriminate].
  - apply (sh_apart _ _ Hsh).
  - intros r0 k Ho. apply (sh_fresh _ _ Hsh) in Ho. lia.
  - intros h c [Hh|[-> _]]%Hback; [apply (sh_addr _ _ Hsh) in Hh; lia|simpl; lia].
  - intros k h [Hk|[-> ->]]%Hc; [|split; [rewrite lookup_insert_eq; eauto|done]].
    apply (sh_cache _ _ Hsh) in Hk as [[c Hh] <-]. split; [exists c; by apply Hold|done].
  - intros i h Hh. apply (sh_known _ _ Hsh) in Hh as [c Hh]. exists c. by apply Hold.
Qed.

(** A handle the cache answers. *)
Lemma shared_learn σ H i h : shared σ H → is_Some (s_heap σ !! h) →
  shared σ (upd i (mkHold (hd_locks (H i)) (hd_own (H i)) ({[h]} ∪ hd_known (H i))) H).
Proof.
  intros Hsh Hh. set (s := mkHold _ _ _).
  assert (Hl : ∀ j, hd_locks (upd i s H j) = hd_locks (H j)) by (intros j; unfold upd; by destruct (decide (j = i)) as [->|]).
  assert (Ho : ∀ j, hd_own (upd i s H j) = hd_own (H j)) by (intros j; unfold upd; by destruct (decide (j = i)) as [->|]).
  split; intros *; rewrite ?Hl, ?Ho; try apply Hsh. unfold upd. destruct (decide (_ = i)) as [->|]; [|apply Hsh].
  simpl. intros [->%elem_of_singleton|Hk]%elem_of_union; [done|by eapply (sh_known _ _ Hsh)].
Qed.

(** A change of one cell and of what request [i] holds. *)
Lemma shared_cell σ H i h c0 c s : shared σ H → s_heap σ !! h = Some c0 →
  (∀ h', h' ≠ h → hd_locks s !! h' = hd_locks (H i) !! h') →
  (∀ r, hd_locks s !! h = Some r ↔ c = mkCell r (Some i)) →
  (rh_mu c = Some i ∨ rh_mu c = None) → (rh_mu c0 = Some i ∨ rh_mu c0 = None) →
  (∀ r, rh_repo c = Some r → rh_repo c0 = Some r ∨ (hd_own (H i) !! r = Some (h_key h) ∧ hd_own s !! r = None)) →
  (∀ r k, hd_own s !! r = Some k → hd_own (H i) !! r = Some k) → hd_known s = hd_known (H i) →
  shared (set_heap (<[h := c]> (s_heap σ)) σ) (upd i s H).
Proof.
  intros Hsh Hc0 Hlocks Hh Hmu Hmu0 Hrepo Hown Hknown.
  assert (Hor : ∀ r, rh_repo c = Some r → s_origin σ !! r = Some (h_key h)).
  { intros r [Hr|[Hr _]]%Hrepo; [|by apply (sh_own _ _ Hsh) in Hr as [? _]].
    destruct c0 as [? mu]. simpl in Hr. subst. by eapply (sh_key _ _ Hsh). }
  assert (Hone : ∀ r h' mu, rh_repo c = Some r → h' ≠ h → s_heap σ !! h' ≠ Some (mkCell (Some r) mu)).
  { intros r h' mu [Hr|[Hr _]]%Hrepo Hne Hh'; [|by apply (sh_own _ _ Hsh) in Hr as [_ Hn]; eapply Hn].
    destruct c0 as [? mu0]. simpl in Hr. subst. apply Hne. by eapply (sh_inj _ _ Hsh). }
  split; simpl; try apply Hsh.
  - intros j h' r Hl. destruct (decide (h' = h)) as [->|Hne]; [rewrite lookup_insert_eq|rewrite lookup_insert_ne by done].
    + destruct (decide (j = i)) as [->|Hj]; [rewrite upd_eq in Hl; f_equal; by apply Hh|].
      rewrite upd_ne in Hl by done. apply (sh_lock _ _ Hsh) in Hl. rewrite Hc0 in Hl. injection Hl as ->.
      simpl in Hmu0. destruct Hmu0 as [[= ->]|[=]]. done.
    + destruct (decide (j = i)) as [->|Hj]; [rewrite upd_eq, Hlocks in Hl by done|rewrite upd_ne in Hl by done];
        by apply (sh_lock _ _ Hsh).
  - intros j h' r Hl. destruct (decide (h' = h)) as [->|Hne];
      [rewrite lookup_insert_eq in Hl; injection Hl as ->|rewrite lookup_insert_ne in Hl by done].
    + simpl in Hmu. destruct Hmu as [[= ->]|[=]]. rewrite upd_eq. by apply Hh.
    + apply (sh_owner _ _ Hsh) in Hl. destruct (decide (j = i)) as [->|Hj]; [by rewrite upd_eq, Hlocks|by rewrite upd_ne].
  - intros h' r mu Hl. apply lookup_insert_Some in Hl as [[<- ->]|[_ Hl]]; [by apply Hor|by eapply (sh_key _ _ Hsh)].
  - intros h1 h2 r mu1 mu2 Hl1 Hl2. apply lookup_insert_Some in Hl1 as [[<- ->]|[Hn1 Hl1]].
    + apply lookup_insert_Some in Hl2 as [[<- _]|[Hn2 Hl2]]; [done|]. exfalso. by eapply (Hone r h2).
    + apply lookup_insert_Some in Hl2 as [[<- ->]|[Hn2 Hl2]]; [exfalso; by eapply (Hone r h1)|by eapply (sh_inj _ _ Hsh)].
  - intros j r k Ho. assert (Ho' : hd_own (H j) !! r = Some k).
    { destruct (decide (j = i)) as [->|Hj]; [rewrite upd_eq in Ho; auto|by rewrite upd_ne in Ho]. }
    destruct (sh_own _ _ Hsh _ _ _ Ho') as [Hr Hn]. split; [done|]. intros h' mu Hl.
    apply lookup_insert_Some in Hl as [[<- ->]|[_ Hl]]; [|by eapply Hn].
    destruct (Hrepo r eq_refl) as [Hr0|[Hi Hs]].
    + destruct c0 as [? mu0]. simpl in Hr0. subst. by eapply Hn.
    + assert (j = i) as -> by (by eapply (sh_apart _ _ Hsh)). rewrite upd_eq in Ho. congruence.
  - intros j1 j2 r k k' H1' H2'. apply (sh_apart _ _ Hsh _ _ r k k').
    + destruct (decide (j1 = i)) as [->|Hj]; [rewrite upd_eq in H1'; auto|by rewrite upd_ne in H1'].
    + destruct (decide (j2 = i)) as [->|Hj]; [rewrite upd_eq in H2'; auto|by rewrite upd_ne in H2'].
  - intros h' c' Hl. apply lookup_insert_Some in Hl as [[<- _]|[_ Hl]]; [by eapply (sh_addr _ _ Hsh)|by eapply (sh_addr _ _ Hsh)].
  - intros k h' Hk. apply (sh_cache _ _ Hsh) in Hk as [[c' Hc'] <-]. split; [|done].
    destruct (decide (h' = h)) as [->|Hne]; [rewrite lookup_insert_eq; eauto|rewrite lookup_insert_ne by done; eauto].
  - intros j h' Hk. assert (Hk' : h' ∈ hd_known (H j)).
    { destruct (decide (j = i)) as [->|Hj]; [by rewrite upd_eq, Hknown in Hk|by rewrite upd_ne in Hk]. }
    apply (sh_known _ _ Hsh) in Hk' as [c' Hc'].
    destruct (decide (h' = h)) as [->|Hne]; [rewrite lookup_insert_eq; eauto|rewrite lookup_insert_ne by done; eauto].
Qed.

(** A fresh clone. *)
Lemma shared_clone σ H i key : shared σ H →
  hd_own (H i) !! new_repo σ = None ∧
  shared (mkSys (s_repoCache σ) (s_heap σ) (S (s_next σ)) (<[new_repo σ := key]> (s_origin σ)) (s_threads σ))
    (upd i (with_own (<[new_repo σ := key]> (hd_own (H i))) (H i)) H).
Proof.
  intros Hsh. assert (Hnone : s_origin σ !! new_repo σ = None).
  { destruct (s_origin σ !! new_repo σ) eqn:E; [|done]. apply (sh_fresh _ _ Hsh) in E. unfold new_repo in E. lia. }
  assert (Hfree : ∀ j, hd_own (H j) !! new_repo σ = None).
  { intros j. destruct (hd_own (H j) !! new_repo σ) eqn:E; [|done]. apply (sh_own _ _ Hsh) in E as [E _]. congruence. }
  assert (Hlk : ∀ j, hd_locks (upd i (with_own (<[new_repo σ := key]> (hd_own (H i))) (H i)) H j) = hd_locks (H j)).
  { intros j. unfold upd. destruct (decide (j = i)) as [->|]; done. }
  assert (How : ∀ j r k, hd_own (upd i (with_own (<[new_repo σ := key]> (hd_own (H i))) (H i)) H j) !! r = Some k →
    (j = i ∧ r = new_repo σ ∧ k = key) ∨ (r ≠ new_repo σ ∧ hd_own (H j) !! r = Some k)).
  { intros j r k. unfold upd. destruct (decide (j = i)) as [->|]; simpl.
    - intros [[<- <-]|[Hne Hl]]%lookup_insert_Some; auto.
    - intros Hl. right. split; [|done]. intros ->. by rewrite Hfree in Hl. }
  split; [apply Hfree|]. split; simpl; try apply Hsh.
  - intros j h c. rewrite Hlk. apply (sh_lock _ _ Hsh).
  - intros j h c. rewrite Hlk. apply (sh_owner _ _ Hsh).
  - intros h r mu Hh. apply (sh_key _ _ Hsh) in Hh. rewrite lookup_insert_ne; [done|]. intros <-. congruence.
  - intros j r k [(-> & -> & ->)|[Hne Hl]]%How.
    + split; [apply lookup_insert_eq|]. intros h mu Hh. apply (sh_key _ _ Hsh) in Hh. congruence.
    + apply (sh_own _ _ Hsh) in Hl as [Hl Hn]. split; [by rewrite lookup_insert_ne by done|exact Hn].
  - intros j1 j2 r k k' [(-> & -> & _)|[Hne1 Hl1]]%How [(-> & Hr & _)|[Hne2 Hl2]]%How; [done|by destruct Hne2|by destruct Hne1|].
    by eapply (sh_apart _ _ Hsh).
  - intros r k [[<- _]|[_ Hl]]%lookup_insert_Some; [unfold new_repo; lia|]. apply (sh_fresh _ _ Hsh) in Hl. lia.
  - intros h c Hh. apply (sh_addr _ _ Hsh) in Hh. lia.
  - intros j h. unfold upd. destruct (decide (j = i)) as [->|]; apply Hsh.
Qed.

Lemma shared_ext σ H H' : (∀ j, H' j = H j) → shared σ H → shared σ H'.
Proof.
  intros He Hsh. split; intros *; rewrite ?He; apply Hsh.
Qed.
Lemma shared_same σ H i : shared σ H → shared σ (upd i (H i) H).
Proof. apply shared_ext. intros j. unfold upd. by destruct (decide (j = i)) as [->|]. Qed.

Lemma shared_delete σ H key : shared σ H → shared (set_cache (Delete key (s_repoCache σ)) σ) H.
Proof.
  intros Hsh. destruct (Delete_cases key (s_repoCache σ) (sh_wf _ _ Hsh)) as [Hw Hc].
  split; simpl; try apply Hsh; [done|]. intros k h Hk. by apply (sh_cache _ _ Hsh), Hc.
Qed.

Lemma exec_shared nest target σ H i X (c : call X) x σ1 :
  shared σ H → pre nest target X (H i) c → exec i c σ x σ1 →
  ∃ s, post X (H i) c x s ∧ shared σ1 (upd i s H).
Proof.
  intros Hsh. revert x. destruct c as [key|h|h|h|h r|key|o|X r g| |p wt]; intros x; simpl; intros Hpre Hex.
  - destruct Hex as (ord & Hf & -> & ->). destruct (shared_load σ H key ord Hsh Hf) as (Hk & Hin & Hsh').
    eexists. split; [by split|]. by apply shared_learn.
  - destruct Hpre as [_ Hpre]. destruct Hex as (r & Hh & ->).
    assert (Hn : hd_locks (H i) !! h = None).
    { destruct (hd_locks (H i) !! h) eqn:E; [|done]. apply (sh_lock _ _ Hsh) in E. congruence. }
    exists (with_locks (<[h := r]> (hd_locks (H i))) (H i)). split; [by eauto|].
    eapply shared_cell; [done|exact Hh| | |by left|by right|by left|done|done].
    + intros h' Hne. simpl. by rewrite lookup_insert_ne by done.
    + intros r'. simpl. rewrite lookup_insert_eq. naive_solver.
  - destruct Hex as (r & j & Hh & ->). destruct Hpre as [c Hc].
    assert (Hi := sh_lock _ _ Hsh _ _ _ Hc). rewrite Hh in Hi. injection Hi as -> ->.
    exists (with_locks (delete h (hd_locks (H i))) (H i)). split; [done|].
    eapply shared_cell; [done|exact Hh| | |by right|by left|by left|done|done].
    + intros h' Hne. simpl. by rewrite lookup_delete_ne by done.
    + intros r'. simpl. by rewrite lookup_delete_eq.
  - destruct Hex as (mu & Hh & ->). destruct Hpre as [c Hc].
    assert (Hi := sh_lock _ _ Hsh _ _ _ Hc). rewrite Hh in Hi. injection Hi as -> ->.
    exists (H i). split; [done|]. by apply shared_same.
  - destruct Hex as (r0 & mu & Hh & ->). destruct Hpre as [[c Hc] Ho].
    assert (Hi := sh_lock _ _ Hsh _ _ _ Hc). rewrite Hh in Hi. injection Hi as -> ->.
    exists (mkHold (<[h := Some r]> (hd_locks (H i))) (delete r (hd_own (H i))) (hd_known (H i))). split; [done|].
    eapply shared_cell; [done|exact Hh| | |by left|by left| | |done].
    + intros h' Hne. simpl. by rewrite lookup_insert_ne by done.
    + intros r'. simpl. rewrite lookup_insert_eq. naive_solver.
    + intros r' [= <-]. right. simpl. by rewrite lookup_delete_eq.
    + intros r' k Hr. simpl in Hr. by apply lookup_delete_Some in Hr as [_ Hr].
  - subst. exists (H i). split; [done|]. by apply shared_same, shared_delete.
  - destruct x as [progress [r|e]]; simpl in *.
    + destruct Hex as [-> ->].
      destruct (shared_clone σ H i (clone_key o) Hsh) as [Hn Hsh'].
      eexists. split; [by split|exact Hsh'].
    + subst. exists (H i). split; [done|]. by apply shared_same.
  - subst. exists (H i). split; [done|]. by apply shared_same.
  - subst. exists (H i). split; [done|]. by apply shared_same.
  - subst. exists (H i). split; [done|]. by apply shared_same.
Qed.

(** ** Reachable systems *)

Section Reachable.
Context {goGit : GoGit}.
Variable nest : string → string → Prop.
Variable ps : list GitPipelineParams.
Hypothesis nested : Forall (λ p, two_leases p → nest (target_key p) (upstream_key p)) ps.

(** Every request is in the middle of [RunGitPipeline], as its leases say. *)
Definition sound (σ : sys) (H : nat → hold) : Prop :=
  shared σ H ∧ length (s_threads σ) = length ps ∧ (∀ i, ps !! i = None → hd_locks (H i) = ∅) ∧
  ∀ i p t, ps !! i = Some p → s_threads σ !! i = Some t →
    wf (pre nest (target_key p)) post (H i) t (λ s _, same_hold nothing s).

Lemma start_sound maxRepos : sound (start maxRepos ps) (λ _, nothing).
Proof.
  split_and!.
  - split; simpl; intros *; rewrite ?lookup_empty; try done.
    + unfold NewLFU. destruct (maxRepos <=? 0)%Z eqn:E; [done|]. split; simpl.
      * by apply Z.leb_gt.
      * rewrite map_size_empty. apply Z.leb_gt in E. lia.
      * apply map_Forall_empty.
    + unfold NewLFU. destruct (maxRepos <=? 0)%Z; [done|]. unfold cached, contents. simpl.
      by rewrite fmap_empty, lookup_empty.
  - simpl. by rewrite length_map.
  - done.
  - intros i p t Hp Ht. simpl in Ht. rewrite list_lookup_fmap, Hp in Ht. injection Ht as <-.
    apply RunGitPipeline_safe. rewrite Forall_lookup in nested. by apply (nested i).
Qed.

Lemma step_sound σ σ' H : sound σ H → step σ σ' → ∃ H', sound σ' H'.
Proof.
  intros (Hsh & Hlen & Hout & Hwf) Hstep. destruct Hstep as [i X c k x σ1 Ht Hex].
  destruct (ps !! i) as [p|] eqn:Hp.
  2: { assert (i < length (s_threads σ))%nat by (by eapply lookup_lt_Some). apply lookup_ge_None in Hp. lia. }
  destruct (Hwf i p _ Hp Ht) as [Hpre Hk].
  destruct (exec_shared _ _ _ _ _ _ _ _ _ Hsh Hpre Hex) as (s & Hpost & Hsh1).
  exists (upd i s H). split_and!.
  - destruct Hsh1. by split.
  - simpl. by rewrite length_insert.
  - intros j Hj. rewrite upd_ne; [by apply Hout|]. congruence.
  - intros j q t Hq Hj. simpl in Hj. destruct (decide (j = i)) as [->|Hne].
    + rewrite upd_eq. rewrite list_lookup_insert_eq in Hj by (by eapply lookup_lt_Some).
      injection Hj as <-. rewrite Hp in Hq. injection Hq as <-. by apply Hk.
    + rewrite upd_ne by done. rewrite list_lookup_insert_ne in Hj by done. by apply (Hwf j q).
Qed.

Lemma reachable_sound maxRepos σ : reachable (start maxRepos ps) σ → ∃ H, sound σ H.
Proof.
  intros Hr. assert (Hs : ∃ H, sound (start maxRepos ps) H) by (eexists; apply start_sound).
  induction Hr as [σ|σ σ1 σ2 Hst _ IH]; [done|]. destruct Hs as [H' Hs]. apply IH. by eapply step_sound.
Qed.
End Reachable.

(** ** Properties *)

(** (C9) Whatever the interleaving, the evictions and the failures, two requests that are
    about to call go-git are on two different clones, and a push goes to a clone made from
    the repository and the branch of the target of its own request. *)
Theorem clones_exclusive `{GoGit} maxRepos ps σ i j p X Y r (g : git X) (g' : git Y) k k' :
  reachable (start maxRepos ps) σ → ps !! i = Some p →
  s_threads σ !! i = Some (Vis (GitC r g) k) →
  (s_threads σ !! j = Some (Vis (GitC r g') k') → i = j) ∧
  (is_push g = true → s_origin σ !! r = Some
     (TargetRepository (rt_Spec (gp_RemoteTarget p)) ++ ("#" ++ UpstreamBranch (rt_Spec (gp_RemoteTarget p))))).
Proof.
  intros Hr Hp Hi. destruct (reachable_sound (λ _ _, True) ps) with maxRepos σ as [hs (Hsh & Hlen & _ & Hwf)];
    [by apply Forall_forall|done|].
  destruct (Hwf i p _ Hp Hi) as [(key & Hheld & Hpush) _]. split.
  - intros Hj. destruct (ps !! j) as [q|] eqn:Hq.
    + destruct (Hwf j q _ Hq Hj) as [(key' & Hheld' & _) _]. by eapply held_apart.
    + assert (j < length (s_threads σ))%nat by (by eapply lookup_lt_Some). apply lookup_ge_None in Hq. lia.
  - intros Hg. rewrite (held_origin _ _ _ _ _ Hsh Hheld). by rewrite Hpush.
Qed.

(** (C34) A request that has ended holds no lease: its mutexes are free again. *)
Theorem leases_released `{GoGit} maxRepos ps σ i a h c :
  reachable (start maxRepos ps) σ → s_threads σ !! i = Some (Ret a) → s_heap σ !! h = Some c → rh_mu c ≠ Some i.
Proof.
  intros Hr Hi Hc Hmu. destruct (reachable_sound (λ _ _, True) ps) with maxRepos σ as [hs (Hsh & Hlen & _ & Hwf)];
    [by apply Forall_forall|done|].
  destruct (ps !! i) as [p|] eqn:Hp.
  - destruct (Hwf i p _ Hp Hi) as [Hl _]. destruct c as [r mu]. simpl in Hmu. subst.
    apply (sh_owner _ _ Hsh) in Hc. rewrite Hl in Hc. simpl in Hc. by rewrite lookup_empty in Hc.
  - assert (i < length (s_threads σ))%nat by (by eapply lookup_lt_Some). apply lookup_ge_None in Hp. lia.
Qed.

(** *** Progress *)

Definition finished (σ : sys) : Prop := ∀ i t, s_threads σ !! i = Some t → ∃ a, t = Ret a.

(** Every request that does not wait for a mutex can go on. *)
Lemma exec_enabled nest target σ H i X (c : call X) : shared σ H → pre nest target X (H i) c →
  (∃ x σ1, exec i c σ x σ1) ∨
  ∃ h r j, h ∈ hd_known (H i) ∧ (∀ h', is_Some (hd_locks (H i) !! h') → nest (h_key h') (h_key h)) ∧
    s_heap σ !! h = Some (mkCell r (Some j)).
Proof.
  intros Hsh Hpre. destruct c as [key|h|h|h|h r|key|o|X r g| |p wt]; simpl in *.
  - left. eexists _, _. exists (map_to_list : order string handle). split; [by intros m|by split].
  - destruct Hpre as [Hk Hn]. destruct (sh_known _ _ Hsh _ _ Hk) as [[r [j|]] Hh].
    + right. exists h, r, j. split_and!; [done| |done]. intros h' Hh'. by apply Hn.
    + left. exists tt. eexists. by exists r.
  - destruct Hpre as [c Hc]. apply (sh_lock _ _ Hsh) in Hc. left. exists tt. eexists. by exists c, i.
  - destruct Hpre as [c Hc]. apply (sh_lock _ _ Hsh) in Hc. left. exists c, σ. by exists (Some i).
  - destruct Hpre as [[c Hc] _]. apply (sh_lock _ _ Hsh) in Hc. left. exists tt. eexists. by exists c, (Some i).
  - left. exists tt. by eexists.
  - left. exists ("", inl (new_repo σ)). eexists. by split.
  - left. destruct g.
    all: first [exists ("", None); by exists σ | exists None; by exists σ | exists (inr (mkGitError None [] "")); by exists σ].
  - left. exists 0%Z. by exists σ.
  - left. exists (inl NewClaimedPaths). by exists σ.
Qed.

Section Progress.
Context {goGit : GoGit}.
Variables (rank : string → nat) (ps : list GitPipelineParams).

(** A request waiting for a mutex waits for one that can go on, maybe through others. *)
Lemma waits_end σ hs : sound (λ k k', rank k < rank k')%nat ps σ hs →
  ∀ n h r j bound, (∀ h c, s_heap σ !! h = Some c → (rank (h_key h) ≤ bound)%nat) →
    s_heap σ !! h = Some (mkCell r (Some j)) → (bound - rank (h_key h) < n)%nat → ∃ σ', step σ σ'.
Proof.
  intros (Hsh & Hlen & Hout & Hwf). induction n as [|n IH]; intros h r j bound Hb Hh Hn; [lia|].
  assert (Hl := sh_owner _ _ Hsh _ _ _ Hh). destruct (ps !! j) as [p|] eqn:Hp.
  2: { rewrite Hout in Hl by done. by rewrite lookup_empty in Hl. }
  destruct (s_threads σ !! j) as [t|] eqn:Ht.
  2: { apply lookup_ge_None in Ht. apply lookup_lt_Some in Hp. lia. }
  destruct t as [a|X c k].
  { destruct (Hwf j p _ Hp Ht) as [Hn' _]. rewrite Hn' in Hl. simpl in Hl. by rewrite lookup_empty in Hl. }
  destruct (Hwf j p _ Hp Ht) as [Hpre _].
  destruct (exec_enabled _ _ _ _ _ _ _ Hsh Hpre) as [(x & σ1 & Hex)|(h2 & r2 & j2 & _ & Hnest & Hh2)].
  - eexists. by econstructor.
  - assert (Hlt := Hnest h (ex_intro _ _ Hl)). simpl in Hlt. apply (IH h2 r2 j2 bound); [done|done|].
    specialize (Hb _ _ Hh2). lia.
Qed.

Lemma rank_bound (m : gmap handle repoHandle) : ∃ bound, ∀ h c, m !! h = Some c → (rank (h_key h) ≤ bound)%nat.
Proof.
  induction m as [|h c m Hm [bound IH]] using map_ind; [by exists 0%nat|].
  exists (Nat.max bound (rank (h_key h))). intros h' c' [[<- _]|[_ Hl]]%lookup_insert_Some; [lia|].
  specialize (IH _ _ Hl). lia.
Qed.

Lemma thread_or_finished σ : finished σ ∨ ∃ i X (c : call X) k, s_threads σ !! i = Some (Vis c k).
Proof.
  unfold finished. induction (s_threads σ) as [|t ts IH]; [by left|].
  destruct t as [a|X c k]; [|right; by exists 0%nat, X, c, k].
  destruct IH as [IH|(i & X & c & k & Hi)]; [|right; by exists (S i), X, c, k].
  left. intros [|i] t Ht; [injection Ht as <-; eauto|by apply (IH i)].
Qed.

Lemma can_go_on maxRepos σ :
  Forall (λ p, two_leases p → (rank (target_key p) < rank (upstream_key p))%nat) ps →
  reachable (start maxRepos ps) σ → finished σ ∨ ∃ σ', step σ σ'.
Proof.
  intros Hrank Hr. destruct (thread_or_finished σ) as [|(i & X & c & k & Hi)]; [by left|right].
  destruct (reachable_sound (λ k k', rank k < rank k')%nat ps Hrank maxRepos σ Hr) as [hs Hs].
  pose proof Hs as (Hsh & Hlen & Hout & Hwf). destruct (ps !! i) as [p|] eqn:Hp.
  2: { assert (i < length (s_threads σ))%nat by (by eapply lookup_lt_Some). apply lookup_ge_None in Hp. lia. }
  destruct (Hwf i p _ Hp Hi) as [Hpre _].
  destruct (exec_enabled _ _ _ _ _ _ _ Hsh Hpre) as [(x & σ1 & Hex)|(h & r & j & _ & _ & Hh)].
  - eexists. by econstructor.
  - destruct (rank_bound (s_heap σ)) as [bound Hb]. eapply (waits_end σ hs Hs (S (bound - rank (h_key h)))); [done|done|lia].
Qed.
End Progress.

(** *** Termination: every request makes finitely many calls. *)

Definition thread_step (t t' : Thread) : Prop :=
  match t with Ret _ => False | Vis _ k => ∃ x, t' = k x end.
Definition threads_step (ts ts' : list Thread) : Prop :=
  ∃ i t t', ts !! i = Some t ∧ thread_step t t' ∧ ts' = <[i := t']> ts.

Lemma step_threads σ σ' : step σ σ' → threads_step (s_threads σ) (s_threads σ').
Proof. intros [i X c k x σ1 Ht Hex]. exists i, (Vis c k), (k x). split_and!; [done|by exists x|done]. Qed.

Lemma threads_acc ts : Acc (λ b a, threads_step a b) ts.
Proof.
  induction ts as [|t ts IH].
  - constructor. intros ts' (i & t & t' & Hi & _). by rewrite lookup_nil in Hi.
  - revert ts IH. induction t as [a|X c k IHt]; intros ts Hts; induction Hts as [ts Hts IHts];
      pose proof (Acc_intro ts Hts) as Hacc; constructor; intros ts' (i & t & t' & Hi & Hs & ->).
    + destruct i as [|i]; [by injection Hi as <-|]. apply IHts. by exists i, t, t'.
    + destruct i as [|i]; [|apply IHts; by exists i, t, t'].
      injection Hi as <-. destruct Hs as [x ->]. by apply IHt.
Qed.

(** Every run comes to an end, and ends with every request finished. *)
Inductive finishes (σ : sys) : Prop :=
| finishes_intro : (finished σ ∨ ∃ σ', step σ σ') → (∀ σ', step σ σ' → finishes σ') → finishes σ.

(** (C23) When the clones can be ranked so that every request that takes two leases takes
    the lower one first, no run blocks and every run comes to an end with every request
    answered. Requests that take a single lease never count. *)
Theorem requests_finish `{GoGit} (rank : string → nat) maxRepos ps :
  Forall (λ p, two_leases p → (rank (target_key p) < rank (upstream_key p))%nat) ps →
  finishes (start maxRepos ps).
Proof.
  intros Hrank. assert (Hr : reachable (start maxRepos ps) (start maxRepos ps)) by apply rtc_refl.
  revert Hr. generalize (start maxRepos ps) at 2 3 as σ. intros σ.
  remember (s_threads σ) as ts eqn:Hts. revert σ Hts.
  induction (threads_acc ts) as [ts _ IH]; intros σ -> Hr. constructor; [by eapply can_go_on|].
  intros σ' Hs. eapply IH; [by apply step_threads|done|]. by eapply rtc_r.
Qed.

(** ** A scheduler, to exhibit runs *)

Definition run_call (i : nat) {X} (c : call X) (σ : sys) : option (X * sys) :=
  match c in call X return option (X * sys) with
  | LoadOrStoreC key =>
      let r := LoadOrStore (map_to_list : order string handle) key (new_handle key σ) (s_repoCache σ) in
      Some (r.1.1, mkSys r.2 (<[new_handle key σ := mkCell None None]> (s_heap σ)) (S (s_next σ)) (s_origin σ)
                     (s_threads σ))
  | Lock h => match s_heap σ !! h with
              | Some (mkCell r None) => Some (tt, set_heap (<[h := mkCell r (Some i)]> (s_heap σ)) σ)
              | _ => None
              end
  | Unlock h => match s_heap σ !! h with
                | Some (mkCell r (Some _)) => Some (tt, set_heap (<[h := mkCell r None]> (s_heap σ)) σ)
                | _ => None
                end
  | ReadRepo h => match s_heap σ !! h with Some c => Some (rh_repo c, σ) | None => None end
  | WriteRepo h r => match s_heap σ !! h with
                     | Some c => Some (tt, set_heap (<[h := mkCell (Some r) (rh_mu c)]> (s_heap σ)) σ)
                     | None => None
                     end
  | DeleteC key => Some (tt, set_cache (Delete key (s_repoCache σ)) σ)
  | CloneC o => Some (("", inl (new_repo σ)),
      mkSys (s_repoCache σ) (s_heap σ) (S (s_next σ)) (<[new_repo σ := clone_key o]> (s_origin σ)) (s_threads σ))
  | GitC r g => Some (demo_answer g, σ)
  | Now => Some (0%Z, σ)
  | GenerateFinalWorktreeC _ _ => Some (inl (mkClaimedPaths ["app.yaml"] []), σ)
  end.

Lemma run_call_exec i X (c : call X) σ x σ1 : run_call i c σ = Some (x, σ1) → exec i c σ x σ1.
Proof.
  revert x. destruct c as [key|h|h|h|h r|key|o|X r g| |p wt]; intros x; simpl; intros He.
  - injection He as <- <-. exists (map_to_list : order string handle). split; [by intros m|by split].
  - destruct (s_heap σ !! h) as [[r [j|]]|]; simplify_eq. by exists r.
  - destruct (s_heap σ !! h) as [[r [j|]]|]; simplify_eq. by exists r, j.
  - destruct (s_heap σ !! h) as [[r mu]|]; simplify_eq. by exists mu.
  - destruct (s_heap σ !! h) as [[r0 mu]|]; simplify_eq. by exists r0, mu.
  - by injection He as _ <-.
  - by injection He as <- <-.
  - by injection He as _ <-.
  - by injection He as _ <-.
  - by injection He as _ <-.
Qed.

Definition advance (σ : sys) (i : nat) : sys :=
  match s_threads σ !! i with
  | Some (Vis c k) =>
      match run_call i c σ with
      | Some (x, σ1) => set_threads (<[i := k x]> (s_threads σ)) σ1
      | None => σ
      end
  | _ => σ
  end.
Definition schedule (turns : list nat) (σ : sys) : sys := foldl advance σ turns.

Lemma schedule_reachable turns σ : reachable σ (schedule turns σ).
Proof.
  unfold schedule. revert σ; induction turns as [|i turns IH]; intros σ; simpl; [apply rtc_refl|].
  etransitivity; [|apply IH]. unfold advance.
  destruct (s_threads σ !! i) as [[a|X c k]|] eqn:Ht; try apply rtc_refl.
  destruct (run_call i c σ) as [[x σ1]|] eqn:Hc; [|apply rtc_refl].
  apply rtc_once. econstructor; [done|by apply run_call_exec].
Qed.

(** A thread that waits for a mutex which is taken. *)
Definition waiting (σ : sys) (t : Thread) : bool :=
  match t with
  | Ret _ => false
  | Vis c _ => match c with
               | Lock h => match s_heap σ !! h with Some (mkCell _ (Some _)) => true | _ => false end
               | _ => false
               end
  end.
Lemma waiting_no_step σ : forallb (waiting σ) (s_threads σ) = true → ∀ σ', ¬ step σ σ'.
Proof.
  rewrite forallb_forall. intros Hall σ' [i X c k x σ1 Ht Hex].
  assert (Hw : waiting σ (Vis c k) = true).
  { apply Hall, list_elem_of_In. by eapply list_elem_of_lookup_2. }
  revert x k Ht Hex Hw. destruct c as [key|h|h|h|h r|key|o|X r g| |p wt]; simpl; intros x k _ Hex Hw; try done.
  destruct Hex as (r & Hh & _). by rewrite Hh in Hw.
Qed.

#[local] Existing Instance demo_gogit.

(** The two requests of the deadlock: the target of each is the upstream of the other. *)
Definition crossed : list GitPipelineParams :=
  [demo_push "https://git.x/a" "https://git.x/b" TryFastForwardOrDie;
   demo_push "https://git.x/b" "https://git.x/a" TryFastForwardOrDie].

(** (C35) Two requests whose targets are each other's upstreams can block each other for
    ever: each holds the lease on its target and waits for the other one. *)
Theorem crossed_requests_deadlock :
  ∃ σ, reachable (start 10 crossed) σ ∧ (∀ σ', ¬ step σ σ') ∧ ¬ finished σ ∧ ¬ finishes (start 10 crossed).
Proof.
  set (σ := schedule [0; 0; 0; 0; 0; 1; 1; 1; 1; 1; 0; 1]%nat (start 10 crossed)).
  assert (Hr : reachable (start 10 crossed) σ) by apply schedule_reachable.
  assert (Hw : forallb (waiting σ) (s_threads σ) = true) by (vm_compute; reflexivity).
  assert (Hlen : length (s_threads σ) = 2%nat) by (vm_compute; reflexivity). clearbody σ.
  assert (Hs : ∀ σ', ¬ step σ σ') by (by apply waiting_no_step).
  assert (Hf : ¬ finished σ).
  { intros Hf.
    rewrite forallb_forall in Hw. destruct (s_threads σ) as [|t ts] eqn:Et; [done|].
    destruct (Hf 0%nat t) as [a ->]; [by rewrite Et|]. by specialize (Hw (Ret a) ltac:(by left)). }
  exists σ. split_and!; [done..|]. intros Hfin. apply Hf. clear Hw Hf.
  induction Hr as [σ'|σ1 σ2 σ3 Hst Hr IH].
  - destruct Hfin as [[?|[σ'' ?]] _]; [done|]. by destruct (Hs σ'').
  - destruct Hfin as [_ Hall]. by apply IH, Hall.
Qed.

(** ** Witnesses *)

(** The clone a thread is about to push. *)
Definition thread_push (t : Thread) : option repo :=
  match t with
  | Ret _ => None
  | Vis c _ => match c with GitC r g => if is_push g then Some r else None | _ => None end
  end.
Definition next_push (σ : sys) (i : nat) : option repo := s_threads σ !! i ≫= thread_push.
Lemma next_push_call σ i r : next_push σ i = Some r →
  ∃ X (g : git X) k, s_threads σ !! i = Some (Vis (GitC r g) k) ∧ is_push g = true.
Proof.
  unfold next_push. destruct (s_threads σ !! i) as [[a|X c k]|]; [done| |done]. simpl.
  destruct c as [key|h|h|h|h r'|key|o|X r' g| |p wt]; try done. destruct (is_push g) eqn:E; [|done].
  intros [= ->]. by exists X, g, k.
Qed.

(** Two requests on one repository: the second one waits until the first has pushed. *)
Definition both_direct : list GitPipelineParams := [direct_push; direct_push].
Definition first_turns (n : nat) : list nat := (repeat 0 n ++ [1; 1])%list%nat.

Lemma clones_exclusive_witness :
  ∃ σ r, reachable (start 10 both_direct) σ ∧ next_push σ 0 = Some r ∧ s_origin σ !! r = Some "https://git.x/a#main".
Proof.
  pose proof (schedule_reachable (first_turns 10) (start 10 both_direct)) as Hr.
  assert (Hn : next_push (schedule (first_turns 10) (start 10 both_direct)) 0 = Some 1%nat)
    by (vm_compute; reflexivity).
  exists (schedule (first_turns 10) (start 10 both_direct)), 1%nat. split; [exact Hr|]. split; [exact Hn|].
  destruct (next_push_call _ _ _ Hn) as (X & g & k & Ht & Hg).
  apply (clones_exclusive 10 both_direct _ 0 0 direct_push X X 1%nat g g k k Hr eq_refl Ht). exact Hg.
Defined.

Definition thread_ended (t : Thread) : bool := match t with Ret _ => true | Vis _ _ => false end.
Definition ended (σ : sys) (i : nat) : bool := default false (thread_ended <$> s_threads σ !! i).
Lemma ended_ret σ i : ended σ i = true → ∃ a, s_threads σ !! i = Some (Ret a).
Proof. unfold ended. destruct (s_threads σ !! i) as [[a|X c k]|]; [by exists a|done..]. Qed.

Lemma leases_released_witness :
  ∃ σ, reachable (start 10 both_direct) σ ∧ ended σ 0 = true ∧
    ∀ h c, s_heap σ !! h = Some c → rh_mu c ≠ Some 0%nat.
Proof.
  pose proof (schedule_reachable (first_turns 20) (start 10 both_direct)) as Hr.
  assert (He : ended (schedule (first_turns 20) (start 10 both_direct)) 0 = true)
    by (vm_compute; reflexivity).
  eexists. split; [exact Hr|]. split; [exact He|]. destruct (ended_ret _ _ He) as [a Ha].
  intros h c. exact (leases_released 10 both_direct _ 0 a h c Hr Ha).
Defined.

(** A fork pushed with its upstream, and the upstream pushed directly. *)
Lemma requests_finish_witness :
  finishes (start 10 [demo_push "https://git.x/a" "https://fork.x/a" TryFastForwardOrDie; direct_push]).
Proof.
  apply (requests_finish (λ k, if String.eqb k "https://fork.x/a#main" then 0 else 1)%nat).
  apply Forall_cons. split; [intros _; vm_compute; lia|]. apply Forall_cons. split; [|constructor].
  intros [Hs _]. by destruct Hs.
Defined.
