(* ===== verification/Request.v ===== *)
(** * One admission request, end to end

    [Pipeline.v] sees the git side as the interface [GitPush] and [Pusher.v] is a program
    over git calls. Here the program implements the interface, over any environment that
    answers the calls, and the calls of a whole request are read off its log
    ([request_traffic]). *)

From S2P Require Import Prelude Frame GoStr Api Errors External Sim Refs Rbac Render Target Pipeline Git Pusher.

(** ** A cluster, beside a state it does not see *)

Section Beside.
Context {W S : Type}.

#[local] Instance beside_store {T} `{Store W T} : Store (W * S) T := {|
  client_Get n := outside (client_Get n);
  client_List o := outside (client_List o);
  client_Create o := outside (client_Create o);
  client_Update o := outside (client_Update o);
  client_Delete o := outside (client_Delete o);
  client_StatusUpdate o := outside (client_StatusUpdate o) |}.

(** A closure over the state and more, as one over both. *)
Definition regroup {S' A} (f : M error (W * S * S') A) : M error (W * (S * S')) A := λ '(w, (s, s')),
  let '(r, (w', s1, s1')) := f (w, s, s') in (r, (w', (s1, s1'))).

#[local] Instance beside_cluster `{Cluster W} : Cluster (W * S) := {|
  create_SubjectAccessReview s := outside (create_SubjectAccessReview s);
  RetryOnConflict_in S' A f := λ '(w, s, s'),
    let '(r, (w', (s1, s1'))) := RetryOnConflict_in (regroup f) (w, (s, s')) in (r, (w', s1, s1'));
  rand_Intn n := outside (rand_Intn n);
  now := outside now |}.

Lemma outside_run {A} (m : M error W A) w (s : S) r w' : m w = (r, w') → outside m (w, s) = (r, (w', s)).
Proof. unfold outside. by intros ->. Qed.

#[local] Instance beside_laws {T} {view : W → View} `{StoreLaws W T view} : StoreLaws (W * S) T (λ st, view st.1).
Proof.
  split.
  - intros n [w s] o Hn. apply outside_run, get_found, Hn.
  - intros n [w s] Hn. destruct (get_missing n w Hn) as [msg Hg]. exists msg. by apply outside_run.
  - intros opts [w s]. destruct (list_all opts w) as (l & Hl & Hp). exists l. split; [by apply outside_run|done].
  - intros o [w s] Hn. destruct (create_new o w Hn) as (rv & w' & Hc & Hv). exists rv, (w', s).
    split; [by apply outside_run|done].
  - intros o [w s] Hn. destruct (create_exists o w Hn) as [msg Hc]. exists msg. by apply outside_run.
  - intros o o0 [w s] Ho Hr Hd. destruct (update_current o o0 w Ho Hr Hd) as (rv & w' & Hu & Hv).
    exists rv, (w', s). split; [by apply outside_run|done].
  - intros o o0 [w s] Ho Hf. destruct (delete_found o o0 w Ho Hf) as (w' & Hd & Hv). exists (w', s).
    split; [by apply outside_run|done].
  - intros o [w s] Ho. destruct (delete_missing o w Ho) as [msg Hd]. exists msg. by apply outside_run.
  - intros o o0 [w s] Ho Hm. destruct (status_current o o0 w Ho Hm) as (rv & w' & Hu & Hv).
    exists rv, (w', s). split; [by apply outside_run|done].
  - intros o [w s]. destruct (status_scoped o w) as (r & w' & Hu & Hr & Hv). exists r, (w', s).
    split; [by apply outside_run|done].
Qed.

Lemma regroup_retry {S' A} (f : M error (W * S * S') A) w s s' r w' s1 s1' :
  retry_run (regroup f) (w, (s, s')) r (w', (s1, s1')) → retry_run f (w, s, s') r (w', s1, s1').
Proof.
  intros Hr. remember (w, (s, s')) as a eqn:Ea. remember (w', (s1, s1')) as b eqn:Eb. revert w s s' Ea.
  induction Hr as [a r b Hf|a e a1 r b Hf Hc _ IH]; intros w s s' ->; subst; unfold regroup in Hf;
    destruct (f (w, s, s')) as [r0 [[w0 s0] s0']] eqn:E; simplify_eq/=.
  - by apply retry_last.
  - eapply retry_again; [exact E|done|]. by apply IH.
Qed.

#[local] Instance beside_server `{ApiServer W} : ApiServer (W * S).
Proof.
  refine {| view st := view st.1 |}.
  - intros S' A f [[w s] s'] r [[w' s1] s1'] Hr. cbn in Hr.
    destruct (RetryOnConflict_in (regroup f) (w, (s, s'))) as [r0 [w0 [s0 s0']]] eqn:E. simplify_eq/=.
    apply regroup_retry. by eapply retry_spec.
  - intros n [w s]. destruct (rand_spec n w) as [k Hk]. exists k. by apply outside_run.
  - intros [w s]. destruct (now_spec w) as [t Ht]. exists t. by apply outside_run.
Defined.
End Beside.

(** ** The git side, in an environment *)

Section Interp.
Context {G : Type} (answer : ∀ X, call X → G → X * G).

(** The run of a program: its calls and their answers, its result, the environment. *)
Fixpoint interp {A} (p : prog call A) (g : G) : list (@event call) * A * G :=
  match p with
  | Ret a => ([], a, g)
  | Vis c k =>
      let '(x, g1) := answer _ c g in
      let '(t, a, g2) := interp (k x) g1 in (Ev c x :: t, a, g2)
  end.

Lemma interp_runs {A} (p : prog call A) g t a g' : interp p g = (t, a, g') → runs p t a.
Proof.
  revert g t; induction p as [b|X c k IH]; intros g t Hi; simpl in *; [by simplify_eq|].
  destruct (answer X c g) as [x g1]. destruct (interp (k x) g1) as [[t1 a1] g2] eqn:E. simplify_eq.
  exists x, t1. split; [done|]. by eapply IH.
Qed.

(** The implementation of the interface: the log grows by the calls of the run. *)
Context {W : Type} `{GoGit} (enabled : bool).
Definition git_side : GitPush (W * (G * list (@event call))) := {|
  Pipeline.RunGitPipeline p := λ '(w, (g, log)),
    let '(t, r, g') := interp (Pusher.RunGitPipeline enabled p) g in
    (match r with
     | Ok (response, None) => Ok response
     | Ok (_, Some err) => Err err
     | Err err => Err err
     | Panic => Panic
     end, (w, (g', (log ++ t)%list))) |}.
End Interp.

(** ** What the git pipeline calls *)

Section Sanctioned.
Context `{GoGit}.

(** A call a push may make: with the credentials of the push, to the repositories of its
    target, pushing the branch of the target. *)
Definition sanctioned (sc : SyncerContext) (gu : GitUserInfo) (rt : RemoteTarget) {X} (c : call X) : Prop :=
  let target := TargetRepository (rt_Spec rt) in
  let upstream := UpstreamRepository (rt_Spec rt) in
  match c with
  | CloneC o => co_Auth o = user_auth gu ∧ (co_URL o = target ∨ co_URL o = upstream)
  | GitC _ g =>
      match g with
      | Fetch o => fo_Auth o = user_auth gu ∧
          (fo_RemoteURL o = target ∨ fo_RemoteURL o = upstream ∨ fo_RemoteURL o = RemoteRepository (sc_Spec sc))
      | Pull o => po_Auth o = user_auth gu
      | Push_ o => pu_Auth o = user_auth gu ∧
          pu_RefSpecs o = ["refs/heads/" ++ (TargetBranch (rt_Spec rt) ++ (":refs/heads/" ++ TargetBranch (rt_Spec rt)))]
      | _ => True
      end
  | GenerateFinalWorktreeC p _ => gp_GitUserInfo p = gu ∧ gp_RemoteTarget p = rt ∧ gp_Syncer p = sc
  | _ => True
  end.

Context (p : GitPipelineParams).
Abbreviation allowed_call := (λ X (_ : unit) (c : call X),
  sanctioned (gp_Syncer p) (gp_GitUserInfo p) (gp_RemoteTarget p) c).

Definition confined {A} (m : prog call A) : Prop :=
  wf allowed_call (λ _ _ _ _ _, True) tt m (λ _ _, True).

Lemma confined_ret {A} (a : A) : confined (Ret a).
Proof. done. Qed.
Lemma confined_call {X} (c : call X) : allowed_call X tt c → confined (do_call c).
Proof. by split. Qed.
Lemma confined_bind {A B} (m : prog call A) (f : A → prog call B) :
  confined m → (∀ a, confined (f a)) → confined (pbind m f).
Proof. intros Hm Hf. eapply wf_bind_mono; [exact Hm|]. intros [] a _. apply Hf. Qed.
Lemma confined_or_return {A B} (m : prog call (A + git_error)) w (k : A → P B) :
  confined m → (∀ a, confined (k a)) → confined (or_return m w k).
Proof. intros Hm Hk. apply confined_bind; [done|]. by intros []. Qed.
Lemma confined_unless_error {B} (m : prog call (option git_error)) w (k : P B) :
  confined m → confined k → confined (unless_error m w k).
Proof. intros Hm Hk. apply confined_bind; [done|]. by intros []. Qed.
Lemma confined_and_then {A B} (m : P A) (k : A → P B) :
  confined m → (∀ a, confined (k a)) → confined (and_then m k).
Proof. intros Hm Hk. apply confined_bind; [done|]. by intros []. Qed.
Lemma confined_unless_new {B} r w (k : P B) : confined k → confined (unless_new r w k).
Proof. intros Hk. unfold unless_new. destruct r as [e|]; [|done]. by destruct (is_same e _). Qed.
End Sanctioned.

Create HintDb confined.
Ltac confined :=
  repeat first
    [ match goal with |- ∀ _, _ => intro end
    | solve [auto with confined]
    | apply confined_ret
    | apply confined_or_return
    | apply confined_unless_error
    | apply confined_and_then
    | apply confined_unless_new
    | apply confined_call; cbn; tauto
    | match goal with
      | |- confined _ (match ?x with _ => _ end) => destruct x
      end
    | apply confined_bind ].

Section Confined.
Context `{GoGit} (p : GitPipelineParams).

Definition of_target (q : GetRepositoryParams) : Prop :=
  gr_GitUserInfo q = gp_GitUserInfo p ∧
  (gr_Repository q = TargetRepository (rt_Spec (gp_RemoteTarget p)) ∨
   gr_Repository q = UpstreamRepository (rt_Spec (gp_RemoteTarget p))).

Lemma clone_confined q : of_target q → confined p (cloneRepository q).
Proof.
  intros [Hu Hr]. unfold cloneRepository. apply confined_bind; [|by intros [? []]].
  apply confined_call. cbn. unfold basicAuth. by rewrite Hu.
Qed.
Hint Resolve clone_confined : confined.
Lemma remove_branches_confined r l k : confined p k → confined p (remove_branches r l k).
Proof. intros Hk. induction l as [|n l IH]; cbn [remove_branches]; confined. Qed.
Lemma refresh_confined r q : of_target q → confined p (refreshRepository r q).
Proof.
  intros [Hu Hr]. unfold refreshRepository, pruneStaleState. cbv zeta. apply confined_bind.
  - apply confined_call. cbn. unfold basicAuth. rewrite Hu. split; [done|]. tauto.
  - confined. apply remove_branches_confined. confined.
Qed.
Hint Resolve refresh_confined : confined.
Lemma getRepository_confined b q : of_target q → confined p (getRepository b q).
Proof. intros Hq. unfold getRepository, acquire, lease_repo, lease_set, discard. confined. Qed.
Lemma fetchUpstream_confined r : confined p (fetchUpstream p r).
Proof. unfold fetchUpstream. cbv zeta. confined. Qed.
Hint Resolve fetchUpstream_confined : confined.
Lemma checkout_confined r b : confined p (checkoutToBranch r b).
Proof. unfold checkoutToBranch. cbv zeta. confined. Qed.
Hint Resolve checkout_confined : confined.
Lemma worktree_confined r u : confined p (GetWorkTree p r u).
Proof.
  unfold GetWorkTree, upstreamBasedHardReset, upstreamBasedPullFastForward, merge_upstream, doesBranchContainsCommit.
  cbv zeta. confined.
Qed.
Hint Resolve worktree_confined : confined.
Lemma commit_confined w l r : confined p (Commit p w l r).
Proof.
  unfold Commit. assert (Hd : ∀ k ps, confined p k → confined p (stage_deletes w ps k)).
  { intros k ps Hk. induction ps as [|q ps IH]; cbn [stage_deletes]; confined. }
  assert (Ha : ∀ k ps, confined p k → confined p (stage_adds w ps k)).
  { intros k ps Hk. induction ps as [|q ps IH]; cbn [stage_adds]; confined. }
  apply Ha, Hd. confined.
Qed.
Hint Resolve commit_confined : confined.
Lemma retry_confined n r f v vars err : confined p (retry_push n r (push_options p f) v vars err).
Proof. revert v err; induction n as [|n IH]; intros v err; cbn [retry_push]; unfold push_; confined. Qed.
Hint Resolve retry_confined : confined.

(** Every call of the git pipeline is sanctioned. *)
Lemma pipeline_confined enabled : confined p (Pusher.RunGitPipeline enabled p).
Proof.
  assert (Hw : ∀ r u, confined p (push_worktree p r u)).
  { intros r u. unfold push_worktree, Push, push_. cbv zeta. confined. }
  assert (Hd : ∀ {A} l (m : prog call A), confined p m → confined p (deferred l m)).
  { intros A l m Hm. unfold deferred, release. confined. }
  unfold Pusher.RunGitPipeline, GetTargetRepository, GetUpstreamRepository. cbv zeta.
  apply confined_bind; [apply getRepository_confined; split; [done|by left]|].
  intros [[r l]|e|]; [|confined..]. apply Hd. destruct (_ && _); [|apply Hw].
  apply confined_bind; [apply getRepository_confined; split; [done|by right]|].
  intros [[u l2]|e|]; [|confined..]. apply Hd, Hw.
Qed.

Lemma confined_interp {G A} (answer : ∀ X, call X → G → X * G) (m : prog call A) g t a g' :
  confined p m → interp answer m g = (t, a, g') →
  Forall (λ '(Ev c _), sanctioned (gp_Syncer p) (gp_GitUserInfo p) (gp_RemoteTarget p) c) t.
Proof.
  revert g t; induction m as [b|X c k IH]; intros g t Hc Hi; simpl in *; [by simplify_eq|].
  destruct Hc as [Hc Hk]. destruct (answer X c g) as [x g1].
  destruct (interp answer (k x) g1) as [[t1 a1] g2] eqn:E. simplify_eq. constructor; [done|].
  eapply IH; [by apply (Hk x tt)|exact E].
Qed.
End Confined.

(** ** The calls of a request *)

Section Entitled.
Context {W : Type} `{ApiServer W, Lib}.

(** Credentials and a target the user may push with: those of the one binding that names
    the user, or, without any, the default ones of a syncer that opted in. *)
Definition entitled (w : W) (sc : SyncerContext) (username : string) (u : URL) (gu : GitUserInfo) (rt : RemoteTarget) : Prop :=
  (∃ rub, sole_binding sc w username rub ∧ bound_entry w sc rub gu rt) ∨
  (no_binding sc w username ∧ default_entry w sc u gu rt).
End Entitled.

Section Request.
Context {W G : Type} `{ApiServer W, Lib, GoGit} (answer : ∀ X, call X → G → X * G) (enabled : bool).

(** The cluster; the environment of the git side, and the calls it answered. *)
Abbreviation world := (W * (G * list (@event call)))%type.
#[local] Existing Instances beside_cluster beside_server.
#[local] Instance git : GitPush world := git_side answer enabled.

Definition log (st : world) (_ : unit) : list (@event call) := st.2.2.

Lemma steady_outside {A} (m : M error W A) : changes log nothing (outside m).
Proof. intros [w e] r st Hr k _. unfold outside in Hr. destruct (m w) as [r0 w0]. by simplify_eq. Qed.

Lemma steady_retry {A} (f : M error world A) : changes log nothing f → changes log nothing (RetryOnConflict f).
Proof.
  intros Hf st r st' Hr k Hk. unfold RetryOnConflict in Hr.
  destruct (RetryOnConflict_in (outside f) (st, tt)) as [r0 [st0 []]] eqn:E. simplify_eq.
  apply retry_spec in E. remember (st, tt) as a eqn:Ea. remember (st', tt) as b eqn:Eb. revert st Ea.
  induction E as [a r b Ho|a e a1 r b Ho _ _ IH]; intros st ->; subst; unfold outside in Ho;
    destruct (f st) as [r0 st0] eqn:E; simplify_eq.
  - by eapply Hf.
  - rewrite (IH eq_refl st0 eq_refl). by eapply Hf.
Qed.

Ltac steady :=
  repeat first
    [ solve [auto with changes]
    | changes_step
    | apply steady_retry
    | apply steady_outside ].

Lemma status_steady sc f : changes log nothing (updateRemoteSyncerStatus sc f).
Proof. unfold updateRemoteSyncerStatus. steady. Qed.
#[local] Hint Resolve status_steady : changes.
Lemma state_steady r sc l k d : changes log nothing (UpdateRemoteSyncerState r sc l k d).
Proof. unfold UpdateRemoteSyncerState. cbv zeta. steady. Qed.
#[local] Hint Resolve state_steady : changes.
Lemma builder_steady msg r a e sc : changes log nothing (AdmissionReviewBuilder msg r a e sc).
Proof.
  unfold AdmissionReviewBuilder, BuildErrorCondition, BuildSuccessCondition, UpdateRemoteSyncerConditions. cbv zeta. steady.
Qed.
#[local] Hint Resolve builder_steady : changes.
Lemma manifests_steady r sc ns : changes log nothing (request_manifests r sc ns).
Proof. unfold request_manifests, ObjectToYAML, excluded_paths, ExcludedFieldsFromConfigMap. steady. Qed.
#[local] Hint Resolve manifests_steady : changes.
Lemma ca_steady ns sc u : changes log nothing (CABundleBuilder ns sc u).
Proof. unfold CABundleBuilder, FindGlobalCABundle, FindCABundle. cbv zeta. steady. Qed.
#[local] Hint Resolve ca_steady : changes.
Lemma authorize_steady user refs owner exempt : changes log nothing (AuthorizeCrossNamespaceRefs user refs owner exempt).
Proof.
  unfold AuthorizeCrossNamespaceRefs. cbv zeta. induction (List.filter _ refs) as [|ref l IH]; cbn [AuthorizeRefs]; steady.
Qed.
#[local] Hint Resolve authorize_steady : changes.
Lemma credentials_steady ru : changes log nothing (GetGitUserInfoByRemoteUser ru).
Proof. unfold GetGitUserInfoByRemoteUser. cbv zeta. steady. Qed.
#[local] Hint Resolve credentials_steady : changes.
Lemma association_steady user u sc : changes log nothing (GetUserInfoRemoteTargetsAssociation user u sc).
Proof.
  unfold GetUserInfoRemoteTargetsAssociation, GetRemoteUserBindingByUsername, GetGitUserInfoByRemoteUserBinding, bound_targets,
    default_targets, associate_targets, associate_users, resolveRefs, parse_selector_opt, parse_selector. steady.
Qed.
#[local] Hint Resolve association_steady : changes.

(** The calls made on the way from one state to another. *)
Definition traffic (Q : @event call → Prop) (st st' : world) : Prop :=
  ∃ t, st'.2.2 = (st.2.2 ++ t)%list ∧ Forall Q t.
Definition talks {A} (Q : @event call → Prop) (m : M error world A) : Prop :=
  ∀ st r st', m st = (r, st') → traffic Q st st'.

Lemma traffic_trans Q st st1 st2 : traffic Q st st1 → traffic Q st1 st2 → traffic Q st st2.
Proof.
  intros (t & Ht & Hq) (t1 & Ht1 & Hq1). exists (t ++ t1)%list. rewrite Ht1, Ht, app_assoc. split; [done|].
  by apply Forall_app.
Qed.

Lemma steady_talks {A} Q (m : M error world A) : changes log nothing m → talks Q m.
Proof.
  intros Hm st r st' Hr. exists []. rewrite app_nil_r. split; [|constructor]. by apply (quiet_run _ _ _ _ _ Hm Hr tt).
Qed.

Lemma talks_bind {A B} Q (m : M error world A) (f : A → M error world B) :
  talks Q m → (∀ a, talks Q (f a)) → talks Q (bind m f).
Proof.
  intros Hm Hf st r st' Hr. unfold bind in Hr. destruct (m st) as [[a|e|] st1] eqn:E.
  - eapply traffic_trans; [by eapply Hm|by eapply Hf].
  - simplify_eq. by eapply Hm.
  - simplify_eq. by eapply Hm.
Qed.

Lemma talks_attempt {A} Q (m : M error world A) : talks Q m → talks Q (attempt m).
Proof.
  intros Hm st r st' Hr. unfold attempt in Hr. destruct (m st) as [[a|e|] st1] eqn:E; simplify_eq; by eapply Hm.
Qed.

Lemma talks_fold {A T} Q (body : T → A → M error world T) l t : (∀ t a, a ∈ l → talks Q (body t a)) →
  talks Q (for_fold body t l).
Proof.
  revert t; induction l as [|a l IH]; intros t Hb; [by apply steady_talks, changes_ret|]. cbn [for_fold].
  apply talks_bind; [apply Hb; by left|]. intros t'. apply IH. intros t1 a1 Ha. apply Hb. by right.
Qed.

(** One of the pairs of the association makes a call it may make. *)
Definition on_behalf (sc : SyncerContext) (l : list (GitUserInfo * list RemoteTarget)) (ev : @event call) : Prop :=
  let '(Ev c _) := ev in ∃ gu rt, (gu, rt) ∈ flatten l ∧ sanctioned sc gu rt c.

Lemma push_talks ord q : talks (on_behalf (pp_Syncer q) (ord (pp_UserInfoRemoteTargets q))) (RunGitPushPipeline ord q).
Proof.
  unfold RunGitPushPipeline. apply talks_fold. intros responses [gu rts] Hgu.
  apply talks_fold. intros responses' rt Hrt. unfold push_one. apply talks_bind.
  2: { intros res. apply steady_talks. destruct (String.eqb _ _); [apply changes_throw|apply changes_ret]. }
  intros [w [g lg]] r st' Hr. cbn in Hr.
  destruct (interp answer (Pusher.RunGitPipeline enabled (push_params q gu rt)) g) as [[t a] g'] eqn:E.
  simplify_eq. exists t. split; [done|].
  pose proof (confined_interp _ _ _ _ _ _ _ (pipeline_confined (push_params q gu rt) enabled) E) as Ht.
  eapply Forall_impl; [exact Ht|]. intros [X c x] Hc. exists gu, rt. split; [|exact Hc].
  unfold flatten. rewrite list_elem_of_In, in_concat. exists (map (pair gu) rts). rewrite <- !list_elem_of_In.
  split; [|by apply list_elem_of_fmap_2]. by apply (list_elem_of_fmap_2 (λ p : GitUserInfo * list RemoteTarget, map (pair p.1) p.2) _ (gu, rts)).
Qed.

Lemma render_talks ord r sc ns u md m : talks (on_behalf sc (ord m)) (render_and_push ord r sc ns u md m).
Proof.
  unfold render_and_push. apply talks_bind; [apply steady_talks; steady|]. intros [[im dm]|e]; [|apply steady_talks; steady].
  apply talks_bind; [apply steady_talks; steady|]. intros [[]|e]; [apply steady_talks; steady| |apply steady_talks; steady].
  apply talks_bind; [apply steady_talks; steady|]. intros [ca|e]; [|apply steady_talks; steady].
  unfold push_and_decide. apply talks_bind; [apply talks_attempt, (push_talks ord (mkPushParameters m sc im dm md _ ca))|].
  intros [rs|e]; apply steady_talks; cbv zeta; steady.
Qed.

(** The call is one of a push the user is entitled to. *)
Definition call_entitled (st : world) (sc : SyncerContext) (username : string) (u : URL) (ev : @event call) : Prop :=
  let '(Ev c _) := ev in ∃ gu rt, entitled st sc username u gu rt ∧ sanctioned sc gu rt c.

Lemma entries_entitled ord (st st' : world) user u sc m : (∀ m, ord m ≡ₚ map_to_list m) →
  keyed (v_rub (view st.1)) → GetUserInfoRemoteTargetsAssociation user u sc st = (Ok m, st') →
  st' = st ∧ ∀ gu rt, (gu, rt) ∈ flatten (ord m) → entitled st sc (ui_Username user) u gu rt.
Proof.
  intros Hord Hkeyed Hr. apply association_pairs in Hr as [-> Hr]; [|done]. split; [done|].
  intros gu rt Hin. unfold flatten in Hin. rewrite list_elem_of_In, in_concat in Hin.
  destruct Hin as (l & Hl & Hin). rewrite <- list_elem_of_In in Hl. rewrite <- list_elem_of_In in Hin.
  apply list_elem_of_fmap in Hl as ([gu' rts] & -> & Hl). apply list_elem_of_fmap in Hin as (rt' & [= <- <-] & Hrt).
  rewrite Hord in Hl. apply elem_of_map_to_list in Hl. cbn in *.
  destruct Hr as [(rub & Hs & Ha)|[Hn Ha]]; destruct (Ha _ _ Hl) as [_ Hall].
  - left. exists rub. split; [exact Hs|]. exact (Hall _ Hrt).
  - right. split; [exact Hn|]. exact (Hall _ Hrt).
Qed.

(** How a handled action goes on. *)
Lemma attempt_cases {A B} (m : M error world A) (f : A + error → M error world B) st r st' :
  bind (attempt m) f st = (r, st') →
  (∃ a st1, m st = (Ok a, st1) ∧ f (inl a) st1 = (r, st')) ∨
  (∃ e st1, m st = (Err e, st1) ∧ f (inr e) st1 = (r, st')) ∨ m st = (Panic, st').
Proof. unfold bind, attempt. destruct (m st) as [[a|e|] st1]; naive_solver. Qed.

Lemma steady_silent {A} (m : M error world A) st r st' :
  changes log nothing m → m st = (r, st') → st'.2.2 = st.2.2.
Proof. intros Hm Hr. apply (quiet_run _ _ _ _ _ Hm Hr tt). Qed.

(** A review asks the cluster and stores nothing in it. *)
Context (review_stores_nothing : ∀ s (w w' : W) r, create_SubjectAccessReview s w = (r, w') → view w' = view w).

Definition seen (st : world) (_ : unit) : View := view st.1.
Lemma authorize_unseen user refs owner exempt : changes seen nothing (AuthorizeCrossNamespaceRefs user refs owner exempt).
Proof.
  assert (Hcan : ∀ user a, changes seen nothing (CheckAccess (W := world) user a)).
  { intros user' a [w e] r st' Hr k _. unfold CheckAccess in Hr. cbn in Hr. unfold outside in Hr.
    destruct (create_SubjectAccessReview _ w) as [r0 w0] eqn:E. simplify_eq. exact (review_stores_nothing _ _ _ _ E). }
  unfold AuthorizeCrossNamespaceRefs. cbv zeta. induction (List.filter _ refs) as [|ref l IH]; cbn [AuthorizeRefs]; changes.
Qed.

(** What git is told between two states is what the author may have it told. *)
Definition justified (r : AdmissionRequest) (sc : SyncerContext) (managerNamespace : string) (u : URL) (st st' : world) : Prop :=
  st'.2.2 = st.2.2 ∨
  ∃ st1, authorised (W := world) r sc managerNamespace st st1 ∧ view st1.1 = view st.1 ∧
    traffic (call_entitled st1 sc (ui_Username (ar_UserInfo r)) u) st st'.

Lemma authorize_justified ord r sc managerNamespace u (st : world) res (st' : world) :
  (∀ m, ord m ≡ₚ map_to_list m) → keyed (v_rub (view st.1)) →
  authorize_and_push (W := world) ord r sc managerNamespace u st = (res, st') →
  justified r sc managerNamespace u st st'.
Proof.
  intros Hord Hkeyed Hr. unfold authorize_and_push in Hr.
  destruct (RemoteSyncerRefs _ _) as [refs|e|] eqn:Erefs;
    [|left; exact (steady_silent _ _ _ _ (builder_steady _ _ _ _ _) Hr)|left; unfold panic in Hr; by simplify_eq].
  apply attempt_cases in Hr as [(d & st1 & Hd & Hr)|[(e & st1 & Hd & Hr)|Hr]].
  2: { left. apply (steady_silent _ _ _ _ (builder_steady _ _ _ _ _)) in Hr.
    apply (steady_silent _ _ _ _ (authorize_steady _ _ _ _)) in Hd. congruence. }
  2: { left. exact (steady_silent _ _ _ _ (authorize_steady _ _ _ _) Hr). }
  pose proof (steady_silent _ _ _ _ (authorize_steady _ _ _ _) Hd) as Hlog1. destruct d as [denied|].
  { left. apply (steady_silent _ _ _ _ (builder_steady _ _ _ _ _)) in Hr. congruence. }
  unfold bind at 1 in Hr. unfold lift in Hr.
  destruct (ExtractObjectMetadata r) as [md|e|]; [|left; simplify_eq; congruence..].
  apply attempt_cases in Hr as [(m & st2 & Hm & Hr)|[(e & st2 & Hm & Hr)|Hr]].
  2: { left. apply (steady_silent _ _ _ _ (builder_steady _ _ _ _ _)) in Hr.
    apply (steady_silent _ _ _ _ (association_steady _ _ _)) in Hm. congruence. }
  2: { left. apply (steady_silent _ _ _ _ (association_steady _ _ _)) in Hr. congruence. }
  pose proof (quiet_run _ _ _ _ _ (authorize_unseen _ _ _ _) Hd tt) as Hview. unfold seen in Hview.
  apply (entries_entitled ord) in Hm as [-> Hm]; [|done|by rewrite Hview].
  right. exists st1. split; [by exists refs|]. split; [exact Hview|]. apply render_talks in Hr as (t & Ht & Hq).
  exists t. split; [congruence|]. eapply Forall_impl; [exact Hq|].
  intros [X c x] (gu & rt & Hin & Hc). exists gu, rt. split; [by apply Hm|exact Hc].
Qed.

(** (C3) Whatever the outcome of an admission request, and whatever go-git and the remote
    repositories answer, git is only talked to on behalf of its author: when there is any
    call at all, the author does not bypass the syncer and passed the review of its
    references, and every call is one of a pair of credentials and target the author is
    entitled to in the cluster at that moment. Clones, fetches, pulls and pushes carry these
    credentials; clones and fetches name the repository of that target, its upstream or the
    one of the syncer; pushes update the branch of that target only; and the worktree is
    generated for that pair. *)
Theorem request_traffic ord r sc managerNamespace (w : W) (g : G) res (w' : W) (g' : G) t :
  (∀ m, ord m ≡ₚ map_to_list m) → keyed (v_rub (view w)) →
  RunInterceptionPipeline (W := world) ord r sc managerNamespace (w, (g, [])) = (res, (w', (g', t))) →
  t = [] ∨
  ∃ u (st1 : world), url_Parse (RemoteRepository (sc_Spec sc)) = Ok u ∧
    IsBypassSubject (ar_UserInfo r) sc = (false, None) ∧
    authorised (W := world) r sc managerNamespace (w, (g, [])) st1 ∧ view st1.1 = view w ∧
    Forall (call_entitled st1 sc (ui_Username (ar_UserInfo r)) u) t.
Proof.
  intros Hord Hkeyed Hr. unfold RunInterceptionPipeline in Hr.
  destruct (url_Parse _) as [u|e|];
    [|left; exact (steady_silent _ _ _ _ (builder_steady _ _ _ _ _) Hr)|left; unfold panic in Hr; by simplify_eq].
  destruct (_ && _); [left; exact (steady_silent _ _ _ _ (builder_steady _ _ _ _ _) Hr)|].
  destruct (IsBypassSubject (ar_UserInfo r) sc) as [[] [e|]];
    try (left; exact (steady_silent _ _ _ _ (builder_steady _ _ _ _ _) Hr)).
  apply authorize_justified in Hr as [Hr|(st1 & Ha & Hv & t' & Ht & Hq)]; [by left| |done..].
  right. exists u, st1. cbn in Ht. subst. by split_and!.
Qed.
End Request.

(** ** A concrete request *)

#[local] Existing Instances beside_cluster beside_server demo_gogit.
(** go-git and the providers succeed, with nothing to report. *)
Definition quiet_side (X : Type) (c : call X) (g : unit) : X * unit :=
  (match c in call X return X with
   | LoadOrStoreC key => mkHandle key 0 | Lock _ => tt | Unlock _ => tt | ReadRepo _ => None | WriteRepo _ _ => tt
   | DeleteC _ => tt | CloneC _ => ("", inl 0%nat) | GitC _ g => demo_answer g | Now => 0%Z
   | GenerateFinalWorktreeC _ _ => inl (mkClaimedPaths ["app.yaml"] []) end, tt).
Definition demo_state : World * (unit * list (@event call)) := (demo_world, (tt, [])).
Definition demo_run : result error AdmissionReview * (World * (unit * list (@event call))) :=
  RunInterceptionPipeline (H1 := git_side quiet_side true) demo_ord demo_request demo_sc "syngit" demo_state.

Definition is_push (ev : @event call) : bool :=
  match ev with Ev (GitC _ (Push_ _)) _ => true | _ => false end.

Lemma sim_review s (w w' : World) r : create_SubjectAccessReview s w = (r, w') → view w' = view w.
Proof. cbn. by intros [= _ <-]. Qed.

Lemma request_traffic_witness : ∃ res w' t, demo_run = (res, (w', (tt, t))) ∧ existsb is_push t = true ∧
  (t = [] ∨
   ∃ u (st1 : World * (unit * list (@event call))), url_Parse (RemoteRepository (sc_Spec demo_sc)) = Ok u ∧
    IsBypassSubject (ar_UserInfo demo_request) demo_sc = (false, None) ∧
    authorised demo_request demo_sc "syngit" demo_state st1 ∧ view st1.1 = view demo_world ∧
    Forall (call_entitled st1 demo_sc (ui_Username (ar_UserInfo demo_request)) u) t).
Proof.
  assert (Hp : (let '(_, (_, (_, t))) := demo_run in existsb is_push t) = true) by (vm_compute; reflexivity).
  revert Hp. destruct demo_run as [res [w' [[] t]]] eqn:E. intros Hp. exists res, w', t.
  split; [reflexivity|]. split; [exact Hp|].
  apply (request_traffic quiet_side true sim_review demo_ord demo_request demo_sc "syngit" demo_world tt res w' tt t).
  - intros m. reflexivity.
  - apply map_Forall_singleton. reflexivity.
  - exact E.
Defined.

(** An author with an account at [git.x], where the syncer has its repository, and one at
    [git.y], where the author has a fork of it. *)
Definition fork_world : World :=
  let ru := mkRemoteUser (new_meta "alice-fork" "team" ∅) (mkRemoteUserSpec (mkRef "" "fork-secret") "alice@y" "git.y")
    (mkRemoteUserStatus [] "" "" "" "") in
  let rub := mkRUB (rub_Meta demo_rub)
    (mkRUBSpec (rub_Subject (rub_Spec demo_rub)) [mkRef "" "alice-git"; mkRef "" "alice-fork"] [mkRef "" "app-main"])
    (rub_Status demo_rub) in
  let fork := mkRemoteTarget (rt_Meta demo_rt)
    (mkRemoteTargetSpec "https://git.x/org/app.git" "main" "https://git.y/alice/app.git" "main" "TryFastForwardOrDie") [] in
  let secret := mkSecret (new_meta "fork-secret" "team" ∅) "kubernetes.io/basic-auth"
    {["username" := "alice-y"; "password" := "f0rk"]} in
  world_of (mkView {[object_key demo_ru := demo_ru; object_key ru := ru]} {[object_key demo_rub := rub]}
    {[object_key demo_rt := fork]} {[object_key Target.demo_syncer := Target.demo_syncer]} ∅
    {[object_key demo_secret := demo_secret; object_key secret := secret]} ∅ ∅).
Definition fork_run : result error AdmissionReview * (World * (unit * list (@event call))) :=
  RunInterceptionPipeline (H1 := git_side quiet_side true) demo_ord demo_request demo_sc "syngit" (fork_world, (tt, [])).
Definition clones (ev : @event call) : list (string * BasicAuth) :=
  match ev with Ev (CloneC o) _ => [(co_URL o, co_Auth o)] | _ => [] end.

(** The credentials of the account at [git.y] are sent to [git.x] as well, for which the
    author has others. *)
Lemma credentials_leave_their_host :
  concat (map clones fork_run.2.2.2) =
  [("https://git.y/alice/app.git", mkAuth "alice-y" "f0rk"); ("https://git.x/org/app.git", mkAuth "alice-y" "f0rk")].
Proof. vm_compute. reflexivity. Qed.
