(* ===== verification/Dynamic.v ===== *)
(** * The syncer controllers ([internal/controller]: [dynamic_webhook.go],
    [remotesyncer_controller.go], [clusterwideremotesyncer_controller.go])

    Both controllers keep one entry each per syncer in the shared
    ValidatingWebhookConfiguration, register the syncer with the interception server,
    and run the policies. The state is the world and the handlers of the server.
    Events are not modelled; the certificate file is read through [FileSystem]. *)

From S2P Require Import Prelude GoStr Api Errors External Kube Naming Policy Policies Pipeline Sim.
From Stdlib Require Import Ascii.

Class FileSystem (W : Type) := { ReadFile : string → M error W string }.

(** ** [dynamic_webhook.go] *)

Record dynamicWebhookEntry := mkEntry {
  en_name : string; en_path : string;
  en_rules : list RuleWithOperations;
  en_namespaceSelector : option LabelSelector;
  en_objectSelector : option LabelSelector }.

Record dynamicWebhookManager := mkManager {
  dm_dynamicWebhookName : string; dm_managerNamespace : string;
  dm_devMode : bool; dm_devWebhookHost : string; dm_devWebhookCert : string; dm_devWebhookPort : string }.

Definition WebhookServiceName : string := "syngit-webhook-service".
Definition certificateName : string := "syngit-webhook-cert".
Definition certPath : string := "/tmp/k8s-webhook-server/serving-certs/tls.crt".

(** [slices.Equal] of the four lists; the scope of a rule is not compared. *)
Definition rulesAreEqual (r1 r2 : RuleWithOperations) : bool :=
  bool_decide (rule_APIGroups r1 = rule_APIGroups r2) &&
  bool_decide (rule_APIVersions r1 = rule_APIVersions r2) &&
  bool_decide (rule_Resources r1 = rule_Resources r2) &&
  bool_decide (rule_Operations r1 = rule_Operations r2).

(** [slices.EqualFunc]. *)
Fixpoint EqualFunc {A} (eq : A → A → bool) (l1 l2 : list A) : bool :=
  match l1, l2 with
  | [], [] => true
  | x :: l1, y :: l2 => eq x y && EqualFunc eq l1 l2
  | _, _ => false
  end.

(** A nil and an empty map or list of a selector are one value here. *)
Definition webhookEntryEqual (a b : ValidatingWebhook) : bool :=
  EqualFunc rulesAreEqual (wh_Rules a) (wh_Rules b) &&
  bool_decide (wh_NamespaceSelector a = wh_NamespaceSelector b) &&
  bool_decide (wh_ObjectSelector a = wh_ObjectSelector b).

(** The webhooks of the other syncers, and whether ours is already as wanted. *)
Definition other_webhooks (name : string) (l : list ValidatingWebhook) : list ValidatingWebhook :=
  List.filter (λ existing, negb (String.eqb (wh_Name existing) name)) l.
Definition up_to_date (webhook : ValidatingWebhook) (l : list ValidatingWebhook) : bool :=
  foldl (λ b existing, if negb (String.eqb (wh_Name existing) (wh_Name webhook)) then b
                       else webhookEntryEqual existing webhook) false l.

Section Dynamic.
Context {W : Type} `{Cluster W, FileSystem W}.
Variable d : dynamicWebhookManager.

Definition caCert : M error W string :=
  let path := if dm_devMode d then dm_devWebhookCert d else certPath in
  r ⇐ attempt (ReadFile path);;
  match r with
  | inr err => throw (wrapError ("failed to read the cert file " ++ (path ++ ": ")) err)
  | inl caCert => ret caCert
  end.

Definition clientConfig (caCert path : string) : WebhookClientConfig * gmap string string :=
  if dm_devMode d then
    (mkClientConfig (Some ("https://" ++ (dm_devWebhookHost d ++ (":" ++ (dm_devWebhookPort d ++ path)))))
       None caCert, ∅)
  else
    (mkClientConfig None
       (Some (mkServiceRef (dm_managerNamespace d) WebhookServiceName (Some path))) caCert,
     {["cert-manager.io/inject-ca-from" := dm_managerNamespace d ++ (":" ++ certificateName)]}).

Definition entry_webhook (entry : dynamicWebhookEntry) (config : WebhookClientConfig) : ValidatingWebhook :=
  mkWebhook (en_name entry) ["v1"] (Some "None") (en_rules entry) config
    (en_namespaceSelector entry) (en_objectSelector entry).

(** The function that is retried on conflict: the configuration is read, then written from
    what was read. *)
Definition upsert_write (webhook : ValidatingWebhook) (annotations : gmap string string)
    (isDeleted : bool) (r : ValidatingWebhookConfiguration + error) : M error W unit :=
  match r with
  | inr err =>
      if IsNotFound err then
        if isDeleted then ret tt
        else
          client_Create (mkVWC (set_annotations annotations (new_meta (dm_dynamicWebhookName d) "" ∅))
                           [webhook]);;;
          ret tt
      else throw err
  | inl found =>
      if up_to_date webhook (vwc_Webhooks found) && negb isDeleted then ret tt
      else
        let others := other_webhooks (wh_Name webhook) (vwc_Webhooks found) in
        let others := if isDeleted then others else (others ++ [webhook])%list in
        client_Update (mkVWC (vwc_Meta found) others);;;
        ret tt
  end.
Definition upsert_once (webhook : ValidatingWebhook) (annotations : gmap string string)
    (isDeleted : bool) : M error W unit :=
  r ⇐ attempt (client_Get (mkNN "" (dm_dynamicWebhookName d)));;
  upsert_write webhook annotations isDeleted r.

Definition upsert (entry : dynamicWebhookEntry) (isDeleted : bool) : M error W unit :=
  caCert ⇐ caCert;;
  let '(config, annotations) := clientConfig caCert (en_path entry) in
  RetryOnConflict (upsert_once (entry_webhook entry config) annotations isDeleted).

(** ** The entries of the two kinds *)

Definition zero_spec : RemoteSyncerSpec :=
  mkRemoteSyncerSpec "" "" (mkScopedResources None None []) "" "" None "" [] [] "" false None [] false "" "" 0
    None None false (mkRef "" "") (mkSOPSConfig false (mkRef "" "")).
Definition zero_status : RemoteSyncerStatus := mkRemoteSyncerStatus [] None None None.
Definition zero_RemoteSyncer : RemoteSyncer := mkRemoteSyncer (new_meta "" "" ∅) zero_spec zero_status.
Definition zero_ClusterWideRemoteSyncer : ClusterWideRemoteSyncer :=
  mkClusterWideRemoteSyncer (new_meta "" "" ∅) (mkCWSpec zero_spec None "") zero_status.

Definition remoteSyncer_entry_name (req : NamespacedName) : string :=
  nn_Name req ++ ("." ++ (nn_Namespace req ++ ".syngit.io")).
Definition clusterWide_entry_name (req : NamespacedName) : string :=
  nn_Name req ++ ".clusterwide.syngit.io".

Definition remoteSyncer_entry (req : NamespacedName) (rs : RemoteSyncer) : dynamicWebhookEntry :=
  mkEntry (remoteSyncer_entry_name req) (RemoteSyncerWebhookPath req) (sr_Rules (Scoped (rs_Spec rs)))
    (Some (mkLabelSelector {["kubernetes.io/metadata.name" := nn_Namespace req]} []))
    (sr_ObjectSelector (Scoped (rs_Spec rs))).

Definition clusterWide_entry (req : NamespacedName) (cwrs : ClusterWideRemoteSyncer) : dynamicWebhookEntry :=
  let scoped := Scoped (cw_RemoteSyncerSpec (cwrs_Spec cwrs)) in
  mkEntry (clusterWide_entry_name req) (ClusterWideRemoteSyncerWebhookPath (nn_Name req))
    (sr_Rules scoped) (cw_NamespaceSelector (cwrs_Spec cwrs)) (sr_ObjectSelector scoped).

(** ** [Reconcile] *)

Definition with_handlers (f : Handlers → Handlers) : M error (W * Handlers) unit :=
  λ '(w, hs), (Ok tt, (w, f hs)).
(** A call that does not touch the handlers. *)
Definition in_world {A} (m : M error W A) : M error (W * Handlers) A := outside m.

Definition set_conditions (cs : list Condition) (st : RemoteSyncerStatus) : RemoteSyncerStatus :=
  mkRemoteSyncerStatus cs (st_LastBypassed st) (st_LastObserved st) (st_LastPushed st).

Definition updateStatus_rs (rs : RemoteSyncer) (condition : Condition) : M error W unit :=
  client_StatusUpdate (mkRemoteSyncer (rs_Meta rs) (rs_Spec rs)
    (set_conditions (SetCondition (st_Conditions (rs_Status rs)) condition) (rs_Status rs)));;;
  ret tt.
Definition updateStatus_cw (cwrs : ClusterWideRemoteSyncer) (condition : Condition) : M error W unit :=
  client_StatusUpdate (mkClusterWideRemoteSyncer (cwrs_Meta cwrs) (cwrs_Spec cwrs)
    (set_conditions (SetCondition (st_Conditions (cwrs_Status cwrs)) condition) (cwrs_Status cwrs)));;;
  ret tt.

(** From the entry on: the same in both controllers. *)
Definition apply_entry (entry : dynamicWebhookEntry) (isDeleted : bool)
    (updateStatus : Condition → M error W unit) : M error (W * Handlers) ctrl_Result :=
  time ⇐ in_world now;;
  r ⇐ attempt (in_world (upsert entry isDeleted));;
  match r with
  | inr err =>
      attempt (in_world (updateStatus (mkCondition "WebhookReconciled" "False" "WebhookNotUpdated"
        ("The dynamic webhook has not been updated: " ++ Error err) time)));;;
      throw err
  | inl _ =>
      if isDeleted then ret no_requeue
      else
        attempt (in_world (updateStatus (mkCondition "WebhookReconciled" "True" "WebhookUpdated"
          "The resources have been successfully assigned to the webhook" time)));;;
        ret no_requeue
  end.

Definition reconcileWebhook_rs (req : NamespacedName) : M error (W * Handlers) ctrl_Result :=
  let webhookPath := RemoteSyncerWebhookPath req in
  r ⇐ attempt (in_world (client_Get req));;
  match r with
  | inr _ =>
      with_handlers (Unregister webhookPath);;;
      apply_entry (remoteSyncer_entry req zero_RemoteSyncer) true (updateStatus_rs zero_RemoteSyncer)
  | inl rs =>
      with_handlers (Register rs webhookPath);;;
      apply_entry (remoteSyncer_entry req rs) false (updateStatus_rs rs)
  end.

Definition reconcileWebhook_cw (req : NamespacedName) : M error (W * Handlers) ctrl_Result :=
  let webhookPath := ClusterWideRemoteSyncerWebhookPath (nn_Name req) in
  r ⇐ attempt (in_world (client_Get req));;
  match r with
  | inr _ =>
      with_handlers (Unregister webhookPath);;;
      apply_entry (clusterWide_entry req zero_ClusterWideRemoteSyncer) true
        (updateStatus_cw zero_ClusterWideRemoteSyncer)
  | inl cwrs =>
      with_handlers (RegisterClusterWide cwrs webhookPath);;;
      apply_entry (clusterWide_entry req cwrs) false (updateStatus_cw cwrs)
  end.

(** [errors.Join]. *)
Definition Join_errors (errs : list (option error)) : option error :=
  match omap id errs with [] => None | es => Some (joinError es) end.

(** The result and the error of a call that answers both. *)
Definition both {S} (m : M error S ctrl_Result) : M error S (ctrl_Result * option error) :=
  r ⇐ attempt m;;
  ret (match r with inl res => (res, None) | inr err => (no_requeue, Some err) end).

Section Reconcile.
Context `{Finalizers, Lib}.
Variable ord : gmap string RemoteTarget → list (string * RemoteTarget).

Definition syncer_policies : list (Policy W Syncer) := [BranchTargetPolicy ord; UserSpecificPolicy ord].

(** [RunPolicies] on a pointer to the syncer just read. *)
Definition run_policies (s : Syncer) : M error (W * Handlers) (ctrl_Result * option error) :=
  λ '(w, hs), let '(r, (w', _)) := RunPolicies syncer_policies (w, s) in (r, (w', hs)).

Definition reconcile_syncer (core : M error (W * Handlers) ctrl_Result) (get : M error W Syncer)
  : M error (W * Handlers) (ctrl_Result * option error) :=
  '(coreResult, coreErr) ⇐ both core;;
  r ⇐ attempt (in_world get);;
  match r with
  | inr _ => ret (coreResult, coreErr)
  | inl syncer =>
      '(polResult, polErr) ⇐ run_policies syncer;;
      ret (MergeResults coreResult polResult, Join_errors [coreErr; polErr])
  end.

Definition Reconcile_rs (req : NamespacedName) : M error (W * Handlers) (ctrl_Result * option error) :=
  reconcile_syncer (reconcileWebhook_rs req) (map_ok SyncerRS (client_Get req)).
Definition Reconcile_cw (req : NamespacedName) : M error (W * Handlers) (ctrl_Result * option error) :=
  reconcile_syncer (reconcileWebhook_cw req) (map_ok SyncerCW (client_Get req)).
End Reconcile.

(** ** The watches: which syncers a change enqueues *)

Definition is_managed_rub (rub : RemoteUserBinding) : bool :=
  String.eqb (mget (om_Labels (rub_Meta rub)) ManagedByLabelKey) ManagedByLabelValue.
Definition user_specific (m : ObjectMeta) : bool :=
  negb (String.eqb (mget (om_Annotations m) RtAnnotationKeyUserSpecific) "").

(** A failed list enqueues nothing. *)
Definition or_nothing {A} (m : M error W (list A)) : M error W (list A) :=
  r ⇐ attempt m;; ret (match r with inl l => l | inr _ => [] end).

Definition findObjectsForDynamicWebhook_rs : M error W (list NamespacedName) :=
  or_nothing (items ⇐ client_List (mkListOptions "" None);;
              ret (map (λ rs : RemoteSyncer, object_key rs) items)).
Definition findRemoteSyncersForRUB (rub : RemoteUserBinding) : M error W (list NamespacedName) :=
  if negb (is_managed_rub rub) then ret []
  else or_nothing (items ⇐ client_List (mkListOptions (om_Namespace (rub_Meta rub)) None);;
                   ret (map (λ rs : RemoteSyncer, object_key rs)
                          (List.filter (λ rs, user_specific (rs_Meta rs)) items))).
Definition findObjectsForDynamicWebhook_cw : M error W (list NamespacedName) :=
  or_nothing (items ⇐ client_List (mkListOptions "" None);;
              ret (map (λ cwrs : ClusterWideRemoteSyncer, mkNN "" (om_Name (cwrs_Meta cwrs))) items)).
Definition findSyncersForRUB (rub : RemoteUserBinding) : M error W (list NamespacedName) :=
  if negb (is_managed_rub rub) then ret []
  else or_nothing (items ⇐ client_List (mkListOptions "" None);;
                   ret (map (λ cwrs : ClusterWideRemoteSyncer, mkNN "" (om_Name (cwrs_Meta cwrs)))
                          (List.filter (λ cwrs,
                             String.eqb (cw_IdentityStoreNamespace (cwrs_Spec cwrs))
                               (om_Namespace (rub_Meta rub)) &&
                             user_specific (cwrs_Meta cwrs)) items))).
End Dynamic.

(** ** Specification *)

(** The entries a configuration holds under a name. *)
Definition own_webhooks (name : string) (l : list ValidatingWebhook) : list ValidatingWebhook :=
  List.filter (λ existing, String.eqb (wh_Name existing) name) l.

(** Two rules on the same operations of the same groups, versions and resources; the scope
    of the rules is not looked at. *)
Definition same_rule (r1 r2 : RuleWithOperations) : Prop :=
  rule_APIGroups r1 = rule_APIGroups r2 ∧ rule_APIVersions r1 = rule_APIVersions r2 ∧
  rule_Resources r1 = rule_Resources r2 ∧ rule_Operations r1 = rule_Operations r2.

(** An entry with the rules (their scope apart), the namespaces and the objects a syncer asks
    for. Nothing is said of the address it calls. *)
Record intercepts (x : ValidatingWebhook) (name : string) (rules : list RuleWithOperations)
    (namespaceSelector objectSelector : option LabelSelector) : Prop := {
  int_name : wh_Name x = name;
  int_rules : Forall2 same_rule (wh_Rules x) rules;
  int_namespaces : wh_NamespaceSelector x = namespaceSelector;
  int_objects : wh_ObjectSelector x = objectSelector }.

Lemma rulesAreEqual_iff r1 r2 : rulesAreEqual r1 r2 = true ↔ same_rule r1 r2.
Proof. unfold rulesAreEqual, same_rule. rewrite !andb_true_iff, !bool_decide_eq_true. tauto. Qed.

Lemma EqualFunc_iff {A} (eq : A → A → bool) (P : A → A → Prop) :
  (∀ x y, eq x y = true ↔ P x y) → ∀ l1 l2, EqualFunc eq l1 l2 = true ↔ Forall2 P l1 l2.
Proof.
  intros Heq. induction l1 as [|x l1 IH]; intros [|y l2]; simpl.
  - split; [constructor|done].
  - split; [done|by inversion 1].
  - split; [done|by inversion 1].
  - rewrite andb_true_iff, Heq, IH. split; [by intros []; constructor|by inversion 1].
Qed.

Lemma webhookEntryEqual_iff a b : webhookEntryEqual a b = true ↔
  Forall2 same_rule (wh_Rules a) (wh_Rules b) ∧
  wh_NamespaceSelector a = wh_NamespaceSelector b ∧ wh_ObjectSelector a = wh_ObjectSelector b.
Proof.
  unfold webhookEntryEqual.
  rewrite !andb_true_iff, !bool_decide_eq_true, (EqualFunc_iff _ _ rulesAreEqual_iff). tauto.
Qed.

Lemma own_of_others name l : own_webhooks name (other_webhooks name l) = [].
Proof.
  induction l as [|x l IH]; simpl; [done|]. destruct (String.eqb (wh_Name x) name) eqn:E; simpl; [done|].
  by rewrite E.
Qed.

Lemma others_of_others name l : other_webhooks name (other_webhooks name l) = other_webhooks name l.
Proof.
  induction l as [|x l IH]; simpl; [done|]. destruct (String.eqb (wh_Name x) name) eqn:E; simpl; [done|].
  rewrite E. simpl. by rewrite IH.
Qed.

(** What is compared is the last entry of that name; with distinct names, the only one. *)
Lemma up_to_date_own webhook l : NoDup (map wh_Name l) → up_to_date webhook l = true →
  ∃ x, own_webhooks (wh_Name webhook) l = [x] ∧ webhookEntryEqual x webhook = true.
Proof.
  intros Hnd Hup. unfold up_to_date in Hup.
  enough (∀ b, foldl (λ b existing, if negb (String.eqb (wh_Name existing) (wh_Name webhook)) then b
                       else webhookEntryEqual existing webhook) b l = true →
    (b = true ∧ own_webhooks (wh_Name webhook) l = []) ∨
    ∃ x, own_webhooks (wh_Name webhook) l = [x] ∧ webhookEntryEqual x webhook = true) as Hgen.
  { destruct (Hgen false Hup) as [[? _]|?]; done. }
  clear Hup. induction l as [|x l IH]; intros b Hb; simpl in *; [by left|].
  apply NoDup_cons in Hnd as [Hx Hnd]. destruct (String.eqb_spec (wh_Name x) (wh_Name webhook)) as [E|E]; simpl in *.
  - right. exists x. destruct (IH Hnd _ Hb) as [[Heq Hown]|(y & Hown & _)].
    + by rewrite Hown.
    + exfalso. apply Hx. rewrite E. apply list_elem_of_fmap. exists y.
      assert (Hy : In y (own_webhooks (wh_Name webhook) l)) by (rewrite Hown; by left).
      apply filter_In in Hy as [Hy He%String.eqb_eq]. split; [done|by apply list_elem_of_In].
  - auto.
Qed.

Section Converge.
Context {W : Type} `{ApiServer W, FileSystem W}.
Variable d : dynamicWebhookManager.

Definition config_key : NamespacedName := mkNN "" (dm_dynamicWebhookName d).
Definition webhooks_of (v : View) : list ValidatingWebhook :=
  default [] (vwc_Webhooks <$> v_vwc v !! config_key).

(** The shared configuration, when there is one, is alive and has distinct names. *)
Definition resting (v : View) : Prop :=
  ∀ c, v_vwc v !! config_key = Some c →
    object_key c = config_key ∧ om_DeletionTimestamp (vwc_Meta c) = None ∧ NoDup (map wh_Name (vwc_Webhooks c)).

(** What one reconcile leaves of a configuration. *)
Definition entry_applied (webhook : ValidatingWebhook) (isDeleted : bool) (before after : list ValidatingWebhook)
  : Prop :=
  other_webhooks (wh_Name webhook) after = other_webhooks (wh_Name webhook) before ∧
  if isDeleted then own_webhooks (wh_Name webhook) after = []
  else ∃ x, own_webhooks (wh_Name webhook) after = [x] ∧
         intercepts x (wh_Name webhook) (wh_Rules webhook) (wh_NamespaceSelector webhook)
           (wh_ObjectSelector webhook) ∧
         (x = webhook ∨ own_webhooks (wh_Name webhook) before = [x]).

Lemma webhook_intercepts x webhook : wh_Name x = wh_Name webhook → webhookEntryEqual x webhook = true →
  intercepts x (wh_Name webhook) (wh_Rules webhook) (wh_NamespaceSelector webhook) (wh_ObjectSelector webhook).
Proof. intros Hn (?&?&?)%webhookEntryEqual_iff. by split. Qed.

Lemma entry_equal_refl webhook : webhookEntryEqual webhook webhook = true.
Proof.
  apply webhookEntryEqual_iff. split; [|done]. apply Forall_Forall2_diag, Forall_forall. by intros r _.
Qed.

Lemma entry_rebuilt webhook isDeleted l :
  entry_applied webhook isDeleted l
    (if isDeleted then other_webhooks (wh_Name webhook) l
     else (other_webhooks (wh_Name webhook) l ++ [webhook])%list).
Proof.
  unfold entry_applied. destruct isDeleted; [by rewrite others_of_others, own_of_others|].
  unfold other_webhooks at 1, own_webhooks. rewrite !List.filter_app. simpl. rewrite String.eqb_refl. simpl.
  fold (own_webhooks (wh_Name webhook) (other_webhooks (wh_Name webhook) l)).
  fold (other_webhooks (wh_Name webhook) (other_webhooks (wh_Name webhook) l)).
  rewrite own_of_others, others_of_others, app_nil_r. split; [done|]. exists webhook. split_and!; [done| |by left].
  apply webhook_intercepts; [done|apply entry_equal_refl].
Qed.

(** The names stay distinct. *)
Lemma rebuilt_distinct webhook (isDeleted : bool) l : NoDup (map wh_Name l) →
  NoDup (map wh_Name (if isDeleted then other_webhooks (wh_Name webhook) l
                      else (other_webhooks (wh_Name webhook) l ++ [webhook])%list)).
Proof.
  intros Hnd. assert (Ho : NoDup (map wh_Name (other_webhooks (wh_Name webhook) l))) by (by apply NoDup_map_filter).
  destruct isDeleted; [done|]. rewrite List.map_app. apply NoDup_app. split_and!; [done| |apply NoDup_singleton].
  intros n (x & -> & Hx)%list_elem_of_fmap Hn%list_elem_of_singleton.
  apply list_elem_of_In, filter_In in Hx as [_ Hx]. by rewrite Hn, String.eqb_refl in Hx.
Qed.

Lemma upsert_once_run webhook annotations isDeleted w :
  resting (view w) →
  ∃ w', upsert_once d webhook annotations isDeleted w = (Ok tt, w') ∧
    (∃ m, view w' = v_set (T := ValidatingWebhookConfiguration) m (view w) ∧
       ∀ k, k ≠ config_key → m !! k = v_vwc (view w) !! k) ∧ resting (view w') ∧
    entry_applied webhook isDeleted (webhooks_of (view w)) (webhooks_of (view w')).
Proof.
  intros Hrest. unfold upsert_once, upsert_write, webhooks_of, bind, attempt. fold config_key.
  destruct (v_vwc (view w) !! config_key) as [c|] eqn:Ec.
  - destruct (Hrest c Ec) as (Hk & Hd & Hnd).
    rewrite (get_found (T := ValidatingWebhookConfiguration) config_key w c) by (by apply Ec). simpl.
    destruct (up_to_date webhook (vwc_Webhooks c) && negb isDeleted) eqn:Eu.
    + apply andb_true_iff in Eu as [Hup ->%negb_true_iff].
      exists w. split_and!; [done|exists (v_vwc (view w)); split; [by destruct (view w)|done]|done|].
      rewrite Ec. simpl. split; [done|]. destruct (up_to_date_own _ _ Hnd Hup) as (x & Hown & Heq).
      exists x. split_and!; [done| |by right]. apply webhook_intercepts; [|done].
      assert (Hx : In x (own_webhooks (wh_Name webhook) (vwc_Webhooks c))) by (rewrite Hown; by left).
      by apply filter_In in Hx as [_ ?%String.eqb_eq].
    + set (l := if isDeleted then _ else _). destruct (update_current (mkVWC (vwc_Meta c) l) c w) as (rv & w' & Hu & Hv);
        [change (v_vwc (view w) !! object_key c = Some c); by rewrite Hk|done|done|]. rewrite Hu. exists w'.
      change (object_key (mkVWC (vwc_Meta c) l)) with (object_key c) in Hv. rewrite Hk in Hv.
      split_and!; [done|eexists; split; [exact Hv|by intros k Hne; apply lookup_insert_ne]| |].
      * rewrite Hv. intros c' Hc'. simpl in Hc'. rewrite lookup_insert_eq in Hc'. injection Hc' as <-.
        split_and!; [exact Hk|done|]. by apply rebuilt_distinct.
      * rewrite Hv. simpl. rewrite lookup_insert_eq. simpl. apply entry_rebuilt.
  - destruct (get_missing (T := ValidatingWebhookConfiguration) config_key w) as [msg Hg]; [by apply Ec|].
    rewrite Hg. simpl. destruct isDeleted.
    + exists w. split_and!; [done|exists (v_vwc (view w)); split; [by destruct (view w)|done]|done|]. rewrite Ec. done.
    + set (c := mkVWC _ _). destruct (create_new c w) as (rv & w' & Hcr & Hv); [by apply Ec|]. rewrite Hcr.
      change (object_key c) with config_key in Hv. exists w'. split_and!; [done|eexists; split; [exact Hv|by intros k Hne; apply lookup_insert_ne]| |].
      * rewrite Hv. intros c' Hc'. simpl in Hc'. rewrite lookup_insert_eq in Hc'. injection Hc' as <-.
        split_and!; [done|done|]. apply NoDup_singleton.
      * rewrite Hv. simpl. rewrite lookup_insert_eq. simpl. apply (entry_rebuilt webhook false []).
Qed.

(** The certificate can be read. *)
Definition cert_readable : Prop := ∀ w : W,
  ∃ ca, ReadFile (if dm_devMode d then dm_devWebhookCert d else certPath) w = (Ok ca, w).

(** What a reconcile leaves of the shared configuration, for an entry: the other entries, and
    one of its own, which is the one the controller makes, with the certificate of the
    moment and the path of the syncer, or one that was there and intercepts the same. *)
Definition entry_converged (entry : dynamicWebhookEntry) (isDeleted : bool) (w w' : W) : Prop :=
  other_webhooks (en_name entry) (webhooks_of (view w')) = other_webhooks (en_name entry) (webhooks_of (view w)) ∧
  if isDeleted then own_webhooks (en_name entry) (webhooks_of (view w')) = []
  else ∃ x, own_webhooks (en_name entry) (webhooks_of (view w')) = [x] ∧
         intercepts x (en_name entry) (en_rules entry) (en_namespaceSelector entry) (en_objectSelector entry) ∧
         ((∃ ca, ReadFile (if dm_devMode d then dm_devWebhookCert d else certPath) w = (Ok ca, w) ∧
             x = entry_webhook entry (clientConfig d ca (en_path entry)).1) ∨
          own_webhooks (en_name entry) (webhooks_of (view w)) = [x]).

Lemma upsert_run entry isDeleted w :
  resting (view w) → cert_readable →
  ∃ w', upsert d entry isDeleted w = (Ok tt, w') ∧
    (∃ m, view w' = v_set (T := ValidatingWebhookConfiguration) m (view w) ∧
       ∀ k, k ≠ config_key → m !! k = v_vwc (view w) !! k) ∧ resting (view w') ∧
    entry_converged entry isDeleted w w'.
Proof.
  intros Hrest Hcert. destruct (Hcert w) as [ca Hca]. unfold upsert, caCert.
  rewrite (bind_ok _ _ w ca w) by (unfold bind, attempt; by rewrite Hca).
  destruct (clientConfig d ca (en_path entry)) as [config annotations] eqn:Ec.
  destruct (upsert_once_run (entry_webhook entry config) annotations isDeleted w Hrest)
    as (w' & Hrun & Hv & Hrest' & Happ).
  exists w'. split_and!; [by apply retry_ok|done|done|]. destruct Happ as [Ho Hown]. split; [exact Ho|].
  destruct isDeleted; [exact Hown|]. destruct Hown as (x & Hx & Hi & Hor). exists x. split_and!; [exact Hx|exact Hi|].
  destruct Hor as [->|Hor]; [left|by right]. exists ca. by rewrite Ec.
Qed.

(** A status update that returns and leaves the configuration alone. *)
Definition harmless (upd : Condition → M error W unit) : Prop :=
  ∀ c w, ∃ r w', attempt (upd c) w = (Ok r, w') ∧ v_vwc (view w') = v_vwc (view w).

Lemma updateStatus_rs_harmless rs : harmless (updateStatus_rs rs).
Proof.
  intros c w. unfold updateStatus_rs, attempt, bind.
  destruct (status_scoped (mkRemoteSyncer (rs_Meta rs) (rs_Spec rs)
    (set_conditions (SetCondition (st_Conditions (rs_Status rs)) c) (rs_Status rs))) w)
    as (r & w' & Hr & Hp & Hv). rewrite Hr.
  assert (Hvwc : v_vwc (view w') = v_vwc (view w)) by (destruct Hv as [->|[m ->]]; done).
  destruct r as [a|e|]; [| |done]; eexists _, w'; split; try reflexivity; done.
Qed.

Lemma updateStatus_cw_harmless cwrs : harmless (updateStatus_cw cwrs).
Proof.
  intros c w. unfold updateStatus_cw, attempt, bind.
  destruct (status_scoped (mkClusterWideRemoteSyncer (cwrs_Meta cwrs) (cwrs_Spec cwrs)
    (set_conditions (SetCondition (st_Conditions (cwrs_Status cwrs)) c) (cwrs_Status cwrs))) w)
    as (r & w' & Hr & Hp & Hv). rewrite Hr.
  assert (Hvwc : v_vwc (view w') = v_vwc (view w)) by (destruct Hv as [->|[m ->]]; done).
  destruct r as [a|e|]; [| |done]; eexists _, w'; split; try reflexivity; done.
Qed.

Lemma apply_entry_run entry isDeleted upd w hs :
  resting (view w) → cert_readable → harmless upd →
  ∃ w', apply_entry d entry isDeleted upd (w, hs) = (Ok no_requeue, (w', hs)) ∧
    entry_converged entry isDeleted w w'.
Proof.
  intros Hrest Hcert Hupd. unfold apply_entry, in_world. destruct (now_spec w) as [t Ht].
  rewrite (bind_ok _ _ (w, hs) t (w, hs)) by (simpl; by rewrite Ht).
  destruct (upsert_run entry isDeleted w Hrest Hcert) as (w' & Hrun & _ & _ & Hconv).
  rewrite (bind_ok _ _ (w, hs) (inl tt) (w', hs)) by (unfold attempt; simpl; by rewrite Hrun).
  destruct isDeleted; [by exists w'|].
  destruct (Hupd (mkCondition "WebhookReconciled" "True" "WebhookUpdated"
    "The resources have been successfully assigned to the webhook" t) w') as (r & w2 & Hr & Hv).
  exists w2. split.
  - unfold attempt in Hr. unfold bind, attempt, outside.
    destruct (upd _ w') as [[a|e|] w3]; by simplify_eq.
  - unfold entry_converged, webhooks_of in *. by rewrite Hv.
Qed.

(** ** Properties *)

(** (C17) One pass of either controller brings the shared configuration and the interception
    server in line with the syncer, on a server at rest: when the syncer exists it is
    registered under its path and the configuration holds exactly one entry of its name,
    with the groups, versions, resources and operations of its rules, its namespaces and its
    object selector. That entry is the one the controller makes of the syncer, the
    certificate and the path, unless there was one with these rules and selectors already,
    which is kept as it is, whatever scopes, certificate and address it has
    ([entry_drift_kept]). When the syncer does not exist, handler and entry are gone. The
    entries of every other name are untouched and keep their order. *)
Theorem syncer_entry_converges req w hs :
  resting (view w) → cert_readable →
  (∃ w', reconcileWebhook_rs d req (w, hs) = (Ok no_requeue, (w',
       match v_rs (view w) !! req with
       | Some rs => <[RemoteSyncerWebhookPath req := SyncerRS rs]> hs
       | None => delete (RemoteSyncerWebhookPath req) hs
       end)) ∧
     match v_rs (view w) !! req with
     | Some rs => entry_converged (remoteSyncer_entry req rs) false w w'
     | None => entry_converged (remoteSyncer_entry req zero_RemoteSyncer) true w w'
     end) ∧
  (∃ w', reconcileWebhook_cw d req (w, hs) = (Ok no_requeue, (w',
       match v_cwrs (view w) !! req with
       | Some cwrs => <[ClusterWideRemoteSyncerWebhookPath (nn_Name req) := SyncerCW cwrs]> hs
       | None => delete (ClusterWideRemoteSyncerWebhookPath (nn_Name req)) hs
       end)) ∧
     match v_cwrs (view w) !! req with
     | Some cwrs => entry_converged (clusterWide_entry req cwrs) false w w'
     | None => entry_converged (clusterWide_entry req zero_ClusterWideRemoteSyncer) true w w'
     end).
Proof.
  intros Hrest Hcert. split.
  - unfold reconcileWebhook_rs, in_world. destruct (v_rs (view w) !! req) as [rs|] eqn:E.
    + rewrite (bind_ok _ _ (w, hs) (inl rs) (w, hs))
        by (unfold attempt; simpl; by rewrite (get_found req w rs) by apply E).
      apply apply_entry_run; [done..|apply updateStatus_rs_harmless].
    + destruct (get_missing (T := RemoteSyncer) req w) as [msg Hg]; [apply E|].
      rewrite (bind_ok _ _ (w, hs) (inr (apiError NotFound msg)) (w, hs))
        by (unfold attempt; simpl; by rewrite Hg).
      apply apply_entry_run; [done..|apply updateStatus_rs_harmless].
  - unfold reconcileWebhook_cw, in_world. destruct (v_cwrs (view w) !! req) as [cwrs|] eqn:E.
    + rewrite (bind_ok _ _ (w, hs) (inl cwrs) (w, hs))
        by (unfold attempt; simpl; by rewrite (get_found req w cwrs) by apply E).
      apply apply_entry_run; [done..|apply updateStatus_cw_harmless].
    + destruct (get_missing (T := ClusterWideRemoteSyncer) req w) as [msg Hg]; [apply E|].
      rewrite (bind_ok _ _ (w, hs) (inr (apiError NotFound msg)) (w, hs))
        by (unfold attempt; simpl; by rewrite Hg).
      apply apply_entry_run; [done..|apply updateStatus_cw_harmless].
Qed.

(** The comparison that decides whether an entry is up to date looks at the rules
    without their scope and at the selectors: an entry that differs in the scope of a
    rule, in the CA bundle or in the address to call back is left as it is. *)
Theorem entry_drift_kept c existing webhook annotations w :
  v_vwc (view w) !! config_key = Some c → vwc_Webhooks c = [existing] →
  intercepts existing (wh_Name webhook) (wh_Rules webhook) (wh_NamespaceSelector webhook)
    (wh_ObjectSelector webhook) →
  upsert_once d webhook annotations false w = (Ok tt, w).
Proof.
  intros Hc Hl [Hn Hr Hns Ho]. unfold upsert_once, upsert_write, bind, attempt. fold config_key.
  rewrite (get_found (T := ValidatingWebhookConfiguration) config_key w c) by apply Hc. rewrite Hl. simpl.
  unfold up_to_date. simpl. rewrite Hn, String.eqb_refl. simpl.
  by rewrite (proj2 (webhookEntryEqual_iff existing webhook)).
Qed.
End Converge.

(** ** The names of the entries *)

(** A name without a dot: a namespace, not necessarily an object name. *)
Definition no_dot (s : string) : bool := negb (has_byte "."%char s).

(** The part after the last dot. *)
Lemma last_segment_inj a b x y : no_dot x = true → no_dot y = true →
  a ++ ("." ++ x) = b ++ ("." ++ y) → a = b ∧ x = y.
Proof.
  unfold no_dot. rewrite !negb_true_iff. intros Hx Hy.
  revert b; induction a as [|c a IH]; intros [|d b] He; simpl in He.
  - by injection He.
  - injection He as _ He. rewrite He, has_byte_append in Hx. simpl in Hx. by rewrite orb_true_r in Hx.
  - injection He as _ He. rewrite <- He, has_byte_append in Hy. simpl in Hy. by rewrite orb_true_r in Hy.
  - injection He as -> He. by destruct (IH b He) as [-> ->].
Qed.

(** Namespaced syncers never share an entry of the configuration, nor do cluster-wide
    ones; but a cluster-wide syncer shares its entry with the namespaced syncer of the
    same name in the namespace called [clusterwide], and only with that one. *)
Theorem entry_names_collide req1 req2 :
  no_dot (nn_Namespace req1) = true → no_dot (nn_Namespace req2) = true →
  (remoteSyncer_entry_name req1 = remoteSyncer_entry_name req2 ↔ req1 = req2) ∧
  (clusterWide_entry_name req1 = clusterWide_entry_name req2 ↔ nn_Name req1 = nn_Name req2) ∧
  (remoteSyncer_entry_name req1 = clusterWide_entry_name req2 ↔
     nn_Namespace req1 = "clusterwide" ∧ nn_Name req1 = nn_Name req2).
Proof.
  assert (Hrs : ∀ req, remoteSyncer_entry_name req = (nn_Name req ++ ("." ++ nn_Namespace req)) ++ ".syngit.io").
  { intros req. unfold remoteSyncer_entry_name. by rewrite !append_assoc. }
  assert (Hcw : ∀ req, clusterWide_entry_name req = (nn_Name req ++ ("." ++ "clusterwide")) ++ ".syngit.io").
  { intros req. unfold clusterWide_entry_name. by rewrite !append_assoc. }
  intros H1' H2'. rewrite !Hrs, !Hcw. split_and!; split.
  - intros He%append_inj_r. apply last_segment_inj in He as [??]; [|done..].
    destruct req1, req2; simpl in *; congruence.
  - by intros ->.
  - by intros He%append_inj_r%append_inj_r.
  - by intros ->.
  - intros He%append_inj_r. apply last_segment_inj in He as [??]; done.
  - by intros [-> ->].
Qed.

(** ** A concrete configuration, for the witnesses *)

#[local] Instance demo_files : FileSystem World := {| ReadFile path w := (Ok "CA", w) |}.

Definition demo_manager : dynamicWebhookManager := mkManager "syngit-dynamic-webhook" "syngit" false "" "" "".
Definition demo_webhook (name ca : string) : ValidatingWebhook :=
  mkWebhook name ["v1"] (Some "None") [] (mkClientConfig None None ca) None None.
Definition demo_config (name : string) : ValidatingWebhookConfiguration :=
  mkVWC (new_meta "syngit-dynamic-webhook" "" ∅) [demo_webhook name "old CA"].
Definition demo_world (name : string) : World :=
  world_of (mkView ∅ ∅ ∅ ∅ ∅ ∅ ∅ {[mkNN "" "syngit-dynamic-webhook" := demo_config name]}).

Lemma demo_resting name : resting demo_manager (view (demo_world name)).
Proof.
  intros c Hc.
  change (({[mkNN "" "syngit-dynamic-webhook" := demo_config name]} : gmap _ _) !! config_key demo_manager = Some c) in Hc.
  apply lookup_singleton_Some in Hc as [_ <-]. split_and!; [done..|].
  apply NoDup_singleton.
Qed.

Lemma syncer_entry_converges_witness :
  ∃ w', reconcileWebhook_rs demo_manager (mkNN "team" "gone") (demo_world "other.team.syngit.io", ∅) =
          (Ok no_requeue, (w', delete (RemoteSyncerWebhookPath (mkNN "team" "gone")) ∅)) ∧
     entry_converged demo_manager (remoteSyncer_entry (mkNN "team" "gone") zero_RemoteSyncer) true
       (demo_world "other.team.syngit.io") w'.
Proof.
  assert (E : v_rs (view (demo_world "other.team.syngit.io")) !! mkNN "team" "gone" = None) by reflexivity.
  destruct (syncer_entry_converges demo_manager (mkNN "team" "gone") (demo_world "other.team.syngit.io") ∅
    (demo_resting _)) as [(w' & Hrun & Hconv) _].
  - intros w. exists "CA". reflexivity.
  - rewrite E in Hrun, Hconv. by exists w'.
Defined.

Lemma entry_drift_kept_witness :
  upsert_once demo_manager (demo_webhook "app.team.syngit.io" "new CA") ∅ false (demo_world "app.team.syngit.io") =
    (Ok tt, demo_world "app.team.syngit.io").
Proof.
  apply (entry_drift_kept demo_manager (demo_config "app.team.syngit.io") (demo_webhook "app.team.syngit.io" "old CA"));
    [by vm_compute|done|split; done || constructor].
Defined.

Lemma entry_names_collide_witness :
  remoteSyncer_entry_name (mkNN "clusterwide" "x") = clusterWide_entry_name (mkNN "" "x").
Proof.
  apply (entry_names_collide (mkNN "clusterwide" "x") (mkNN "" "x")); [reflexivity|reflexivity|split; reflexivity].
Defined.
