(* ===== verification/Deletion.v ===== *)
(** * The deletion of a syncer

    The controllers ([Dynamic.v]), the policy host ([Policy.v]) and the policies
    ([Policies.v]) together: a syncer that is being deleted is cleaned up in a first pass, the
    last finalizer lets the API server drop it, and the pass this wakes takes its entry out of
    the shared configuration and its handler out of the interception server. *)

From S2P Require Import Prelude GoStr Api Errors External Kube Managed Policy Policies PolicyProps Target Sim AssociationProps UserSpecificProps Pipeline Dynamic.

Section Deletion.
Context {W : Type} `{ApiServer W, Lib, !Lib_laws}.

Abbreviation rubs w := (v_rub (view w)).
Abbreviation rts w := (v_rt (view w)).

(** ** What the cleanup of a policy leaves *)

(** Nobody deletes or protects what the cleanups change. *)
Record undisturbed (w : W) : Prop := {
  un_rts : keyed (rts w);
  un_rubs : keyed (rubs w);
  un_free : map_Forall (λ _, free_rub) (rubs w);
  un_fin : map_Forall (λ _ rt, om_Finalizers (rt_Meta rt) = []) (rts w) }.

Section Cleanup.
Context (s : Syncer).
Abbreviation ns := (IdentityNamespace s).

(** The names of some targets taken away from a managed binding. *)
Definition removed_from (l : list RemoteTarget) : RemoteUserBinding → string → bool := taken s (map (pair "") l).

(** The targets that [gone] selects are deleted, the references of the managed bindings to
    them are removed, and the other targets and bindings are left as they were. *)
Definition swept (gone : RemoteTarget → Prop) (w w' : W) : Prop :=
  ∃ removed, (∀ rt, rt ∈ removed ↔ rts w !! object_key rt = Some rt ∧ gone rt) ∧
    (∀ k, rts w' !! k = if bool_decide (k ∈ map object_key removed) then None else rts w !! k) ∧
    shrunk_all (removed_from removed) (rubs w) (rubs w').

Lemma removed_from_spec l r n : removed_from l r n = true ↔
  managed_in ns r = true ∧ ∃ rt, rt ∈ l ∧ om_Name (rt_Meta rt) = n.
Proof.
  unfold removed_from, taken. rewrite andb_true_iff, bool_decide_eq_true. f_equiv.
  rewrite list_elem_of_fmap. split.
  - intros ([u rt] & -> & (rt' & [= -> ->] & Hin)%list_elem_of_fmap). eauto.
  - intros (rt & Hin & <-). exists ("", rt). split; [done|]. apply list_elem_of_fmap. eauto.
Qed.

Lemma cleanup_loop (gone : RemoteTarget → bool) (body : RemoteTarget → M error W unit) l w :
  (∀ rt w, gone rt = false → body rt w = (Ok tt, w)) →
  (∀ rt w, rt ∈ l → gone rt = true → undisturbed w → ∃ mr w', body rt w = (Ok tt, w') ∧
     view w' = v_set mr (v_set (delete (object_key rt) (rts w)) (view w)) ∧ shrunk_all (removed_from [rt]) (rubs w) mr) →
  undisturbed w →
  ∃ mr mt w', for_each body l w = (Ok tt, w') ∧ view w' = v_set mr (v_set mt (view w)) ∧
    (∀ k, mt !! k = if bool_decide (k ∈ map object_key (List.filter gone l)) then None else rts w !! k) ∧
    shrunk_all (removed_from (List.filter gone l)) (rubs w) mr.
Proof.
  intros Hkeep Hbody. revert w. induction l as [|rt l IH]; intros w Hw.
  { exists (rubs w), (rts w), w. split_and!; [done|by destruct (view w)|done|].
    eapply shrunk_all_weaken; [|apply shrunk_all_refl]. intros r n. unfold removed_from, taken. simpl. by rewrite andb_false_r. }
  assert (Hbody' : ∀ rt w, rt ∈ l → gone rt = true → undisturbed w → ∃ mr w', body rt w = (Ok tt, w') ∧
     view w' = v_set mr (v_set (delete (object_key rt) (rts w)) (view w)) ∧ shrunk_all (removed_from [rt]) (rubs w) mr)
    by (intros rt0 w0 Hin; apply Hbody; by right).
  specialize (IH Hbody'). cbn [for_each List.filter]. destruct (gone rt) eqn:Ek.
  2:{ rewrite (bind_ok _ _ _ _ _ (Hkeep rt w Ek)). by apply IH. }
  destruct (Hbody rt w ltac:(by left) Ek Hw) as (mr1 & w1 & Hrun1 & Hv1 & Hsh1).
  assert (Hrubs1 : rubs w1 = mr1) by (by rewrite Hv1).
  assert (Hrts1 : rts w1 = delete (object_key rt) (rts w)) by (by rewrite Hv1).
  destruct (shrunk_all_calm _ _ _ Hsh1 (un_rubs _ Hw) (un_free _ Hw)) as [Hk1 Hf1].
  destruct (IH w1) as (mr & mt & w' & Hrun & Hv & Hmt & Hsh).
  { split; [rewrite Hrts1; apply map_Forall_delete, Hw|by rewrite Hrubs1|by rewrite Hrubs1|rewrite Hrts1; apply map_Forall_delete, Hw]. }
  rewrite Hrubs1 in Hsh. exists mr, mt, w'. split_and!.
  - by rewrite (bind_ok _ _ _ _ _ Hrun1).
  - by rewrite Hv, Hv1.
  - intros k. rewrite Hmt, Hrts1. simpl. case_bool_decide as Hk.
    + by rewrite bool_decide_eq_true_2 by (by right).
    + destruct (decide (k = object_key rt)) as [->|Hne].
      * by rewrite lookup_delete_eq, bool_decide_eq_true_2 by (by left).
      * rewrite lookup_delete_ne by done. rewrite bool_decide_eq_false_2; [done|]. by intros [|]%elem_of_cons.
  - eapply shrunk_all_weaken; [|eapply shrunk_all_trans; [|exact Hsh1|exact Hsh]].
    + intros r n. apply eq_true_iff_eq. rewrite orb_true_iff, !removed_from_spec.
      setoid_rewrite elem_of_cons. set_solver.
    + intros r r' n Hl. unfold removed_from, taken. by rewrite (like_managed s _ _ Hl).
Qed.

(** The two calls on a target, in either order. *)
Lemma remove_then_delete rt w : undisturbed w → om_Namespace (rt_Meta rt) = ns →
  ∃ mr w', (RemoveRemoteTargetRefFromRUBs (om_Namespace (rt_Meta rt)) (om_Name (rt_Meta rt));;; delete_tolerant rt) w = (Ok tt, w') ∧
    view w' = v_set mr (v_set (delete (object_key rt) (rts w)) (view w)) ∧ shrunk_all (removed_from [rt]) (rubs w) mr.
Proof.
  intros Hw Hns. destruct (RemoveRemoteTargetRefFromRUBs_run (om_Namespace (rt_Meta rt)) (om_Name (rt_Meta rt)) w)
    as (mr & w1 & Hrm & Hv1 & Hmut); [apply Hw|intros k r Hk _; destruct (un_free _ Hw _ _ Hk); split; auto|].
  rewrite Hns in Hmut. apply removal_shrinks in Hmut.
  destruct (delete_tolerant_run rt w1) as (w2 & Hdel & Hv2).
  { rewrite Hv1. simpl. intros rt0 E. exact (un_fin _ Hw _ _ E). }
  exists mr, w2. split_and!; [by rewrite (bind_ok _ _ _ _ _ Hrm)|by rewrite Hv2, Hv1|done].
Qed.
Lemma delete_then_remove rt w : undisturbed w → om_Namespace (rt_Meta rt) = ns →
  ∃ mr w', (delete_tolerant rt;;; RemoveRemoteTargetRefFromRUBs (om_Namespace (rt_Meta rt)) (om_Name (rt_Meta rt))) w = (Ok tt, w') ∧
    view w' = v_set mr (v_set (delete (object_key rt) (rts w)) (view w)) ∧ shrunk_all (removed_from [rt]) (rubs w) mr.
Proof.
  intros Hw Hns. destruct (delete_tolerant_run rt w) as (w1 & Hdel & Hv1); [intros ? E; exact (un_fin _ Hw _ _ E)|].
  assert (Hrubs1 : rubs w1 = rubs w) by (by rewrite Hv1).
  destruct (RemoveRemoteTargetRefFromRUBs_run (om_Namespace (rt_Meta rt)) (om_Name (rt_Meta rt)) w1)
    as (mr & w2 & Hrm & Hv2 & Hmut).
  { rewrite Hrubs1. apply Hw. } { rewrite Hrubs1. intros k r Hk _; destruct (un_free _ Hw _ _ Hk); split; auto. }
  rewrite Hns, Hrubs1 in Hmut. apply removal_shrinks in Hmut.
  exists mr, w2. split_and!; [by rewrite (bind_ok _ _ _ _ _ Hdel)|by rewrite Hv2, Hv1|done].
Qed.

(** The targets of the branch policy nobody else works on. *)
Definition branch_gone (w : W) (rt : RemoteTarget) : Prop :=
  branch_target s rt = true ∧ ¬ used_elsewhere s w (TargetBranch (rt_Spec rt)).
(** Those of the user policy. *)
Definition user_gone (w : W) (rt : RemoteTarget) : Prop :=
  user_target s rt = true ∧ ¬ upstream_shared s w.

Lemma selected_namespace sel m : ns ≠ "" → list_matches (mkListOptions ns sel) m = true → om_Namespace m = ns.
Proof.
  intros Hns Hm. unfold list_matches in Hm. cbn [lo_Namespace] in Hm. apply String.eqb_neq in Hns. rewrite Hns in Hm.
  bool_hyps. by apply String.eqb_eq.
Qed.

(** Nothing but bindings and targets changed. *)
Definition rest_kept (w w' : W) : Prop :=
  ∃ (mr : gmap NamespacedName RemoteUserBinding) (mt : gmap NamespacedName RemoteTarget),
    view w' = v_set mr (v_set mt (view w)).

(** From a loop over the targets to what it leaves. *)
Lemma loop_swept (sel gone : RemoteTarget → bool) (P : RemoteTarget → Prop) (body : RemoteTarget → M error W unit) l w :
  (∀ rt, rt ∈ l ↔ rts w !! object_key rt = Some rt ∧ sel rt = true) →
  (∀ rt, sel rt = true → om_Namespace (rt_Meta rt) = ns) →
  (∀ rt, sel rt = true → gone rt = true ↔ P rt) →
  (∀ rt w, gone rt = false → body rt w = (Ok tt, w)) →
  (∀ rt w, om_Namespace (rt_Meta rt) = ns → gone rt = true → undisturbed w → ∃ mr w', body rt w = (Ok tt, w') ∧
     view w' = v_set mr (v_set (delete (object_key rt) (rts w)) (view w)) ∧ shrunk_all (removed_from [rt]) (rubs w) mr) →
  undisturbed w →
  ∃ w', for_each body l w = (Ok tt, w') ∧ rest_kept w w' ∧
    swept (λ rt, sel rt = true ∧ P rt) w w'.
Proof.
  intros Hin Hsel HP Hkeep Hbody Hw. destruct (cleanup_loop gone body l w) as (mr & mt & w' & Hrun & Hv & Hmt & Hsh); [done| |done|].
  { intros rt w0 [_ Hs]%Hin. apply Hbody. by apply Hsel. }
  exists w'. split_and!; [done|by exists mr, mt|]. exists (List.filter gone l). split_and!.
  - intros rt. rewrite elem_filter, Hin. naive_solver.
  - intros k. by rewrite Hv, <- Hmt.
  - by rewrite Hv.
Qed.

Lemma branch_cleanup_run w : ns ≠ "" → undisturbed w →
  ∃ w', cleanupBranchTargets s w = (Ok tt, w') ∧ rest_kept w w' ∧ swept (branch_gone w) w w'.
Proof.
  intros Hns Hw. destruct (list_branch_targets s w (un_rts _ Hw)) as (l & Hl & Hin).
  destruct (others_run s w) as (others & Ho & Hothers).
  destruct (loop_swept (branch_target s)
    (λ rt, negb (isBranchUsedByOtherSyncer (TargetBranch (rt_Spec rt)) (RemoteRepository (SyncerSpec s)) (DefaultBranch (SyncerSpec s)) others))
    (λ rt, ¬ used_elsewhere s w (TargetBranch (rt_Spec rt)))
    (λ rt, if isBranchUsedByOtherSyncer (TargetBranch (rt_Spec rt)) (RemoteRepository (SyncerSpec s)) (DefaultBranch (SyncerSpec s)) others
           then ret tt else delete_tolerant rt;;; RemoveRemoteTargetRefFromRUBs (om_Namespace (rt_Meta rt)) (om_Name (rt_Meta rt))) _ w Hin)
    as (w' & Hrun & Hv & Hsw); [| | | |done|].
  - intros rt Hbt. unfold branch_target in Hbt. bool_hyps. by eapply selected_namespace.
  - intros rt _. pose proof (prunable_spec s w others (TargetBranch (rt_Spec rt)) Hothers) as Hp. unfold prunable in Hp.
    rewrite negb_true_iff, <- not_true_iff_false. apply not_iff_compat. unfold isBranchUsedByOtherSyncer, used_elsewhere.
    rewrite existsb_exists. f_equiv. intros o. rewrite <- list_elem_of_In, Hothers, !andb_true_iff, !String.eqb_eq, existsb_elem. tauto.
  - intros rt w0 E. apply negb_false_iff in E. by rewrite E.
  - intros rt w0 Hn E Hw0. apply negb_true_iff in E. rewrite E. by apply delete_then_remove.
  - exists w'. split_and!; [|done|exact Hsw]. unfold cleanupBranchTargets. rewrite (bind_ok _ _ _ _ _ Hl). cbv zeta.
    by rewrite (bind_ok _ _ _ _ _ Ho).
Qed.

Lemma user_cleanup_run w : ns ≠ "" → undisturbed w →
  ∃ w', cleanupUserSpecificTargets s w = (Ok tt, w') ∧ rest_kept w w' ∧ swept (user_gone w) w w'.
Proof.
  intros Hns Hw. destruct (list_spec (T := RemoteTarget) (mkListOptions ns (selector [(ManagedByLabelKey, ManagedByLabelValue);
    (RtLabelKeyPolicy, RtLabelValueOneUserOneBranch)])) w) as (l0 & Hl & _ & Hin0); [exact (un_rts _ Hw)|].
  destruct (others_with_run s RtAnnotationKeyUserSpecific w) as (others & Ho & Hothers).
  set (l := List.filter (λ rt, String.eqb (UpstreamRepository (rt_Spec rt)) (RemoteRepository (SyncerSpec s)) &&
                               String.eqb (UpstreamBranch (rt_Spec rt)) (DefaultBranch (SyncerSpec s))) l0).
  assert (Hin : ∀ rt, rt ∈ l ↔ rts w !! object_key rt = Some rt ∧ user_target s rt = true).
  { intros rt. unfold l, user_target. rewrite elem_filter, Hin0, !andb_true_iff. tauto. }
  destruct (loop_swept (user_target s) (λ rt, negb (isRTUsedByOtherSyncer rt others)) (λ _, ¬ upstream_shared s w)
    (λ rt, if isRTUsedByOtherSyncer rt others then ret tt
           else RemoveRemoteTargetRefFromRUBs (om_Namespace (rt_Meta rt)) (om_Name (rt_Meta rt));;; delete_tolerant rt) l w Hin)
    as (w' & Hrun & Hv & Hsw); [| | | |done|].
  - intros rt. by apply user_target_namespace.
  - intros rt Hut. rewrite negb_true_iff, <- not_true_iff_false. apply not_iff_compat. by apply used_by_other.
  - intros rt w0 E. apply negb_false_iff in E. by rewrite E.
  - intros rt w0 Hn E Hw0. apply negb_true_iff in E. rewrite E. by apply remove_then_delete.
  - exists w'. split_and!; [|done|exact Hsw]. unfold cleanupUserSpecificTargets, listUserSpecificTargets, getOtherSyncersWithUserSpecific.
    rewrite (bind_ok _ _ w l w) by (by rewrite (bind_ok _ _ _ _ _ Hl)). by rewrite (bind_ok _ _ _ _ _ Ho).
Qed.

Lemma swept_undisturbed gone w w' : swept gone w w' → undisturbed w → undisturbed w'.
Proof.
  intros (removed & _ & Hmt & Hsh) [Hk1 Hk2 Hf Hn]. destruct (shrunk_all_calm _ _ _ Hsh Hk2 Hf) as [Hk2' Hf'].
  split; [|done..|]; intros k rt Hk; rewrite Hmt in Hk; case_bool_decide; [done|by apply Hk1|done|exact (Hn _ _ Hk)].
Qed.

Lemma swept_trans g1 g2 w w1 w2 : keyed (rts w) → swept g1 w w1 → swept g2 w1 w2 → swept (λ rt, g1 rt ∨ g2 rt) w w2.
Proof.
  intros Hk (r1 & Hr1 & Hm1 & Hs1) (r2 & Hr2 & Hm2 & Hs2). exists (r1 ++ r2)%list.
  assert (Hkey : ∀ rt, rts w !! object_key rt = Some rt → object_key rt ∈ map object_key r1 → rt ∈ r1).
  { intros rt Hrt (rt' & Hkk & Hin)%list_elem_of_fmap. pose proof (proj1 (Hr1 rt') Hin) as [Hrt' _].
    rewrite <- Hkk in Hrt'. by assert (rt' = rt) as -> by congruence. }
  split_and!.
  - intros rt. rewrite elem_of_app, Hr2, Hm1. case_bool_decide as Hb.
    + rewrite Hr1. split; [naive_solver|]. intros [Hrt _]. left. apply Hr1. by apply Hkey.
    + rewrite Hr1. split; [naive_solver|]. intros [Hrt [Hg|Hg]]; [left; done|right; done].
  - intros k. rewrite Hm2, Hm1, List.map_app. repeat case_bool_decide; set_solver.
  - eapply shrunk_all_weaken; [|eapply shrunk_all_trans; [|exact Hs1|exact Hs2]].
    + intros r n. apply eq_true_iff_eq. rewrite orb_true_iff, !removed_from_spec. setoid_rewrite elem_of_app. set_solver.
    + intros r r' n Hl. unfold removed_from, taken. by rewrite (like_managed s _ _ Hl).
Qed.
End Cleanup.

(** ** The kinds of syncer *)

(** Two syncers the policies cannot tell apart. *)
Definition alike (s s' : Syncer) : Prop :=
  IdentityNamespace s' = IdentityNamespace s ∧ SyncerSpec s' = SyncerSpec s ∧
  ∀ o, isSameSyncer o s' = isSameSyncer o s.

Lemma alike_trans s1 s2 s3 : alike s1 s2 → alike s2 s3 → alike s1 s3.
Proof. intros (Hn & Hs & Ho) (Hn' & Hs' & Ho'). split_and!; [congruence..|]. intros o. by rewrite Ho', Ho. Qed.

(** The syncers are the same, and so is what their controllers only read. *)
Definition same_reads (v v' : View) : Prop := v_ru v = v_ru v' ∧ v_sec v = v_sec v' ∧ v_cm v = v_cm v'.
Definition same_syncers (v v' : View) : Prop := v_rs v = v_rs v' ∧ v_cwrs v = v_cwrs v' ∧ same_reads v v'.

(** What the controllers' proofs need of a kind of syncer: how the policy host reaches the
    object, and what a write to its kind leaves alone. *)
Class SyncerKind (T : Type) `{Object T, Stamp T, Kind T, !Store W T, !StoreLaws W T view} := {
  syncer_of : T → Syncer;
  syncer_get o : obj_Get (syncer_of o) = map_ok syncer_of (client_Get (object_key o));
  syncer_update o : obj_Update (syncer_of o) = map_ok syncer_of (client_Update o);
  syncer_set m o : set_meta m (syncer_of o) = syncer_of (set_meta m o);
  syncer_of_meta o : get_meta (syncer_of o) = get_meta o;
  kind_set_meta m (o : T) : get_meta (set_meta m o) = m;
  kind_with_status (n o : T) : get_meta (with_status n o) = get_meta o;
  alike_meta m o : om_Name m = om_Name (get_meta o) → om_Namespace m = om_Namespace (get_meta o) →
    alike (syncer_of o) (syncer_of (set_meta m o));
  alike_status n o : alike (syncer_of o) (syncer_of (with_status n o));
  kind_get_set (m : gmap NamespacedName T) v : v_get (v_set m v) = m;
  kind_erase (m : gmap NamespacedName T) v : v_set (T := T) ∅ (v_set m v) = v_set ∅ v;
  kind_rest v v' : same_syncers v v' →
    v_get (T := T) v = v_get v' ∧ same_syncers (v_set (T := T) ∅ v) (v_set (T := T) ∅ v');
  kind_others (m : gmap NamespacedName T) v : v_rt (v_set m v) = v_rt v ∧ v_rub (v_set m v) = v_rub v ∧
    v_vwc (v_set m v) = v_vwc v;
  (** the other syncers do not depend on what is stored under the name of this one *)
  kind_other_syncers o key w w' : same_syncers (v_set (T := T) ∅ (view w)) (v_set (T := T) ∅ (view w')) →
    keyed (T := T) (v_get (view w)) → keyed (T := T) (v_get (view w')) →
    (∀ k, k ≠ object_key o → v_get (T := T) (view w) !! k = v_get (view w') !! k) →
    ∀ x, other_syncer_with (syncer_of o) key w x ↔ other_syncer_with (syncer_of o) key w' x }.

(** An update of an object that is being deleted: the object goes with its last finalizer. *)
Class Terminating (T : Type) `{Object T, Stamp T, Kind T, !Store W T} := {
  update_dying o o0 w t : v_get (view w) !! object_key o = Some o0 →
    om_ResourceVersion (get_meta o) = om_ResourceVersion (get_meta o0) →
    om_DeletionTimestamp (get_meta o0) = Some t → om_DeletionTimestamp (get_meta o) = Some t →
    ∃ rv w', client_Update o w = (Ok (stamp rv o), w') ∧
      view w' = v_set (match om_Finalizers (get_meta o) with
                       | [] => delete (object_key o) (v_get (view w))
                       | _ => <[object_key o := stamp rv o]> (v_get (view w))
                       end) (view w) }.

Lemma same_syncer_key (a b : Syncer) : isSameSyncer a b = false →
  match a, b with SyncerRS _, SyncerRS _ | SyncerCW _, SyncerCW _ => object_key a ≠ object_key b | _, _ => True end.
Proof. destruct a, b; simpl; try done; by intros ?%bool_decide_eq_false. Qed.

#[export] Instance RemoteSyncer_syncer_kind : SyncerKind RemoteSyncer.
Proof.
  refine {| syncer_of := SyncerRS |}; try done.
  - intros m o Hn Hns. unfold alike. split_and!; [exact Hns|done|]. intros [rs|cw]; [|done]. simpl.
    unfold object_key. simpl. unfold meta_key. by rewrite Hn, Hns.
  - intros v v' (H1' & H2' & H3'). split; [exact H1'|]. by split_and!.
  - intros o key w w' (_ & Hcw & _) Hk Hk' Hother x. simpl in Hcw, Hother. unfold other_syncer_with.
    destruct x as [rs|cw]; [|by rewrite Hcw]. split; intros ([[k Hx] Hn] & Hs & Ha); refine (conj (conj _ Hn) (conj Hs Ha));
      exists k; pose proof (same_syncer_key _ _ Hs) as Hne; simpl in Hne.
    + rewrite <- Hother; [done|]. intros ->. apply Hne. exact (Hk _ _ Hx).
    + rewrite Hother; [done|]. intros ->. apply Hne. exact (Hk' _ _ Hx).
Defined.

#[export] Instance ClusterWideRemoteSyncer_syncer_kind : SyncerKind ClusterWideRemoteSyncer.
Proof.
  refine {| syncer_of := SyncerCW |}; try done.
  - intros m o Hn Hns. unfold alike. split_and!; [done|done|]. intros [rs|cw]; [done|]. simpl.
    unfold object_key. simpl. unfold meta_key. by rewrite Hn, Hns.
  - intros v v' (H1' & H2' & H3'). split; [exact H2'|]. by split_and!.
  - intros o key w w' [Hrs _] Hk Hk' Hother x. simpl in Hrs, Hother. unfold other_syncer_with.
    destruct x as [rs|cw]; [by rewrite Hrs|]. split; intros ([[k Hx] Hn] & Hs & Ha); refine (conj (conj _ Hn) (conj Hs Ha));
      exists k; pose proof (same_syncer_key _ _ Hs) as Hne; simpl in Hne.
    + rewrite <- Hother; [done|]. intros ->. apply Hne. exact (Hk _ _ Hx).
    + rewrite Hother; [done|]. intros ->. apply Hne. exact (Hk' _ _ Hx).
Defined.

(** ** The lifecycle of a dying syncer *)

Section Lifecycle.
Context {T : Type} `{Object T, Stamp T, Kind T, !Store W T, !StoreLaws W T view, !SyncerKind T, !Terminating T}.
Context `{Finalizers, !Finalizers_laws}.

Abbreviation stored w := (v_get (T := T) (view w)).

(** What the object behind the pointer still is while its deletion goes on. *)
Record evolved (o o' : T) : Prop := {
  ev_alike : alike (syncer_of o) (syncer_of o');
  ev_key : object_key o' = object_key o;
  ev_deleted : om_DeletionTimestamp (get_meta o') = om_DeletionTimestamp (get_meta o) }.

Lemma evolved_trans o1 o2 o3 : evolved o1 o2 → evolved o2 o3 → evolved o1 o3.
Proof. intros [] []. split; [by eapply alike_trans|congruence..]. Qed.
Lemma evolved_meta m o : om_Name m = om_Name (get_meta o) → om_Namespace m = om_Namespace (get_meta o) →
  om_DeletionTimestamp m = om_DeletionTimestamp (get_meta o) → evolved o (set_meta m o).
Proof.
  intros Hn Hns Hd. split; [by apply alike_meta| |by rewrite kind_set_meta].
  unfold object_key. rewrite kind_set_meta. unfold meta_key. by rewrite Hn, Hns.
Qed.
Lemma evolved_stamp rv o : evolved o (stamp rv o).
Proof. by apply evolved_meta. Qed.
Lemma evolved_status n o : evolved o (with_status n o).
Proof. split; [apply alike_status|unfold object_key; by rewrite kind_with_status|by rewrite kind_with_status]. Qed.
Lemma stamp_finalizers rv o : om_Finalizers (get_meta (stamp rv o)) = om_Finalizers (get_meta o).
Proof. unfold stamp. by rewrite kind_set_meta. Qed.

(** What a world in the middle of the deletion of [o] shares with the one it began in. *)
Record aside (o : T) (w w' : W) : Prop := {
  as_keyed : keyed (stored w');
  as_others : ∀ k, k ≠ object_key o → stored w !! k = stored w' !! k;
  as_rest : same_syncers (v_set (T := T) ∅ (view w)) (v_set (T := T) ∅ (view w')) }.

Lemma aside_trans o o' w1 w2 w3 : object_key o' = object_key o → aside o w1 w2 → aside o' w2 w3 → aside o w1 w3.
Proof.
  intros Hkey [_ Ho (Hr1 & Hr2 & Hr3 & Hr4 & Hr5)] [Hk Ho' (Hr1' & Hr2' & Hr3' & Hr4' & Hr5')].
  split; [done| |unfold same_syncers, same_reads; split_and!; congruence].
  intros k Hne. rewrite Ho by done. apply Ho'. congruence.
Qed.
Lemma aside_rest o w w' : keyed (stored w) → same_syncers (view w) (view w') → aside o w w' ∧ stored w' = stored w.
Proof.
  intros Hk Hs. destruct (kind_rest (T := T) _ _ Hs) as [Hg Hr]. split; [|done]. split; [by rewrite <- Hg| |done].
  intros k _. by rewrite Hg.
Qed.
Lemma aside_set o w w' (m : gmap NamespacedName T) : keyed m → (∀ k, k ≠ object_key o → m !! k = stored w !! k) →
  view w' = v_set m (view w) → aside o w w' ∧ stored w' = m.
Proof.
  intros Hk Ho Hv. assert (Hm : stored w' = m) by (by rewrite Hv, kind_get_set). split; [|done].
  split; [by rewrite Hm|intros k Hne; rewrite Hm; symmetry; auto|]. rewrite Hv, kind_erase. by split_and!.
Qed.
Lemma keyed_insert_own (m : gmap NamespacedName T) o k : keyed m → object_key o = k → keyed (<[k := o]> m).
Proof. intros Hk <-. by apply map_Forall_insert_2. Qed.

(** The object behind the pointer: stored as it is while it holds a finalizer, gone after. *)
Definition held (o : T) (w : W) (s : Syncer) (fins : list string) : Prop :=
  ∃ o', s = syncer_of o' ∧ evolved o o' ∧ om_Finalizers (get_meta o') = fins ∧
    stored w !! object_key o = match fins with [] => None | _ => Some o' end.

Lemma refresh_run o' w : stored w !! object_key o' = Some o' →
  refresh (T := Syncer) (w, syncer_of o') = (Ok tt, (w, syncer_of o')).
Proof.
  intros Hs. assert (Hg : obj_Get (syncer_of o') w = (Ok (syncer_of o'), w)).
  { rewrite syncer_get. unfold map_ok. by rewrite (bind_ok _ _ w o' w) by (by apply get_found). }
  unfold refresh, the_obj, set_obj, bind, outside. cbn [fst snd]. by rewrite Hg.
Qed.

(** One finalizer is taken off. *)
Lemma removeFinalizer_run o w s fins f t : om_DeletionTimestamp (get_meta o) = Some t → keyed (stored w) →
  held o w s fins → f ∈ fins →
  ∃ w' s', removeFinalizer f (w, s) = (Ok tt, (w', s')) ∧ aside o w w' ∧
    held o w' s' (List.filter (λ g, negb (String.eqb g f)) fins) ∧
    v_rt (view w') = v_rt (view w) ∧ v_rub (view w') = v_rub (view w) ∧ v_vwc (view w') = v_vwc (view w).
Proof.
  intros Hd Hk (o1 & -> & [Hal Hkey Hdel] & Hf & Hst) Hin.
  assert (Hs1 : stored w !! object_key o1 = Some o1) by (rewrite Hkey, Hst; by destruct fins; [apply elem_of_nil in Hin|]).
  set (o2 := set_meta (set_finalizers (List.filter (λ g, negb (String.eqb g f)) fins) (get_meta o1)) o1).
  assert (Hm2 : get_meta o2 = set_finalizers (List.filter (λ g, negb (String.eqb g f)) fins) (get_meta o1)) by apply kind_set_meta.
  assert (Hev2 : evolved o o2) by (eapply evolved_trans; [split; eassumption|by apply evolved_meta]).
  assert (Hkey2 : object_key o2 = object_key o) by apply Hev2.
  destruct (update_dying o2 o1 w t) as (rv & w' & Hu & Hv).
  { by rewrite Hkey2, <- Hkey. } { by rewrite Hm2. } { by rewrite Hdel. } { rewrite Hm2. simpl. by rewrite Hdel. }
  set (m := match om_Finalizers (get_meta o2) with [] => _ | _ => _ end) in Hv.
  assert (Hother : ∀ k, k ≠ object_key o → m !! k = stored w !! k).
  { intros k Hne. unfold m. rewrite Hkey2. destruct (om_Finalizers (get_meta o2)); [by apply lookup_delete_ne|by apply lookup_insert_ne]. }
  assert (Hkm : keyed m).
  { unfold m. destruct (om_Finalizers (get_meta o2)); [by apply map_Forall_delete|]. apply keyed_insert_own; [done|apply evolved_stamp]. }
  destruct (aside_set o w w' m Hkm Hother Hv) as [Has Hw'].
  exists w', (syncer_of (stamp rv o2)). split_and!; [|done| |by rewrite Hv; apply kind_others..].
  - unfold removeFinalizer. apply retry_in_ok.
    rewrite (bind_ok _ _ (w, syncer_of o1) (inl tt) (w, syncer_of o1)) by (unfold attempt; by rewrite (refresh_run _ _ Hs1)).
    unfold the_obj at 1, bind at 1. cbn [snd]. rewrite syncer_of_meta, remove_finalizer, Hf.
    rewrite (proj2 (contains_finalizer (get_meta o1) f)) by (by rewrite Hf).
    unfold set_obj at 1, bind at 1. cbn [fst]. rewrite syncer_set. fold o2.
    unfold update, the_obj, set_obj, bind, outside. cbn [fst snd]. rewrite syncer_update.
    unfold map_ok, bind. by rewrite Hu.
  - exists (stamp rv o2). split_and!; [done|by eapply evolved_trans; [exact Hev2|apply evolved_stamp]| |].
    + by rewrite stamp_finalizers, Hm2.
    + rewrite Hw'. unfold m. rewrite Hm2, Hkey2. simpl. destruct (List.filter _ _); [apply lookup_delete_eq|apply lookup_insert_eq].
Qed.

(** ** The cleanups of a pass *)

Lemma swept_alike s s' (g g' : RemoteTarget → Prop) w w' : alike s s' → (∀ rt, g rt ↔ g' rt) → swept s' g w w' → swept s g' w w'.
Proof.
  intros (Hn & _) Hg (removed & Hin & Hmt & Hsh). exists removed. split_and!; [|done|].
  - intros rt. rewrite Hin. by rewrite Hg.
  - eapply shrunk_all_weaken; [|exact Hsh]. intros r n. unfold removed_from, taken. by rewrite Hn.
Qed.
Lemma swept_nothing s (g : RemoteTarget → Prop) w : (∀ rt, ¬ g rt) → swept s g w w.
Proof.
  intros Hg. exists []. split_and!; [|done|].
  - intros rt. split; [by intros ?%not_elem_of_nil|]. intros [_ ?]. by destruct (Hg rt).
  - eapply shrunk_all_weaken; [|apply shrunk_all_refl]. intros r n. unfold removed_from, taken. simpl. by rewrite andb_false_r.
Qed.

Lemma other_syncer_alike s s' key w x : alike s s' → other_syncer_with s' key w x ↔ other_syncer_with s key w x.
Proof. intros (Hn & _ & Ho). unfold other_syncer_with. by rewrite Hn, Ho. Qed.
Lemma branch_gone_same s s' w w' rt : alike s s' →
  (∀ key x, other_syncer_with s key w x ↔ other_syncer_with s key w' x) → branch_gone s' w' rt ↔ branch_gone s w rt.
Proof.
  intros Ha Ho. destruct Ha as (Hn & Hs & Hi) eqn:E. unfold branch_gone, branch_target, used_elsewhere, other_syncer. rewrite Hn, Hs.
  f_equiv. apply not_iff_compat. f_equiv. intros x. by rewrite (other_syncer_alike s s' _ _ _ Ha), <- Ho.
Qed.
Lemma user_gone_same s s' w w' rt : alike s s' →
  (∀ key x, other_syncer_with s key w x ↔ other_syncer_with s key w' x) → user_gone s' w' rt ↔ user_gone s w rt.
Proof.
  intros Ha Ho. destruct Ha as (Hn & Hs & Hi) eqn:E. unfold user_gone, user_target, upstream_shared. rewrite Hn, Hs.
  f_equiv. apply not_iff_compat. f_equiv. intros x. by rewrite (other_syncer_alike s s' _ _ _ Ha), <- Ho.
Qed.
Lemma aside_syncers o w w' : keyed (stored w) → aside o w w' →
  ∀ key x, other_syncer_with (syncer_of o) key w x ↔ other_syncer_with (syncer_of o) key w' x.
Proof. intros Hk [Hk' Ho Hr] key. by apply kind_other_syncers. Qed.

(** One policy in the deletion branch: its targets are swept when its finalizer is on. *)
Lemma cleanup_policy_run o name f applies reconcile cleanup (gone : Syncer → W → RemoteTarget → Prop) ps w s fins t :
  (∀ s' w, IdentityNamespace s' ≠ "" → undisturbed w →
     ∃ w', cleanup s' w = (Ok tt, w') ∧ rest_kept w w' ∧ swept s' (gone s' w) w w') →
  (∀ s s' w rt, alike s s' → gone s' w rt ↔ gone s w rt) →
  f ≠ "" → IdentityNamespace (syncer_of o) ≠ "" → om_DeletionTimestamp (get_meta o) = Some t →
  undisturbed w → keyed (stored w) → held o w s fins →
  ∃ w' s', run_cleanups (mkPolicy name f applies reconcile (on_obj cleanup) :: ps) (w, s) = run_cleanups ps (w', s') ∧
    aside o w w' ∧ held o w' s' (List.filter (λ g, negb (String.eqb g f)) fins) ∧ undisturbed w' ∧
    v_vwc (view w') = v_vwc (view w) ∧ swept (syncer_of o) (λ rt, f ∈ fins ∧ gone (syncer_of o) w rt) w w'.
Proof.
  intros Hclean Hsame Hf Hns Hd Hw Hk Hh. pose proof Hh as (o1 & Hs & Hev & Hfins & Hst). apply String.eqb_neq in Hf as Hfb.
  cbn [run_cleanups]. unfold the_obj at 1, bind at 1. cbn [snd p_Finalizer p_Cleanup]. rewrite Hfb. cbn [orb].
  assert (Hc : ContainsFinalizer (get_meta s) f = true ↔ f ∈ fins) by (by rewrite Hs, syncer_of_meta, contains_finalizer, Hfins).
  destruct (ContainsFinalizer (get_meta s) f) eqn:E; cbn [negb].
  - assert (Hin : f ∈ fins) by (by apply Hc). destruct Hev as [Hal Hkey Hdel].
    destruct (Hclean s w) as (w1 & Hcl & (mr & mt & Hv1) & Hsw); [by rewrite Hs, (proj1 Hal)|done|].
    assert (Hsyn : same_syncers (view w) (view w1)) by (rewrite Hv1; by split_and!).
    destruct (aside_rest o w w1 Hk Hsyn) as [Has1 Hst1].
    destruct (removeFinalizer_run o w1 s fins f t) as (w' & s' & Hrm & Has2 & Hh' & Hrt & Hrub & Hvwc); [done|by rewrite Hst1| |done|].
    { exists o1. split_and!; [done|by split|done|by rewrite Hst1]. }
    assert (Hsw' : swept (syncer_of o) (λ rt, f ∈ fins ∧ gone (syncer_of o) w rt) w w').
    { destruct (swept_alike (syncer_of o) s (gone s w) (λ rt, f ∈ fins ∧ gone (syncer_of o) w rt) w w1) as (removed & Hr & Hm & Hsh).
      - by rewrite Hs.
      - intros rt. rewrite Hs, (Hsame (syncer_of o) (syncer_of o1)) by done. tauto.
      - done.
      - exists removed. split_and!; [done|intros k; rewrite Hrt; apply Hm|by rewrite Hrub]. }
    exists w', s'. split_and!; [|exact (aside_trans o o w w1 w' eq_refl Has1 Has2)|done|by eapply swept_undisturbed| |done].
    + unfold on_obj, outside. rewrite (check_ok _ _ _ (w, s) tt (w1, s)) by (unfold bind; cbn [snd]; by rewrite Hcl).
      by rewrite (check_ok _ _ _ _ _ _ Hrm).
    + by rewrite Hvwc, Hv1.
  - assert (Hnin : f ∉ fins) by (intros ?%Hc; done). exists w, s.
    destruct (aside_rest o w w Hk) as [Has _]; [by split_and!|]. split_and!; [done..| |done|done|].
    + replace (List.filter _ fins) with fins; [done|]. symmetry. apply forallb_filter_id, forallb_forall.
      intros g Hg%list_elem_of_In. apply negb_true_iff, String.eqb_neq. by intros ->.
    + apply swept_nothing. by intros rt [? _].
Qed.

(** The targets the deletion of a syncer takes away: those of the policies whose finalizer
    it holds, unless another syncer works on the same upstream. *)
Definition left_over (o : T) (w : W) (rt : RemoteTarget) : Prop :=
  (branchTargetPolicyFinalizer ∈ om_Finalizers (get_meta o) ∧ branch_gone (syncer_of o) w rt) ∨
  (userSpecificPolicyFinalizer ∈ om_Finalizers (get_meta o) ∧ user_gone (syncer_of o) w rt).
(** The finalizers the syncer keeps. *)
Definition foreign (fins : list string) : list string :=
  List.filter (λ g, negb (String.eqb g userSpecificPolicyFinalizer))
    (List.filter (λ g, negb (String.eqb g branchTargetPolicyFinalizer)) fins).

Lemma cleanups_run ord o w s t : IdentityNamespace (syncer_of o) ≠ "" → om_DeletionTimestamp (get_meta o) = Some t →
  undisturbed w → keyed (stored w) → held o w s (om_Finalizers (get_meta o)) →
  ∃ w' s', RunPolicies (syncer_policies ord) (w, s) = (Ok (no_requeue, None), (w', s')) ∧ aside o w w' ∧
    held o w' s' (foreign (om_Finalizers (get_meta o))) ∧ v_vwc (view w') = v_vwc (view w) ∧
    swept (syncer_of o) (left_over o w) w w'.
Proof.
  intros Hns Hd Hw Hk Hh. set (fins := om_Finalizers (get_meta o)) in *.
  destruct (cleanup_policy_run o "branchtarget-policy" branchTargetPolicyFinalizer BranchTarget_Applies
    (on_obj (BranchTarget_Reconcile ord)) cleanupBranchTargets branch_gone [UserSpecificPolicy ord] w s fins t)
    as (w1 & s1 & Hrun1 & Has1 & Hh1 & Hw1 & Hvwc1 & Hsw1); try done.
  { intros s0 w0 Hns0 Hw0. by apply branch_cleanup_run. }
  { intros s0 s0' w0 rt Ha. by apply branch_gone_same. }
  pose proof (as_keyed _ _ _ Has1) as Hk1.
  destruct (cleanup_policy_run o "userspecific-policy" userSpecificPolicyFinalizer UserSpecific_Applies
    (on_obj (UserSpecific_Reconcile ord)) cleanupUserSpecificTargets user_gone [] w1 s1
    (List.filter (λ g, negb (String.eqb g branchTargetPolicyFinalizer)) fins) t)
    as (w2 & s2 & Hrun2 & Has2 & Hh2 & _ & Hvwc2 & Hsw2); try done.
  { intros s0 w0 Hns0 Hw0. by apply user_cleanup_run. }
  { intros s0 s0' w0 rt Ha. by apply user_gone_same. }
  assert (Hmem : userSpecificPolicyFinalizer ∈ List.filter (λ g, negb (String.eqb g branchTargetPolicyFinalizer)) fins ↔
    userSpecificPolicyFinalizer ∈ fins) by (rewrite elem_filter; by split; [intros []|]).
  exists w2, s2. split_and!; [|exact (aside_trans o o w w1 w2 eq_refl Has1 Has2)|exact Hh2|by rewrite Hvwc2|].
  - pose proof Hh as (o1 & -> & [_ _ Hdel] & _). unfold RunPolicies, the_obj, bind. cbn [snd].
    rewrite syncer_of_meta, Hdel, Hd. unfold syncer_policies, BranchTargetPolicy. rewrite Hrun1.
    unfold UserSpecificPolicy. by rewrite Hrun2.
  - eapply swept_alike; [by split_and!| |eapply swept_trans; [apply Hw|exact Hsw1|exact Hsw2]]. intros rt. cbv beta.
    unfold left_over. fold fins. rewrite Hmem. f_equiv. f_equiv.
    apply user_gone_same; [by split_and!|]. apply aside_syncers; [done|exact Has1].
Qed.

(** ** The controller of a kind *)

Section Controller.
Context `{FileSystem W} (d : dynamicWebhookManager) (ord : gmap string RemoteTarget → list (string * RemoteTarget)).
Context (key : NamespacedName) (path name : string) (entry : T → dynamicWebhookEntry) (zero : T)
  (upd : T → Condition → M error W unit).
Context (entry_name : ∀ o, en_name (entry o) = name).
Context (upd_status : ∀ o c, ∃ n, upd o c = (client_StatusUpdate (with_status n o);;; ret tt)).

(** The configurations that are not the shared one. *)
Definition other_configurations (w w' : W) : Prop :=
  ∀ k, k ≠ config_key d → v_vwc (view w') !! k = v_vwc (view w) !! k.

(** The shape of [reconcileWebhook] and of [Reconcile] in both controllers. *)
Definition webhook_pass : M error (W * Handlers) ctrl_Result :=
  r ⇐ attempt (in_world (client_Get key));;
  match r with
  | inr _ => with_handlers (Unregister path);;; apply_entry d (entry zero) true (upd zero)
  | inl o => with_handlers (λ hs, <[path := syncer_of o]> hs);;; apply_entry d (entry o) false (upd o)
  end.
Definition full_pass : M error (W * Handlers) (ctrl_Result * option error) :=
  reconcile_syncer ord webhook_pass (map_ok syncer_of (client_Get key)).

Lemma set_vwc_same (m : gmap NamespacedName ValidatingWebhookConfiguration) v :
  same_syncers v (v_set m v) ∧ v_rt (v_set m v) = v_rt v ∧ v_rub (v_set m v) = v_rub v.
Proof. by split_and!. Qed.

Lemma webhook_present o w hs : resting d (view w) → cert_readable (W := W) d → keyed (stored w) → stored w !! key = Some o →
  ∃ o' w', webhook_pass (w, hs) = (Ok no_requeue, (w', <[path := syncer_of o]> hs)) ∧ resting d (view w') ∧
    entry_converged d (entry o) false w w' ∧ aside o w w' ∧ evolved o o' ∧ stored w' !! key = Some o' ∧
    om_Finalizers (get_meta o') = om_Finalizers (get_meta o) ∧ v_rt (view w') = v_rt (view w) ∧ v_rub (view w') = v_rub (view w) ∧
    other_configurations w w'.
Proof.
  intros Hrest Hcert Hk Ho. pose proof (Hk _ _ Ho) as Hkey. simpl in Hkey. destruct (now_spec w) as [t Ht].
  destruct (upsert_run d (entry o) false w Hrest Hcert) as (w1 & Hup & (mv & Hv1 & Hmv) & Hrest1 & Hconv).
  destruct (set_vwc_same mv (view w)) as (Hsyn & Hrt1 & Hrub1). rewrite <- Hv1 in Hsyn, Hrt1, Hrub1.
  destruct (aside_rest o w w1 Hk Hsyn) as [Has1 Hst1].
  destruct (upd_status o (mkCondition "WebhookReconciled" "True" "WebhookUpdated"
    "The resources have been successfully assigned to the webhook" t)) as [n Hn].
  destruct (status_current (with_status n o) o w1) as (rv & w2 & Hs & Hv2).
  { unfold object_key. rewrite kind_with_status. fold (object_key o). by rewrite Hkey, Hst1. } { apply kind_with_status. }
  set (o' := stamp rv (with_status (with_status n o) o)) in *.
  assert (Hev : evolved o o') by (eapply evolved_trans; [apply evolved_status|apply evolved_stamp]).
  assert (Hk0 : object_key (with_status n o) = object_key o) by (unfold object_key; by rewrite kind_with_status).
  rewrite Hk0 in Hv2.
  destruct (aside_set o w1 w2 (<[object_key o := o']> (stored w1))) as [Has2 Hst2]; [| |done|].
  { apply keyed_insert_own; [apply Has1|apply Hev]. } { intros k Hne. by apply lookup_insert_ne. }
  destruct (kind_others (<[object_key o := o']> (stored w1)) (view w1)) as (Hrt2 & Hrub2 & Hvwc2).
  rewrite <- Hv2 in Hrt2, Hrub2, Hvwc2.
  exists o', w2. split_and!; [| | |by eapply (aside_trans o o)|done| | |congruence|congruence|].
  - unfold webhook_pass. rewrite (bind_ok _ _ (w, hs) (inl o) (w, hs))
      by (unfold attempt, in_world, outside; by rewrite (get_found key w o Ho)).
    unfold with_handlers at 1, bind at 1. unfold apply_entry.
    rewrite (bind_ok _ _ _ t (w, <[path := syncer_of o]> hs)) by (unfold in_world, outside; by rewrite Ht).
    rewrite (bind_ok _ _ _ (inl tt) (w1, <[path := syncer_of o]> hs)) by (unfold attempt, in_world, outside; by rewrite Hup).
    rewrite Hn. unfold attempt, in_world, outside, bind. by rewrite Hs.
  - intros c Hc. rewrite Hvwc2 in Hc. by apply Hrest1.
  - unfold entry_converged, webhooks_of in *. by rewrite Hvwc2.
  - rewrite Hst2, Hkey. apply lookup_insert_eq.
  - unfold o'. by rewrite stamp_finalizers, kind_with_status.
  - intros k Hne. rewrite Hvwc2, Hv1. exact (Hmv k Hne).
Qed.

Lemma webhook_absent w hs : resting d (view w) → cert_readable (W := W) d → stored w !! key = None →
  ∃ w', full_pass (w, hs) = (Ok (no_requeue, None), (w', delete path hs)) ∧ resting d (view w') ∧
    entry_converged d (entry zero) true w w' ∧ stored w' = stored w ∧ v_rt (view w') = v_rt (view w) ∧ v_rub (view w') = v_rub (view w) ∧
    other_configurations w w' ∧ same_syncers (view w) (view w').
Proof.
  intros Hrest Hcert Hnone. destruct (now_spec w) as [t Ht].
  destruct (upsert_run d (entry zero) true w Hrest Hcert) as (w1 & Hup & (mv & Hv1 & Hmv) & Hrest1 & Hconv).
  destruct (set_vwc_same mv (view w)) as (Hsyn & Hrt1 & Hrub1). rewrite <- Hv1 in Hsyn, Hrt1, Hrub1.
  destruct (kind_rest (T := T) _ _ Hsyn) as [Hst1 _].
  destruct (get_missing key w Hnone) as [msg Hg]. destruct (get_missing key w1) as [msg1 Hg1]; [by rewrite <- Hst1|].
  exists w1. split_and!; [|done..|intros k Hne; rewrite Hv1; exact (Hmv k Hne)|exact Hsyn]. unfold full_pass, reconcile_syncer.
  rewrite (bind_ok _ _ _ (no_requeue, None) (w1, delete path hs)).
  - rewrite (bind_ok _ _ _ (inr (apiError NotFound msg1)) (w1, delete path hs)); [done|].
    unfold attempt, in_world, outside, map_ok, bind. by rewrite Hg1.
  - unfold both. rewrite (bind_ok _ _ _ (inl no_requeue) (w1, delete path hs)); [done|].
    unfold attempt, webhook_pass. rewrite (bind_ok _ _ (w, hs) (inr (apiError NotFound msg)) (w, hs))
      by (unfold attempt, in_world, outside; by rewrite Hg).
    unfold with_handlers at 1, bind at 1. unfold apply_entry.
    rewrite (bind_ok _ _ _ t (w, delete path hs)) by (unfold in_world, outside; by rewrite Ht).
    by rewrite (bind_ok _ _ _ (inl tt) (w1, delete path hs)) by (unfold attempt, in_world, outside; by rewrite Hup).
Qed.

(** The pass on a syncer that is being deleted. *)
Lemma dying_pass o w hs t : resting d (view w) → cert_readable (W := W) d → undisturbed w → keyed (stored w) →
  stored w !! key = Some o → om_DeletionTimestamp (get_meta o) = Some t → om_Finalizers (get_meta o) ≠ [] →
  IdentityNamespace (syncer_of o) ≠ "" →
  ∃ w', full_pass (w, hs) = (Ok (no_requeue, None), (w', <[path := syncer_of o]> hs)) ∧ resting d (view w') ∧
    other_webhooks name (webhooks_of d (view w')) = other_webhooks name (webhooks_of d (view w)) ∧
    aside o w w' ∧ (foreign (om_Finalizers (get_meta o)) = [] → stored w' !! key = None) ∧
    swept (syncer_of o) (left_over o w) w w' ∧ other_configurations w w'.
Proof.
  intros Hrest Hcert Hw Hk Ho Hd Hfins Hns. pose proof (Hk _ _ Ho) as Hkey. simpl in Hkey.
  destruct (webhook_present o w hs) as (o1 & w1 & Hrun1 & Hrest1 & [Hothers _] & Has1 & Hev & Hst1 & Hf1 & Hrt1 & Hrub1 & Hoc1); [done..|].
  assert (Hw1 : undisturbed w1) by (destruct Hw; split; by rewrite ?Hrt1, ?Hrub1).
  assert (Hh : held o w1 (syncer_of o1) (om_Finalizers (get_meta o))).
  { exists o1. split_and!; [done..|]. rewrite Hkey, Hst1. by destruct (om_Finalizers (get_meta o)). }
  destruct (cleanups_run ord o w1 (syncer_of o1) t Hns Hd Hw1 (as_keyed _ _ _ Has1) Hh)
    as (w2 & s2 & Hrun2 & Has2 & Hh2 & Hvwc & Hsw).
  exists w2. split_and!; [| | |exact (aside_trans o o w w1 w2 eq_refl Has1 Has2)| | |].
  - unfold full_pass, reconcile_syncer.
    rewrite (bind_ok _ _ _ (no_requeue, None) (w1, <[path := syncer_of o]> hs))
      by (unfold both; by rewrite (bind_ok _ _ _ (inl no_requeue) (w1, <[path := syncer_of o]> hs)) by (unfold attempt; by rewrite Hrun1)).
    rewrite (bind_ok _ _ _ (inl (syncer_of o1)) (w1, <[path := syncer_of o]> hs))
      by (unfold attempt, in_world, outside, map_ok, bind; by rewrite (get_found key w1 o1 Hst1)).
    by rewrite (bind_ok _ _ _ (no_requeue, None) (w2, <[path := syncer_of o]> hs)) by (unfold run_policies; by rewrite Hrun2).
  - intros c Hc. rewrite Hvwc in Hc. by apply Hrest1.
  - rewrite <- (entry_name o), <- Hothers. unfold webhooks_of. by rewrite Hvwc.
  - intros Hnil. destruct Hh2 as (o2 & _ & _ & _ & Hst2). by rewrite Hnil, Hkey in Hst2.
  - destruct Hsw as (removed & Hin & Hmt & Hsh). exists removed. rewrite <- Hrub1. split_and!; [|intros k; by rewrite Hmt, Hrt1|done].
    intros rt. rewrite Hin, Hrt1. f_equiv. unfold left_over.
    assert (Hsyn := aside_syncers o w w1 Hk Has1). f_equiv; f_equiv.
    + apply branch_gone_same; [by split_and!|done].
    + apply user_gone_same; [by split_and!|done].
  - intros k Hne. rewrite Hvwc. exact (Hoc1 k Hne).
Qed.

(** What the deletion of [o] leaves: the syncer is gone, with its entry in the shared
    configuration and the targets that were left over; the rest stays: the other entries,
    targets and references ([swept]), the syncers of the other kind and of this one, the
    RemoteUsers, the Secrets, the ConfigMaps and the other configurations. *)
Definition deleted (o : T) (w w' : W) : Prop :=
  stored w' = delete key (stored w) ∧
  own_webhooks name (webhooks_of d (view w')) = [] ∧
  other_webhooks name (webhooks_of d (view w')) = other_webhooks name (webhooks_of d (view w)) ∧
  swept (syncer_of o) (left_over o w) w w' ∧
  same_syncers (v_set (T := T) ∅ (view w)) (v_set (T := T) ∅ (view w')) ∧
  other_configurations w w'.

Lemma deletion_run o w hs t : resting d (view w) → cert_readable (W := W) d → undisturbed w → keyed (stored w) →
  stored w !! key = Some o → om_DeletionTimestamp (get_meta o) = Some t → om_Finalizers (get_meta o) ≠ [] →
  foreign (om_Finalizers (get_meta o)) = [] → IdentityNamespace (syncer_of o) ≠ "" →
  ∃ w1 w2 hs1, full_pass (w, hs) = (Ok (no_requeue, None), (w1, hs1)) ∧
    full_pass (w1, hs1) = (Ok (no_requeue, None), (w2, delete path hs)) ∧ deleted o w w2.
Proof.
  intros Hrest Hcert Hw Hk Ho Hd Hfins Hforeign Hns.
  destruct (dying_pass o w hs t) as (w1 & Hrun1 & Hrest1 & Hothers1 & [Hk1 Ho1 Hr1] & Hgone & Hsw & Hoc1); [done..|].
  destruct (webhook_absent w1 (<[path := syncer_of o]> hs)) as (w2 & Hrun2 & _ & [Hothers2 Hown2] & Hst2 & Hrt2 & Hrub2 & Hoc2 & Hsyn2); [done|done|auto|].
  rewrite entry_name in Hothers2, Hown2. pose proof (Hk _ _ Ho) as Hkey. simpl in Hkey.
  exists w1, w2, (<[path := syncer_of o]> hs). split_and!; [done|rewrite Hrun2; do 2 f_equal; apply delete_insert_eq|]. split_and!; [|done|congruence| | |].
  - rewrite Hst2. apply map_eq. intros k. destruct (decide (k = key)) as [->|Hne]; [by rewrite Hgone, lookup_delete_eq|].
    rewrite lookup_delete_ne by done. symmetry. apply Ho1. congruence.
  - destruct Hsw as (removed & Hin & Hmt & Hsh). exists removed. rewrite Hrub2. split_and!; [done|intros k; by rewrite Hrt2, Hmt|done].
  - destruct (kind_rest (T := T) _ _ Hsyn2) as [_ (E1 & E2 & E3 & E4 & E5)]. destruct Hr1 as (E1' & E2' & E3' & E4' & E5').
    unfold same_syncers, same_reads. split_and!; congruence.
  - intros k Hne. by rewrite Hoc2, Hoc1.
Qed.
End Controller.
End Lifecycle.

(** A syncer that is being deleted, held by the finalizers of the policies and by no others. *)
Definition dying {T} `{Object T} (o : T) : Prop :=
  om_DeletionTimestamp (get_meta o) ≠ None ∧ om_Finalizers (get_meta o) ≠ [] ∧ foreign (om_Finalizers (get_meta o)) = [].

Context `{!Terminating RemoteSyncer, !Terminating ClusterWideRemoteSyncer, Finalizers, !Finalizers_laws, FileSystem W}.

Lemma Reconcile_rs_pass d ord req : Reconcile_rs d ord req =
  full_pass d ord req (RemoteSyncerWebhookPath req) (remoteSyncer_entry req) zero_RemoteSyncer updateStatus_rs.
Proof. reflexivity. Qed.
Lemma Reconcile_cw_pass d ord req : Reconcile_cw d ord req =
  full_pass d ord req (ClusterWideRemoteSyncerWebhookPath (nn_Name req)) (clusterWide_entry req)
    zero_ClusterWideRemoteSyncer updateStatus_cw.
Proof. reflexivity. Qed.
Lemma updateStatus_rs_status rs c :
  ∃ n, updateStatus_rs rs c = (client_StatusUpdate (with_status n rs);;; ret tt).
Proof. by exists (mkRemoteSyncer (rs_Meta rs) (rs_Spec rs) (set_conditions (SetCondition (st_Conditions (rs_Status rs)) c) (rs_Status rs))). Qed.
Lemma updateStatus_cw_status cwrs c :
  ∃ n, updateStatus_cw cwrs c = (client_StatusUpdate (with_status n cwrs);;; ret tt).
Proof.
  by exists (mkClusterWideRemoteSyncer (cwrs_Meta cwrs) (cwrs_Spec cwrs)
    (set_conditions (SetCondition (st_Conditions (cwrs_Status cwrs)) c) (cwrs_Status cwrs))).
Qed.

(** (C18) The deletion of a syncer goes through, on a server at rest. The first pass of its controller
    cleans up behind the finalizers of the policies and takes them off, which lets the server
    drop the syncer; the pass this wakes unregisters its handler and takes its entry out of
    the shared configuration. Afterwards the managed targets of its policies that no other
    syncer works on are gone, with the references of the managed bindings to them; the other
    targets and references, the other syncers of both kinds, the entries of the other syncers,
    the other configurations, the RemoteUsers, the Secrets and the ConfigMaps are as before. *)
Theorem syncer_deletion_converges d ord req w hs :
  resting d (view w) → cert_readable (W := W) d → undisturbed w → keyed (v_rs (view w)) → keyed (v_cwrs (view w)) →
  (∀ rs, v_rs (view w) !! req = Some rs → dying rs → IdentityNamespace (SyncerRS rs) ≠ "" →
     ∃ w1 w2 hs1, Reconcile_rs d ord req (w, hs) = (Ok (no_requeue, None), (w1, hs1)) ∧
       Reconcile_rs d ord req (w1, hs1) = (Ok (no_requeue, None), (w2, delete (RemoteSyncerWebhookPath req) hs)) ∧
       deleted d req (remoteSyncer_entry_name req) rs w w2) ∧
  (∀ cwrs, v_cwrs (view w) !! req = Some cwrs → dying cwrs → IdentityNamespace (SyncerCW cwrs) ≠ "" →
     ∃ w1 w2 hs1, Reconcile_cw d ord req (w, hs) = (Ok (no_requeue, None), (w1, hs1)) ∧
       Reconcile_cw d ord req (w1, hs1) =
         (Ok (no_requeue, None), (w2, delete (ClusterWideRemoteSyncerWebhookPath (nn_Name req)) hs)) ∧
       deleted d req (clusterWide_entry_name req) cwrs w w2).
Proof.
  intros Hrest Hcert Hw Hk Hk'. rewrite Reconcile_rs_pass, Reconcile_cw_pass. split.
  - intros rs Hrs (Hd & Hf & Hfo) Hns. destruct (om_DeletionTimestamp (get_meta rs)) as [t|] eqn:Ht; [|done].
    eapply deletion_run; [done|apply updateStatus_rs_status|done..].
  - intros cwrs Hcw (Hd & Hf & Hfo) Hns. destruct (om_DeletionTimestamp (get_meta cwrs)) as [t|] eqn:Ht; [|done].
    eapply deletion_run; [done|apply updateStatus_cw_status|done..].
Qed.
End Deletion.

(** ** On the simulation *)

Lemma sim_dying {T} `{Object T, Stamp T, Kind T} (o o0 : T) w t :
  (∀ o : T, stamp (om_ResourceVersion (get_meta o)) o = o) →
  objs w !! object_key o = Some o0 → om_ResourceVersion (get_meta o) = om_ResourceVersion (get_meta o0) →
  om_DeletionTimestamp (get_meta o0) = Some t →
  ∃ rv w', sim_update o w = (Ok (stamp rv o), w') ∧
    w_view w' = v_set (match om_Finalizers (get_meta o) with
                       | [] => delete (object_key o) (objs w)
                       | _ => <[object_key o := stamp rv o]> (objs w)
                       end) (w_view w).
Proof.
  intros Hstamp Ho Hrv Hd. unfold sim_update. rewrite Ho, Hrv, String.eqb_refl, Hd.
  destruct (om_Finalizers (get_meta o)); [|by eexists _, _].
  exists (om_ResourceVersion (get_meta o)). rewrite Hstamp. by eexists.
Qed.
#[export] Instance sim_terminating_rs : Terminating (W := World) RemoteSyncer.
Proof. split. intros o o0 w t Ho Hrv Hd _. apply (sim_dying o o0 w t); [|done..]. by intros [[]]. Qed.
#[export] Instance sim_terminating_cw : Terminating (W := World) ClusterWideRemoteSyncer.
Proof. split. intros o o0 w t Ho Hrv Hd _. apply (sim_dying o o0 w t); [|done..]. by intros [[]]. Qed.
#[local] Instance demo_files : FileSystem World := {| ReadFile path w := (Ok "CA", w) |}.

(** The syncer of the team, being deleted: the branch policy holds it. *)
Definition dying_meta (name ns : string) : ObjectMeta :=
  mkObjectMeta name ns "1" (Some 1%Z) ∅ {[RtAnnotationKeyOneOrManyBranches := "dev"]} [branchTargetPolicyFinalizer].
Definition dying_rs : RemoteSyncer :=
  mkRemoteSyncer (dying_meta "rs" "team") (plain_spec "https://git.x/org/app.git" "main") (mkRemoteSyncerStatus [] None None None).
Definition dying_cw : ClusterWideRemoteSyncer :=
  mkClusterWideRemoteSyncer (dying_meta "cw" "") (mkCWSpec (plain_spec "https://git.x/org/app.git" "main") None "team")
    (mkRemoteSyncerStatus [] None None None).
Definition dying_world (cws : gmap NamespacedName ClusterWideRemoteSyncer) : World :=
  world_of (mkView ∅ {[mkNN "team" "associated-rub-alice" := rub_with [om_Name (rt_Meta (app_target "dev"))]]}
    {[object_key (app_target "dev") := app_target "dev"]} {[object_key dying_rs := dying_rs]} cws ∅ ∅ ∅).

Lemma dying_world_undisturbed cws : undisturbed (dying_world cws).
Proof.
  split; apply map_Forall_singleton; [reflexivity..|split; reflexivity|reflexivity].
Qed.

Lemma syncer_deletion_converges_witness :
  ∃ w1 w2 hs1, Reconcile_rs demo_manager map_to_list (mkNN "team" "rs") (dying_world ∅, ∅) = (Ok (no_requeue, None), (w1, hs1)) ∧
    Reconcile_rs demo_manager map_to_list (mkNN "team" "rs") (w1, hs1) =
      (Ok (no_requeue, None), (w2, delete (RemoteSyncerWebhookPath (mkNN "team" "rs")) ∅)) ∧
    deleted demo_manager (mkNN "team" "rs") (remoteSyncer_entry_name (mkNN "team" "rs")) dying_rs (dying_world ∅) w2.
Proof.
  destruct (syncer_deletion_converges demo_manager map_to_list (mkNN "team" "rs") (dying_world ∅) ∅) as [Hrs _].
  - intros c Hc. simpl in Hc. by rewrite lookup_empty in Hc.
  - intros w. by exists "CA".
  - apply dying_world_undisturbed.
  - apply map_Forall_singleton. reflexivity.
  - apply map_Forall_empty.
  - apply Hrs; [apply lookup_singleton_eq|split_and!; done|done].
Defined.

(** Two syncers of the same upstream that are deleted together: each counts the other among
    those that still work on the targets, whatever its deletion timestamp. When the two
    cleanups overlap, both spare the targets and both syncers go: nothing that is left will
    ever take the targets away. *)
Lemma concurrent_deletions_orphan :
  let w := dying_world {[object_key dying_cw := dying_cw]} in
  let '(r1, w1) := cleanupBranchTargets (SyncerRS dying_rs) w in
  let '(r2, (w2, _)) := RunPolicies (syncer_policies map_to_list) (w1, SyncerCW dying_cw) in
  let '(r3, (w3, _)) := removeFinalizer branchTargetPolicyFinalizer (w2, SyncerRS dying_rs) in
  r1 = Ok tt ∧ r2 = Ok (no_requeue, None) ∧ r3 = Ok tt ∧ v_rs (view w3) = ∅ ∧ v_cwrs (view w3) = ∅ ∧
  v_rt (view w3) !! object_key (app_target "dev") = Some (app_target "dev").
Proof. vm_compute. by split_and!. Qed.
