(* ===== verification/Controllers.v ===== *)
(** * The controllers of RemoteUsers, RemoteUserBindings and RemoteTargets
    ([internal/controller]: [remoteuser_controller.go],
    [remoteuserbinding_controller.go], [remotetarget_controller.go])

    Their reconcile loops, and the indexes that decide which objects a change wakes up.
    The recorded events are not modelled; the field indexer of controller-runtime is
    the class [FieldIndexer]. *)

From S2P Require Import Prelude GoStr Api Errors External Kube Refs Managed Policy Policies Sim.
From S2P Require Import Dynamic.
From Stdlib Require Import Ascii.

(** [List] with a field selector on a registered index: the objects whose extracted
    values contain the key. *)
Class FieldIndexer (W T : Type) := {
  list_by_index : (T → list string) → string → M error W (list T) }.
Class FieldIndexer_laws (W T : Type) (view : W → View) `{FieldIndexer W T, Object T, Kind T} := {
  list_by_index_spec extract key w : ∃ l, list_by_index extract key w = (Ok l, w) ∧
    ∀ o, o ∈ l ↔ v_get (view w) !! object_key o = Some o ∧ key ∈ extract o }.

(** ** [remoteuser_controller.go] *)

Definition secretBoundConditionType : string := "SecretBound".
Definition secretBoundReason : string := "SecretBound".
Definition secretFoundReason : string := "SecretFound".
Definition secretNotFoundReason : string := "SecretNotFound".
Definition secretWrongTypeReason : string := "SecretWrongType".
Definition SecretTypeBasicAuth : string := "kubernetes.io/basic-auth".
Definition secretRefPath : field_path := FPath ["spec"; "secretRef"].

Definition set_secret_bound (s : string) (ru : RemoteUser) : RemoteUser :=
  let st := ru_Status ru in
  mkRemoteUser (ru_Meta ru) (ru_Spec ru)
    (mkRemoteUserStatus (rus_Conditions st) (rus_ConnexionStatus st) (rus_ConnexionDetails st) (rus_GitUser st) s).
Definition clear_connexion (ru : RemoteUser) : RemoteUser :=
  let st := ru_Status ru in
  mkRemoteUser (ru_Meta ru) (ru_Spec ru)
    (mkRemoteUserStatus (rus_Conditions st) "" (rus_ConnexionDetails st) (rus_GitUser st) (rus_SecretBoundStatus st)).
Definition set_ru_conditions (cs : list Condition) (ru : RemoteUser) : RemoteUser :=
  let st := ru_Status ru in
  mkRemoteUser (ru_Meta ru) (ru_Spec ru)
    (mkRemoteUserStatus cs (rus_ConnexionStatus st) (rus_ConnexionDetails st) (rus_GitUser st) (rus_SecretBoundStatus st)).

Section Controllers.
Context {W : Type} `{Cluster W, Finalizers, Lib}.

(** The RemoteUser is read and written through the pointer the reconcile holds. *)
Definition updateStatus_ru (condition : Condition) : M error (W * RemoteUser) unit :=
  ru ⇐ the_obj;;
  set_obj (set_ru_conditions (SetCondition (rus_Conditions (ru_Status ru)) condition) ru);;;
  ru ⇐ the_obj;;
  ru' ⇐ outside (client_StatusUpdate ru);;
  set_obj ru'.

Definition modify_obj (f : RemoteUser → RemoteUser) : M error (W * RemoteUser) unit :=
  ru ⇐ the_obj;; set_obj (f ru).

(** [_ = r.updateStatus(...)]. *)
Definition try_updateStatus (condition : Condition) : M error (W * RemoteUser) unit :=
  attempt (updateStatus_ru condition);;; ret tt.

(** The three early returns and the last status of [reconcileSecretStatus]. *)
Definition secret_missing (time : Z) (message : string) : M error (W * RemoteUser) unit :=
  modify_obj (set_secret_bound SecretNotFound);;;
  modify_obj clear_connexion;;;
  try_updateStatus (mkCondition secretBoundConditionType "False" secretNotFoundReason message time).

Definition reconcileSecretStatus : M error (W * RemoteUser) unit :=
  time ⇐ outside now;;
  ru ⇐ the_obj;;
  match ResolveNamespace (ref_Namespace (ru_SecretRef (ru_Spec ru))) (om_Namespace (ru_Meta ru)) secretRefPath with
  | Panic => panic
  | Err err => secret_missing time (Error err)
  | Ok secretNamespace =>
      r ⇐ attempt (outside (client_Get (mkNN secretNamespace (ref_Name (ru_SecretRef (ru_Spec ru))))));;
      match r with
      | inr _ => secret_missing time SecretNotFound
      | inl secret =>
          modify_obj (set_secret_bound SecretFound);;;
          if negb (String.eqb (sec_Type secret) SecretTypeBasicAuth) then
            modify_obj (set_secret_bound SecretWrongType);;;
            try_updateStatus
              (mkCondition secretBoundConditionType "False" secretWrongTypeReason SecretWrongType time)
          else
            modify_obj (set_secret_bound SecretBound);;;
            try_updateStatus
              (mkCondition secretBoundConditionType "True" secretBoundReason SecretBound time)
      end
  end.

(** [client.IgnoreNotFound]. *)
Definition IgnoreNotFound (err : error) : option error := if IsNotFound err then None else Some err.

Definition Reconcile_ru (req : NamespacedName) : M error W (ctrl_Result * option error) :=
  r ⇐ attempt (client_Get req);;
  match r with
  | inr err => ret (no_requeue, IgnoreNotFound err)
  | inl remoteUser => λ w,
      let '(r, (w', _)) :=
        ((match om_DeletionTimestamp (ru_Meta remoteUser) with
          | None => reconcileSecretStatus
          | Some _ => ret tt
          end);;;
         RunPolicies [AssociationPolicy]) (w, remoteUser) in
      (r, w')
  end.

Definition remoteUserValueExtractor (ru : RemoteUser) : list string :=
  if String.eqb (ref_Name (ru_SecretRef (ru_Spec ru))) "" then []
  else match ResolveNamespace (ref_Namespace (ru_SecretRef (ru_Spec ru))) (om_Namespace (ru_Meta ru)) secretRefPath with
       | Ok namespace => [namespace ++ ("/" ++ ref_Name (ru_SecretRef (ru_Spec ru)))]
       | _ => []
       end.

Definition findObjectsForSecret `{FieldIndexer W RemoteUser} (secret : NamespacedName)
  : M error W (list NamespacedName) :=
  or_nothing (items ⇐ list_by_index remoteUserValueExtractor (nn_Namespace secret ++ ("/" ++ nn_Name secret));;
              ret (map (λ ru : RemoteUser, object_key ru) items)).

Definition findRemoteUsersForRemoteTarget (rt : RemoteTarget) : M error W (list NamespacedName) :=
  if negb (String.eqb (mget (om_Labels (rt_Meta rt)) RtLabelKeyPolicy) RtLabelValueOneOrManyBranches)
  then ret []
  else or_nothing (items ⇐ client_List (mkListOptions (om_Namespace (rt_Meta rt)) None);;
                   ret (map (λ ru : RemoteUser, object_key ru)
                          (List.filter (λ ru,
                             String.eqb (mget (om_Annotations (ru_Meta ru)) RubAnnotationKeyManaged) "true")
                             items))).

(** ** [remoteuserbinding_controller.go] *)

Definition userRefPath (i : nat) : field_path := FIndex (FPath ["spec"; "remoteUserRefs"]) i.

(** One reference: the host it contributes, and whether it is missing. *)
Definition bind_ref (rub : RemoteUserBinding) (i : nat) (ref : ObjectReference) : M error W (RemoteUserHost * bool) :=
  r ⇐ match ResolveNamespace (ref_Namespace ref) (om_Namespace (rub_Meta rub)) (userRefPath i) with
      | Ok remoteUserNamespace => attempt (client_Get (mkNN remoteUserNamespace (ref_Name ref)))
      | Err err => ret (inr err)
      | Panic => panic
      end;;
  match r with
  | inr _ => ret (mkRemoteUserHost (ref_Name ref) (mkRef "" "") "" NotBound, true)
  | inl remoteUser =>
      let secretRef := ru_SecretRef (ru_Spec remoteUser) in
      let secretRef := if String.eqb (ref_Namespace secretRef) ""
                       then mkRef (om_Namespace (ru_Meta remoteUser)) (ref_Name secretRef) else secretRef in
      ret (mkRemoteUserHost (ref_Name ref) secretRef (ru_GitBaseDomainFQDN (ru_Spec remoteUser)) Bound, false)
  end.

(** The loop over the references: the hosts and the names of the missing ones. *)
Definition bind_refs (rub : RemoteUserBinding) : M error W (list RemoteUserHost * list string) :=
  for_foldi 0 (λ i '(hosts, missing) ref,
    '(host, lost) ⇐ bind_ref rub i ref;;
    ret ((hosts ++ [host])%list, if lost then (missing ++ [ref_Name ref])%list else missing))
    ([], []) (rub_RemoteUserRefs (rub_Spec rub)).

Definition drop_missing (missing : list string) (fresh : RemoteUserBinding) : RemoteUserBinding :=
  set_user_refs (List.filter (λ ref, negb (existsb (String.eqb (ref_Name ref)) missing))
                   (rub_RemoteUserRefs (rub_Spec fresh))) fresh.

Definition set_hosts (hosts : list RemoteUserHost) (state : string) (rub : RemoteUserBinding) : RemoteUserBinding :=
  mkRUB (rub_Meta rub) (rub_Spec rub)
    (mkRUBStatus (rubs_Conditions (rub_Status rub)) state hosts (sub_Name (rub_Subject (rub_Spec rub)))).

Definition Reconcile_rub (req : NamespacedName) : M error W (ctrl_Result * option error) :=
  r ⇐ attempt (client_Get req);;
  match r with
  | inr err => ret (no_requeue, IgnoreNotFound err)
  | inl rub =>
      let isManaged := String.eqb (mget (om_Labels (rub_Meta rub)) ManagedByLabelKey) ManagedByLabelValue in
      '(hosts, missing) ⇐ bind_refs rub;;
      if isManaged && negb (bool_decide (missing = [])) then
        r ⇐ attempt (MutateOrDeleteRemoteUserBinding req (λ fresh, ret (drop_missing missing fresh)));;
        match r with
        | inr err => ret (no_requeue, IgnoreNotFound err)
        | inl _ => ret (no_requeue, None)
        end
      else
        attempt (client_StatusUpdate
          (set_hosts hosts (if bool_decide (missing = []) then Bound else PartiallyBound) rub));;;
        ret (no_requeue, None)
  end.

(** [remoteTargetValueExtractor], which despite its name indexes the user references. *)
Fixpoint user_ref_keys (namespace : string) (i : nat) (refs : list ObjectReference) (keys : list string)
  : list string :=
  match refs with
  | [] => keys
  | ref :: rest =>
      if String.eqb (ref_Name ref) "" then []
      else match ResolveNamespace (ref_Namespace ref) namespace (userRefPath i) with
           | Ok ns => let key := ns ++ ("/" ++ ref_Name ref) in
                      user_ref_keys namespace (S i) rest (keys ++ [key])%list
           | _ => user_ref_keys namespace (S i) rest keys
           end
  end.
Definition remoteTargetValueExtractor (rub : RemoteUserBinding) : list string :=
  user_ref_keys (om_Namespace (rub_Meta rub)) 0 (rub_RemoteUserRefs (rub_Spec rub)) [].

Definition findObjectsForRemoteUser `{FieldIndexer W RemoteUserBinding} (remoteUser : NamespacedName)
  : M error W (list NamespacedName) :=
  or_nothing (items ⇐ list_by_index remoteTargetValueExtractor
                        (nn_Namespace remoteUser ++ ("/" ++ nn_Name remoteUser));;
              ret (map (λ rub : RemoteUserBinding, object_key rub) items)).

(** ** [remotetarget_controller.go] *)

Definition Reconcile_rt (req : NamespacedName) : M error W (ctrl_Result * option error) :=
  r ⇐ attempt (client_Get (T := RemoteTarget) req);;
  ret (no_requeue, match r with inr err => IgnoreNotFound err | inl _ => None end).
End Controllers.

(** ** Specification *)

(** Where a reference of an object leads. *)
Definition leads_to (namespace : string) (ref : ObjectReference) : NamespacedName :=
  mkNN (if String.eqb (ref_Namespace ref) "" then namespace else ref_Namespace ref) (ref_Name ref).

Section Levels.
Context {W : Type} `{ApiServer W, Finalizers, Lib}.

Lemma resolves namespace ref path : namespace ≠ "" →
  ResolveNamespace (ref_Namespace ref) namespace path = Ok (nn_Namespace (leads_to namespace ref)).
Proof.
  intros Hn. unfold ResolveNamespace, leads_to. simpl.
  destruct (String.eqb_spec (ref_Namespace ref) ""); simpl; [|done].
  by rewrite (proj2 (String.eqb_neq _ _) Hn).
Qed.

Lemma leads_to_eta namespace ref :
  mkNN (nn_Namespace (leads_to namespace ref)) (ref_Name ref) = leads_to namespace ref.
Proof. done. Qed.

(** *** The status of a RemoteUser *)

Lemma bind_modify {A} f (k : unit → M error (W * RemoteUser) A) s :
  bind (modify_obj f) k s = k tt (s.1, f s.2).
Proof. done. Qed.

Definition secret_of (w : W) (ru : RemoteUser) : option Secret :=
  v_sec (view w) !! leads_to (om_Namespace (ru_Meta ru)) (ru_SecretRef (ru_Spec ru)).

(** The state the status reports, and whether the condition holds. *)
Definition reported (found : option Secret) : string * string :=
  match found with
  | None => (SecretNotFound, "False")
  | Some secret => if decide (sec_Type secret = SecretTypeBasicAuth) then (SecretBound, "True")
                   else (SecretWrongType, "False")
  end.

(** A status write that succeeds: the pointer holds what the server stored. *)
Lemma try_updateStatus_run c ru0 ru w :
  v_ru (view w) !! object_key ru0 = Some ru0 → ru_Meta ru = ru_Meta ru0 → ru_Spec ru = ru_Spec ru0 →
  let ru1 := set_ru_conditions (SetCondition (rus_Conditions (ru_Status ru)) c) ru in
  ∃ rv w', try_updateStatus c (w, ru) = (Ok tt, (w', stamp rv ru1)) ∧
    view w' = v_set (<[object_key ru0 := stamp rv ru1]> (v_ru (view w))) (view w).
Proof.
  intros Hk Hm Hs ru1.
  destruct (status_current ru1 ru0 w) as (rv & w' & Hu & Hv).
  { change (v_ru (view w) !! object_key ru1 = Some ru0).
    replace (object_key ru1) with (object_key ru0); [done|]. unfold object_key. simpl. by rewrite Hm. }
  { done. }
  assert (Hw : with_status ru1 ru0 = ru1) by (unfold ru1, set_ru_conditions; simpl; by rewrite Hm, Hs).
  assert (Hk1 : object_key ru1 = object_key ru0) by (unfold object_key; simpl; by rewrite Hm).
  rewrite Hw in Hu, Hv. rewrite Hk1 in Hv. exists rv, w'. split; [|exact Hv].
  unfold try_updateStatus, updateStatus_ru, bind, attempt, the_obj, set_obj, outside. simpl. fold ru1.
  by rewrite Hu.
Qed.

(** The status of a RemoteUser follows the Secret its reference leads to, wherever
    that is: one pass writes the state of the Secret and exactly one condition of type
    [SecretBound], true when the Secret is there with the basic-auth type and false
    otherwise; the other conditions, the spec and the other objects stay as they are. *)
Theorem secret_status_exact ru w :
  v_ru (view w) !! object_key ru = Some ru → om_Namespace (ru_Meta ru) ≠ "" →
  ∃ rv ru' w' l c, reconcileSecretStatus (w, ru) = (Ok tt, (w', ru')) ∧
    view w' = v_set (<[object_key ru := ru']> (v_ru (view w))) (view w) ∧
    ru_Meta ru' = set_rv rv (ru_Meta ru) ∧ ru_Spec ru' = ru_Spec ru ∧
    rus_SecretBoundStatus (ru_Status ru') = (reported (secret_of w ru)).1 ∧
    rus_Conditions (ru_Status ru') = (l ++ [c])%list ∧
    cond_Type c = "SecretBound" ∧ cond_Status c = (reported (secret_of w ru)).2 ∧
    List.filter (λ x, negb (String.eqb (cond_Type x) "SecretBound")) l =
    List.filter (λ x, negb (String.eqb (cond_Type x) "SecretBound")) (rus_Conditions (ru_Status ru)).
Proof.
  intros Hk Hns. unfold reconcileSecretStatus. destruct (now_spec w) as [t Ht].
  rewrite (bind_ok _ _ (w, ru) t (w, ru)) by (unfold outside; by rewrite Ht).
  rewrite (bind_ok _ _ (w, ru) ru (w, ru)) by done. rewrite resolves, leads_to_eta by done.
  set (c s r m := mkCondition secretBoundConditionType s r m t).
  assert (Hfin : ∀ f s r m, (∀ x, ru_Meta (f x) = ru_Meta x) → (∀ x, ru_Spec (f x) = ru_Spec x) →
    (∀ x, rus_Conditions (ru_Status (f x)) = rus_Conditions (ru_Status x)) →
    ∃ rv w', try_updateStatus (c s r m) (w, f ru) = (Ok tt, (w', stamp rv (set_ru_conditions
       (RemoveCondition (rus_Conditions (ru_Status ru)) "SecretBound" ++ [c s r m])%list (f ru)))) ∧
      view w' = v_set (<[object_key ru := stamp rv (set_ru_conditions
        (RemoveCondition (rus_Conditions (ru_Status ru)) "SecretBound" ++ [c s r m])%list (f ru))]>
        (v_ru (view w))) (view w)).
  { intros f s r m Hm Hs Hc. destruct (try_updateStatus_run (c s r m) ru (f ru) w) as (rv & w' & Hr & Hv); [done..|].
    rewrite Hc in Hr, Hv. exists rv, w'. split; [exact Hr|exact Hv]. }
  unfold secret_of.
  destruct (attempt_get_in (T := Secret) (leads_to (om_Namespace (ru_Meta ru)) (ru_SecretRef (ru_Spec ru))) w ru)
    as (r & Hg & Hr). rewrite (bind_ok _ _ _ _ _ Hg). simpl in Hr.
  destruct (v_sec (view w) !! _) as [secret|].
  - subst r. rewrite bind_modify. simpl. destruct (decide (sec_Type secret = SecretTypeBasicAuth)) as [->|Hne].
    + rewrite String.eqb_refl. simpl. rewrite bind_modify.
      destruct (Hfin (λ ru, set_secret_bound SecretBound (set_secret_bound SecretFound ru))
        "True" secretBoundReason SecretBound) as (rv & w' & Hr & Hv); [done..|].
      eexists rv, _, w', _, _. split_and!; [exact Hr|exact Hv|done..|apply RemoveCondition_other].
    + rewrite (proj2 (String.eqb_neq _ _) Hne). simpl. rewrite bind_modify.
      destruct (Hfin (λ ru, set_secret_bound SecretWrongType (set_secret_bound SecretFound ru))
        "False" secretWrongTypeReason SecretWrongType) as (rv & w' & Hr & Hv); [done..|].
      eexists rv, _, w', _, _. split_and!; [exact Hr|exact Hv|done..|apply RemoveCondition_other].
  - destruct Hr as [msg ->]. unfold secret_missing. rewrite !bind_modify.
    destruct (Hfin (λ ru, clear_connexion (set_secret_bound SecretNotFound ru))
      "False" secretNotFoundReason SecretNotFound) as (rv & w' & Hr & Hv); [done..|].
    eexists rv, _, w', _, _. split_and!; [exact Hr|exact Hv|done..|apply RemoveCondition_other].
Qed.

(** *** The level of a RemoteUserBinding *)

Definition user_of (w : W) (rub : RemoteUserBinding) (ref : ObjectReference) : option RemoteUser :=
  v_ru (view w) !! leads_to (om_Namespace (rub_Meta rub)) ref.

(** The host a reference shows in the status. *)
Definition host_of (found : option RemoteUser) (ref : ObjectReference) : RemoteUserHost :=
  match found with
  | None => mkRemoteUserHost (ref_Name ref) (mkRef "" "") "" NotBound
  | Some ru => mkRemoteUserHost (ref_Name ref)
                 (mkRef (nn_Namespace (leads_to (om_Namespace (ru_Meta ru)) (ru_SecretRef (ru_Spec ru))))
                    (ref_Name (ru_SecretRef (ru_Spec ru)))) (ru_GitBaseDomainFQDN (ru_Spec ru)) Bound
  end.
Definition lost (w : W) (rub : RemoteUserBinding) (ref : ObjectReference) : bool :=
  match user_of w rub ref with None => true | Some _ => false end.

Lemma bind_ref_run rub i ref w : om_Namespace (rub_Meta rub) ≠ "" →
  bind_ref rub i ref w = (Ok (host_of (user_of w rub ref) ref, lost w rub ref), w).
Proof.
  intros Hns. unfold bind_ref, lost, user_of. rewrite resolves, leads_to_eta by done.
  destruct (attempt_get (T := RemoteUser) (leads_to (om_Namespace (rub_Meta rub)) ref) w) as (r & Hg & Hr).
  rewrite (bind_ok _ _ _ _ _ Hg). simpl in Hr. destruct (v_ru (view w) !! _) as [ru|].
  - subst r. unfold ret, host_of, leads_to. simpl. destruct (ru_SecretRef (ru_Spec ru)) as [ns n]. simpl.
    by destruct (String.eqb ns "").
  - destruct Hr as [msg ->]. reflexivity.
Qed.

Lemma bind_refs_run rub w : om_Namespace (rub_Meta rub) ≠ "" →
  let refs := rub_RemoteUserRefs (rub_Spec rub) in
  bind_refs rub w = (Ok (map (λ ref, host_of (user_of w rub ref) ref) refs,
                         map ref_Name (List.filter (lost w rub) refs)), w).
Proof.
  intros Hns refs. unfold bind_refs. fold refs.
  enough (∀ i hosts missing,
    for_foldi i (λ i '(hosts, missing) ref, '(host, lost) ⇐ bind_ref rub i ref;;
      ret ((hosts ++ [host])%list, if lost then (missing ++ [ref_Name ref])%list else missing))
      (hosts, missing) refs w =
    (Ok ((hosts ++ map (λ ref, host_of (user_of w rub ref) ref) refs)%list,
         (missing ++ map ref_Name (List.filter (lost w rub) refs))%list), w)) as Hgen by apply (Hgen 0%nat [] []).
  clearbody refs. induction refs as [|ref refs IH]; intros i hosts missing; simpl; [by rewrite !app_nil_r|].
  rewrite bind_assoc, (bind_ok _ _ _ _ _ (bind_ref_run rub i ref w Hns)), bind_ret, IH.
  destruct (lost w rub ref); simpl; by rewrite <- !app_assoc.
Qed.

(** Whether a name is among the missing ones. *)
Lemma missing_name w rub (ref : ObjectReference) :
  existsb (String.eqb (ref_Name ref)) (map ref_Name (List.filter (lost w rub) (rub_RemoteUserRefs (rub_Spec rub)))) =
    true ↔ ∃ r, r ∈ rub_RemoteUserRefs (rub_Spec rub) ∧ lost w rub r = true ∧ ref_Name r = ref_Name ref.
Proof.
  rewrite existsb_exists. split.
  - intros (n & (r & <- & Hr)%in_map_iff & Hn%String.eqb_eq). apply filter_In in Hr as [Hr Hl].
    exists r. by rewrite list_elem_of_In.
  - intros (r & Hr & Hl & Hn). exists (ref_Name r). split; [|by apply String.eqb_eq].
    apply in_map_iff. exists r. by rewrite filter_In, <- list_elem_of_In.
Qed.

(** The references that survive the prune all lead somewhere. *)
Lemma drop_missing_found w rub : let missing := map ref_Name (List.filter (lost w rub) (rub_RemoteUserRefs (rub_Spec rub))) in
  ∀ ref, ref ∈ rub_RemoteUserRefs (rub_Spec (drop_missing missing rub)) →
    ref ∈ rub_RemoteUserRefs (rub_Spec rub) ∧ lost w rub ref = false.
Proof.
  intros missing ref Hin. apply list_elem_of_In, filter_In in Hin as [Hin Hk%negb_true_iff].
  apply list_elem_of_In in Hin. split; [done|]. apply not_true_iff_false. intros Hl.
  apply not_true_iff_false in Hk. apply Hk. apply missing_name. by exists ref.
Qed.

Lemma none_lost w rub :
  (∀ ref, ref ∈ rub_RemoteUserRefs (rub_Spec rub) → lost w rub ref = false) →
  List.filter (lost w rub) (rub_RemoteUserRefs (rub_Spec rub)) = [].
Proof.
  intros Hall. induction (rub_RemoteUserRefs (rub_Spec rub)) as [|r l IH]; [done|].
  simpl. rewrite (Hall r) by left. apply IH. intros ref Hr. apply Hall. by right.
Qed.

Definition hosts_of (w : W) (rub : RemoteUserBinding) : list RemoteUserHost :=
  map (λ ref, host_of (user_of w rub ref) ref) (rub_RemoteUserRefs (rub_Spec rub)).
Definition some_lost (w : W) (rub : RemoteUserBinding) : bool :=
  existsb (lost w rub) (rub_RemoteUserRefs (rub_Spec rub)).
Definition is_managed_binding (rub : RemoteUserBinding) : bool :=
  String.eqb (mget (om_Labels (rub_Meta rub)) ManagedByLabelKey) ManagedByLabelValue.

Lemma some_lost_missing w rub :
  bool_decide (map ref_Name (List.filter (lost w rub) (rub_RemoteUserRefs (rub_Spec rub))) = []) =
  negb (some_lost w rub).
Proof.
  unfold some_lost. induction (rub_RemoteUserRefs (rub_Spec rub)) as [|r l IH]; [done|]. simpl.
  by destruct (lost w rub r).
Qed.

(** The pass that writes the status. *)
Lemma status_pass rub w :
  v_rub (view w) !! object_key rub = Some rub → om_Namespace (rub_Meta rub) ≠ "" →
  is_managed_binding rub && some_lost w rub = false →
  ∃ rv w', Reconcile_rub (object_key rub) w = (Ok (no_requeue, None), w') ∧
    view w' = v_set (<[object_key rub :=
      stamp rv (set_hosts (hosts_of w rub) (if some_lost w rub then PartiallyBound else Bound) rub)]>
      (v_rub (view w))) (view w).
Proof.
  intros Hk Hns Hm. unfold Reconcile_rub.
  destruct (attempt_get (T := RemoteUserBinding) (object_key rub) w) as (r & Hg & Hr).
  rewrite (bind_ok _ _ _ _ _ Hg). simpl in Hr. rewrite Hk in Hr. subst r.
  rewrite (bind_ok _ _ _ _ _ (bind_refs_run rub w Hns)). rewrite some_lost_missing, negb_involutive.
  fold (is_managed_binding rub). rewrite Hm.
  set (rub1 := set_hosts _ _ rub). destruct (status_current rub1 rub w) as (rv & w' & Hu & Hv); [done..|].
  exists rv, w'. unfold bind, attempt. rewrite Hu. split; [done|]. rewrite Hv. unfold rub1.
  by destruct (some_lost w rub).
Qed.

(** The pass that prunes. *)
Lemma prune_pass rub w :
  v_rub (view w) !! object_key rub = Some rub → om_Namespace (rub_Meta rub) ≠ "" →
  om_DeletionTimestamp (rub_Meta rub) = None → om_Finalizers (rub_Meta rub) = [] →
  is_managed_binding rub && some_lost w rub = true →
  let f := drop_missing (map ref_Name (List.filter (lost w rub) (rub_RemoteUserRefs (rub_Spec rub)))) in
  ∃ rv w', Reconcile_rub (object_key rub) w = (Ok (no_requeue, None), w') ∧
    view w' = v_set (partial_alter (λ _, mutated f rv rub) (object_key rub) (v_rub (view w))) (view w).
Proof.
  intros Hk Hns Hd Hf Hm f. unfold Reconcile_rub.
  destruct (attempt_get (T := RemoteUserBinding) (object_key rub) w) as (r & Hg & Hr).
  rewrite (bind_ok _ _ _ _ _ Hg). simpl in Hr. rewrite Hk in Hr. subst r.
  rewrite (bind_ok _ _ _ _ _ (bind_refs_run rub w Hns)). rewrite some_lost_missing, negb_involutive.
  fold (is_managed_binding rub). rewrite Hm.
  destruct (mutate_one f rub w) as (rv & w' & Hrun & Hv); [done|done|by split|].
  exists rv, w'. unfold bind, attempt. fold f. by rewrite Hrun.
Qed.

Lemma some_lost_false w rub :
  some_lost w rub = false ↔ ∀ ref, ref ∈ rub_RemoteUserRefs (rub_Spec rub) → lost w rub ref = false.
Proof.
  unfold some_lost. rewrite <- not_true_iff_false, existsb_exists. split.
  - intros Hn ref Hr. apply not_true_iff_false. intros Hl. apply Hn. exists ref. by rewrite <- list_elem_of_In.
  - intros Hall (ref & Hr & Hl). rewrite Hall in Hl; [done|]. by apply list_elem_of_In.
Qed.

(** The hosts only depend on the users, the namespace and the references. *)
Lemma lost_ext w w' rub rub' ref : v_ru (view w') = v_ru (view w) →
  om_Namespace (rub_Meta rub') = om_Namespace (rub_Meta rub) → lost w' rub' ref = lost w rub ref.
Proof. unfold lost, user_of. by intros -> ->. Qed.
Lemma user_of_ext w w' rub rub' ref : v_ru (view w') = v_ru (view w) →
  om_Namespace (rub_Meta rub') = om_Namespace (rub_Meta rub) → user_of w' rub' ref = user_of w rub ref.
Proof. unfold user_of. by intros -> ->. Qed.

(** What is left once nothing is missing any more. *)
Definition at_rest (w w' : W) (k : NamespacedName) (rub : RemoteUserBinding) : Prop :=
  v_ru (view w') = v_ru (view w) ∧ delete k (v_rub (view w')) = delete k (v_rub (view w)) ∧
  ∃ rub', v_rub (view w') !! k = Some rub' ∧ rub_Spec rub' = rub_Spec rub ∧
    rub_Meta rub' = set_rv (om_ResourceVersion (rub_Meta rub')) (rub_Meta rub) ∧
    rubs_RemoteUserState (rub_Status rub') = Bound ∧
    rubs_RemoteUserHosts (rub_Status rub') = hosts_of w rub ∧
    Forall (λ h, ruh_State h = Bound) (hosts_of w rub).

Lemma settle rub w :
  v_rub (view w) !! object_key rub = Some rub → om_Namespace (rub_Meta rub) ≠ "" → some_lost w rub = false →
  ∃ w', Reconcile_rub (object_key rub) w = (Ok (no_requeue, None), w') ∧ at_rest w w' (object_key rub) rub.
Proof.
  intros Hk Hns Hl. destruct (status_pass rub w Hk Hns) as (rv & w' & Hrun & Hv); [by rewrite Hl, andb_false_r|].
  exists w'. split; [done|]. rewrite Hl in Hv. unfold at_rest. rewrite Hv. simpl.
  split; [done|]. split; [apply delete_insert_eq|]. eexists. split; [apply lookup_insert_eq|].
  split_and!; [done..|]. unfold hosts_of. rewrite Forall_map, Forall_forall. intros ref Hr.
  apply (proj1 (some_lost_false w rub) Hl) in Hr. unfold lost in Hr. simpl.
  by destruct (user_of w rub ref).
Qed.

Lemma kept_eq w rub :
  List.filter (λ ref, negb (existsb (λ r, lost w rub r && String.eqb (ref_Name r) (ref_Name ref))
    (rub_RemoteUserRefs (rub_Spec rub)))) (rub_RemoteUserRefs (rub_Spec rub)) =
  rub_RemoteUserRefs (rub_Spec (drop_missing
    (map ref_Name (List.filter (lost w rub) (rub_RemoteUserRefs (rub_Spec rub)))) rub)).
Proof.
  unfold drop_missing. simpl. apply List.filter_ext. intros ref. f_equal.
  generalize (rub_RemoteUserRefs (rub_Spec rub)) as l. induction l as [|r l IH]; [done|]. simpl. rewrite IH.
  destruct (lost w rub r); simpl; [|done]. by rewrite String.eqb_sym.
Qed.

Lemma drop_nothing rub : drop_missing [] rub = rub.
Proof.
  unfold drop_missing. simpl. destruct rub as [m [s u t] st]. unfold set_user_refs. simpl. do 2 f_equal.
  induction u as [|r u IH]; [done|]. simpl. by rewrite IH.
Qed.

(** The pruned binding, stored again: the next pass settles it. *)
Definition pruned (w : W) (rub : RemoteUserBinding) : RemoteUserBinding :=
  drop_missing (map ref_Name (List.filter (lost w rub) (rub_RemoteUserRefs (rub_Spec rub)))) rub.

Lemma settle_pruned w w1 rub rub1 :
  om_Namespace (rub_Meta rub) ≠ "" → object_key rub1 = object_key rub →
  v_rub (view w1) !! object_key rub = Some rub1 → om_Namespace (rub_Meta rub1) = om_Namespace (rub_Meta rub) →
  rub_Spec rub1 = rub_Spec (pruned w rub) → v_ru (view w1) = v_ru (view w) →
  delete (object_key rub) (v_rub (view w1)) = delete (object_key rub) (v_rub (view w)) →
  ∃ w2 rub', Reconcile_rub (object_key rub) w1 = (Ok (no_requeue, None), w2) ∧
    v_ru (view w2) = v_ru (view w) ∧
    delete (object_key rub) (v_rub (view w2)) = delete (object_key rub) (v_rub (view w)) ∧
    v_rub (view w2) !! object_key rub = Some rub' ∧ rub_Spec rub' = rub_Spec (pruned w rub) ∧
    rubs_RemoteUserState (rub_Status rub') = Bound ∧
    rubs_RemoteUserHosts (rub_Status rub') =
      map (λ ref, host_of (user_of w rub ref) ref) (rub_RemoteUserRefs (rub_Spec (pruned w rub))) ∧
    Forall (λ h, ruh_State h = Bound) (rubs_RemoteUserHosts (rub_Status rub')).
Proof.
  intros Hns Hk1 Hs1 Hn1 Hsp Hu1 Hd1. destruct (settle rub1 w1) as (w2 & Hrun & Hu2 & Hd2 & rub' & Hk' & Hsp' & _ & Hst & Hh & Hall).
  { by rewrite Hk1. } { by rewrite Hn1. }
  { apply some_lost_false. intros ref. rewrite Hsp. intros Hr%drop_missing_found.
    rewrite (lost_ext w w1 rub rub1) by done. by destruct Hr. }
  rewrite Hk1 in *. exists w2, rub'. split_and!; [done|congruence|congruence|done|congruence|done| |by rewrite Hh].
  rewrite Hh. unfold hosts_of. rewrite Hsp. apply map_ext. intros ref. by rewrite (user_of_ext w w1 rub rub1).
Qed.

(** (C19) Two passes bring a managed binding to rest: it is left with exactly the user
    references none of whose namesakes in the binding is missing, its status lists them
    in order, all of them bound, with the place of their secrets; or it is gone, when
    nothing but missing users was left in it. The other bindings stay as they are. *)
Theorem managed_binding_converges rub w :
  v_rub (view w) !! object_key rub = Some rub → om_Namespace (rub_Meta rub) ≠ "" →
  om_DeletionTimestamp (rub_Meta rub) = None → om_Finalizers (rub_Meta rub) = [] →
  om_Labels (rub_Meta rub) !! "managed-by" = Some "syngit.io" →
  let kept := List.filter (λ ref, negb (existsb (λ r, lost w rub r && String.eqb (ref_Name r) (ref_Name ref))
                (rub_RemoteUserRefs (rub_Spec rub)))) (rub_RemoteUserRefs (rub_Spec rub)) in
  ∃ w1 w2, Reconcile_rub (object_key rub) w = (Ok (no_requeue, None), w1) ∧
    Reconcile_rub (object_key rub) w1 = (Ok (no_requeue, None), w2) ∧
    v_ru (view w2) = v_ru (view w) ∧
    delete (object_key rub) (v_rub (view w2)) = delete (object_key rub) (v_rub (view w)) ∧
    match v_rub (view w2) !! object_key rub with
    | None => kept = [] ∧ rub_RemoteTargetRefs (rub_Spec rub) = []
    | Some rub' =>
        rub_Spec rub' = mkRUBSpec (rub_Subject (rub_Spec rub)) kept (rub_RemoteTargetRefs (rub_Spec rub)) ∧
        rubs_RemoteUserState (rub_Status rub') = Bound ∧
        rubs_RemoteUserHosts (rub_Status rub') = map (λ ref, host_of (user_of w rub ref) ref) kept ∧
        Forall (λ h, ruh_State h = Bound) (rubs_RemoteUserHosts (rub_Status rub'))
    end.
Proof.
  intros Hk Hns Hd Hf Hlab kept. unfold kept. rewrite kept_eq. fold (pruned w rub).
  assert (Hm : is_managed_binding rub = true)
    by (unfold is_managed_binding, mget; unfold ManagedByLabelKey; by rewrite Hlab).
  destruct (some_lost w rub) eqn:El.
  - destruct (prune_pass rub w) as (rv & w1 & Hrun & Hv); [done..|by rewrite Hm, El|].
    assert (Hu1 : v_ru (view w1) = v_ru (view w)) by (by rewrite Hv).
    assert (Hd1 : delete (object_key rub) (v_rub (view w1)) = delete (object_key rub) (v_rub (view w)))
      by (rewrite Hv; simpl; by rewrite delete_partial_alter, decide_True by done).
    assert (Hl1 : v_rub (view w1) !! object_key rub =
      if no_refs (pruned w rub) then None else Some (stamp rv (pruned w rub)))
      by (rewrite Hv; simpl; by rewrite lookup_partial_alter_eq).
    destruct (no_refs (pruned w rub)) eqn:En.
    + destruct (get_missing (T := RemoteUserBinding) (object_key rub) w1) as [msg Hg]; [exact Hl1|].
      exists w1, w1. split_and!; [done| |done..|].
      { unfold Reconcile_rub, bind, attempt. by rewrite Hg. }
      rewrite Hl1. unfold no_refs in En. revert En.
      destruct (rub_RemoteUserRefs (rub_Spec (pruned w rub))); [|done]. simpl.
      by destruct (rub_RemoteTargetRefs (rub_Spec rub)).
    + destruct (settle_pruned w w1 rub (stamp rv (pruned w rub))) as (w2 & rub' & ? & ? & ? & Hk' & ? & ? & ? & ?);
        [done..|]. exists w1, w2. rewrite Hk'. by split_and!.
  - assert (Hff : pruned w rub = rub).
    { unfold pruned. rewrite none_lost; [apply drop_nothing|]. by apply some_lost_false. }
    destruct (settle rub w Hk Hns El) as (w1 & Hrun & Hu1 & Hd1 & rub1 & Hl1 & Hsp1 & Hm1 & _).
    destruct (settle_pruned w w1 rub rub1) as (w2 & rub' & ? & ? & ? & Hk' & ? & ? & ? & ?);
      [done|unfold object_key; simpl; by rewrite Hm1|done|by rewrite Hm1|by rewrite Hff|done..|].
    exists w1, w2. rewrite Hk'. by split_and!.
Qed.
(** *** What wakes a reconcile up *)

(** Namespaces are DNS labels: not empty for an object, never with a slash. *)
Definition plain_ns (namespace : string) : Prop := has_byte "/"%char namespace = false.
Definition plain_refs (namespace : string) (refs : list ObjectReference) : Prop :=
  namespace ≠ "" ∧ plain_ns namespace ∧ Forall (λ ref, plain_ns (ref_Namespace ref)) refs.

Lemma leads_to_key namespace ref k : plain_refs namespace [ref] → plain_ns (nn_Namespace k) →
  nn_Namespace (leads_to namespace ref) ++ ("/" ++ ref_Name ref) = nn_Namespace k ++ ("/" ++ nn_Name k) ↔
  leads_to namespace ref = k.
Proof.
  intros (_ & Hn & Hr) Hk. apply Forall_cons in Hr as [Hr _]. unfold plain_ns in *.
  assert (Hl : has_byte "/"%char (nn_Namespace (leads_to namespace ref)) = false).
  { unfold leads_to. simpl. destruct (String.eqb (ref_Namespace ref) ""); assumption. }
  split.
  - intros He. apply (key_inj "/"%char _ _ (ref_Name ref) (nn_Name k)) in He as [Hns Hname]; [|done..].
    rewrite <- leads_to_eta, Hns, Hname. by destruct k.
  - by intros <-.
Qed.

Definition index_key (namespace : string) (ref : ObjectReference) : string :=
  nn_Namespace (leads_to namespace ref) ++ ("/" ++ ref_Name ref).

Lemma user_ref_keys_spec namespace i refs keys : namespace ≠ "" →
  user_ref_keys namespace i refs keys =
  if existsb (λ ref, String.eqb (ref_Name ref) "") refs then []
  else (keys ++ map (index_key namespace) refs)%list.
Proof.
  intros Hn. revert i keys; induction refs as [|ref refs IH]; intros i keys; simpl; [by rewrite app_nil_r|].
  destruct (String.eqb (ref_Name ref) ""); simpl; [done|]. rewrite resolves by done. rewrite IH.
  destruct (existsb _ refs); [done|]. by rewrite <- app_assoc.
Qed.

(** (C33) A change wakes up the objects whose reconcile reads it, and no others: for a
    Secret the RemoteUsers whose reference leads to it, for a RemoteUser the bindings
    with a reference that leads to it. But a single reference without a name hides
    every reference of its binding. *)
Theorem watches_wake_readers `{!FieldIndexer W RemoteUser, !FieldIndexer_laws W RemoteUser view}
    `{!FieldIndexer W RemoteUserBinding, !FieldIndexer_laws W RemoteUserBinding view} k w :
  plain_ns (nn_Namespace k) → nn_Name k ≠ "" →
  map_Forall (λ n ru, object_key ru = n ∧ plain_refs (om_Namespace (ru_Meta ru)) [ru_SecretRef (ru_Spec ru)])
    (v_ru (view w)) →
  map_Forall (λ n rub, object_key rub = n ∧
    plain_refs (om_Namespace (rub_Meta rub)) (rub_RemoteUserRefs (rub_Spec rub))) (v_rub (view w)) →
  (∃ l, findObjectsForSecret k w = (Ok l, w) ∧ ∀ n, n ∈ l ↔ ∃ ru, v_ru (view w) !! n = Some ru ∧
     leads_to (om_Namespace (ru_Meta ru)) (ru_SecretRef (ru_Spec ru)) = k) ∧
  (∃ l, findObjectsForRemoteUser k w = (Ok l, w) ∧ ∀ n, n ∈ l ↔ ∃ rub, v_rub (view w) !! n = Some rub ∧
     (∃ ref, ref ∈ rub_RemoteUserRefs (rub_Spec rub) ∧ leads_to (om_Namespace (rub_Meta rub)) ref = k) ∧
     Forall (λ ref, ref_Name ref ≠ "") (rub_RemoteUserRefs (rub_Spec rub))).
Proof.
  intros Hk Hname Hrus Hrubs. split.
  - destruct (list_by_index_spec remoteUserValueExtractor (nn_Namespace k ++ ("/" ++ nn_Name k)) w) as (l & Hl & Hin).
    exists (map object_key l). split; [unfold findObjectsForSecret, or_nothing, bind, attempt; by rewrite Hl|].
    intros n. rewrite list_elem_of_fmap. split.
    + intros (ru & -> & Hru). apply Hin in Hru as [Hs Hx]. exists ru. split; [done|].
      destruct (Hrus _ _ Hs) as [_ Hp]. revert Hx. unfold remoteUserValueExtractor.
      destruct (String.eqb _ ""); [by intros ?%not_elem_of_nil|]. rewrite resolves by apply Hp.
      intros Hx%list_elem_of_singleton%eq_sym. by apply leads_to_key in Hx.
    + intros (ru & Hs & Hl2). destruct (Hrus _ _ Hs) as [Hn Hp]. exists ru. split; [done|]. apply Hin.
      split; [simpl; by rewrite Hn|]. unfold remoteUserValueExtractor.
      rewrite (proj2 (String.eqb_neq _ _)) by (by rewrite <- Hl2 in Hname). rewrite resolves by apply Hp.
      apply list_elem_of_singleton. by apply eq_sym, leads_to_key.
  - destruct (list_by_index_spec remoteTargetValueExtractor (nn_Namespace k ++ ("/" ++ nn_Name k)) w) as (l & Hl & Hin).
    exists (map object_key l). split; [unfold findObjectsForRemoteUser, or_nothing, bind, attempt; by rewrite Hl|].
    intros n. rewrite list_elem_of_fmap. split.
    + intros (rub & -> & Hrub). apply Hin in Hrub as [Hs Hx]. exists rub. split; [done|].
      destruct (Hrubs _ _ Hs) as (_ & Hne & Hp & Hps). revert Hx. unfold remoteTargetValueExtractor.
      rewrite user_ref_keys_spec by done. simpl. destruct (existsb _ _) eqn:E; [by intros ?%not_elem_of_nil|].
      intros (ref & He & Hr)%list_elem_of_fmap. split.
      * exists ref. split; [done|]. apply leads_to_key; [|done|done]. split_and!; [done..|].
        rewrite Forall_forall in Hps. constructor; [auto|constructor].
      * apply Forall_forall. intros ref' Hr' He'. apply not_true_iff_false in E. apply E. apply existsb_exists.
        exists ref'. rewrite <- list_elem_of_In, String.eqb_eq. done.
    + intros (rub & Hs & (ref & Hr & Hl2) & Hall). destruct (Hrubs _ _ Hs) as (Hn & Hne & Hp & Hps). exists rub.
      split; [done|]. apply Hin. split; [simpl; by rewrite Hn|]. unfold remoteTargetValueExtractor.
      rewrite user_ref_keys_spec by done. simpl. destruct (existsb _ _) eqn:E.
      * apply existsb_exists in E as (ref' & Hr' & He'%String.eqb_eq). rewrite Forall_forall in Hall.
        by destruct (Hall ref'); [apply list_elem_of_In|].
      * apply list_elem_of_fmap. exists ref. split; [|done]. apply eq_sym, leads_to_key; [|done|done].
        split_and!; [done..|]. rewrite Forall_forall in Hps. constructor; [auto|constructor].
Qed.
End Levels.

(** ** Concrete objects, for the witnesses *)

#[local] Instance demo_indexer {T} `{Object T, Kind T} : FieldIndexer World T :=
  {| list_by_index extract key w :=
       (Ok (List.filter (λ o, existsb (String.eqb key) (extract o) &&
              bool_decide (is_Some (v_get (w_view w) !! object_key o)))
              (map snd (List.filter (λ '(k, o), bool_decide (object_key o = k)) (map_to_list (v_get (w_view w)))))), w) |}.
#[local] Instance demo_indexer_laws {T} `{Object T, Kind T} : FieldIndexer_laws World T w_view.
Proof.
  split. intros extract key w. eexists. split; [reflexivity|]. intros o.
  rewrite list_elem_of_In, filter_In, andb_true_iff, in_map_iff, bool_decide_eq_true, existsb_exists. split.
  - intros [([k o'] & <- & Hin) ((x & Hx & He%String.eqb_eq) & _)]. apply filter_In in Hin as [Hin Hk].
    apply bool_decide_eq_true in Hk as <-. apply list_elem_of_In, elem_of_map_to_list in Hin. subst x.
    by rewrite list_elem_of_In.
  - intros [Hk Hx]. split.
    + exists (object_key o, o). split; [done|]. apply filter_In. rewrite bool_decide_eq_true. split; [|done].
      by apply list_elem_of_In, elem_of_map_to_list.
    + split; [|by rewrite Hk]. exists key. by rewrite <- list_elem_of_In, String.eqb_refl.
Qed.

Definition demo_user (name : string) : RemoteUser :=
  mkRemoteUser (new_meta name "team" ∅) (mkRemoteUserSpec (mkRef "" "token") "a@b.c" "git.x")
    (mkRemoteUserStatus [] "" "" "" "").
Definition demo_binding (refs : list ObjectReference) : RemoteUserBinding :=
  mkRUB (new_meta "associated-rub-alice" "team" managed_labels)
    (mkRUBSpec (mkSubject "User" "alice" "") refs []) (mkRUBStatus [] "" [] "").
Definition demo_store (refs : list ObjectReference) : World :=
  world_of (mkView {[mkNN "team" "alice-git" := demo_user "alice-git"]}
    {[mkNN "team" "associated-rub-alice" := demo_binding refs]} ∅ ∅ ∅ ∅ ∅ ∅).

Lemma demo_store_ru refs k ru : v_ru (view (demo_store refs)) !! k = Some ru →
  k = mkNN "team" "alice-git" ∧ ru = demo_user "alice-git".
Proof.
  intros Hk. change (({[mkNN "team" "alice-git" := demo_user "alice-git"]} : gmap _ _) !! k = Some ru) in Hk.
  by apply lookup_singleton_Some in Hk as [<- <-].
Qed.
Lemma demo_store_rub refs k rub : v_rub (view (demo_store refs)) !! k = Some rub →
  k = mkNN "team" "associated-rub-alice" ∧ rub = demo_binding refs.
Proof.
  intros Hk.
  change (({[mkNN "team" "associated-rub-alice" := demo_binding refs]} : gmap _ _) !! k = Some rub) in Hk.
  by apply lookup_singleton_Some in Hk as [<- <-].
Qed.

Lemma secret_status_exact_witness :
  ∃ ru' w', reconcileSecretStatus (demo_store [], demo_user "alice-git") = (Ok tt, (w', ru')) ∧
    rus_SecretBoundStatus (ru_Status ru') = SecretNotFound.
Proof.
  destruct (secret_status_exact (demo_user "alice-git") (demo_store [])) as (rv & ru' & w' & l & c & Hr & _ & _ & _ & Hs & _);
    [reflexivity|discriminate|].
  exists ru', w'. split; [exact Hr|]. rewrite Hs. reflexivity.
Defined.

Lemma managed_binding_converges_witness :
  ∃ w1 w2, Reconcile_rub (object_key (demo_binding [mkRef "" "gone"])) (demo_store [mkRef "" "gone"]) = (Ok (no_requeue, None), w1) ∧
    Reconcile_rub (object_key (demo_binding [mkRef "" "gone"])) w1 = (Ok (no_requeue, None), w2).
Proof.
  destruct (managed_binding_converges (demo_binding [mkRef "" "gone"]) (demo_store [mkRef "" "gone"]))
    as (w1 & w2 & Hr1 & Hr2 & _); [reflexivity|discriminate|reflexivity..|].
  by exists w1, w2.
Defined.

Lemma watches_wake_readers_witness :
  ∃ l, findObjectsForSecret (mkNN "team" "token") (demo_store []) = (Ok l, demo_store []) ∧
    mkNN "team" "alice-git" ∈ l.
Proof.
  destruct (watches_wake_readers (mkNN "team" "token") (demo_store [])) as [(l & Hl & Hin) _];
    [reflexivity|discriminate| | |].
  - intros k ru [-> ->]%demo_store_ru. split; [done|]. split_and!; [done..|]. by repeat constructor.
  - intros k rub [-> ->]%demo_store_rub. split; [done|]. split_and!; [done..|constructor].
  - exists l. split; [exact Hl|]. apply Hin. exists (demo_user "alice-git"). split; reflexivity.
Defined.

(** The prune goes by name alone: a reference to a user that exists is removed from
    a managed binding together with a missing user of the same name in another
    namespace. *)
Theorem prune_drops_live_reference :
  let refs := [mkRef "" "alice-git"; mkRef "elsewhere" "alice-git"] in
  is_Some (v_ru (view (demo_store refs)) !! leads_to "team" (mkRef "" "alice-git")) ∧
  let run := Reconcile_rub (mkNN "team" "associated-rub-alice") (demo_store refs) in
  run.1 = Ok (no_requeue, None) ∧ v_rub (view run.2) = ∅.
Proof. split; [by eexists|]. split; vm_compute; reflexivity. Qed.
