(* ===== verification/Manager.v ===== *)
(** * The entry point and the wiring ([cmd/main.go], the [SetupWithManager] functions)

    What the process is configured to do: the options of the manager, the controllers with
    their watches, the paths the webhook server answers on. The manager itself, its queues
    and its servers are controller-runtime; [System.v] states what is relied on. *)

From S2P Require Import Prelude GoStr Api Errors External Feature Policy Policies Pipeline Dynamic Controllers.

(** ** Events and watches *)

(** [client.Object]: the kinds the controllers watch. *)
Inductive AnyObject :=
| ORemoteUser (o : RemoteUser) | ORemoteUserBinding (o : RemoteUserBinding) | ORemoteTarget (o : RemoteTarget)
| ORemoteSyncer (o : RemoteSyncer) | OClusterWideRemoteSyncer (o : ClusterWideRemoteSyncer) | OSecret (o : Secret)
| OWebhookConfiguration (o : ValidatingWebhookConfiguration).
#[export] Instance AnyObject_object : Object AnyObject :=
  {| get_meta o := match o with
                   | ORemoteUser o => get_meta o | ORemoteUserBinding o => get_meta o | ORemoteTarget o => get_meta o
                   | ORemoteSyncer o => get_meta o | OClusterWideRemoteSyncer o => get_meta o | OSecret o => get_meta o
                   | OWebhookConfiguration o => get_meta o
                   end |}.

Inductive ObjectKind := KRemoteUser | KRemoteUserBinding | KRemoteTarget | KRemoteSyncer | KClusterWideRemoteSyncer
  | KSecret | KWebhookConfiguration.
#[export] Instance ObjectKind_eq_dec : EqDecision ObjectKind.
Proof. solve_decision. Defined.
#[export] Instance ObjectKind_countable : Countable ObjectKind.
Proof.
  refine (inj_countable'
    (λ k, match k with KRemoteUser => 0 | KRemoteUserBinding => 1 | KRemoteTarget => 2 | KRemoteSyncer => 3
                  | KClusterWideRemoteSyncer => 4 | KSecret => 5 | KWebhookConfiguration => 6 end)%N
    (λ n, match n with 0 => KRemoteUser | 1 => KRemoteUserBinding | 2 => KRemoteTarget | 3 => KRemoteSyncer
                  | 4 => KClusterWideRemoteSyncer | 5 => KSecret | _ => KWebhookConfiguration end%N) _).
  by intros [].
Defined.
Definition kind_of (o : AnyObject) : ObjectKind :=
  match o with
  | ORemoteUser _ => KRemoteUser | ORemoteUserBinding _ => KRemoteUserBinding | ORemoteTarget _ => KRemoteTarget
  | ORemoteSyncer _ => KRemoteSyncer | OClusterWideRemoteSyncer _ => KClusterWideRemoteSyncer | OSecret _ => KSecret
  | OWebhookConfiguration _ => KWebhookConfiguration
  end.

Inductive Event := CreateEvent (o : AnyObject) | UpdateEvent (old new : AnyObject) | DeleteEvent (o : AnyObject).

(** [predicate.Funcs]. *)
Record Predicate := mkPredicate {
  CreateFunc : AnyObject → bool; UpdateFunc : AnyObject → AnyObject → bool; DeleteFunc : AnyObject → bool }.
Definition passes (p : Predicate) (e : Event) : bool :=
  match e with
  | CreateEvent o => CreateFunc p o
  | UpdateEvent old new => UpdateFunc p old new
  | DeleteEvent o => DeleteFunc p o
  end.
Definition webhookNamePredicate (name : string) : Predicate :=
  mkPredicate (λ o, String.eqb (om_Name (get_meta o)) name) (λ _ new, String.eqb (om_Name (get_meta new)) name)
    (λ o, String.eqb (om_Name (get_meta o)) name).

Record Watch (W : Type) := mkWatch {
  wt_Kind : ObjectKind; wt_Predicate : Predicate; wt_Map : AnyObject → M error W (list NamespacedName) }.
Arguments mkWatch {W}. Arguments wt_Kind {W}. Arguments wt_Predicate {W}. Arguments wt_Map {W}.
Record Controller (W : Type) := mkController { ct_For : ObjectKind; ct_Watches : list (Watch W) }.
Arguments mkController {W}. Arguments ct_For {W}. Arguments ct_Watches {W}.

(** ** The set-up of the controllers *)

(** [predicate.ResourceVersionChangedPredicate] of controller-runtime. *)
Class Predicates := { ResourceVersionChangedPredicate : Predicate }.

Definition loadFromEnv (Getenv : string → string) : dynamicWebhookManager :=
  mkManager (Getenv "DYNAMIC_WEBHOOK_NAME") (Getenv "MANAGER_NAMESPACE") (String.eqb (Getenv "DEV_MODE") "true")
    (Getenv "DEV_WEBHOOK_HOST") (Getenv "DEV_WEBHOOK_CERT") (Getenv "DEV_WEBHOOK_PORT").

Section Setup.
Context {W : Type} `{Cluster W, Lib, FileSystem W, Predicates, FieldIndexer W RemoteUser, FieldIndexer W RemoteUserBinding}.
Variable Getenv : string → string.

(** The functions that list the objects to wake take the object of the event; the wrong
    kind is a type assertion that fails, which answers nothing. *)
Definition binding_map (f : RemoteUserBinding → M error W (list NamespacedName)) (o : AnyObject)
  : M error W (list NamespacedName) := match o with ORemoteUserBinding rub => f rub | _ => ret [] end.
Definition target_map (f : RemoteTarget → M error W (list NamespacedName)) (o : AnyObject)
  : M error W (list NamespacedName) := match o with ORemoteTarget rt => f rt | _ => ret [] end.

Definition RemoteSyncer_SetupWithManager (WebhookServer : bool) : result error (dynamicWebhookManager * Controller W) :=
  let d := loadFromEnv Getenv in
  if negb WebhookServer then Err (plainError "the RemoteSyncer reconciler requires a WebhookServer")
  else Ok (d, mkController KRemoteSyncer
    [mkWatch KWebhookConfiguration (webhookNamePredicate (dm_dynamicWebhookName d))
       (λ _, findObjectsForDynamicWebhook_rs);
     mkWatch KRemoteUserBinding ResourceVersionChangedPredicate (binding_map findRemoteSyncersForRUB)]).

Definition ClusterWideRemoteSyncer_SetupWithManager (WebhookServer : bool)
  : result error (dynamicWebhookManager * Controller W) :=
  let d := loadFromEnv Getenv in
  if negb WebhookServer then Err (plainError "the ClusterWideRemoteSyncer reconciler requires a WebhookServer")
  else Ok (d, mkController KClusterWideRemoteSyncer
    [mkWatch KWebhookConfiguration (webhookNamePredicate (dm_dynamicWebhookName d))
       (λ _, findObjectsForDynamicWebhook_cw);
     mkWatch KRemoteUserBinding ResourceVersionChangedPredicate (binding_map findSyncersForRUB)]).

(** The index is registered first; the API machinery can refuse it. *)
Definition RemoteUser_SetupWithManager (IndexField : option error) : result error (Controller W) :=
  match IndexField with
  | Some err => Err err
  | None => Ok (mkController KRemoteUser
      [mkWatch KSecret ResourceVersionChangedPredicate (λ secret, findObjectsForSecret (object_key secret));
       mkWatch KRemoteTarget ResourceVersionChangedPredicate (target_map findRemoteUsersForRemoteTarget)])
  end.
Definition RemoteUserBinding_SetupWithManager (IndexField : option error) : result error (Controller W) :=
  match IndexField with
  | Some err => Err err
  | None => Ok (mkController KRemoteUserBinding
      [mkWatch KRemoteUser ResourceVersionChangedPredicate (λ remoteUser, findObjectsForRemoteUser (object_key remoteUser))])
  end.
Definition RemoteTarget_SetupWithManager : Controller W := mkController KRemoteTarget [].
End Setup.

(** ** [main] *)

Record Flags := mkFlags {
  metricsAddr : string; probeAddr : string; enableLeaderElection : bool; secureMetrics : bool;
  enableHTTP2 : bool; featureGatesFlag : string; repoCacheSize : Z; documentCacheSize : Z }.
(** The defaults of the flags. *)
Definition default_flags : Flags := mkFlags ":8080" ":8081" false false false "" 0 0.

Record TLSConfig := mkTLSConfig { NextProtos : list string }.
Definition disableHTTP2 (c : TLSConfig) : TLSConfig := mkTLSConfig ["http/1.1"].
Inductive FilterProvider := WithAuthenticationAndAuthorization.
Record MetricsOptions := mkMetricsOptions {
  mo_BindAddress : string; mo_SecureServing : bool; mo_TLSOpts : list (TLSConfig → TLSConfig);
  mo_FilterProvider : option FilterProvider }.
Record ImpersonationConfig := mkImpersonation { imp_UserName : string; imp_Groups : list string }.

(** The handlers of [internal/webhook/v1beta5]. *)
Inductive WebhookHandler :=
| RemoteUserPermissionsHandler | RemoteUserBindingPermissionsHandler | RemoteSyncerHandler
| ClusterWideRemoteSyncerHandler | RemoteUserManagedHandler.
#[export] Instance WebhookHandler_eq_dec : EqDecision WebhookHandler.
Proof. solve_decision. Defined.

(** What [main] has configured so far; the router of the interception server is the one of
    [Pipeline.v]. *)
Record Manager (W : Type) := mkManagerConfig {
  mg_gates : FeatureGates; mg_repoCache : Z; mg_documentCache : Z;
  mg_impersonate : option ImpersonationConfig; mg_webhookTLS : list (TLSConfig → TLSConfig);
  mg_metrics : MetricsOptions; mg_probeAddr : string; mg_leaderElection : option string;
  mg_controllers : list (Controller W); mg_interception : option string;
  mg_validated : list ObjectKind; mg_handlers : list (string * WebhookHandler); mg_checks : list string }.
Arguments mkManagerConfig {W}. Arguments mg_gates {W}. Arguments mg_metrics {W}. Arguments mg_controllers {W}.
Arguments mg_interception {W}. Arguments mg_validated {W}. Arguments mg_handlers {W}. Arguments mg_checks {W}.
Arguments mg_impersonate {W}. Arguments mg_webhookTLS {W}. Arguments mg_repoCache {W}. Arguments mg_documentCache {W}.
Arguments mg_probeAddr {W}. Arguments mg_leaderElection {W}.

Section Updates.
Context {W : Type}.
Definition add_controller (c : Controller W) (mg : Manager W) : Manager W :=
  mkManagerConfig (mg_gates mg) (mg_repoCache mg) (mg_documentCache mg) (mg_impersonate mg) (mg_webhookTLS mg)
    (mg_metrics mg) (mg_probeAddr mg) (mg_leaderElection mg)
    (mg_controllers mg ++ [c])%list (mg_interception mg) (mg_validated mg) (mg_handlers mg) (mg_checks mg).
Definition set_interception (path : string) (mg : Manager W) : Manager W :=
  mkManagerConfig (mg_gates mg) (mg_repoCache mg) (mg_documentCache mg) (mg_impersonate mg) (mg_webhookTLS mg)
    (mg_metrics mg) (mg_probeAddr mg) (mg_leaderElection mg)
    (mg_controllers mg) (Some path) (mg_validated mg) (mg_handlers mg) (mg_checks mg).
Definition add_validated (k : ObjectKind) (mg : Manager W) : Manager W :=
  mkManagerConfig (mg_gates mg) (mg_repoCache mg) (mg_documentCache mg) (mg_impersonate mg) (mg_webhookTLS mg)
    (mg_metrics mg) (mg_probeAddr mg) (mg_leaderElection mg)
    (mg_controllers mg) (mg_interception mg) (mg_validated mg ++ [k])%list (mg_handlers mg) (mg_checks mg).
Definition add_handler (path : string) (h : WebhookHandler) (mg : Manager W) : Manager W :=
  mkManagerConfig (mg_gates mg) (mg_repoCache mg) (mg_documentCache mg) (mg_impersonate mg) (mg_webhookTLS mg)
    (mg_metrics mg) (mg_probeAddr mg) (mg_leaderElection mg)
    (mg_controllers mg) (mg_interception mg) (mg_validated mg) (mg_handlers mg ++ [(path, h)])%list (mg_checks mg).
Definition add_check (name : string) (mg : Manager W) : Manager W :=
  mkManagerConfig (mg_gates mg) (mg_repoCache mg) (mg_documentCache mg) (mg_impersonate mg) (mg_webhookTLS mg)
    (mg_metrics mg) (mg_probeAddr mg) (mg_leaderElection mg)
    (mg_controllers mg) (mg_interception mg) (mg_validated mg) (mg_handlers mg) (mg_checks mg ++ [name])%list.
End Updates.

Section Main.
Context {W : Type} `{Cluster W, Lib, FileSystem W, Predicates, FieldIndexer W RemoteUser, FieldIndexer W RemoteUserBinding}.
Variable Getenv : string → string.
(** The error of a library call of the set-up, named by what it sets up. *)
Variable Outcome : string → option error.

(** An error means [os.Exit(1)] after it was logged. *)
Definition Setup (A : Type) : Type := M string (Manager W) A.
Definition always (effect : Manager W → Manager W) : Setup unit := λ mg, (Ok tt, effect mg).
Definition call (message : string) (effect : Manager W → Manager W) : Setup unit :=
  match Outcome message with
  | Some _ => throw message
  | None => always effect
  end.
Definition set_up (message : string) (c : result error (Controller W)) : Setup unit :=
  match c with
  | Ok c => call message (add_controller c)
  | Err _ => throw message
  | Panic => panic
  end.
Definition start_interception (path : string) : Setup unit := always (set_interception path).
Definition set_up_webhook (message : string) (k : ObjectKind) : Setup unit := call message (add_validated k).
Definition register_handler (path : string) (h : WebhookHandler) : Setup unit := always (add_handler path h).
Definition set_up_check (message name : string) : Setup unit := call message (add_check name).

Definition dev_impersonation : option ImpersonationConfig :=
  if String.eqb (Getenv "DEV_MODE") "true" then
    let managerNs := Getenv "MANAGER_NAMESPACE" in
    Some (mkImpersonation ("system:serviceaccount:" ++ (managerNs ++ ":syngit-controller-manager"))
      ["system:serviceaccounts"; "system:serviceaccounts:" ++ managerNs; "system:authenticated"])
  else None.
Definition tlsOpts (f : Flags) : list (TLSConfig → TLSConfig) := if enableHTTP2 f then [] else [disableHTTP2].
(** The options that are built, and those that are given to the manager. *)
Definition metricsServerOptions (f : Flags) : MetricsOptions :=
  mkMetricsOptions (metricsAddr f) (secureMetrics f) (tlsOpts f)
    (if secureMetrics f then Some WithAuthenticationAndAuthorization else None).
Definition manager_metrics (f : Flags) : MetricsOptions :=
  mkMetricsOptions (metricsAddr f) (secureMetrics f) (tlsOpts f) None.

(** [ctrl.NewManager], with what was configured before it. *)
Definition NewManager (f : Flags) : Manager W :=
  mkManagerConfig (fst (Set_gates LoadedFeatureGates (featureGatesFlag f))) (repoCacheSize f) (documentCacheSize f)
    dev_impersonation (tlsOpts f) (manager_metrics f) (probeAddr f)
    (if enableLeaderElection f then Some "23bf18fa.syngit.io" else None) [] None [] [] [].

Definition set_up_controllers : Setup unit :=
  set_up "RemoteUser" (RemoteUser_SetupWithManager (Outcome "index RemoteUser"));;;
  set_up "RemoteUserBinding" (RemoteUserBinding_SetupWithManager (Outcome "index RemoteUserBinding"));;;
  start_interception "/syngit/";;;
  set_up "RemoteSyncer" (match RemoteSyncer_SetupWithManager Getenv true with
                         | Ok (_, c) => Ok c | Err e => Err e | Panic => Panic end);;;
  set_up "ClusterWideRemoteSyncer" (match ClusterWideRemoteSyncer_SetupWithManager Getenv true with
                                    | Ok (_, c) => Ok c | Err e => Err e | Panic => Panic end);;;
  set_up "RemoteTarget" (Ok RemoteTarget_SetupWithManager).

Definition set_up_webhooks : Setup unit :=
  if String.eqb (Getenv "ENABLE_WEBHOOKS") "false" then ret tt
  else
    set_up_webhook "webhook RemoteUser" KRemoteUser;;;
    set_up_webhook "webhook RemoteSyncer" KRemoteSyncer;;;
    set_up_webhook "webhook RemoteUserBinding" KRemoteUserBinding;;;
    set_up_webhook "webhook RemoteTarget" KRemoteTarget;;;
    set_up_webhook "webhook ClusterWideRemoteSyncer" KClusterWideRemoteSyncer;;;
    register_handler "/syngit-v1beta5-remoteuser-permissions" RemoteUserPermissionsHandler;;;
    register_handler "/syngit-v1beta5-remoteuserbinding-permissions" RemoteUserBindingPermissionsHandler;;;
    register_handler "/syngit-v1beta5-remotesyncer-rules-permissions" RemoteSyncerHandler;;;
    register_handler "/syngit-v1beta5-clusterwideremotesyncer-rules-permissions" ClusterWideRemoteSyncerHandler;;;
    register_handler "/syngit-v1beta5-remoteuser-managed" RemoteUserManagedHandler.

(** Up to the start of the manager. *)
Definition main (f : Flags) : result string unit * Manager W :=
  match Outcome "unable to start manager" with
  | Some _ => (Err "unable to start manager", NewManager f)
  | None =>
      (set_up_controllers;;;
       set_up_webhooks;;;
       set_up_check "unable to set up health check" "healthz";;;
       set_up_check "unable to set up ready check" "readyz") (NewManager f)
  end.

(** ** What is served *)

Lemma call_ok message effect : Outcome message = None → call message effect = always effect.
Proof. intros Hok. unfold call. by rewrite Hok. Qed.
Lemma always_bind effect (k : Setup unit) mg : (always effect;;; k) mg = k (effect mg).
Proof. done. Qed.

(** What a run leaves when no library call fails. *)
Definition with_controllers (f : Flags) : Manager W :=
  let d := loadFromEnv Getenv in
  foldl (flip add_controller)
    (set_interception "/syngit/" (foldl (flip add_controller) (NewManager f)
      (omap (λ r, match r with Ok c => Some c | _ => None end)
        [RemoteUser_SetupWithManager None; RemoteUserBinding_SetupWithManager None])))
    (omap (λ r, match r with Ok (_, c) => Some c | _ => None end)
       [RemoteSyncer_SetupWithManager Getenv true; ClusterWideRemoteSyncer_SetupWithManager Getenv true] ++ [RemoteTarget_SetupWithManager])%list.
Definition with_webhooks (mg : Manager W) : Manager W :=
  if String.eqb (Getenv "ENABLE_WEBHOOKS") "false" then mg
  else foldl (λ mg '(path, h), add_handler path h mg)
    (foldl (flip add_validated) mg [KRemoteUser; KRemoteSyncer; KRemoteUserBinding; KRemoteTarget; KClusterWideRemoteSyncer])
    [("/syngit-v1beta5-remoteuser-permissions", RemoteUserPermissionsHandler);
     ("/syngit-v1beta5-remoteuserbinding-permissions", RemoteUserBindingPermissionsHandler);
     ("/syngit-v1beta5-remotesyncer-rules-permissions", RemoteSyncerHandler);
     ("/syngit-v1beta5-clusterwideremotesyncer-rules-permissions", ClusterWideRemoteSyncerHandler);
     ("/syngit-v1beta5-remoteuser-managed", RemoteUserManagedHandler)].

Lemma main_runs f : (∀ message, Outcome message = None) →
  main f = (Ok tt, add_check "readyz" (add_check "healthz" (with_webhooks (with_controllers f)))).
Proof.
  intros Hok. assert (Hctl : set_up_controllers (NewManager f) = (Ok tt, with_controllers f)).
  { unfold set_up_controllers, set_up, start_interception. rewrite !Hok.
    unfold RemoteUser_SetupWithManager, RemoteUserBinding_SetupWithManager, RemoteSyncer_SetupWithManager,
      ClusterWideRemoteSyncer_SetupWithManager. cbv zeta. cbn [negb].
    rewrite !(call_ok _ _ (Hok _)), !always_bind. reflexivity. }
  assert (Hweb : ∀ mg, set_up_webhooks mg = (Ok tt, with_webhooks mg)).
  { intros mg. unfold set_up_webhooks, with_webhooks. destruct (String.eqb _ "false"); [done|].
    unfold set_up_webhook, register_handler. rewrite !(call_ok _ _ (Hok _)). by rewrite !always_bind. }
  unfold main. rewrite Hok, (bind_ok _ _ _ _ _ Hctl), (bind_ok _ _ _ _ _ (Hweb _)).
  unfold set_up_check. rewrite !(call_ok _ _ (Hok _)). by rewrite always_bind.
Qed.

(** One controller per kind of object, every one of them on the router and the webhook server of
    the same process: the interception server, the validators and the permission handlers. *)
Lemma main_serves f : (∀ message, Outcome message = None) →
  ∃ mg, main f = (Ok tt, mg) ∧
    map ct_For (mg_controllers mg) = [KRemoteUser; KRemoteUserBinding; KRemoteSyncer; KClusterWideRemoteSyncer; KRemoteTarget] ∧
    mg_interception mg = Some "/syngit/" ∧
    (Getenv "ENABLE_WEBHOOKS" ≠ "false" →
       mg_validated mg = [KRemoteUser; KRemoteSyncer; KRemoteUserBinding; KRemoteTarget; KClusterWideRemoteSyncer] ∧
       NoDup (map fst (mg_handlers mg)) ∧ ∀ h, h ∈ map snd (mg_handlers mg)).
Proof.
  intros Hok. rewrite main_runs by done. eexists. split; [done|]. unfold with_webhooks.
  destruct (String.eqb_spec (Getenv "ENABLE_WEBHOOKS") "false") as [->|Hne]; [by split_and!|].
  split_and!; [done..|]. intros _. split_and!; [done|apply (bool_decide_unpack _); reflexivity|].
  intros h. apply (bool_decide_unpack _). by destruct h.
Qed.

(** The protection of the metrics endpoint is built and not passed on: with
    [--metrics-secure] the metrics are served to anyone who can reach the address. *)
Lemma metrics_unprotected f : secureMetrics f = true → (∀ message, Outcome message = None) →
  mo_FilterProvider (metricsServerOptions f) = Some WithAuthenticationAndAuthorization ∧
  ∃ mg, main f = (Ok tt, mg) ∧ mo_SecureServing (mg_metrics mg) = true ∧ mo_FilterProvider (mg_metrics mg) = None.
Proof.
  intros Hs Hok. unfold metricsServerOptions. rewrite Hs. split; [done|]. rewrite main_runs by done.
  eexists. split; [done|]. unfold with_webhooks. by destruct (String.eqb _ "false").
Qed.
End Main.
