(* ===== verification/PolicyFrame.v ===== *)
(** * What the policies leave alone

    Whatever the API server answers, a run of the policies of a syncer writes syncers,
    targets and bindings only: the shared webhook configuration is as before. *)

From S2P Require Import Prelude Frame GoStr Api Errors External Naming Managed Policy Policies Dynamic.

(** Every write to a kind, accepted or not, changes nothing of the other kinds. *)
Class Contained (W T : Type) `{ApiServer W, Store W T, Kind T} := {
  create_contained (o : T) w r w' : client_Create o w = (r, w') → ∃ m : gmap NamespacedName T, view w' = v_set m (view w);
  update_contained (o : T) w r w' : client_Update o w = (r, w') → ∃ m : gmap NamespacedName T, view w' = v_set m (view w);
  delete_contained (o : T) w r w' : client_Delete o w = (r, w') → ∃ m : gmap NamespacedName T, view w' = v_set m (view w) }.

Section Frame.
Context {W : Type} `{ApiServer W, Lib}.
Context `{!Contained W RemoteUserBinding, !Contained W RemoteTarget, !Contained W RemoteSyncer,
  !Contained W ClusterWideRemoteSyncer}.

(** The shared configurations, seen from a state that holds a world. *)
Definition configs {S} (world : S → W) (s : S) (_ : unit) : gmap NamespacedName ValidatingWebhookConfiguration :=
  v_vwc (view (world s)).
Abbreviation here := (configs (S := W) id).
Abbreviation there := (configs (S := W * Syncer) fst).

Lemma get_kept {T} `{Object T, Stamp T, Kind T, !Store W T, !StoreLaws W T view} n : changes here nothing (client_Get (T := T) n).
Proof. intros w r w' Hr k _. by apply get_inv in Hr as [-> _]. Qed.
Lemma list_kept {T} `{Object T, Stamp T, Kind T, !Store W T, !StoreLaws W T view} opts :
  changes here nothing (client_List (T := T) opts).
Proof. intros w r w' Hr k _. destruct (list_all opts w) as (l & Hl & _). rewrite Hl in Hr. by simplify_eq. Qed.

(** A kind whose writes do not show in the configurations. *)
Definition unseen (T : Type) `{Kind T} : Prop := ∀ (m : gmap NamespacedName T) v, v_vwc (v_set m v) = v_vwc v.
Lemma create_kept {T} `{Kind T, !Store W T, !Contained W T} (o : T) : unseen T → changes here nothing (client_Create o).
Proof. intros Hu w r w' Hr k _. apply create_contained in Hr as [m Hm]. unfold configs, id. by rewrite Hm. Qed.
Lemma update_kept {T} `{Kind T, !Store W T, !Contained W T} (o : T) : unseen T → changes here nothing (client_Update o).
Proof. intros Hu w r w' Hr k _. apply update_contained in Hr as [m Hm]. unfold configs, id. by rewrite Hm. Qed.
Lemma delete_kept {T} `{Kind T, !Store W T, !Contained W T} (o : T) : unseen T → changes here nothing (client_Delete o).
Proof. intros Hu w r w' Hr k _. apply delete_contained in Hr as [m Hm]. unfold configs, id. by rewrite Hm. Qed.
#[local] Hint Extern 1 (changes _ _ (client_Get _)) => apply get_kept : changes.
#[local] Hint Extern 1 (changes _ _ (client_List _)) => apply list_kept : changes.
#[local] Hint Extern 1 (changes _ _ (client_Create _)) => apply create_kept; done : changes.
#[local] Hint Extern 1 (changes _ _ (client_Update _)) => apply update_kept; done : changes.
#[local] Hint Extern 1 (changes _ _ (client_Delete _)) => apply delete_kept; done : changes.

Lemma rand_kept n : changes here nothing (rand_Intn n).
Proof. intros w r w' Hr k _. destruct (rand_spec n w) as [m Hm]. rewrite Hm in Hr. by simplify_eq. Qed.
#[local] Hint Resolve rand_kept : changes.

Lemma retry_in_kept {S A} (world : W * S → W) (f : M error (W * S) A) :
  changes (configs world) nothing f → changes (configs world) nothing (RetryOnConflict_in f).
Proof.
  intros Hf s r s' Hr k Hk. apply retry_spec in Hr. induction Hr as [s r s' Hr|s e s1 r s' Hr _ _ IH]; [by eapply Hf|].
  rewrite IH. by eapply Hf.
Qed.
Lemma outside_kept {S A} (m : M error W A) : changes here nothing m →
  changes (configs (S := W * S) fst) nothing (outside m).
Proof.
  intros Hm [w s] r [w' s'] Hr k Hk. unfold outside in Hr. destruct (m w) as [r0 w0] eqn:E. simplify_eq. by eapply Hm.
Qed.
Lemma retry_kept {A} (f : M error W A) : changes here nothing f → changes here nothing (RetryOnConflict f).
Proof.
  intros Hf w r w' Hr k Hk. unfold RetryOnConflict in Hr.
  destruct (RetryOnConflict_in (outside f) (w, tt)) as [r0 [w0 []]] eqn:E. simplify_eq.
  exact (retry_in_kept fst _ (outside_kept f Hf) _ _ _ E k Hk).
Qed.
Lemma check_kept {S A} (obs : S → unit → gmap NamespacedName ValidatingWebhookConfiguration) res (m : M error S A) k :
  changes obs nothing m → (∀ a, changes obs nothing (k a)) → changes obs nothing (check res m k).
Proof. intros Hm Hk. unfold check. apply changes_bind; [by apply changes_attempt|]. intros [a|e]; [apply Hk|apply changes_ret]. Qed.
Lemma each_kept {A} (body : A → M error W unit) l : (∀ a, changes here nothing (body a)) → changes here nothing (for_each body l).
Proof. intros Hb. induction l as [|a l IH]; cbn [for_each]; [apply changes_ret|]. apply changes_bind; [apply Hb|done]. Qed.

Ltac kept :=
  repeat first
    [ solve [auto with changes]
    | changes_step
    | apply check_kept; [|intros]
    | apply each_kept; intros
    | apply retry_kept
    | apply retry_in_kept
    | apply outside_kept ].

(** ** The policies *)

Lemma mutate_kept name (f : RemoteUserBinding → RemoteUserBinding) :
  changes here nothing (MutateOrDeleteRemoteUserBinding name (λ r, ret (f r))).
Proof. unfold MutateOrDeleteRemoteUserBinding, mutate_once. kept. Qed.
#[local] Hint Resolve mutate_kept : changes.
Lemma remove_ref_kept ns n : changes here nothing (RemoveRemoteTargetRefFromRUBs ns n).
Proof. unfold RemoveRemoteTargetRefFromRUBs, managed_list. kept. Qed.
Lemma delete_tolerant_kept (rt : RemoteTarget) : changes here nothing (delete_tolerant rt).
Proof. unfold delete_tolerant. kept. Qed.
Lemma create_tolerant_kept (rt : RemoteTarget) : changes here nothing (create_tolerant rt).
Proof. unfold create_tolerant. kept. Qed.
Lemma others_kept s key : changes here nothing (getOtherSyncersWith s key).
Proof. unfold getOtherSyncersWith. cbv zeta. kept. Qed.
#[local] Hint Resolve remove_ref_kept delete_tolerant_kept create_tolerant_kept others_kept : changes.
Lemma jitter_kept : changes here nothing (jitter (W := W)).
Proof. unfold jitter. kept. Qed.
#[local] Hint Resolve jitter_kept : changes.

Lemma prune_branches_kept requeue s desired others l : changes here nothing (prune_branches requeue s desired others l).
Proof. induction l as [|[b rt] l IH]; cbn [prune_branches]; kept. Qed.
#[local] Hint Resolve prune_branches_kept : changes.
Lemma branch_reconcile_kept ord s : changes here nothing (BranchTarget_Reconcile ord s).
Proof.
  unfold BranchTarget_Reconcile, listManagedBranchTargets, getOtherSyncersWithBranchPolicy, create_branch. cbv zeta. kept.
Qed.
Lemma branch_cleanup_kept s : changes here nothing (cleanupBranchTargets s).
Proof. unfold cleanupBranchTargets, listManagedBranchTargets, getOtherSyncersWithBranchPolicy. cbv zeta. kept. Qed.

Lemma user_targets_kept requeue s l existing annotation active :
  changes here nothing (reconcileUserTargets requeue s l existing annotation active).
Proof.
  revert active; induction l as [|r l IH]; intros active; cbn [reconcileUserTargets]; cbv zeta; unfold ensureRTRefInRUB; kept.
Qed.
Lemma prune_users_kept requeue active others l : changes here nothing (prune_users requeue active others l).
Proof. induction l as [|[u rt] l IH]; cbn [prune_users]; kept. Qed.
#[local] Hint Resolve user_targets_kept prune_users_kept : changes.
Lemma user_reconcile_kept ord s : changes here nothing (UserSpecific_Reconcile ord s).
Proof.
  unfold UserSpecific_Reconcile, listManagedRUBs, listUserSpecificTargets, pruneStaleTargets, getOtherSyncersWithUserSpecific.
  cbv zeta. kept.
Qed.
Lemma user_cleanup_kept s : changes here nothing (cleanupUserSpecificTargets s).
Proof. unfold cleanupUserSpecificTargets, listUserSpecificTargets, getOtherSyncersWithUserSpecific. kept. Qed.
#[local] Hint Resolve branch_reconcile_kept branch_cleanup_kept user_reconcile_kept user_cleanup_kept : changes.

(** ** The host *)

Context `{Finalizers}.

Lemma obj_kept : changes there nothing the_obj.
Proof. intros s r s' Hr k _. unfold the_obj in Hr. by simplify_eq. Qed.
Lemma set_obj_kept o : changes there nothing (set_obj o).
Proof. intros [w s] r [w' s'] Hr k _. unfold set_obj in Hr. by simplify_eq. Qed.
#[local] Hint Resolve obj_kept set_obj_kept : changes.
Lemma syncer_get_kept s : changes here nothing (obj_Get s).
Proof. destruct s; cbn [obj_Get syncer_client_object]; unfold map_ok; kept. Qed.
Lemma syncer_update_kept s : changes here nothing (obj_Update s).
Proof. destruct s; cbn [obj_Update syncer_client_object]; unfold map_ok; kept. Qed.
#[local] Hint Resolve syncer_get_kept syncer_update_kept : changes.
Lemma refresh_kept : changes there nothing refresh.
Proof. unfold refresh. kept. Qed.
Lemma update_obj_kept : changes there nothing update.
Proof. unfold update. kept. Qed.
#[local] Hint Resolve refresh_kept update_obj_kept : changes.
Lemma removeFinalizer_kept f : changes there nothing (removeFinalizer (T := Syncer) f).
Proof. unfold removeFinalizer. kept. Qed.
Lemma add_finalizers_kept needed b : changes there nothing (add_finalizers (T := Syncer) needed b).
Proof. revert b; induction needed as [|f l IH]; intros b; cbn [add_finalizers]; kept. Qed.
#[local] Hint Resolve removeFinalizer_kept add_finalizers_kept : changes.

(** A policy whose work does not show. *)
Definition discreet (p : Policy W Syncer) : Prop :=
  changes there nothing (p_Reconcile p) ∧ changes there nothing (p_Cleanup p).

Lemma run_policy_kept p : discreet p → changes there nothing (run_policy p).
Proof. intros [Hr Hc]. unfold run_policy. kept. Qed.
Lemma run_all_kept ps res errs : Forall discreet ps → changes there nothing (run_all ps res errs).
Proof.
  intros Hp. revert res errs. induction Hp as [|p ps Hp _ IH]; intros res errs; cbn [run_all]; [apply changes_ret|].
  apply changes_bind; [by apply run_policy_kept|]. intros [res' err]. apply IH.
Qed.
Lemma run_cleanups_kept ps : Forall discreet ps → changes there nothing (run_cleanups ps).
Proof. induction 1 as [|p ps [Hr Hc] _ IH]; cbn [run_cleanups]; kept. Qed.
Lemma RunPolicies_kept ps : Forall discreet ps → changes there nothing (RunPolicies ps).
Proof.
  intros Hp. unfold RunPolicies, ensureFinalizers. pose proof (run_cleanups_kept ps Hp). pose proof (λ r e, run_all_kept ps r e Hp). kept.
Qed.

Lemma on_obj_kept {A} (f : Syncer → M error W A) : (∀ s, changes here nothing (f s)) → changes there nothing (on_obj f).
Proof. intros Hf. unfold on_obj. apply changes_bind; [exact obj_kept|]. intros s. by apply outside_kept. Qed.

Lemma syncer_policies_kept ord w s r w' s' :
  RunPolicies (syncer_policies ord) (w, s) = (r, (w', s')) → v_vwc (view w') = v_vwc (view w).
Proof.
  intros Hr. refine (RunPolicies_kept (syncer_policies ord) _ _ _ _ Hr tt _); [|by intros []].
  apply Forall_cons; split; [|apply Forall_singleton]; (split; apply on_obj_kept; intros; auto with changes).
Qed.
End Frame.
