(* ===== verification/System.v ===== *)
(** * The manager at work: syncers, interception server and shared configuration

    The two controllers of the syncers, the interception server and the API server as a
    transition system: users change objects, the watches of [Manager.v] fill the queue, the
    controllers take keys out of it, requests come in. Every call of a pass or of a request
    that reads or writes what others share is a step of its own, so that passes, requests and
    users interleave between any two of them. The theorem is what the queue is for: a
    syncer nobody has to look at any more is intercepted as it is stored. *)

From stdpp Require Import propset.
From S2P Require Import Prelude GoStr Api Errors External Policy Policies PolicyProps Pipeline Dynamic Controllers Deletion Manager PolicyFrame Sim.
From Stdlib Require Import Ascii.

(** The entries of the other names, from the list without the own one. *)
Lemma others_own name n l l' : n ≠ name → other_webhooks name l' = other_webhooks name l → own_webhooks n l' = own_webhooks n l.
Proof.
  intros Hn Ho. assert (Hall : ∀ l, own_webhooks n l = own_webhooks n (other_webhooks name l)).
  { clear Ho. intros l0. unfold own_webhooks, other_webhooks. induction l0 as [|x l0 IH]; [done|]. simpl.
    destruct (String.eqb_spec (wh_Name x) name) as [E|E]; cbn [negb].
    - rewrite E. apply not_eq_sym, String.eqb_neq in Hn. by rewrite Hn.
    - simpl. destruct (String.eqb (wh_Name x) n); [by rewrite IH|done]. }
  by rewrite (Hall l'), (Hall l), Ho.
Qed.

Definition is_gone {A} (o : option A) : bool := match o with Some _ => false | None => true end.

(** ** A pass of one kind of controller *)

Section Kind.
Context {W : Type} `{ApiServer W, Lib, Finalizers, FileSystem W}.
Context `{!Contained W RemoteUserBinding, !Contained W RemoteTarget, !Contained W RemoteSyncer,
  !Contained W ClusterWideRemoteSyncer}.
Context {T : Type} `{Object T, Stamp T, Kind T, !Store W T, !StoreLaws W T view, !SyncerKind T}.
Context (d : dynamicWebhookManager) (ord : gmap string RemoteTarget → list (string * RemoteTarget)).
Context (key : NamespacedName) (path : string) (entry : T → dynamicWebhookEntry) (zero : T)
  (upd : T → Condition → M error W unit).
Context (upd_status : ∀ o c, ∃ n, upd o c = (client_StatusUpdate (with_status n o);;; ret tt)).

Abbreviation stored w := (v_get (T := T) (view w)).

(** Whatever the condition, its update returns and leaves the configurations alone. *)
Lemma upd_harmless o : harmless (upd o).
Proof.
  intros c w. destruct (upd_status o c) as [n ->]. unfold attempt, bind.
  destruct (status_scoped (with_status n o) w) as (r & w' & Hr & Hp & Hv). rewrite Hr.
  assert (Hvwc : v_vwc (view w') = v_vwc (view w)) by (destruct Hv as [->|[m ->]]; [done|apply kind_others]).
  destruct r as [a|e|]; [| |done]; eexists _, w'; split; try reflexivity; done.
Qed.

(** A pass reads the syncer, registers or unregisters it, brings its entry up to date, and
    what follows touches neither handlers nor configurations. *)
Lemma pass_shape w hs r w' hs' : resting d (view w) → cert_readable (W := W) d →
  full_pass d ord key path entry zero upd (w, hs) = (r, (w', hs')) →
  ∃ w1, upsert d (match stored w !! key with Some o => entry o | None => entry zero end) (is_gone (stored w !! key)) w = (Ok tt, w1) ∧
    v_vwc (view w') = v_vwc (view w1) ∧
    hs' = match stored w !! key with Some o => <[path := syncer_of o]> hs | None => delete path hs end.
Proof.
  intros Hrest Hcert Hrun. destruct (now_spec w) as [t Ht].
  destruct (upsert_run d (match stored w !! key with Some o => entry o | None => entry zero end) (is_gone (stored w !! key)) w Hrest Hcert)
    as (w1 & Hup & _ & _ & _).
  exists w1. split; [exact Hup|]. unfold full_pass, reconcile_syncer in Hrun.
  assert (Hcore : ∃ w2, webhook_pass d key path entry zero upd (w, hs) = (Ok no_requeue, (w2,
      match stored w !! key with Some o => <[path := syncer_of o]> hs | None => delete path hs end)) ∧
    v_vwc (view w2) = v_vwc (view w1)).
  { unfold webhook_pass. destruct (stored w !! key) as [o|] eqn:Ho; cbn [is_gone] in Hup.
    - destruct (upd_harmless o (mkCondition "WebhookReconciled" "True" "WebhookUpdated"
        "The resources have been successfully assigned to the webhook" t) w1) as (r2 & w2 & Hr2 & Hv2).
      exists w2. split; [|exact Hv2]. rewrite (bind_ok _ _ (w, hs) (inl o) (w, hs))
        by (unfold attempt, in_world, outside; by rewrite (get_found key w o Ho)).
      unfold with_handlers at 1, bind at 1. unfold apply_entry.
      rewrite (bind_ok _ _ _ t (w, <[path := syncer_of o]> hs)) by (unfold in_world, outside; by rewrite Ht).
      rewrite (bind_ok _ _ _ (inl tt) (w1, <[path := syncer_of o]> hs)) by (unfold attempt, in_world, outside; by rewrite Hup).
      unfold attempt in Hr2. unfold bind, attempt, in_world, outside. destruct (upd o _ w1) as [[a|e|] w3]; by simplify_eq.
    - destruct (get_missing key w Ho) as [msg Hg]. exists w1. split; [|done].
      rewrite (bind_ok _ _ (w, hs) (inr (apiError NotFound msg)) (w, hs))
        by (unfold attempt, in_world, outside; by rewrite Hg).
      unfold with_handlers at 1, bind at 1. unfold apply_entry.
      rewrite (bind_ok _ _ _ t (w, delete path hs)) by (unfold in_world, outside; by rewrite Ht).
      by rewrite (bind_ok _ _ _ (inl tt) (w1, delete path hs)) by (unfold attempt, in_world, outside; by rewrite Hup). }
  destruct Hcore as (w2 & Hcore & Hv2). revert Hrun Hcore.
  generalize (match stored w !! key with Some o => <[path := syncer_of o]> hs | None => delete path hs end).
  intros hs2 Hrun Hcore. revert Hrun.
  assert (Hboth : both (webhook_pass d key path entry zero upd) (w, hs) = (Ok (no_requeue, None), (w2, hs2)))
    by (unfold both, bind, attempt; by rewrite Hcore).
  rewrite (bind_ok _ _ _ _ _ Hboth). destruct (stored w2 !! key) as [o2|] eqn:Ho2.
  - assert (Hg : attempt (in_world (map_ok syncer_of (client_Get key))) (w2, hs2) = (Ok (inl (syncer_of o2)), (w2, hs2)))
      by (unfold attempt, in_world, outside, map_ok, bind; by rewrite (get_found key w2 o2 Ho2)).
    rewrite (bind_ok _ _ _ _ _ Hg).
    unfold bind, run_policies. destruct (RunPolicies (syncer_policies ord) (w2, syncer_of o2)) as [r2 [w3 s3]] eqn:E.
    apply syncer_policies_kept in E. destruct r2 as [[polResult polErr]|e|]; unfold ret; intros ?; simplify_eq; by rewrite E.
  - destruct (get_missing key w2 Ho2) as [msg Hget].
    assert (Hg : attempt (in_world (map_ok syncer_of (client_Get key))) (w2, hs2) = (Ok (inr (apiError NotFound msg)), (w2, hs2)))
      by (unfold attempt, in_world, outside, map_ok, bind; by rewrite Hget).
    rewrite (bind_ok _ _ _ _ _ Hg). unfold ret. intros ?. by simplify_eq.
Qed.
End Kind.
(** ** Objects, events and keys *)

#[export] Instance ObjectMeta_eq_dec : EqDecision ObjectMeta.
Proof. solve_decision. Defined.
#[export] Instance Condition_eq_dec : EqDecision Condition.
Proof. solve_decision. Defined.
#[export] Instance RuleWithOperations_eq_dec : EqDecision RuleWithOperations.
Proof. solve_decision. Defined.
#[export] Instance ScopedResources_eq_dec : EqDecision ScopedResources.
Proof. solve_decision. Defined.
#[export] Instance SOPSConfig_eq_dec : EqDecision SOPSConfig.
Proof. solve_decision. Defined.
#[export] Instance Subject_eq_dec : EqDecision Subject.
Proof. solve_decision. Defined.
#[export] Instance RemoteSyncerSpec_eq_dec : EqDecision RemoteSyncerSpec.
Proof. solve_decision. Defined.
#[export] Instance UserInfo_eq_dec : EqDecision UserInfo.
Proof. solve_decision. Defined.
#[export] Instance JsonGVRN_eq_dec : EqDecision JsonGVRN.
Proof. solve_decision. Defined.
#[export] Instance LastBypassed_eq_dec : EqDecision LastBypassedObjectState.
Proof. solve_decision. Defined.
#[export] Instance LastObserved_eq_dec : EqDecision LastObservedObjectState.
Proof. solve_decision. Defined.
#[export] Instance LastPushed_eq_dec : EqDecision LastPushedObjectState.
Proof. solve_decision. Defined.
#[export] Instance RemoteSyncerStatus_eq_dec : EqDecision RemoteSyncerStatus.
Proof. solve_decision. Defined.
#[export] Instance RemoteSyncer_eq_dec : EqDecision RemoteSyncer.
Proof. solve_decision. Defined.
#[export] Instance CWSpec_eq_dec : EqDecision ClusterWideRemoteSyncerSpec.
Proof. solve_decision. Defined.
#[export] Instance ClusterWideRemoteSyncer_eq_dec : EqDecision ClusterWideRemoteSyncer.
Proof. solve_decision. Defined.
#[export] Instance Syncer_eq_dec : EqDecision Syncer.
Proof. solve_decision. Defined.
#[export] Instance ServiceReference_eq_dec : EqDecision ServiceReference.
Proof. solve_decision. Defined.
#[export] Instance WebhookClientConfig_eq_dec : EqDecision WebhookClientConfig.
Proof. solve_decision. Defined.
#[export] Instance ValidatingWebhook_eq_dec : EqDecision ValidatingWebhook.
Proof. solve_decision. Defined.
#[export] Instance WebhookConfiguration_eq_dec : EqDecision ValidatingWebhookConfiguration.
Proof. solve_decision. Defined.

(** The objects an event is about. *)
Definition objects_of (e : Event) : list AnyObject :=
  match e with
  | CreateEvent o | DeleteEvent o => [o]
  | UpdateEvent old new => [old; new]
  end.

(** What happened to one kind of objects. *)
Inductive differs {T} (wrap : T → AnyObject) (m m' : gmap NamespacedName T) : Event → Prop :=
| appeared k o : m !! k = None → m' !! k = Some o → differs wrap m m' (CreateEvent (wrap o))
| modified k o o' : m !! k = Some o → m' !! k = Some o' → o ≠ o' → differs wrap m m' (UpdateEvent (wrap o) (wrap o'))
| vanished k o : m !! k = Some o → m' !! k = None → differs wrap m m' (DeleteEvent (wrap o)).

(** What a controller is asked to look at: an object of its kind. *)
Abbreviation key := (ObjectKind * NamespacedName)%type.

(** The keys the names of objects allow: the API server accepts no dot and no slash in the
    name of a namespace. A namespace called [clusterwide] is left out: its entries collide
    with those of the cluster-wide syncers ([entry_names_collide]). *)
Definition valid_key (x : key) : Prop :=
  match x.1 with
  | KRemoteSyncer => segment (nn_Namespace x.2) ∧ no_dot (nn_Namespace x.2) = true ∧ nn_Namespace x.2 ≠ "clusterwide"
  | KClusterWideRemoteSyncer => nn_Namespace x.2 = ""
  | _ => False
  end.

(** The path a syncer is registered under, and the name of its entry. *)
Definition path_of_key (x : key) : string :=
  match x.1 with KRemoteSyncer => RemoteSyncerWebhookPath x.2 | _ => ClusterWideRemoteSyncerWebhookPath (nn_Name x.2) end.
Definition entry_of_key (x : key) : string :=
  match x.1 with KRemoteSyncer => remoteSyncer_entry_name x.2 | _ => clusterWide_entry_name x.2 end.
(** The entry a controller makes of what it read: of the zero object when there is nothing. *)
Definition entry_of (x : key) (o : option Syncer) : dynamicWebhookEntry :=
  match x.1 with
  | KRemoteSyncer => remoteSyncer_entry x.2 (match o with Some (SyncerRS rs) => rs | _ => zero_RemoteSyncer end)
  | _ => clusterWide_entry x.2 (match o with Some (SyncerCW cw) => cw | _ => zero_ClusterWideRemoteSyncer end)
  end.
Lemma entry_of_name x o : en_name (entry_of x o) = entry_of_key x.
Proof. by destruct x as [[] k]. Qed.

Lemma paths_distinct x y : valid_key x → valid_key y → x ≠ y → path_of_key x ≠ path_of_key y.
Proof.
  unfold valid_key, path_of_key. destruct x as [[] [ns n]], y as [[] [ns' n']]; cbn [fst snd nn_Name nn_Namespace]; try done; intros Hx Hy Hne He; apply Hne.
  all: try by (apply paths_disjoint in He || (symmetry in He; apply paths_disjoint in He)).
  - apply namespaced_path_inj in He; [congruence|apply Hx|apply Hy].
  - unfold ClusterWideRemoteSyncerWebhookPath in He. apply append_inj_l in He. congruence.
Qed.
Lemma entries_distinct x y : valid_key x → valid_key y → x ≠ y → entry_of_key x ≠ entry_of_key y.
Proof.
  unfold valid_key, entry_of_key. destruct x as [[] k], y as [[] k']; cbn [fst snd]; try done; intros Hx Hy Hne He; apply Hne.
  all: destruct (entry_names_collide k k') as (H1' & H2' & H3'); [first [apply Hx|by rewrite Hx]|first [apply Hy|by rewrite Hy]|].
  - apply H1' in He. congruence.
  - apply H3' in He as [Hc _]. by destruct Hx as (_ & _ & ?).
  - symmetry in He. destruct (entry_names_collide k' k) as (_ & _ & H4'); [apply Hy|by rewrite Hx|].
    apply H4' in He as [Hc _]. by destruct Hy as (_ & _ & ?).
  - apply H2' in He. destruct k, k'. simpl in *. congruence.
Qed.

(** The API server refuses the update of a configuration from another version than the one
    that is stored, and of one that is not stored. *)
Class Versioned (W : Type) `{ApiServer W} := {
  update_stale (c c0 : ValidatingWebhookConfiguration) w : v_vwc (view w) !! object_key c = Some c0 →
    om_ResourceVersion (get_meta c) ≠ om_ResourceVersion (get_meta c0) →
    ∃ msg, client_Update c w = (Err (apiError Conflict msg), w);
  update_missing (c : ValidatingWebhookConfiguration) w : v_vwc (view w) !! object_key c = None →
    ∃ msg, client_Update c w = (Err (apiError NotFound msg), w) }.

(** ** The transition system *)

Section System.
Context {W : Type} `{ApiServer W, Lib, Finalizers, FileSystem W, Predicates}.
Context (Getenv : string → string).
Abbreviation d := (loadFromEnv Getenv).

(** The syncer stored under a key, and the call that reads it. *)
Definition stored_syncer (w : W) (x : key) : option Syncer :=
  match x.1 with
  | KRemoteSyncer => SyncerRS <$> v_rs (view w) !! x.2
  | KClusterWideRemoteSyncer => SyncerCW <$> v_cwrs (view w) !! x.2
  | _ => None
  end.
Definition fetch (x : key) : M error W Syncer :=
  match x.1 with
  | KRemoteSyncer => map_ok SyncerRS (client_Get x.2)
  | _ => map_ok SyncerCW (client_Get x.2)
  end.

(** What a controller asks controller-runtime for, as documented: the object of an event of
    its own kind is enqueued, and for an event of a watched kind that passes the predicate,
    whatever the function of the watch answers for the old and for the new object. *)
Inductive asks (c : Controller W) (w : W) (e : Event) : NamespacedName → Prop :=
| asks_own o : o ∈ objects_of e → kind_of o = ct_For c → asks c w e (object_key o)
| asks_watch wt o l w' k : wt ∈ ct_Watches c → o ∈ objects_of e → kind_of o = wt_Kind wt →
    passes (wt_Predicate wt) e = true → wt_Map wt o w = (Ok l, w') → k ∈ l → asks c w e k.

(** The controllers [SetupWithManager] makes of the two kinds of syncer. *)
Definition syncer_controller (c : Controller W) : Prop :=
  (∃ d', RemoteSyncer_SetupWithManager Getenv true = Ok (d', c)) ∨
  (∃ d', ClusterWideRemoteSyncer_SetupWithManager Getenv true = Ok (d', c)).

Definition rs_controller : Controller W :=
  match RemoteSyncer_SetupWithManager Getenv true with Ok (_, c) => c | _ => mkController KRemoteSyncer [] end.
Definition cw_controller : Controller W :=
  match ClusterWideRemoteSyncer_SetupWithManager Getenv true with Ok (_, c) => c | _ => mkController KClusterWideRemoteSyncer [] end.
Lemma rs_controller_set_up : syncer_controller rs_controller.
Proof. left. by eexists. Qed.
Lemma cw_controller_set_up : syncer_controller cw_controller.
Proof. right. by eexists. Qed.

Definition occurred (w w' : W) (e : Event) : Prop :=
  differs ORemoteSyncer (v_rs (view w)) (v_rs (view w')) e ∨
  differs OClusterWideRemoteSyncer (v_cwrs (view w)) (v_cwrs (view w')) e ∨
  differs ORemoteUserBinding (v_rub (view w)) (v_rub (view w')) e ∨
  differs OWebhookConfiguration (v_vwc (view w)) (v_vwc (view w')) e.

(** The queue of the two controllers, by the kind they are for; it holds keys only. A key that
    is asked for while a pass works on it waits for the end of this pass. *)
Abbreviation queue := (propset key).
(** More keys may be in the queue: the manager also wakes objects when it resynchronises. *)
Definition woken (q q' : queue) : Prop := q ⊆ q' ∧ ∀ x, x ∈ q' → valid_key x.
(** The queue after a change: nothing is lost and everything asked for is there. *)
Definition notified (w w' : W) (q q' : queue) : Prop :=
  woken q q' ∧ ∀ e c k, occurred w w' e → syncer_controller c → asks c w' e k → (ct_For c, k) ∈ q'.

(** What the API server guarantees of the stored objects. *)
Record stored_well (w : W) : Prop := {
  sw_rs : keyed (v_rs (view w));
  sw_cwrs : keyed (v_cwrs (view w));
  sw_vwc : keyed (v_vwc (view w));
  sw_rs_keys k : is_Some (v_rs (view w) !! k) → valid_key (KRemoteSyncer, k);
  sw_cw_keys k : is_Some (v_cwrs (view w) !! k) → valid_key (KClusterWideRemoteSyncer, k) }.

(** How far a pass of a controller is: what it read of its syncer, whether it has registered
    or unregistered it, the entry it will write, what it read of the shared
    configuration, and whether it wrote it or failed. *)
Inductive phase :=
| Started
| Fetched (o : option Syncer)
| Registered (o : option Syncer)
| Prepared (o : option Syncer) (webhook : ValidatingWebhook) (annotations : gmap string string)
| Answered (o : option Syncer) (webhook : ValidatingWebhook) (annotations : gmap string string)
    (r : ValidatingWebhookConfiguration + error)
| Upserted
| Failed.

(** A resource version names one state of the configuration: the one a pass has read is
    still stored when its version is. *)
Definition versions_kept (ps : gmap key phase) (w : W) : Prop :=
  ∀ x o webhook annotations c c', ps !! x = Some (Answered o webhook annotations (inl c)) →
    v_vwc (view w) !! config_key d = Some c' →
    om_ResourceVersion (get_meta c') = om_ResourceVersion (get_meta c) → c' = c.

(** The state: the world, the handlers of the server, the queue, the passes and the requests
    that are on their way (a request with the syncer it has read, if it has). [sy_late] is
    the history of one race: the keys under which a request registered a syncer that was not
    stored any more, and no pass has registered or unregistered since. *)
Record Sys := mkSys {
  sy_world : W; sy_handlers : Handlers; sy_queue : queue;
  sy_passes : gmap key phase; sy_requests : list (key * option Syncer); sy_late : gset key }.

(** The keys the routes of the server make of a path. *)
Definition routed (x : key) : Prop :=
  match x.1 with
  | KRemoteSyncer => segment (nn_Namespace x.2)
  | KClusterWideRemoteSyncer => nn_Namespace x.2 = ""
  | _ => False
  end.

(** How the write of the configuration ends a turn of [RetryOnConflict]. *)
Inductive after_write (o : option Syncer) (webhook : ValidatingWebhook) (annotations : gmap string string) :
  result error unit → phase → Prop :=
| write_done : after_write o webhook annotations (Ok tt) Upserted
| write_again e : IsConflict e = true → after_write o webhook annotations (Err e) (Prepared o webhook annotations)
| write_failed e : after_write o webhook annotations (Err e) Failed.

Inductive step : Sys → Sys → Prop :=
(** anyone changes the cluster, the end of a pass included (the status of the syncer, its
    policies); entries of the shared configuration may be altered and removed by hand, but not
    made up *)
| step_change w w' hs q q' ps rq late : stored_well w' → resting d (view w') →
    (∀ x, x ∈ webhooks_of d (view w') → ∃ y, y ∈ webhooks_of d (view w) ∧ wh_Name y = wh_Name x) →
    notified w w' q q' → versions_kept ps w' → step (mkSys w hs q ps rq late) (mkSys w' hs q' ps rq late)
(** a controller takes a key nobody works on out of its queue *)
| step_take x w hs q ps rq late : x ∈ q → ps !! x = None →
    step (mkSys w hs q ps rq late) (mkSys w hs (q ∖ {[x]}) (<[x := Started]> ps) rq late)
(** it reads the syncer: any error stands for its absence *)
| step_get x r w hs q ps rq late : ps !! x = Some Started → attempt (fetch x) w = (Ok r, w) →
    step (mkSys w hs q ps rq late)
      (mkSys w hs q (<[x := Fetched (match r with inl s => Some s | inr _ => None end)]> ps) rq late)
(** it registers or unregisters it *)
| step_register x o w hs q ps rq late : ps !! x = Some (Fetched o) →
    step (mkSys w hs q ps rq late)
      (mkSys w (match o with Some s => register (path_of_key x) s hs | None => Unregister (path_of_key x) hs end) q
         (<[x := Registered o]> ps) rq (late ∖ {[x]}))
(** it reads the certificate and makes the entry *)
| step_cert x o ca config annotations w hs q ps rq late : ps !! x = Some (Registered o) → caCert d w = (Ok ca, w) →
    clientConfig d ca (en_path (entry_of x o)) = (config, annotations) →
    step (mkSys w hs q ps rq late)
      (mkSys w hs q (<[x := Prepared o (entry_webhook (entry_of x o) config) annotations]> ps) rq late)
| step_no_cert x o e w hs q ps rq late : ps !! x = Some (Registered o) → caCert d w = (Err e, w) →
    step (mkSys w hs q ps rq late) (mkSys w hs q (<[x := Failed]> ps) rq late)
(** it reads the shared configuration *)
| step_read x o webhook annotations r w hs q ps rq late : ps !! x = Some (Prepared o webhook annotations) →
    attempt (client_Get (config_key d)) w = (Ok r, w) →
    step (mkSys w hs q ps rq late) (mkSys w hs q (<[x := Answered o webhook annotations r]> ps) rq late)
(** it writes what it makes of it *)
| step_write x o webhook annotations r res ph w w' hs q q' ps rq late :
    ps !! x = Some (Answered o webhook annotations r) →
    upsert_write d webhook annotations (is_gone o) r w = (res, w') → after_write o webhook annotations res ph →
    stored_well w' → notified w w' q q' → versions_kept (<[x := ph]> ps) w' →
    step (mkSys w hs q ps rq late) (mkSys w' hs q' (<[x := ph]> ps) rq late)
(** the pass ends, and a pass that failed is asked for again *)
| step_end x ph w hs q q' ps rq late : ps !! x = Some ph → ph = Upserted ∨ (ph = Failed ∧ x ∈ q') → woken q q' →
    step (mkSys w hs q ps rq late) (mkSys w hs q' (delete x ps) rq late)
(** a request comes in for a path without a handler; one that finds a handler changes nothing *)
| step_miss x w hs q ps rq late : routed x → handlerFor (path_of_key x) hs = None →
    step (mkSys w hs q ps rq late) (mkSys w hs q ps (rq ++ [(x, None)]) late)
(** it reads the syncer, or answers a 404 *)
| step_look x s w hs q ps rq1 rq2 late : fetch x w = (Ok s, w) →
    step (mkSys w hs q ps (rq1 ++ (x, None) :: rq2) late) (mkSys w hs q ps (rq1 ++ (x, Some s) :: rq2) late)
| step_not_found x e w hs q ps rq1 rq2 late : fetch x w = (Err e, w) →
    step (mkSys w hs q ps (rq1 ++ (x, None) :: rq2) late) (mkSys w hs q ps (rq1 ++ rq2) late)
(** it registers what it read, and is answered from it *)
| step_serve x s w hs q ps rq1 rq2 late :
    step (mkSys w hs q ps (rq1 ++ (x, Some s) :: rq2) late)
      (mkSys w (register (path_of_key x) s hs) q ps (rq1 ++ rq2)
         (if decide (stored_syncer w x = Some s) then late ∖ {[x]} else late ∪ {[x]})).

(** ** What a change wakes *)

Lemma differs_at {T} `{Object T} `{EqDecision T} (wrap : T → AnyObject) (m m' : gmap NamespacedName T) k :
  (∀ o, get_meta (wrap o) = get_meta o) → keyed m → keyed m' → m' !! k ≠ m !! k →
  ∃ e o, differs wrap m m' e ∧ wrap o ∈ objects_of e ∧ object_key (wrap o) = k ∧
    ∀ a, a ∈ objects_of e → object_key a = k.
Proof.
  intros Hw Hk Hk' Hne.
  assert (Hkey : ∀ m o, keyed m → m !! k = Some o → object_key (wrap o) = k).
  { intros m0 o Hk0 Ho. unfold object_key. rewrite Hw. exact (Hk0 _ _ Ho). }
  destruct (m !! k) as [o|] eqn:E, (m' !! k) as [o'|] eqn:E'; [| | |done].
  - assert (Hoo : o ≠ o') by congruence. pose proof (Hkey m o Hk E). pose proof (Hkey m' o' Hk' E').
    exists (UpdateEvent (wrap o) (wrap o')), o. split_and!; [by eapply modified|by left|done|].
    by intros a [->|[->|?%not_elem_of_nil]%elem_of_cons]%elem_of_cons.
  - pose proof (Hkey m o Hk E). exists (DeleteEvent (wrap o)), o. split_and!; [by eapply vanished|by left|done|].
    by intros a ->%list_elem_of_singleton.
  - pose proof (Hkey m' o' Hk' E'). exists (CreateEvent (wrap o')), o'. split_and!; [by eapply appeared|by left|done|].
    by intros a ->%list_elem_of_singleton.
Qed.

Lemma passes_named name e : (∀ a, a ∈ objects_of e → om_Name (get_meta a) = name) → passes (webhookNamePredicate name) e = true.
Proof.
  destruct e as [o|old new|o]; cbn; intros Ha; apply String.eqb_eq, Ha; [by left|right; by left|by left].
Qed.

(** What is stored under a key did not change. *)
Definition same_stored (x : key) (w w' : W) : Prop := stored_syncer w' x = stored_syncer w x.

(** A key that nobody asked for belongs to an object that did not change. *)
Lemma unasked_same w w' q q' x : stored_well w → stored_well w' → notified w w' q q' → valid_key x → x ∉ q' → same_stored x w w'.
Proof.
  intros Hw Hw' [_ Hn] Hv Hx. unfold same_stored, stored_syncer. destruct x as [[] k]; cbn; try done; f_equal.
  - destruct (decide (v_rs (view w') !! k = v_rs (view w) !! k)) as [|Hne]; [done|]. exfalso. apply Hx.
    destruct (differs_at ORemoteSyncer (v_rs (view w)) (v_rs (view w')) k) as (e & o & He & Ho & <- & _); [done|apply Hw|apply Hw'|done|].
    exact (Hn e rs_controller _ (or_introl He) rs_controller_set_up (asks_own rs_controller _ _ _ Ho eq_refl)).
  - destruct (decide (v_cwrs (view w') !! k = v_cwrs (view w) !! k)) as [|Hne]; [done|]. exfalso. apply Hx.
    destruct (differs_at OClusterWideRemoteSyncer (v_cwrs (view w)) (v_cwrs (view w')) k) as (e & o & He & Ho & <- & _);
      [done|apply Hw|apply Hw'|done|].
    exact (Hn e cw_controller _ (or_intror (or_introl He)) cw_controller_set_up (asks_own cw_controller _ _ _ Ho eq_refl)).
Qed.

Lemma find_syncers_rs w : ∃ l, findObjectsForDynamicWebhook_rs w = (Ok l, w) ∧
  (stored_well w → ∀ k, is_Some (v_rs (view w) !! k) → k ∈ l).
Proof.
  unfold findObjectsForDynamicWebhook_rs, or_nothing.
  destruct (list_elems (T := RemoteSyncer) (mkListOptions "" None) w) as (l & Hl & Hin).
  eexists. split; [unfold bind, attempt; by rewrite Hl|]. intros Hw k [rs Hrs]. apply list_elem_of_fmap. exists rs.
  split; [by rewrite (sw_rs _ Hw _ _ Hrs)|]. apply Hin. split; [by exists k|done].
Qed.
Lemma find_syncers_cw w : ∃ l, findObjectsForDynamicWebhook_cw w = (Ok l, w) ∧
  (stored_well w → ∀ k, is_Some (v_cwrs (view w) !! k) → k ∈ l).
Proof.
  unfold findObjectsForDynamicWebhook_cw, or_nothing.
  destruct (list_elems (T := ClusterWideRemoteSyncer) (mkListOptions "" None) w) as (l & Hl & Hin).
  eexists. split; [unfold bind, attempt; by rewrite Hl|]. intros Hw k [cw Hcw]. apply list_elem_of_fmap. exists cw.
  pose proof (sw_cw_keys _ Hw k (ex_intro _ cw Hcw)) as Hns. cbn in Hns. pose proof (sw_cwrs _ Hw _ _ Hcw) as Hk.
  unfold object_key, meta_key in Hk. cbn in Hk. split; [destruct k as [ns n]; simpl in *; congruence|].
  apply Hin. split; [by exists k|done].
Qed.

(** A change of the shared configuration wakes every syncer. *)
Lemma config_wakes w w' q q' x : stored_well w → stored_well w' → notified w w' q q' →
  v_vwc (view w') !! config_key d ≠ v_vwc (view w) !! config_key d → is_Some (stored_syncer w' x) → x ∈ q'.
Proof.
  intros Hw Hw' [_ Hn] Hne Hx.
  destruct (differs_at OWebhookConfiguration (v_vwc (view w)) (v_vwc (view w')) (config_key d)) as (e & o & He & Ho & _ & Hall);
    [done|apply Hw|apply Hw'|done|].
  assert (Hp : passes (webhookNamePredicate (dm_dynamicWebhookName d)) e = true).
  { apply passes_named. intros a Ha. apply Hall in Ha. unfold object_key, meta_key, config_key in Ha. congruence. }
  assert (Hev : occurred w w' e) by (by right; right; right).
  unfold stored_syncer in Hx. destruct x as [[] k]; cbn in Hx; try (by destruct Hx); apply fmap_is_Some in Hx.
  - destruct (find_syncers_rs w') as (l & Hl & Hin). specialize (Hin Hw' k Hx).
    apply (Hn e rs_controller k Hev rs_controller_set_up).
    eapply (asks_watch rs_controller _ _ (mkWatch _ _ _)); [by left|exact Ho|done|exact Hp|exact Hl|done].
  - destruct (find_syncers_cw w') as (l & Hl & Hin). specialize (Hin Hw' k Hx).
    apply (Hn e cw_controller k Hev cw_controller_set_up).
    eapply (asks_watch cw_controller _ _ (mkWatch _ _ _)); [by left|exact Ho|done|exact Hp|exact Hl|done].
Qed.

Lemma own_empty n l l' : (∀ x, x ∈ l' → ∃ y, y ∈ l ∧ wh_Name y = wh_Name x) →
  own_webhooks n l = [] → own_webhooks n l' = [].
Proof.
  intros Hsub He. destruct (own_webhooks n l') as [|x o] eqn:E; [done|]. exfalso.
  assert (Hx : x ∈ own_webhooks n l') by (rewrite E; by left). apply elem_filter in Hx as [Hx Hn%String.eqb_eq].
  destruct (Hsub x Hx) as (y & Hy & Hyn). assert (Hin : y ∈ own_webhooks n l).
  { apply elem_filter. split; [done|]. apply String.eqb_eq. congruence. }
  rewrite He in Hin. by apply not_elem_of_nil in Hin.
Qed.

(** ** In line *)

(** The entry of a syncer: one of its name, with its rules and selectors, and none when the
    syncer is not stored. *)
Definition entry_in_line (x : key) (w : W) : Prop :=
  match stored_syncer w x with
  | Some o => ∃ e, own_webhooks (entry_of_key x) (webhooks_of d (view w)) = [e] ∧
      intercepts e (entry_of_key x) (en_rules (entry_of x (Some o))) (en_namespaceSelector (entry_of x (Some o)))
        (en_objectSelector (entry_of x (Some o)))
  | None => own_webhooks (entry_of_key x) (webhooks_of d (view w)) = []
  end.
(** Its handler: the syncer as it is stored, if it is. *)
Definition handler_in_line (x : key) (w : W) (hs : Handlers) : Prop := handlerFor (path_of_key x) hs = stored_syncer w x.

(** What is known of a key that does not wait in the queue, by the phase of its pass. *)
Definition key_ok (x : key) (ph : option phase) (w : W) (hs : Handlers) (late : gset key) : Prop :=
  let registered := x ∉ late → handler_in_line x w hs in
  match ph with
  | None | Some Upserted => entry_in_line x w ∧ registered
  | Some Started | Some Failed => True
  | Some (Fetched o) => o = stored_syncer w x
  | Some (Registered o) | Some (Prepared o _ _) => o = stored_syncer w x ∧ registered
  | Some (Answered o _ _ r) => o = stored_syncer w x ∧ registered ∧
      match r, o with
      | inl c, Some _ => v_vwc (view w) !! config_key d = Some c
      | inr _, None => own_webhooks (entry_of_key x) (webhooks_of d (view w)) = []
      | _, _ => True
      end
  end.

#[local] Arguments key_ok : simpl never.

(** What a pass holds, whatever the queue. *)
Definition made_for (x : key) (o : option Syncer) (webhook : ValidatingWebhook) : Prop :=
  ∃ config, webhook = entry_webhook (entry_of x o) config.
Definition answer_ok (r : ValidatingWebhookConfiguration + error) : Prop :=
  match r with
  | inl c => object_key c = config_key d ∧ om_DeletionTimestamp (vwc_Meta c) = None ∧ NoDup (map wh_Name (vwc_Webhooks c))
  | inr e => IsNotFound e = true
  end.
Definition phase_ok (x : key) (ph : phase) : Prop :=
  match ph with
  | Prepared o webhook _ => made_for x o webhook
  | Answered o webhook _ r => made_for x o webhook ∧ answer_ok r
  | _ => True
  end.

(** Every syncer is in line, or waits to be looked at, or is being looked at. *)
Record inv (s : Sys) : Prop := {
  inv_rest : resting d (view (sy_world s));
  inv_well : stored_well (sy_world s);
  inv_queue x : x ∈ sy_queue s → valid_key x;
  inv_passes x ph : sy_passes s !! x = Some ph → valid_key x ∧ phase_ok x ph;
  inv_requests x o : (x, o) ∈ sy_requests s → routed x ∧ (o ≠ None → valid_key x);
  inv_versions : versions_kept (sy_passes s) (sy_world s);
  inv_line x : valid_key x → x ∉ sy_queue s → key_ok x (sy_passes s !! x) (sy_world s) (sy_handlers s) (sy_late s) }.

Lemma handler_kept x w w' hs hs' : handler_in_line x w hs → same_stored x w w' → hs' !! path_of_key x = hs !! path_of_key x →
  handler_in_line x w' hs'.
Proof. unfold handler_in_line, handlerFor, same_stored. by intros Hh -> ->. Qed.

(** A change of the world, seen by a key it does not wake. *)
Lemma key_ok_moves x ph w w' hs late : key_ok x ph w hs late → same_stored x w w' →
  v_vwc (view w') !! config_key d = v_vwc (view w) !! config_key d ∨ stored_syncer w' x = None →
  (own_webhooks (entry_of_key x) (webhooks_of d (view w)) = [] → own_webhooks (entry_of_key x) (webhooks_of d (view w')) = []) →
  key_ok x ph w' hs late.
Proof.
  intros Hk Hs Hc He. unfold same_stored in Hs. assert (Hr : (x ∉ late → handler_in_line x w hs) → x ∉ late → handler_in_line x w' hs).
  { intros Hr Hl. by apply (handler_kept x w w' hs hs (Hr Hl)). }
  assert (Hel : entry_in_line x w → entry_in_line x w').
  { unfold entry_in_line. rewrite Hs. destruct (stored_syncer w x) as [o|] eqn:E; [|done].
    destruct Hc as [Hc|Hc]; [unfold webhooks_of; by rewrite Hc|congruence]. }
  unfold key_ok in *. destruct ph as [[|o|o|o webhook annotations|o webhook annotations r| |]|]; try tauto; try (split; tauto).
  - congruence.
  - destruct Hk as [-> ?]. split; [by rewrite Hs|auto].
  - destruct Hk as [-> ?]. split; [by rewrite Hs|auto].
  - destruct Hk as (-> & ? & Hf). split_and!; [by rewrite Hs|auto|]. rewrite <- Hs in *.
    destruct r as [c|e], (stored_syncer w' x) as [o|]; auto. by destruct Hc as [->|?].
Qed.

(** A change of the handlers, seen by a key whose path it leaves alone, and by the key itself. *)
Lemma key_ok_handlers (x : key) (ph : option phase) (w : W) (hs hs' : Handlers) (late late' : gset key) : key_ok x ph w hs late →
  hs' !! path_of_key x = hs !! path_of_key x → (x ∉ late' → x ∉ late) → key_ok x ph w hs' late'.
Proof.
  intros Hk Hh Hl. assert (Hr : (x ∉ late → handler_in_line x w hs) → x ∉ late' → handler_in_line x w hs').
  { intros Hr Hn. unfold handler_in_line, handlerFor. rewrite Hh. by apply Hr, Hl. }
  unfold key_ok in *. destruct ph as [[]|]; tauto.
Qed.
Lemma key_ok_served (x : key) (ph : option phase) (w : W) (hs hs' : Handlers) (late late' : gset key) : key_ok x ph w hs late →
  (x ∉ late' → handler_in_line x w hs') → key_ok x ph w hs' late'.
Proof. intros Hk Hr. unfold key_ok in *. destruct ph as [[]|]; tauto. Qed.
(** ** The steps of a pass *)

Lemma valid_routed x : valid_key x → routed x.
Proof. destruct x as [[] k]; cbn; try done. by intros (? & _). Qed.

Lemma fetch_inv x w r w' : routed x → fetch x w = (r, w') →
  w' = w ∧ match r with Ok s => stored_syncer w x = Some s | Err _ => stored_syncer w x = None | Panic => False end.
Proof.
  intros Hx Hr. unfold fetch, stored_syncer in *. destruct x as [[] k]; cbn in *; try done.
  all: unfold map_ok, bind in Hr; destruct (client_Get k w) as [[o|e|] w1] eqn:E; apply get_inv in E as [-> E]; unfold ret in Hr; simplify_eq; try done.
  all: split; [done|]; cbn in E; first [by rewrite E|by destruct E as [-> _]].
Qed.
Lemma stored_valid w x : stored_well w → is_Some (stored_syncer w x) → valid_key x.
Proof.
  intros Hw Hx. unfold stored_syncer in Hx.
  destruct x as [[] k]; cbn in Hx; try (by destruct Hx); apply fmap_is_Some in Hx; [by apply (sw_rs_keys _ Hw)|by apply (sw_cw_keys _ Hw)].
Qed.

Context `{!Versioned W}.
Implicit Types (w : W) (hs : Handlers) (q : queue) (ps : gmap key phase) (rq : list (key * option Syncer)) (late : gset key)
  (x y : key) (ph : phase) (o : option Syncer).

(** A write of the configuration: it is refused, or there is nothing to write, or the entries
    are rebuilt from the version that is stored. *)
Lemma write_cases webhook annotations isDeleted r w res w' :
  resting d (view w) → answer_ok r →
  (∀ c c', r = inl c → v_vwc (view w) !! config_key d = Some c' →
     om_ResourceVersion (get_meta c') = om_ResourceVersion (get_meta c) → c' = c) →
  upsert_write d webhook annotations isDeleted r w = (res, w') →
  (w' = w ∧ ((∃ e, res = Err e) ∨
     (res = Ok tt ∧ match r with inl c => isDeleted = false ∧ up_to_date webhook (vwc_Webhooks c) = true | inr _ => isDeleted = true end))) ∨
  (res = Ok tt ∧ resting d (view w') ∧ (∃ m, view w' = v_set (T := ValidatingWebhookConfiguration) m (view w)) ∧
     entry_applied webhook isDeleted (webhooks_of d (view w)) (webhooks_of d (view w'))).
Proof.
  intros Hrest Hr Hver. unfold upsert_write. destruct r as [c|e]; cbn in Hr.
  - destruct Hr as (Hk & Hd & Hnd). destruct (up_to_date webhook (vwc_Webhooks c) && negb isDeleted) eqn:Eu.
    { apply andb_true_iff in Eu as [Hup ->%negb_true_iff]. unfold ret. intros [= <- <-]. left. auto. }
    set (l := if isDeleted then other_webhooks _ _ else _). set (c1 := mkVWC (vwc_Meta c) l).
    assert (Hk1 : object_key c1 = config_key d) by exact Hk. unfold bind.
    destruct (v_vwc (view w) !! config_key d) as [c0|] eqn:Ec.
    + destruct (decide (om_ResourceVersion (get_meta c0) = om_ResourceVersion (get_meta c))) as [Hrv|Hrv].
      * assert (c0 = c) as -> by (by apply Hver).
        destruct (update_current c1 c w) as (rv & w1 & Hu & Hv); [by rewrite Hk1|done|done|]. rewrite Hu.
        unfold ret. intros [= <- <-]. rewrite Hk1 in Hv. right. split_and!; [done| |by eexists|].
        -- rewrite Hv. intros c' Hc'. simpl in Hc'. rewrite lookup_insert_eq in Hc'. injection Hc' as <-.
           split_and!; [exact Hk|done|by apply rebuilt_distinct].
        -- unfold webhooks_of. rewrite Hv, Ec. simpl. rewrite lookup_insert_eq. apply entry_rebuilt.
      * destruct (update_stale c1 c0 w) as [msg Hu]; [by rewrite Hk1|by apply not_eq_sym|]. rewrite Hu. intros [= <- <-]. left. eauto.
    + destruct (update_missing c1 w) as [msg Hu]; [by rewrite Hk1|]. rewrite Hu. intros [= <- <-]. left. eauto.
  - rewrite Hr. destruct isDeleted; [unfold ret; intros [= <- <-]; left; auto|]. unfold bind. set (c1 := mkVWC _ [webhook]).
    destruct (v_vwc (view w) !! config_key d) as [c0|] eqn:Ec.
    + destruct (create_exists c1 w) as [msg Hu]; [by exists c0|]. rewrite Hu. intros [= <- <-]. left. eauto.
    + destruct (create_new c1 w) as (rv & w1 & Hu & Hv); [exact Ec|]. rewrite Hu. unfold ret. intros [= <- <-].
      change (object_key c1) with (config_key d) in Hv. right. split_and!; [done| |by eexists|].
      * rewrite Hv. intros c' Hc'. simpl in Hc'. rewrite lookup_insert_eq in Hc'. injection Hc' as <-.
        split_and!; [done|done|apply NoDup_singleton].
      * unfold webhooks_of. rewrite Hv, Ec. simpl. rewrite lookup_insert_eq. apply (entry_rebuilt webhook false []).
Qed.

(** The entry a key has after a write that made it, or after none that was needed. *)
Lemma applied_in_line x w w' config : same_stored x w w' →
  entry_applied (entry_webhook (entry_of x (stored_syncer w x)) config) (is_gone (stored_syncer w x))
    (webhooks_of d (view w)) (webhooks_of d (view w')) → entry_in_line x w'.
Proof.
  intros Hs [_ Ha]. unfold entry_in_line. rewrite Hs. cbn in Ha. rewrite entry_of_name in Ha.
  destruct (stored_syncer w x) as [o|]; cbn [is_gone] in Ha; [|done]. destruct Ha as (e & He & Hi & _). by exists e.
Qed.
Lemma quiet_in_line x w config r : answer_ok r →
  match r, stored_syncer w x with
  | inl c, Some _ => v_vwc (view w) !! config_key d = Some c
  | inr _, None => own_webhooks (entry_of_key x) (webhooks_of d (view w)) = []
  | _, _ => True
  end →
  match r with
  | inl c => is_gone (stored_syncer w x) = false ∧ up_to_date (entry_webhook (entry_of x (stored_syncer w x)) config) (vwc_Webhooks c) = true
  | inr _ => is_gone (stored_syncer w x) = true
  end → entry_in_line x w.
Proof.
  intros Hr Hf Hq. unfold entry_in_line. destruct (stored_syncer w x) as [o|], r as [c|e]; cbn in *; try done; [|by destruct Hq].
  destruct Hr as (_ & _ & Hnd), Hq as [_ Hup]. destruct (up_to_date_own _ _ Hnd Hup) as (e & He & Heq).
  cbn in He. rewrite entry_of_name in He. exists e.
  assert (Hl : webhooks_of d (view w) = vwc_Webhooks c) by (unfold webhooks_of; by rewrite Hf). rewrite Hl. split; [done|].
  assert (Hin : e ∈ own_webhooks (entry_of_key x) (vwc_Webhooks c)) by (rewrite He; by left).
  apply elem_filter in Hin as [_ Hn%String.eqb_eq].
  destruct (webhook_intercepts e (entry_webhook (entry_of x (Some o)) config)) as [_ ? ? ?]; [|done|by split].
  cbn. by rewrite entry_of_name.
Qed.

(** What the steps leave of the other keys. *)
Lemma phase_moves ps x ph : (∀ y ph', ps !! y = Some ph' → valid_key y ∧ phase_ok y ph') →
  valid_key x → phase_ok x ph → ∀ y ph', <[x := ph]> ps !! y = Some ph' → valid_key y ∧ phase_ok y ph'.
Proof. intros Hps Hv Hph y ph' [[<- <-]|[_ Hy]]%lookup_insert_Some; [done|by apply Hps]. Qed.
Lemma versions_moves ps x ph w : versions_kept ps w →
  match ph with Answered _ _ _ (inl c) => v_vwc (view w) !! config_key d = Some c | _ => True end →
  versions_kept (<[x := ph]> ps) w.
Proof.
  intros Hv Hph y o webhook annotations c c' [[_ ->]|[_ Hy]]%lookup_insert_Some Hc' Hrv; [by simplify_eq|by eapply Hv].
Qed.
Lemma versions_dropped ps x w : versions_kept ps w → versions_kept (delete x ps) w.
Proof. intros Hv y o webhook annotations c c' [_ Hy]%lookup_delete_Some. by eapply Hv. Qed.

(** A step of a pass that changes nothing but its phase. *)
Lemma inv_phase w hs q ps rq late x ph ph' : inv (mkSys w hs q ps rq late) → ps !! x = Some ph → phase_ok x ph' →
  match ph' with Answered _ _ _ (inl c) => v_vwc (view w) !! config_key d = Some c | _ => True end →
  (key_ok x (Some ph) w hs late → key_ok x (Some ph') w hs late) → inv (mkSys w hs q (<[x := ph']> ps) rq late).
Proof.
  intros [Hrest Hw Hq Hps Hrq Hver Hline] Hx Hok Hc Hk. cbn in *. destruct (Hps _ _ Hx) as [Hv _].
  split; cbn; [done|done|done|by apply phase_moves|done|by apply versions_moves|].
  intros y Hvy Hy. specialize (Hline y Hvy Hy). destruct (decide (y = x)) as [->|Hne].
  - rewrite lookup_insert_eq. apply Hk. by rewrite <- Hx.
  - by rewrite lookup_insert_ne.
Qed.

Lemma inv_world w w' hs q q' ps ps' rq late (own : key → Prop) : inv (mkSys w hs q ps rq late) →
  stored_well w' → resting d (view w') → notified w w' q q' →
  (∀ x, valid_key x → ¬ own x → ps' !! x = ps !! x ∧
     (own_webhooks (entry_of_key x) (webhooks_of d (view w)) = [] → own_webhooks (entry_of_key x) (webhooks_of d (view w')) = [])) →
  (∀ x ph, ps' !! x = Some ph → valid_key x ∧ phase_ok x ph) → versions_kept ps' w' →
  (∀ x, own x → valid_key x → x ∉ q' → same_stored x w w' → key_ok x (ps !! x) w hs late → key_ok x (ps' !! x) w' hs late) →
  (∀ x, Decision (own x)) → inv (mkSys w' hs q' ps' rq late).
Proof.
  intros [_ Hw Hq Hps Hrq _ Hline] Hw' Hrest Hn Hothers Hps' Hver Hown Hdec. cbn in *.
  split; cbn; [done|done|apply Hn|done|done|done|].
  intros x Hv Hx. pose proof (unasked_same w w' q q' x Hw Hw' Hn Hv Hx) as Hsame.
  assert (Hold : key_ok x (ps !! x) w hs late) by (apply Hline; [done|]; intros Hin; by apply Hx, Hn).
  destruct (decide (own x)) as [Ho|Ho]; [by apply Hown|]. destruct (Hothers x Hv Ho) as [-> He].
  apply (key_ok_moves x _ w w' hs late Hold Hsame); [|done].
  destruct (decide (v_vwc (view w') !! config_key d = v_vwc (view w) !! config_key d)) as [|Hne]; [by left|right].
  destruct (stored_syncer w' x) as [o|] eqn:E; [|done]. exfalso. apply Hx, (config_wakes w w' q q'); [done..|]. by rewrite E.
Qed.

Lemma inv_write x o webhook annotations r res ph w w' hs q q' ps rq late :
  inv (mkSys w hs q ps rq late) → ps !! x = Some (Answered o webhook annotations r) →
  upsert_write d webhook annotations (is_gone o) r w = (res, w') → after_write o webhook annotations res ph →
  stored_well w' → notified w w' q q' → versions_kept (<[x := ph]> ps) w' →
  inv (mkSys w' hs q' (<[x := ph]> ps) rq late).
Proof.
  intros Hi Hx Hrun Haf Hw' Hn Hver. destruct (inv_passes _ Hi _ _ Hx) as [Hv [[config Hmade] Hr]].
  destruct (write_cases webhook annotations (is_gone o) r w res w') as [Hc|Hc]; try done; [apply Hi| | |].
  { intros c c' -> Hc' Hrv. by eapply (inv_versions _ Hi). }
  - destruct Hc as [-> Hres]. refine (inv_world w w hs q q' ps _ rq late (eq x) Hi Hw' (inv_rest _ Hi) Hn _ _ Hver _ _).
    { intros y Hvy Hne. split; [by apply lookup_insert_ne|done]. }
    { apply phase_moves; [apply Hi|done|]. destruct Haf; cbn; try done. by exists config. }
    intros y <- _ Hq' _. rewrite lookup_insert_eq, Hx. intros (-> & Hreg & Hf).
    destruct Haf as [|e Hconf|e]; [|by split|done]. split; [|done].
    destruct Hres as [[e [=]]|[_ Hq]]. rewrite Hmade in Hq. by eapply quiet_in_line.
  - destruct Hc as (-> & Hrest & (m & Hm) & Happ). inversion Haf; subst ph.
    pose proof Happ as [Hoth _]. rewrite Hmade in Hoth. cbn in Hoth. rewrite entry_of_name in Hoth.
    refine (inv_world w w' hs q q' ps _ rq late (eq x) Hi Hw' Hrest Hn _ _ Hver _ _).
    { intros y Hvy Hne. split; [by apply lookup_insert_ne|].
      rewrite (others_own (entry_of_key x) (entry_of_key y) _ _ (entries_distinct y x Hvy Hv (not_eq_sym Hne)) Hoth). done. }
    { apply phase_moves; [apply Hi|done|done]. }
    intros y <- _ Hq' Hs. rewrite lookup_insert_eq, Hx. intros (Ho & Hreg & _). split.
    + apply (applied_in_line x w w' config Hs). rewrite <- Ho, <- Hmade. exact Happ.
    + intros Hl. by apply (handler_kept x w w' hs hs (Hreg Hl)).
Qed.
(** The steps of the requests, and the end of a pass. *)
Lemma inv_take x w hs q ps rq late : inv (mkSys w hs q ps rq late) → x ∈ q →
  inv (mkSys w hs (q ∖ {[x]}) (<[x := Started]> ps) rq late).
Proof.
  intros [Hrest Hw Hq Hps Hrq Hver Hline] Hx. cbn in *. split; cbn; [done|done| |by apply phase_moves; auto|done|by apply versions_moves|].
  - intros y [Hy _]%elem_of_difference. by apply Hq.
  - intros y Hvy Hy. destruct (decide (y = x)) as [->|Hne]; [by rewrite lookup_insert_eq|].
    rewrite lookup_insert_ne by done. apply Hline; [done|]. intros Hin. apply Hy, elem_of_difference. split; [done|].
    by intros ?%elem_of_singleton.
Qed.

Lemma inv_end x ph w hs q q' ps rq late : inv (mkSys w hs q ps rq late) → ps !! x = Some ph →
  ph = Upserted ∨ (ph = Failed ∧ x ∈ q') → woken q q' → inv (mkSys w hs q' (delete x ps) rq late).
Proof.
  intros [Hrest Hw Hq Hps Hrq Hver Hline] Hx Hph [Hsub Hq']. cbn in *. split; cbn; [done|done|done| |done|by apply versions_dropped|].
  - intros y ph' [_ Hy]%lookup_delete_Some. by apply Hps.
  - intros y Hvy Hy. assert (Hyq : y ∉ q) by (intros Hin; by apply Hy, Hsub).
    specialize (Hline y Hvy Hyq). destruct (decide (y = x)) as [->|Hne]; [|by rewrite lookup_delete_ne].
    rewrite lookup_delete_eq. rewrite Hx in Hline. destruct Hph as [->|[-> Hin]]; [exact Hline|by destruct Hy].
Qed.

Lemma inv_registers x o w hs q ps rq late : inv (mkSys w hs q ps rq late) → ps !! x = Some (Fetched o) →
  inv (mkSys w (match o with Some s => register (path_of_key x) s hs | None => Unregister (path_of_key x) hs end) q
         (<[x := Registered o]> ps) rq (late ∖ {[x]})).
Proof.
  intros [Hrest Hw Hq Hps Hrq Hver Hline] Hx. cbn in *. destruct (Hps _ _ Hx) as [Hv _].
  set (hs' := match o with Some s => _ | None => _ end).
  assert (Hat : hs' !! path_of_key x = o) by (unfold hs'; destruct o; [apply lookup_insert_eq|apply lookup_delete_eq]).
  assert (Hother : ∀ p, p ≠ path_of_key x → hs' !! p = hs !! p).
  { intros p Hp. unfold hs'. destruct o; [by apply lookup_insert_ne|by apply lookup_delete_ne]. }
  split; cbn; [done|done|done|by apply phase_moves|done|by apply versions_moves|].
  intros y Hvy Hy. specialize (Hline y Hvy Hy). destruct (decide (y = x)) as [->|Hne].
  - rewrite lookup_insert_eq. rewrite Hx in Hline. split; [exact Hline|]. intros _. unfold handler_in_line, handlerFor. by rewrite Hat.
  - rewrite lookup_insert_ne by done. apply (key_ok_handlers y _ w hs hs' late); [done| |].
    + by apply Hother, paths_distinct.
    + set_solver.
Qed.

Lemma inv_serve x s w hs q ps rq1 rq2 late : inv (mkSys w hs q ps (rq1 ++ (x, Some s) :: rq2) late) →
  inv (mkSys w (register (path_of_key x) s hs) q ps (rq1 ++ rq2)
         (if decide (stored_syncer w x = Some s) then late ∖ {[x]} else late ∪ {[x]})).
Proof.
  intros [Hrest Hw Hq Hps Hrq Hver Hline]. cbn in *.
  assert (Hv : valid_key x) by (apply (Hrq x (Some s)); [set_solver|done]).
  split; cbn; [done|done|done|done| |done|].
  - intros y o Hin. apply Hrq. set_solver.
  - intros y Hvy Hy. specialize (Hline y Hvy Hy). destruct (decide (y = x)) as [->|Hne].
    + apply (key_ok_served x _ w hs _ late); [exact Hline|]. intros Hl. unfold handler_in_line, handlerFor, register.
      trans (Some s); [apply lookup_insert_eq|]. destruct (decide _) as [E|E]; [done|]. set_solver.
    + apply (key_ok_handlers y _ w hs _ late); [done| |].
      * apply lookup_insert_ne, not_eq_sym. by apply paths_distinct.
      * destruct (decide _); set_solver.
Qed.

Lemma inv_requests_only w hs q ps rq rq' late : inv (mkSys w hs q ps rq late) →
  (∀ x o, (x, o) ∈ rq' → (x, o) ∈ rq ∨ (routed x ∧ (o ≠ None → valid_key x))) → inv (mkSys w hs q ps rq' late).
Proof.
  intros [Hrest Hw Hq Hps Hrq Hver Hline] Hr. cbn in *. split; cbn; try done.
  intros x o Hin. destruct (Hr x o Hin) as [?|?]; [by apply Hrq|done].
Qed.

Lemma inv_step s s' : inv s → step s s' → inv s'.
Proof.
  intros Hi Hs. destruct Hs.
  - refine (inv_world w w' hs q q' ps ps rq late (λ _, False) Hi _ _ _ _ _ _ _ _); try done; [|apply Hi].
    intros x Hv _. split; [done|]. by apply own_empty.
  - by apply inv_take.
  - destruct (inv_passes _ Hi x Started) as [Hv _]; [done|].
    match goal with E : attempt (fetch x) w = _ |- _ => rename E into Hf end.
    apply (inv_phase w hs q ps rq late x Started); [done..|]. intros _.
    apply valid_routed in Hv. unfold attempt in Hf.
    destruct (fetch x w) as [[s|e|] w1] eqn:E; apply (fetch_inv x w _ _ Hv) in E as [-> E]; simplify_eq; unfold key_ok; congruence.
  - by apply inv_registers.
  - apply (inv_phase w hs q ps rq late x (Registered o)); [done..|by exists config|done|]. intros [Ho Hr]. by split.
  - by apply (inv_phase w hs q ps rq late x (Registered o)).
  - match goal with E : attempt (client_Get (config_key _)) w = _ |- _ => rename E into Hf end.
    destruct (inv_passes _ Hi _ _ ltac:(eassumption)) as [Hv Hm].
    unfold attempt in Hf. destruct (client_Get (config_key d) w) as [[c|e|] w1] eqn:E; simplify_eq; apply get_inv in E as [_ E]; cbn in E.
    + apply (inv_phase w hs q ps rq late x (Prepared o webhook annotations)); [done..| |done|].
      * split; [exact Hm|]. by apply (inv_rest _ Hi).
      * intros [Ho Hr]. split_and!; [done..|]. by destruct o.
    + apply (inv_phase w hs q ps rq late x (Prepared o webhook annotations)); [done..| |done|].
      * split; [exact Hm|apply E].
      * intros [Ho Hr]. split_and!; [done..|]. destruct E as [E _]. unfold webhooks_of. rewrite E. by destruct o.
  - by eapply inv_write.
  - by eapply inv_end.
  - apply (inv_requests_only w hs q ps rq); [done|]. intros y o [?|[= -> ->]%list_elem_of_singleton]%elem_of_app; [by left|by right].
  - match goal with E : fetch x w = _ |- _ => rename E into Hf end.
    assert (Hx : routed x) by (apply (inv_requests _ Hi x None); cbn; set_solver).
    apply (fetch_inv x w _ _ Hx) in Hf as [_ Hf].
    apply (inv_requests_only w hs q ps (rq1 ++ (x, None) :: rq2)); [done|].
    intros y o [?|[[= -> ->]|?]%elem_of_cons]%elem_of_app; [left; set_solver| |left; set_solver].
    right. split; [done|]. intros _. apply (stored_valid w); [apply Hi|by rewrite Hf].
  - apply (inv_requests_only w hs q ps (rq1 ++ (x, None) :: rq2)); [done|]. intros y o ?. left. set_solver.
  - by apply inv_serve.
Qed.

(** When the manager starts: nothing is registered, the first events name every stored syncer,
    nothing is on its way, and the shared configuration holds no entry of a syncer that is gone. *)
Record started (s : Sys) : Prop := {
  st_rest : resting d (view (sy_world s));
  st_well : stored_well (sy_world s);
  st_handlers : sy_handlers s = ∅;
  st_queue x : x ∈ sy_queue s ↔ is_Some (stored_syncer (sy_world s) x);
  st_idle : sy_passes s = ∅ ∧ sy_requests s = [] ∧ sy_late s = ∅;
  st_entries x : valid_key x → stored_syncer (sy_world s) x = None →
    own_webhooks (entry_of_key x) (webhooks_of d (view (sy_world s))) = [] }.

Lemma started_inv s : started s → inv s.
Proof.
  intros [Hrest Hw Hh Hq (Hp & Hr & Hl) He]. split; [done|done| | | | |].
  - intros x Hx%Hq. by apply (stored_valid (sy_world s)).
  - intros x ph. by rewrite Hp, lookup_empty.
  - intros x o. rewrite Hr. by intros ?%not_elem_of_nil.
  - intros x o webhook annotations c c'. by rewrite Hp, lookup_empty.
  - intros x Hv Hx. rewrite Hp, lookup_empty. rewrite Hq in Hx.
    destruct (stored_syncer (sy_world s) x) as [o|] eqn:E; [by destruct Hx|]. unfold key_ok, entry_in_line, handler_in_line, handlerFor.
    rewrite E, Hh. split; [by apply He|]. intros _. apply lookup_empty.
Qed.
Lemma reachable_inv s0 s : started s0 → rtc step s0 s → inv s.
Proof.
  intros Hs Hr. apply started_inv in Hs. induction Hr as [s|s s1 s2 Hst _ IH]; [done|]. apply IH. by eapply inv_step.
Qed.

(** (C20) Users, requests and the passes of the two controllers at work together, interleaved at every
    call that reads or writes the cluster, the shared configuration or the handlers. The
    manager starts with every stored syncer in the queue, no handler, and no entry of a
    syncer that is not stored; nobody makes up entries of the configuration, or deletes it
    with a finalizer on it, or gives two entries one name. Then, in every state that is
    reached, a syncer that is not in the queue and that no pass works on has exactly one entry
    of its name, with its rules and selectors, and none when it is not stored; and it is
    registered under its path as it is stored, and not registered when it is not, unless a
    request registered what it had read before the last change of the syncer
    ([stale_registration_stays] shows the exception). *)
Theorem syncers_in_line s0 s x : started s0 → rtc step s0 s →
  valid_key x → x ∉ sy_queue s → sy_passes s !! x = None →
  entry_in_line x (sy_world s) ∧ (x ∉ sy_late s → handler_in_line x (sy_world s) (sy_handlers s)).
Proof.
  intros H0' Hsteps Hv Hq Hp. pose proof (inv_line s (reachable_inv s0 s H0' Hsteps) x Hv Hq) as Hk. by rewrite Hp in Hk.
Qed.

(** ** A pass run alone

    The functions of [Dynamic.v] are the steps above put one after the other: a pass that
    nobody disturbs goes through its phases, and the status update and the policies that
    follow the configuration are a change like any other. *)

Lemma or_nothing_ok {A} (m : M error W (list A)) w l : m w = (Ok l, w) → or_nothing m w = (Ok l, w).
Proof. intros Hm. unfold or_nothing, bind, attempt. by rewrite Hm. Qed.

(** The functions of the watches answer stored syncers only. *)
Lemma found_rs w wt a l w' k : stored_well w → wt ∈ ct_Watches rs_controller → wt_Map wt a w = (Ok l, w') → k ∈ l →
  is_Some (v_rs (view w) !! k).
Proof.
  intros Hw Hwt Hrun Hk.
  assert (Hlist : ∀ opts (f : list RemoteSyncer → list RemoteSyncer), ∃ l0, or_nothing (items ⇐ client_List opts;; ret (map (λ rs : RemoteSyncer, object_key rs) (f items))) w =
      (Ok (map object_key (f l0)), w) ∧ ∀ rs, rs ∈ l0 → is_Some (v_rs (view w) !! object_key rs)).
  { intros opts f. destruct (list_elems (T := RemoteSyncer) opts w) as (l0 & Hl0 & Hin). exists l0. split.
    - apply or_nothing_ok. by rewrite (bind_ok _ _ _ _ _ Hl0).
    - intros rs [[k0 Hk0] _]%Hin. rewrite (sw_rs _ Hw _ _ Hk0). by eexists. }
  apply elem_of_cons in Hwt as [->|Hwt]; [|apply elem_of_cons in Hwt as [->|?%not_elem_of_nil]; [|done]].
  - cbn in Hrun. unfold findObjectsForDynamicWebhook_rs in Hrun. destruct (Hlist (mkListOptions "" None) id) as (l0 & Hl0 & Hst).
    unfold id in Hl0. rewrite Hl0 in Hrun. simplify_eq. apply list_elem_of_fmap in Hk as (rs & -> & Hrs). by apply Hst.
  - cbn in Hrun. destruct a as [|rub| | | | |]; unfold binding_map in Hrun;
      try (unfold ret in Hrun; simplify_eq; by apply not_elem_of_nil in Hk).
    unfold findRemoteSyncersForRUB in Hrun. destruct (is_managed_rub rub); cbn [negb] in Hrun; [|unfold ret in Hrun; simplify_eq; by apply not_elem_of_nil in Hk].
    destruct (Hlist (mkListOptions (om_Namespace (rub_Meta rub)) None) (List.filter (λ rs, user_specific (rs_Meta rs)))) as (l0 & Hl0 & Hst).
    rewrite Hl0 in Hrun. simplify_eq. apply list_elem_of_fmap in Hk as (rs & -> & [Hrs _]%elem_filter). by apply Hst.
Qed.
Lemma found_cw w wt a l w' k : stored_well w → wt ∈ ct_Watches cw_controller → wt_Map wt a w = (Ok l, w') → k ∈ l →
  is_Some (v_cwrs (view w) !! k).
Proof.
  intros Hw Hwt Hrun Hk.
  assert (Hlist : ∀ opts (f : list ClusterWideRemoteSyncer → list ClusterWideRemoteSyncer), ∃ l0, or_nothing (items ⇐ client_List opts;;
      ret (map (λ cw : ClusterWideRemoteSyncer, mkNN "" (om_Name (cwrs_Meta cw))) (f items))) w =
      (Ok (map (λ cw : ClusterWideRemoteSyncer, mkNN "" (om_Name (cwrs_Meta cw))) (f l0)), w) ∧
      ∀ cw : ClusterWideRemoteSyncer, cw ∈ l0 → is_Some (v_cwrs (view w) !! mkNN "" (om_Name (cwrs_Meta cw)))).
  { intros opts f. destruct (list_elems (T := ClusterWideRemoteSyncer) opts w) as (l0 & Hl0 & Hin). exists l0. split.
    - apply or_nothing_ok. by rewrite (bind_ok _ _ _ _ _ Hl0).
    - intros cw [[k0 Hk0] _]%Hin. pose proof (sw_cw_keys _ Hw k0 (ex_intro _ cw Hk0)) as Hns. cbn in Hns.
      pose proof (sw_cwrs _ Hw _ _ Hk0) as Hkey. unfold object_key, meta_key in Hkey. cbn in Hkey.
      exists cw. rewrite <- Hk0. f_equal. destruct k0. simpl in *. congruence. }
  apply elem_of_cons in Hwt as [->|Hwt]; [|apply elem_of_cons in Hwt as [->|?%not_elem_of_nil]; [|done]].
  - cbn in Hrun. unfold findObjectsForDynamicWebhook_cw in Hrun. destruct (Hlist (mkListOptions "" None) id) as (l0 & Hl0 & Hst).
    unfold id in Hl0. rewrite Hl0 in Hrun. simplify_eq. apply list_elem_of_fmap in Hk as (cw & -> & Hcw). by apply Hst.
  - cbn in Hrun. destruct a as [|rub| | | | |]; unfold binding_map in Hrun;
      try (unfold ret in Hrun; simplify_eq; by apply not_elem_of_nil in Hk).
    unfold findSyncersForRUB in Hrun. destruct (is_managed_rub rub); cbn [negb] in Hrun; [|unfold ret in Hrun; simplify_eq; by apply not_elem_of_nil in Hk].
    match type of Hrun with or_nothing (bind _ (λ items, ret (map _ (?f items)))) _ = _ =>
      destruct (Hlist (mkListOptions "" None) f) as (l0 & Hl0 & Hst) end.
    rewrite Hl0 in Hrun. simplify_eq. apply list_elem_of_fmap in Hk as (cw & -> & [Hcw _]%elem_filter). by apply Hst.
Qed.


(** The objects of an event are of its kind, and are or were stored. *)
Lemma differs_objects {T} `{Object T} (wrap : T → AnyObject) (m m' : gmap NamespacedName T) e a :
  differs wrap m m' e → a ∈ objects_of e → ∃ k b, a = wrap b ∧ (m !! k = Some b ∨ m' !! k = Some b).
Proof.
  intros Hd Ha. destruct Hd as [k b Hn Hs|k b b' Hs Hs' _|k b Hs Hn]; cbn in Ha.
  - apply list_elem_of_singleton in Ha as ->. eauto.
  - apply elem_of_cons in Ha as [->| ->%list_elem_of_singleton]; eauto.
  - apply list_elem_of_singleton in Ha as ->. eauto.
Qed.

(** Whatever is asked for is a key. *)
Lemma asked_valid w w' e c k : stored_well w → stored_well w' → occurred w w' e → syncer_controller c → asks c w' e k →
  valid_key (ct_For c, k).
Proof.
  intros Hw Hw' He Hc Ha. destruct Hc as [[d' [= <- <-]]|[d' [= <- <-]]].
  - destruct Ha as [a Ha Hkind|wt a l w1 k Hwt Ha Hkind Hp Hrun Hk]; cbn in *; [|apply (sw_rs_keys _ Hw'); by eapply (found_rs w' wt)].
    destruct He as [He|[He|[He|He]]]; destruct (differs_objects _ _ _ _ a He Ha) as (k & b & Hab & Hst); subst a; try done.
    destruct Hst as [Hst|Hst]; [pose proof (sw_rs _ Hw _ _ Hst) as Hk; refine (sw_rs_keys _ Hw (object_key b) _)|pose proof (sw_rs _ Hw' _ _ Hst) as Hk; refine (sw_rs_keys _ Hw' (object_key b) _)];
      exists b; by rewrite Hk.
  - destruct Ha as [a Ha Hkind|wt a l w1 k Hwt Ha Hkind Hp Hrun Hk]; cbn in *; [|apply (sw_cw_keys _ Hw'); by eapply (found_cw w' wt)].
    destruct He as [He|[He|[He|He]]]; destruct (differs_objects _ _ _ _ a He Ha) as (k & b & Hab & Hst); subst a; try done.
    destruct Hst as [Hst|Hst]; [pose proof (sw_cwrs _ Hw _ _ Hst) as Hk; refine (sw_cw_keys _ Hw (object_key b) _)|pose proof (sw_cwrs _ Hw' _ _ Hst) as Hk; refine (sw_cw_keys _ Hw' (object_key b) _)];
      exists b; by rewrite Hk.
Qed.
(** After any change there is a queue that answers it. *)
Lemma notified_some w w' q : stored_well w → stored_well w' → (∀ x, x ∈ q → valid_key x) → ∃ q', notified w w' q q'.
Proof.
  intros Hw Hw' Hq. exists {[ x | x ∈ q ∨ ∃ e c, occurred w w' e ∧ syncer_controller c ∧ ct_For c = x.1 ∧ asks c w' e x.2 ]}.
  split; [split|].
  - intros x Hx. apply elem_of_PropSet. by left.
  - intros [kind k] [Hx|(e & c & He & Hc & Hkind & Ha)]%elem_of_PropSet; [by apply Hq|].
    cbn [fst snd] in Hkind, Ha. subst kind. by apply (asked_valid w w' e).
  - intros e c k He Hc Ha. apply elem_of_PropSet. right. by exists e, c.
Qed.

Context `{!Contained W RemoteUserBinding, !Contained W RemoteTarget, !Contained W RemoteSyncer,
  !Contained W ClusterWideRemoteSyncer}.
Context (ord : gmap string RemoteTarget → list (string * RemoteTarget)) (Hcert : cert_readable (W := W) d).

(** The pass of a key, by the controller of its kind. *)
Definition Reconcile (x : key) : M error (W * Handlers) (ctrl_Result * option error) :=
  match x.1 with KRemoteSyncer => Reconcile_rs d ord x.2 | _ => Reconcile_cw d ord x.2 end.

Lemma Reconcile_shape x w hs r w' hs' : routed x → resting d (view w) → Reconcile x (w, hs) = (r, (w', hs')) →
  ∃ w1, upsert d (entry_of x (stored_syncer w x)) (is_gone (stored_syncer w x)) w = (Ok tt, w1) ∧
    v_vwc (view w') = v_vwc (view w1) ∧
    hs' = match stored_syncer w x with Some s => register (path_of_key x) s hs | None => Unregister (path_of_key x) hs end.
Proof.
  intros Hx Hrest Hrun. unfold Reconcile in Hrun. destruct x as [[] k]; cbn in Hx; try done; cbn [fst snd] in Hrun.
  - rewrite Reconcile_rs_pass in Hrun.
    destruct (pass_shape d ord k (RemoteSyncerWebhookPath k) (remoteSyncer_entry k) zero_RemoteSyncer updateStatus_rs
      updateStatus_rs_status w hs r w' hs' Hrest Hcert Hrun) as (w1 & Hup & Hv & ->). exists w1.
    unfold stored_syncer, entry_of. cbn [fst snd]. change (v_get (T := RemoteSyncer) (view w)) with (v_rs (view w)) in *.
    by destruct (v_rs (view w) !! k).
  - rewrite Reconcile_cw_pass in Hrun.
    destruct (pass_shape d ord k (ClusterWideRemoteSyncerWebhookPath (nn_Name k)) (clusterWide_entry k) zero_ClusterWideRemoteSyncer
      updateStatus_cw updateStatus_cw_status w hs r w' hs' Hrest Hcert Hrun) as (w1 & Hup & Hv & ->). exists w1.
    unfold stored_syncer, entry_of. cbn [fst snd]. change (v_get (T := ClusterWideRemoteSyncer) (view w)) with (v_cwrs (view w)) in *.
    by destruct (v_cwrs (view w) !! k).
Qed.

(** What a pass leaves of the configuration, and of the entries of the others. *)
Lemma upsert_moves entry isDeleted w w1 : resting d (view w) → stored_well w → upsert d entry isDeleted w = (Ok tt, w1) →
  resting d (view w1) ∧ stored_well w1 ∧ (∀ x, stored_syncer w1 x = stored_syncer w x) ∧
  other_webhooks (en_name entry) (webhooks_of d (view w1)) = other_webhooks (en_name entry) (webhooks_of d (view w)).
Proof.
  intros Hrest Hw Hup. destruct (upsert_run d entry isDeleted w Hrest Hcert) as (w2 & Hup2 & (m & Hm & Hother) & Hrest2 & Hoth & _).
  assert (w2 = w1) as -> by congruence. split_and!; [done| |intros [[] k]; unfold stored_syncer; by rewrite Hm|exact Hoth].
  assert (Hv : v_vwc (view w1) = m) by (by rewrite Hm). destruct Hw as [H1' H2' H3' H4' H5']. split; rewrite ?Hm; try done.
  intros k c Hc. cbn in Hc. destruct (decide (k = config_key d)) as [->|Hne].
  - apply Hrest2. by rewrite Hv.
  - rewrite Hother in Hc by done. by apply H3'.
Qed.

Lemma attempt_fetch x w : routed x → ∃ r, attempt (fetch x) w = (Ok r, w) ∧
  match r with inl s => Some s | inr _ => None end = stored_syncer w x.
Proof.
  intros Hx. unfold attempt. destruct (fetch x w) as [r w1] eqn:E. apply (fetch_inv x w _ _ Hx) in E as [-> E].
  destruct r as [s|e|]; [exists (inl s)|exists (inr e)|done]; by rewrite E.
Qed.
Lemma attempt_config w : ∃ r, attempt (client_Get (T := ValidatingWebhookConfiguration) (config_key d)) w = (Ok r, w).
Proof.
  unfold attempt. destruct (client_Get (T := ValidatingWebhookConfiguration) (config_key d) w) as [[c|e|] w1] eqn:E;
    apply get_inv in E as [-> E]; [by exists (inl c)|by exists (inr e)|done].
Qed.

(** The phases of a pass from its first read to its write. *)
Lemma lone_upsert x w hs q rq late w1 : routed x → resting d (view w) → stored_well w → x ∈ q → (∀ y, y ∈ q → valid_key y) →
  upsert d (entry_of x (stored_syncer w x)) (is_gone (stored_syncer w x)) w = (Ok tt, w1) →
  ∃ q', (∀ y, y ∈ q' → valid_key y) ∧
    rtc step (mkSys w hs q ∅ rq late)
      (mkSys w1 (match stored_syncer w x with Some s => register (path_of_key x) s hs | None => Unregister (path_of_key x) hs end)
        q' {[x := Upserted]} rq (late ∖ {[x]})).
Proof.
  intros Hx Hrest Hw Hin Hq Hup. set (o := stored_syncer w x) in *.
  destruct (upsert_moves _ _ _ _ Hrest Hw Hup) as (_ & Hw1 & _).
  destruct (notified_some w w1 (q ∖ {[x]})) as [q' Hn]; [done|done|intros y [Hy _]%elem_of_difference; by apply Hq|].
  exists q'. split; [apply Hn|]. unfold upsert in Hup. destruct (Hcert w) as [ca Hca].
  assert (Hc : caCert d w = (Ok ca, w)) by (unfold caCert, bind, attempt; by rewrite Hca). rewrite (bind_ok _ _ _ _ _ Hc) in Hup.
  destruct (clientConfig d ca (en_path (entry_of x o))) as [config annotations] eqn:Econf.
  set (webhook := entry_webhook (entry_of x o) config) in *.
  destruct (upsert_once_run d webhook annotations (is_gone o) w Hrest) as (w2 & Honce & _).
  pose proof (retry_ok _ _ _ _ Honce) as Hup2. assert (w2 = w1) as -> by congruence.
  destruct (attempt_config w) as [ra Hra]. unfold upsert_once in Honce. rewrite (bind_ok _ _ _ _ _ Hra) in Honce.
  destruct (attempt_fetch x w Hx) as (rf & Hrf & Ho). fold o in Ho.
  eapply rtc_l; [apply (step_take x); [exact Hin|apply lookup_empty]|].
  eapply rtc_l; [eapply (step_get x); [apply lookup_insert_eq|exact Hrf]|]. rewrite Ho, insert_insert_eq.
  eapply rtc_l; [eapply (step_register x); apply lookup_insert_eq|]. rewrite insert_insert_eq.
  eapply rtc_l; [eapply (step_cert x); [apply lookup_insert_eq|exact Hc|exact Econf]|]. rewrite insert_insert_eq. fold webhook.
  eapply rtc_l; [eapply (step_read x); [apply lookup_insert_eq|exact Hra]|]. rewrite insert_insert_eq.
  eapply rtc_l; [|apply rtc_refl]. change {[x := Upserted]} with (<[x := Upserted]> (∅ : gmap key phase)).
  rewrite <- (insert_insert_eq ∅ x Upserted (Answered o webhook annotations ra)).
  eapply (step_write x); [apply lookup_insert_eq|exact Honce|constructor|exact Hw1|exact Hn|]. rewrite insert_insert_eq.
  intros y o' wh an c c' [[_ ?]|[_ Hy]]%lookup_insert_Some; [done|by rewrite lookup_empty in Hy].
Qed.

(** A pass of [Reconcile] that is alone is a run of the steps. *)
Lemma lone_pass x w hs q rq late r w' hs' : resting d (view w) → stored_well w → x ∈ q → (∀ y, y ∈ q → valid_key y) →
  Reconcile x (w, hs) = (r, (w', hs')) → stored_well w' →
  ∃ q', rtc step (mkSys w hs q ∅ rq late) (mkSys w' hs' q' ∅ rq (late ∖ {[x]})).
Proof.
  intros Hrest Hw Hin Hq Hrun Hw'. pose proof (valid_routed x (Hq x Hin)) as Hx.
  destruct (Reconcile_shape x w hs r w' hs' Hx Hrest Hrun) as (w1 & Hup & Hv & ->).
  destruct (upsert_moves _ _ _ _ Hrest Hw Hup) as (Hrest1 & Hw1 & _).
  destruct (lone_upsert x w hs q rq late w1 Hx Hrest Hw Hin Hq Hup) as (q1 & Hq1 & Hsteps).
  destruct (notified_some w1 w' q1) as [q2 Hn]; [done..|]. exists q2. etrans; [exact Hsteps|].
  eapply rtc_l; [eapply (step_change w1 w'); [exact Hw'| | |exact Hn|]|].
  - intros c Hc. rewrite Hv in Hc. by apply Hrest1.
  - intros y Hy. exists y. unfold webhooks_of in *. by rewrite <- Hv.
  - intros y o wh an c c' [_ ?]%lookup_singleton_Some. done.
  - eapply rtc_l; [eapply (step_end x Upserted); [apply lookup_singleton_eq|by left|split; [done|apply Hn]]|].
    rewrite delete_singleton_eq. apply rtc_refl.
Qed.

(** ** A syncer deleted while the manager is down *)

(** The entry of a syncer that was deleted while no manager ran is there for good: the events a
    starting manager is sent are about stored objects and wake stored syncers, and the passes
    on these leave the entry alone. The API server goes on calling a path nobody answers. *)
Lemma orphan_entry_stays w x : resting d (view w) → stored_well w → valid_key x → stored_syncer w x = None →
  (∀ c e k, syncer_controller c → (∀ a, a ∈ objects_of e → is_Some (stored_syncer w (kind_of a, object_key a)) ∨
      kind_of a = KRemoteUserBinding ∨ kind_of a = KWebhookConfiguration) → asks c w e k → (ct_For c, k) ≠ x) ∧
  (∀ y hs r w' hs', is_Some (stored_syncer w y) → Reconcile y (w, hs) = (r, (w', hs')) →
     own_webhooks (entry_of_key x) (webhooks_of d (view w')) = own_webhooks (entry_of_key x) (webhooks_of d (view w))) ∧
  (x.1 = KRemoteSyncer → serve_namespaced (nn_Namespace x.2) (nn_Name x.2) (w, ∅) = (Ok None, (w, ∅))).
Proof.
  intros Hrest Hw Hv Hx. split_and!.
  - intros c e k Hc Ho Ha Heq. enough (Hs : is_Some (stored_syncer w (ct_For c, k))) by (rewrite Heq, Hx in Hs; by destruct Hs).
    destruct Hc as [[d' [= <- <-]]|[d' [= <- <-]]].
    + destruct Ha as [a Hin Hkind|wt a l w' k Hwt Hin Hkind Hp Hrun Hk]; [|by apply fmap_is_Some; eapply (found_rs w wt)].
      cbn in Hkind. destruct (Ho a Hin) as [Hs|[Hs|Hs]]; [|congruence..]. by rewrite Hkind in Hs.
    + destruct Ha as [a Hin Hkind|wt a l w' k Hwt Hin Hkind Hp Hrun Hk]; [|by apply fmap_is_Some; eapply (found_cw w wt)].
      cbn in Hkind. destruct (Ho a Hin) as [Hs|[Hs|Hs]]; [|congruence..]. by rewrite Hkind in Hs.
  - intros y hs r w' hs' Hy Hrun. pose proof (stored_valid w y Hw Hy) as Hvy.
    assert (Hne : x ≠ y) by (intros ->; rewrite Hx in Hy; by destruct Hy).
    destruct (Reconcile_shape y w hs r w' hs' (valid_routed _ Hvy) Hrest Hrun) as (w1 & Hup & Hvwc & _).
    destruct (upsert_moves _ _ _ _ Hrest Hw Hup) as (_ & _ & _ & Hoth). rewrite entry_of_name in Hoth.
    unfold webhooks_of at 1. rewrite Hvwc. by apply (others_own (entry_of_key y)); [apply entries_distinct|].
  - intros Hk. destruct x as [kind [ns n]]. cbn in Hk. subst. unfold serve_namespaced. cbv zeta.
    cbn [fst snd nn_Name nn_Namespace].
    assert (Hno : handlerFor (RemoteSyncerWebhookPath (mkNN ns n)) ∅ = None) by apply lookup_empty. rewrite Hno.
    destruct (get_missing (T := RemoteSyncer) (mkNN ns n) w) as [msg Hg]; [|by rewrite Hg].
    unfold stored_syncer in Hx. cbn in Hx. by apply fmap_None in Hx.
Qed.

(** A request that is alone is a run of the steps too. *)
Definition serve (x : key) : M error (W * Handlers) (option Syncer) :=
  match x.1 with
  | KRemoteSyncer => serve_namespaced (nn_Namespace x.2) (nn_Name x.2)
  | _ => serve_cluster_wide (nn_Name x.2)
  end.
Lemma serve_fetch x w hs : routed x → serve x (w, hs) =
  match handlerFor (path_of_key x) hs with
  | Some s => (Ok (Some s), (w, hs))
  | None => match fetch x w with
            | (Ok s, w') => (Ok (Some s), (w', register (path_of_key x) s hs))
            | (Err _, w') => (Ok None, (w', hs))
            | (Panic, w') => (Panic, (w', hs))
            end
  end.
Proof.
  intros Hx. destruct x as [kind [ns n]]. destruct kind; cbn in Hx; try done; [|subst ns];
    unfold serve, serve_namespaced, serve_cluster_wide, fetch, path_of_key, map_ok, bind; cbn [fst snd nn_Namespace nn_Name]; cbv zeta.
  - destruct (handlerFor (RemoteSyncerWebhookPath (mkNN ns n)) hs); [done|].
    by destruct (client_Get (mkNN ns n) w) as [[a|e|] w1].
  - destruct (handlerFor (ClusterWideRemoteSyncerWebhookPath n) hs); [done|].
    by destruct (client_Get (mkNN "" n) w) as [[a|e|] w1].
Qed.
Lemma lone_request x w hs q ps rq late r w' hs' : routed x → serve x (w, hs) = (r, (w', hs')) →
  ∃ late', rtc step (mkSys w hs q ps rq late) (mkSys w' hs' q ps rq late').
Proof.
  intros Hx. rewrite serve_fetch by done. destruct (handlerFor (path_of_key x) hs) as [s|] eqn:Eh; [intros ?; simplify_eq; by exists late|].
  destruct (fetch x w) as [[s|e|] w1] eqn:E; intros ?; simplify_eq; pose proof (fetch_inv x _ _ _ Hx E) as [-> Hf].
  - eexists. eapply rtc_l; [by apply (step_miss x)|]. eapply rtc_l; [by eapply (step_look x s)|].
    eapply rtc_l; [apply (step_serve x s)|]. rewrite app_nil_r. apply rtc_refl.
  - exists late. eapply rtc_l; [by apply (step_miss x)|]. eapply rtc_l; [by eapply (step_not_found x e)|]. rewrite app_nil_r. apply rtc_refl.
  - done.
Qed.
End System.

(** ** On the simulation *)

Lemma sim_contained {T} `{Object T, Stamp T, Kind T} : (∀ v, v_set (v_get (T := T) v) v = v) → Contained World T.
Proof.
  intros Hid. assert (Hsame : ∀ w : World, ∃ m : gmap NamespacedName T, w_view w = v_set m (w_view w)).
  { intros w. exists (v_get (w_view w)). by rewrite Hid. }
  split; cbn.
  - intros o w r w' Hr. unfold sim_create in Hr. destruct (objs w !! object_key o); simplify_eq; [apply Hsame|by eexists].
  - intros o w r w' Hr. unfold sim_update in Hr. destruct (objs w !! object_key o) as [o0|]; [|simplify_eq; apply Hsame].
    destruct (String.eqb _ _); [|simplify_eq; apply Hsame].
    destruct (om_DeletionTimestamp (get_meta o0)), (om_Finalizers (get_meta o)); simplify_eq; by eexists.
  - intros o w r w' Hr. unfold sim_delete in Hr. destruct (objs w !! object_key o) as [o0|]; [|simplify_eq; apply Hsame].
    destruct (om_Finalizers (get_meta o0)); simplify_eq; by eexists.
Qed.
#[export] Instance sim_contained_rub : Contained World RemoteUserBinding.
Proof. apply sim_contained. by intros []. Qed.
#[export] Instance sim_contained_rt : Contained World RemoteTarget.
Proof. apply sim_contained. by intros []. Qed.
#[export] Instance sim_contained_rs : Contained World RemoteSyncer.
Proof. apply sim_contained. by intros []. Qed.
#[export] Instance sim_contained_cw : Contained World ClusterWideRemoteSyncer.
Proof. apply sim_contained. by intros []. Qed.
#[export] Instance sim_versioned : Versioned World.
Proof.
  split; intros c; intros; cbn; unfold sim_update, objs; cbn.
  - match goal with E : v_vwc _ !! _ = Some _ |- _ => cbn in E; rewrite E end.
    match goal with E : om_ResourceVersion _ ≠ _ |- _ => apply String.eqb_neq in E; cbn in E; rewrite E end. by eexists.
  - match goal with E : v_vwc _ !! _ = None |- _ => cbn in E; rewrite E end. by eexists.
Qed.
#[local] Instance demo_files : FileSystem World := {| ReadFile path w := (Ok "CA", w) |}.
#[local] Instance demo_predicates : Predicates :=
  {| ResourceVersionChangedPredicate := mkPredicate (λ _, true)
       (λ old new, negb (String.eqb (om_ResourceVersion (get_meta old)) (om_ResourceVersion (get_meta new)))) (λ _, true) |}.

Definition demo_env (v : string) : string :=
  if String.eqb v "DYNAMIC_WEBHOOK_NAME" then "syngit-dynamic-webhook"
  else if String.eqb v "MANAGER_NAMESPACE" then "syngit" else "".
Definition team_rs : RemoteSyncer :=
  mkRemoteSyncer (new_meta "rs" "team" ∅) (plain_spec "https://git.x/org/app.git" "main") (mkRemoteSyncerStatus [] None None None).
Definition rs_key : NamespacedName := mkNN "team" "rs".
Definition world_with (rs : gmap NamespacedName RemoteSyncer) : World := world_of (mkView ∅ ∅ ∅ rs ∅ ∅ ∅ ∅).

Lemma world_with_well rs : keyed rs → (∀ k, is_Some (rs !! k) → valid_key (KRemoteSyncer, k)) → stored_well (world_with rs).
Proof.
  intros Hk Hv. split; cbn; [done|apply map_Forall_empty|apply map_Forall_empty|exact Hv|].
  intros k [cw Hcw]. by rewrite lookup_empty in Hcw.
Qed.
Lemma world_with_rest rs : resting (loadFromEnv demo_env) (view (world_with rs)).
Proof. intros c Hc. cbn in Hc. by rewrite lookup_empty in Hc. Qed.

Lemma nothing_differs {T} (wrap : T → AnyObject) m e : ¬ differs wrap m m e.
Proof. intros Hd. inversion Hd; congruence. Qed.

(** The syncer of a team: it is stored when the manager starts. *)
Definition demo_key : key := (KRemoteSyncer, rs_key).
Definition demo_state (stored : bool) (hs : Handlers) (q : propset key) (rq : list (key * option Syncer)) (late : gset key) : Sys :=
  mkSys (world_with (if stored then {[rs_key := team_rs]} else ∅)) hs q ∅ rq late.
Definition demo_start : Sys := demo_state true ∅ {[demo_key]} [] ∅.
(** The handler a request registers. *)
Definition demo_handlers : Handlers := {[RemoteSyncerWebhookPath rs_key := SyncerRS team_rs]}.

Lemma demo_well : stored_well (world_with {[rs_key := team_rs]}) ∧ stored_well (world_with ∅).
Proof.
  split; apply world_with_well; [by apply map_Forall_singleton| |apply map_Forall_empty|].
  - intros k [rs [-> _]%singleton_lookup]. by split_and!.
  - intros k [rs Hrs]. by rewrite lookup_empty in Hrs.
Qed.

Lemma demo_started : started demo_env demo_start.
Proof.
  split.
  - apply world_with_rest.
  - apply demo_well.
  - done.
  - intros [kind k]. unfold demo_start, demo_key, stored_syncer. cbn. rewrite elem_of_singleton. split.
    + intros [= -> ->]. by exists (SyncerRS team_rs).
    + destruct kind; cbn; try by intros [o Ho].
      by intros [rs [-> _]%singleton_lookup]%fmap_is_Some.
  - done.
  - intros x _ _. unfold webhooks_of. cbn. by rewrite lookup_empty.
Qed.

(** The request comes in and reads the syncer; it answers from the handler it registers. *)
Lemma demo_asks : rtc (step demo_env) demo_start (demo_state true ∅ {[demo_key]} [(demo_key, Some (SyncerRS team_rs))] ∅).
Proof.
  eapply rtc_l; [by apply (step_miss demo_env demo_key)|].
  apply rtc_once. by apply (step_look demo_env demo_key (SyncerRS team_rs) _ _ _ _ [] []).
Qed.

(** The syncer is deleted; this asks for its key only. *)
Lemma demo_deleted hs rq late : step demo_env (demo_state true hs {[demo_key]} rq late) (demo_state false hs {[demo_key]} rq late).
Proof.
  apply step_change.
  - apply demo_well.
  - apply world_with_rest.
  - intros x Hx. unfold webhooks_of in Hx. cbn in Hx. rewrite lookup_empty in Hx. by apply not_elem_of_nil in Hx.
  - split; [split; [done|by intros x ->%elem_of_singleton]|].
    intros e c k [He|[He|[He|He]]] Hc Ha; [|by apply nothing_differs in He..].
    assert (Hgone : ∀ k, v_rs (view (world_with ∅)) !! k = None) by (intros ?; apply lookup_empty).
    assert (Hthere : ∀ k o, v_rs (view (world_with {[rs_key := team_rs]})) !! k = Some o → o = team_rs)
      by (by intros ?? [_ ->]%singleton_lookup).
    assert (He' : e = DeleteEvent (ORemoteSyncer team_rs)).
    { inversion He as [k0 o Hn Ho|k0 o o' Ho Ho'|k0 o Ho Hn];
        [by rewrite Hgone in Ho|by rewrite Hgone in Ho'|by rewrite (Hthere _ _ Ho)]. }
    subst e. apply elem_of_singleton. destruct Hc as [[d' [= <- <-]]|[d' [= <- <-]]].
    + destruct Ha as [o ->%list_elem_of_singleton Hk|wt o l w' k Hwt ->%list_elem_of_singleton Hk Hp Hrun Hin]; [done|].
      by repeat (apply elem_of_cons in Hwt as [->|Hwt]; [done|]); apply not_elem_of_nil in Hwt.
    + destruct Ha as [o ->%list_elem_of_singleton Hk|wt o l w' k Hwt ->%list_elem_of_singleton Hk Hp Hrun Hin]; [done|].
      by repeat (apply elem_of_cons in Hwt as [->|Hwt]; [done|]); apply not_elem_of_nil in Hwt.
  - intros x o wh an c c' Hx. by rewrite lookup_empty in Hx.
Qed.

(** The pass of the controller on the deleted syncer. *)
Lemma demo_pass hs rq late : rtc (step demo_env) (demo_state false hs {[demo_key]} rq late)
  (demo_state false (delete (RemoteSyncerWebhookPath rs_key) hs) ({[demo_key]} ∖ {[demo_key]}) rq (late ∖ {[demo_key]})).
Proof.
  eapply rtc_l; [apply (step_take _ demo_key); [by apply elem_of_singleton|apply lookup_empty]|].
  eapply rtc_l; [eapply (step_get _ demo_key); [apply lookup_insert_eq|reflexivity]|]. rewrite insert_insert_eq.
  eapply rtc_l; [eapply (step_register _ demo_key); apply lookup_insert_eq|]. rewrite insert_insert_eq.
  eapply rtc_l; [eapply (step_cert _ demo_key); [apply lookup_insert_eq|reflexivity|reflexivity]|]. rewrite insert_insert_eq.
  eapply rtc_l; [eapply (step_read _ demo_key); [apply lookup_insert_eq|reflexivity]|]. rewrite insert_insert_eq.
  eapply rtc_l; [eapply (step_write _ demo_key); [apply lookup_insert_eq|reflexivity|constructor|apply demo_well| |]|].
  - split; [split; [done|set_solver]|]. intros e c k [He|[He|[He|He]]]; by apply nothing_differs in He.
  - rewrite insert_insert_eq. intros x o wh an c c' [[_ ?]|[_ Hx]]%lookup_insert_Some; [done|by rewrite lookup_empty in Hx].
  - rewrite insert_insert_eq.
    eapply rtc_l; [eapply (step_end _ demo_key Upserted); [apply lookup_insert_eq|by left|split; [done|set_solver]]|].
    rewrite delete_insert_eq, delete_empty. apply rtc_refl.
Qed.

(** The request answered and registered first, then the deletion and the pass. *)
Definition demo_end : Sys := demo_state false (delete (RemoteSyncerWebhookPath rs_key) demo_handlers) ({[demo_key]} ∖ {[demo_key]}) [] (∅ ∖ {[demo_key]} ∖ {[demo_key]}).
Lemma demo_run : rtc (step demo_env) demo_start demo_end.
Proof.
  etrans; [apply demo_asks|]. eapply rtc_l; [apply (step_serve _ demo_key (SyncerRS team_rs) _ _ _ _ [] [])|].
  rewrite decide_True by reflexivity. eapply rtc_l; [apply demo_deleted|]. apply demo_pass.
Qed.

(** The request reads the syncer first and registers it after the deletion and the pass: the
    handler of a syncer that is not stored is there to stay, since nothing asks for its key
    any more, and it goes on judging the requests that the API server sends to its path. *)
Definition stale_end : Sys := demo_state false demo_handlers ({[demo_key]} ∖ {[demo_key]}) [] (∅ ∖ {[demo_key]} ∪ {[demo_key]}).
Lemma stale_registration_stays : started demo_env demo_start ∧ rtc (step demo_env) demo_start stale_end ∧
  sy_passes stale_end = ∅ ∧ sy_requests stale_end = [] ∧ (∀ x, x ∉ sy_queue stale_end) ∧
  stored_syncer (sy_world stale_end) demo_key = None ∧
  handlerFor (path_of_key demo_key) (sy_handlers stale_end) = Some (SyncerRS team_rs).
Proof.
  split_and!; [exact demo_started| |done|done|set_solver|done|done].
  etrans; [apply demo_asks|]. eapply rtc_l; [apply demo_deleted|]. etrans; [apply demo_pass|].
  apply rtc_once. refine (eq_ind _ (step demo_env _) (step_serve _ demo_key (SyncerRS team_rs) _ _ _ _ [] [] _) _ _).
  unfold stale_end, demo_state. rewrite decide_False by done. reflexivity.
Qed.

Lemma demo_cert : cert_readable (W := World) (loadFromEnv demo_env).
Proof. intros w. by exists "CA". Qed.

Lemma syncers_in_line_witness :
  rtc (step demo_env) demo_start demo_end ∧
  entry_in_line demo_env demo_key (sy_world demo_end) ∧
  (demo_key ∉ sy_late demo_end → handler_in_line demo_key (sy_world demo_end) (sy_handlers demo_end)).
Proof.
  split; [exact demo_run|].
  apply (syncers_in_line demo_env demo_start demo_end demo_key demo_started demo_run); [by split_and!|set_solver|apply lookup_empty].
Defined.
