(* ===== verification/Files.v ===== *)
(** * Paths and the filesystem of a worktree

    [path/filepath] on Unix, which is part of the language, and go-billy's [Filesystem],
    which is not: its operations are a class ([Billy]), what they do to the files and
    directories is stated as laws ([BillyLaws]), and [mem_billy] is an instance. *)

From S2P Require Import Prelude GoStr Errors.
From Stdlib Require Import Ascii.

(** ** [path/filepath] *)

Definition clean_step (rooted : bool) (out : list string) (seg : string) : list string :=
  if String.eqb seg "" || String.eqb seg "." then out
  else if String.eqb seg ".." then
    match out with
    | [] => if rooted then [] else [".."]
    | x :: out' => if String.eqb x ".." then ".." :: out else out'
    end
  else seg :: out.

Definition Clean (path : string) : string :=
  let rooted := HasPrefix path "/" in
  let out := rev (foldl (clean_step rooted) [] (Split path "/")) in
  if rooted then "/" ++ Join out "/"
  else match out with [] => "." | _ => Join out "/" end.

(** What stands before the last slash, cleaned. *)
Definition Dir (path : string) : string :=
  match removelast (Split path "/") with
  | [] => "."
  | segs => Clean (Join segs "/" ++ "/")
  end.

Fixpoint filepath_Join (elem : list string) : string :=
  match elem with
  | [] => ""
  | e :: elem' => if String.eqb e "" then filepath_Join elem' else Clean (Join elem "/")
  end.

(** ** go-billy *)

Class Billy (W : Type) := {
  File : Type;                                                  (** an open file *)
  fs_Root : string;
  fs_ReadDir : string → M error W (list (string * bool));       (** names, and whether they are directories *)
  fs_Open : string → M error W File;
  fs_Create : string → M error W File;
  fs_MkdirAll : string → M error W unit;
  fs_Remove : string → M error W unit;
  fs_Stat : string → M error W bool;                            (** whether it is a directory *)
  file_ReadAll : File → M error W string;
  file_Write : File → string → M error W unit;
  file_Close : File → M error W unit;
  os_IsNotExist : error → bool
}.

(** A file or a directory by the names on its path; the root is the empty list. *)
Definition key : Type := list string.
Record fs := mkFs { files : gmap key string; dirs : gset key }.

Definition path_of (k : key) : string := match k with [] => "/" | _ => Join k "/" end.

Definition name_ok (n : string) : Prop := n ≠ "" ∧ n ≠ "." ∧ n ≠ ".." ∧ has_byte "/"%char n = false.
Definition key_ok (k : key) : Prop := Forall name_ok k.

(** The directories above a path, and itself. *)
Fixpoint prefixes (k : key) : gset key :=
  match k with
  | [] => {[ [] ]}
  | n :: k' => {[ [] ]} ∪ set_map (cons n) (prefixes k')
  end.

Record fs_wf (s : fs) : Prop := {
  wf_root : [] ∈ dirs s;
  wf_dirs k : k ∈ dirs s → key_ok k;
  wf_files k : is_Some (files s !! k) → key_ok k ∧ (k ∉ dirs s) ∧ (∃ d n, k = (d ++ [n])%list ∧ (d ∈ dirs s));
  wf_parent d n : (d ++ [n])%list ∈ dirs s → d ∈ dirs s }.

(** A filesystem whose operations succeed on what exists. The filesystem of a clone is
    an in-memory one ([memfs]), whose root is called [/]. *)
Class BillyLaws (W : Type) `{Billy W} := {
  tree : W → fs;
  root_name : fs_Root = "/";
  read_dir k w : fs_wf (tree w) → k ∈ dirs (tree w) →
    ∃ l, fs_ReadDir (path_of k) w = (Ok l, w) ∧ NoDup l ∧
      ∀ (n : string) (b : bool), (n, b) ∈ l ↔
        (if b then (k ++ [n])%list ∈ dirs (tree w) else is_Some (files (tree w) !! (k ++ [n])%list));
  open_file k c w : key_ok k → files (tree w) !! k = Some c →
    ∃ f r, fs_Open (path_of k) w = (Ok f, w) ∧ file_ReadAll f w = (Ok c, w) ∧
      file_Close f w = (r, w) ∧ r ≠ Panic;
  open_missing k w : key_ok k → files (tree w) !! k = None → ∃ e, fs_Open (path_of k) w = (Err e, w);
  make_dir k p w : key_ok k → p = path_of k ∨ p = path_of k ++ "/" →
    (∀ p, p ∈ prefixes k → files (tree w) !! p = None) →
    ∃ w', fs_MkdirAll p w = (Ok tt, w') ∧
      tree w' = mkFs (files (tree w)) (dirs (tree w) ∪ prefixes k);
  create_file d n c w : d ∈ dirs (tree w) → key_ok (d ++ [n])%list → (d ++ [n])%list ∉ dirs (tree w) →
    ∃ f w1 w2 w3, fs_Create (path_of (d ++ [n])%list) w = (Ok f, w1) ∧ file_Write f c w1 = (Ok tt, w2) ∧
      file_Close f w2 = (Ok tt, w3) ∧
      tree w3 = mkFs (<[(d ++ [n])%list := c]> (files (tree w))) (dirs (tree w));
  remove_file k w : key_ok k → is_Some (files (tree w) !! k) →
    ∃ w', fs_Remove (path_of k) w = (Ok tt, w') ∧
      tree w' = mkFs (delete k (files (tree w))) (dirs (tree w));
  stat_found k w : key_ok k → k ∈ dirs (tree w) ∨ is_Some (files (tree w) !! k) →
    fs_Stat (path_of k) w = (Ok (bool_decide (k ∈ dirs (tree w))), w);
  stat_missing k w : key_ok k → k ∉ dirs (tree w) → files (tree w) !! k = None →
    ∃ e, fs_Stat (path_of k) w = (Err e, w) ∧ os_IsNotExist e = true
}.

(** What holds of a filesystem without symbolic links, whether its operations succeed or not:
    an operation on a path changes no file but the one the path names. The in-memory
    filesystem the worktrees live in follows a symbolic link on [Open] and [Create], so a
    repository whose commit holds one is outside of what is stated with these laws: a write
    at the link changes the file it points to. *)
Class BillyFrame (D : Type) `{Billy D} := {
  file_at : D → key → option string;
  named : string → key;
  file_name : File → key;
  named_clean p : named (Clean p) = named p;
  named_rooted p : named ("/" ++ p) = named p;
  root_rooted : fs_Root = "/";
  read_dir_frame p d r d' : fs_ReadDir p d = (r, d') → file_at d' = file_at d;
  open_frame p d r d' : fs_Open p d = (r, d') → file_at d' = file_at d;
  stat_frame p d r d' : fs_Stat p d = (r, d') → file_at d' = file_at d;
  mkdir_frame p d r d' : fs_MkdirAll p d = (r, d') → file_at d' = file_at d;
  read_frame f d r d' : file_ReadAll f d = (r, d') → file_at d' = file_at d;
  close_frame f d r d' k : file_Close f d = (r, d') → k ≠ file_name f → file_at d' k = file_at d k;
  write_frame f c d r d' k : file_Write f c d = (r, d') → k ≠ file_name f → file_at d' k = file_at d k;
  create_frame p d r d' k : fs_Create p d = (r, d') → k ≠ named p → file_at d' k = file_at d k;
  create_name p d f d' : fs_Create p d = (Ok f, d') → file_name f = named p;
  open_close p d f d' r d1 d2 : fs_Open p d = (Ok f, d') → file_Close f d1 = (r, d2) → file_at d2 = file_at d1;
  remove_frame p d r d' k : fs_Remove p d = (r, d') → k ≠ named p → file_at d' k = file_at d k
}.

(** ** Lemmas on paths *)

Lemma key_ok_snoc k n : key_ok (k ++ [n])%list ↔ key_ok k ∧ name_ok n.
Proof. unfold key_ok. rewrite Forall_app, Forall_singleton. done. Qed.

Lemma key_no_slash k : key_ok k → Forall (λ s, has_byte "/"%char s = false) k.
Proof. intros Hk. eapply Forall_impl; [exact Hk|]. by intros n (_ & _ & _ & ?). Qed.

Lemma join_ne k : key_ok k → k ≠ [] → Join k "/" ≠ "" ∧ Join k "/" ≠ "/".
Proof.
  intros Hk Hne. split; intros He.
  - pose proof (Split_Join "/"%char k (key_no_slash k Hk) Hne) as Hs. rewrite He in Hs.
    change (Split "" (String "/"%char "")) with [""] in Hs. subst k. by inversion Hk as [|? ? (? & _)].
  - pose proof (Split_Join "/"%char k (key_no_slash k Hk) Hne) as Hs. rewrite He in Hs.
    change (Split "/" (String "/"%char "")) with [""; ""] in Hs. subst k. by inversion Hk as [|? ? (? & _)].
Qed.

Lemma path_of_inj k k' : key_ok k → key_ok k' → path_of k = path_of k' → k = k'.
Proof.
  intros Hk Hk' He. destruct k as [|a k], k' as [|b k']; [done|exfalso..|].
  - by apply (join_ne (b :: k') Hk').
  - by apply (join_ne (a :: k) Hk).
  - cbn [path_of] in He. rewrite <- (Split_Join "/"%char (a :: k)), <- (Split_Join "/"%char (b :: k'));
      [by rewrite He|by apply key_no_slash|done|by apply key_no_slash|done].
Qed.

Lemma path_snoc k n : path_of (k ++ [n])%list = Join (k ++ [n])%list "/".
Proof. by destruct k. Qed.

(** The path the walk gives to an entry of a directory. *)
Lemma path_entry k n : key_ok k →
  (if String.eqb (path_of k) "/" || String.eqb (path_of k) "" then n else path_of k ++ ("/" ++ n)) =
  path_of (k ++ [n])%list.
Proof.
  intros Hk. destruct k as [|a k]; [done|]. destruct (join_ne (a :: k) Hk) as [He Hs]; [done|].
  rewrite path_snoc. change (path_of (a :: k)) with (Join (a :: k) "/").
  apply String.eqb_neq in He as ->. apply String.eqb_neq in Hs as ->. simpl orb.
  unfold Join. by rewrite concat_app.
Qed.

Lemma clean_steps k out rooted : key_ok k → foldl (clean_step rooted) out k = (rev k ++ out)%list.
Proof.
  intros Hk. revert out; induction Hk as [|n k (Hn & Hd & Hdd & _) _ IH]; intros out; [done|]. simpl.
  unfold clean_step at 2. apply String.eqb_neq in Hn as ->, Hd as ->, Hdd as ->. simpl.
  rewrite IH. by rewrite <- app_assoc.
Qed.

Lemma no_leading_slash k : key_ok k → k ≠ [] → HasPrefix (Join k "/") "/" = false.
Proof.
  intros Hk Hne. destruct k as [|n k]; [done|]. inversion Hk as [|? ? (Hn & _ & _ & Hsl) _]; subst.
  destruct n as [|c n]; [done|]. simpl in Hsl. apply orb_false_iff in Hsl as [Hc _].
  assert (Hp : ∀ r, HasPrefix (String c r) "/" = false).
  { intros r. unfold HasPrefix. change "/"%string with (String "/"%char ""). by rewrite prefix_one. }
  unfold Join. destruct k; simpl; apply Hp.
Qed.

(** Cleaning a path that is already clean. *)
Lemma clean_path k : key_ok k → Clean (path_of k) = path_of k.
Proof.
  intros Hk. destruct k as [|a k]; [reflexivity|]. change (path_of (a :: k)) with (Join (a :: k) "/").
  unfold Clean. rewrite no_leading_slash by done.
  rewrite (Split_Join "/"%char) by (done || by apply key_no_slash).
  rewrite clean_steps, app_nil_r, rev_involutive by done. done.
Qed.

Lemma dir_path k n : key_ok (k ++ [n])%list →
  Dir (path_of (k ++ [n])%list) = match k with [] => "." | _ => path_of k end.
Proof.
  intros Hk. rewrite path_snoc. unfold Dir.
  rewrite (Split_Join "/"%char) by (by apply key_no_slash || by destruct k).
  rewrite removelast_last. destruct k as [|a k]; [done|].
  apply key_ok_snoc in Hk as [Hk Hn]. change (path_of (a :: k)) with (Join (a :: k) "/").
  unfold Clean. assert (Hj : Join (a :: k) "/" ++ "/" = Join ((a :: k) ++ [""])%list "/").
  { unfold Join. by rewrite concat_app. }
  rewrite Hj. assert (Hp : HasPrefix (Join ((a :: k) ++ [""])%list "/") "/" = false).
  { rewrite <- Hj. pose proof (no_leading_slash (a :: k) Hk ltac:(done)) as Hp.
    destruct (join_ne (a :: k) Hk ltac:(done)) as [Hne _]. revert Hp Hne.
    generalize (Join (a :: k) "/"). intros [|c s] Hp Hne; [done|].
    unfold HasPrefix in *. cbn [String.append].
    generalize (s ++ "/")%string; intros s'. change "/"%string with (String "/"%char "") in Hp |- *.
    by rewrite prefix_one in Hp |- *. }
  rewrite Hp, (Split_Join "/"%char); [|apply Forall_app; split; [by apply key_no_slash|by repeat constructor]|done].
  rewrite foldl_app, (clean_steps (a :: k)) by done.
  cbn [foldl]. unfold clean_step. cbn [String.eqb orb]. rewrite app_nil_r, rev_involutive. done.
Qed.

Lemma prefixes_self k : k ∈ prefixes k.
Proof. induction k; simpl; set_solver. Qed.

Lemma elem_of_prefixes k p : p ∈ prefixes k ↔ p `prefix_of` k.
Proof.
  revert p; induction k as [|n k IH]; intros p; simpl.
  - rewrite elem_of_singleton. split; [intros ->; apply prefix_nil|by apply prefix_nil_inv].
  - rewrite elem_of_union, elem_of_singleton, elem_of_map. split.
    + intros [->|(q & -> & Hq)]; [apply prefix_nil|]. by apply prefix_cons, IH.
    + intros Hp. destruct p as [|m p]; [by left|right].
      pose proof (prefix_cons_inv_1 _ _ _ _ Hp) as ->. exists p. split; [done|].
      apply IH. by apply (prefix_cons_inv_2 n n).
Qed.

(** ** Well-formedness is kept *)

Lemma wf_write s d n c : fs_wf s → key_ok (d ++ [n])%list → d ∈ dirs s → (d ++ [n])%list ∉ dirs s →
  fs_wf (mkFs (<[(d ++ [n])%list := c]> (files s)) (dirs s)).
Proof.
  intros [Hr Hd Hf Hp] Hok Hin Hn. split; [done..| |done]. cbn. intros k Hk.
  destruct (decide (k = (d ++ [n])%list)) as [->|Hne].
  { split; [done|]. split; [done|]. by exists d, n. }
  rewrite lookup_insert_ne in Hk by done. by apply Hf.
Qed.

Lemma wf_delete s k : fs_wf s → fs_wf (mkFs (delete k (files s)) (dirs s)).
Proof.
  intros [Hr Hd Hf Hp]. split; [done..| |done]. cbn. intros k' [c Hk].
  apply lookup_delete_Some in Hk as [_ Hk]. by apply Hf.
Qed.

Lemma wf_mkdir s k : fs_wf s → key_ok k → (∀ p, p ∈ prefixes k → files s !! p = None) →
  fs_wf (mkFs (files s) (dirs s ∪ prefixes k)).
Proof.
  intros [Hr Hd Hf Hp] Hok Hno. split; cbn.
  - set_solver.
  - intros p [Hin|Hin]%elem_of_union; [by apply Hd|]. apply elem_of_prefixes in Hin as [q ->].
    by apply Forall_app in Hok as [? _].
  - intros p Hin. destruct (Hf p Hin) as (? & ? & d & n & -> & Hdir). split; [done|]. split.
    + intros [?|Hpre]%elem_of_union; [done|]. rewrite (Hno _ Hpre) in Hin. by destruct Hin.
    + exists d, n. set_solver.
  - intros d n [Hin|Hin]%elem_of_union; apply elem_of_union.
    + left. by eapply Hp.
    + right. apply elem_of_prefixes in Hin. apply elem_of_prefixes. etrans; [|done]. by eexists.
Qed.

(** ** An in-memory filesystem *)

(** The names on a path, from the root. *)
Definition parse (path : string) : key := rev (foldl (clean_step true) [] (Split path "/")).

Lemma parse_path k : key_ok k → parse (path_of k) = k.
Proof.
  intros Hk. unfold parse. destruct k as [|a k]; [done|]. change (path_of (a :: k)) with (Join (a :: k) "/").
  rewrite (Split_Join "/"%char) by (done || by apply key_no_slash).
  by rewrite clean_steps, app_nil_r, rev_involutive.
Qed.

Lemma parse_rooted p : parse ("/" ++ p) = parse p.
Proof. unfold parse. change ("/" ++ p)%string with ("" ++ String "/"%char p)%string. by rewrite Split_cons. Qed.

(** Cleaning a relative path keeps the leading dot-dots, which the root absorbs. *)
Definition proper (n : string) : Prop := n ≠ "" ∧ n ≠ "." ∧ n ≠ "..".

Lemma step_proper r out n : proper n → clean_step r out n = n :: out.
Proof.
  intros (Hn & Hd & Hdd). unfold clean_step.
  by apply String.eqb_neq in Hn as ->, Hd as ->, Hdd as ->.
Qed.

Lemma clean_runs segs A k : Forall proper A →
  ∃ A' k', Forall proper A' ∧ foldl (clean_step true) A segs = A' ∧
    foldl (clean_step false) (A ++ repeat ".." k)%list segs = (A' ++ repeat ".." k')%list.
Proof.
  revert A k; induction segs as [|n segs IH]; intros A k HA; [by exists A, k|]. cbn [foldl].
  destruct (String.eqb_spec n "") as [->|Hn]; [by apply IH|].
  destruct (String.eqb_spec n ".") as [->|Hd]; [by apply IH|].
  destruct (String.eqb_spec n "..") as [->|Hdd].
  - destruct HA as [|x A (Hx & Hxd & Hxdd) HA].
    + change (clean_step true [] "..") with (@nil string). destruct (IH [] (S k) ltac:(constructor)) as (A' & k' & ? & ? & ?).
      exists A', k'. split_and!; [done..|]. by destruct k.
    + apply String.eqb_neq in Hxdd.
      assert (Hpop : ∀ r l, clean_step r (x :: l) ".." = l) by (intros; cbn; by rewrite Hxdd).
      cbn [app]. rewrite !Hpop. by apply IH.
  - rewrite !step_proper by done. change (n :: (A ++ repeat ".." k)%list) with ((n :: A) ++ repeat ".." k)%list.
    apply IH. by constructor.
Qed.

Lemma clean_no_slash r segs out : Forall (λ s, has_byte "/"%char s = false) segs →
  Forall (λ s, has_byte "/"%char s = false) out → Forall (λ s, has_byte "/"%char s = false) (foldl (clean_step r) out segs).
Proof.
  intros Hs. revert out; induction Hs as [|n segs Hn Hs IH]; intros out Ho; [done|]. cbn. apply IH.
  unfold clean_step. destruct (_ || _); [done|]. destruct (String.eqb n ".."); [|by constructor].
  destruct Ho as [|x out Hx Ho]; [destruct r; by repeat constructor|].
  destruct (String.eqb x ".."); by repeat constructor.
Qed.

Lemma proper_again A k : Forall proper A → foldl (clean_step true) [] (repeat ".." k ++ rev A)%list = A.
Proof.
  intros HA. rewrite foldl_app. assert (Hk : foldl (clean_step true) [] (repeat ".." k) = []) by by induction k.
  rewrite Hk. induction HA as [|n A Hn HA IH]; [done|]. cbn [rev]. rewrite foldl_app, IH. cbn. by apply step_proper.
Qed.

Lemma split_no_slash p : Forall (λ s, has_byte "/"%char s = false) (Split p "/").
Proof.
  unfold Split. induction p as [|c p IH]; [by repeat constructor|]. cbn [split_go].
  change "/"%string with (String "/"%char "") at 1. rewrite prefix_one.
  destruct (Ascii.eqb c "/") eqn:Hc; [by constructor|].
  destruct (split_go "/" 0 p) as [|h t]; [repeat constructor|].
  - cbn. by rewrite Hc.
  - inversion IH as [|? ? Hh Ht]; subst. constructor; [|done]. cbn. by rewrite Hc, Hh.
Qed.

Lemma parse_join segs : Forall (λ s, has_byte "/"%char s = false) segs →
  parse (Join segs "/") = rev (foldl (clean_step true) [] segs).
Proof.
  intros Hs. unfold parse. destruct (decide (segs = [])) as [->|Hne]; [done|]. by rewrite (Split_Join "/"%char).
Qed.

Lemma parse_slash k : key_ok k → parse (path_of k ++ "/") = k.
Proof.
  intros Hk. destruct (decide (k = [])) as [->|Hne]; [done|].
  replace (path_of k ++ "/") with (Join (k ++ [""])%list "/").
  - rewrite parse_join; [|apply Forall_app; split; [by apply key_no_slash|by repeat constructor]].
    rewrite foldl_app, (clean_steps k) by done. cbn. by rewrite app_nil_r, rev_involutive.
  - unfold Join. rewrite concat_app by done. by destruct k.
Qed.

Lemma parse_clean p : parse (Clean p) = parse p.
Proof.
  unfold Clean. destruct (clean_runs (Split p "/") [] 0 ltac:(constructor)) as (A & k & HA & Ht & Hf). cbn in Hf.
  assert (Hslash : Forall (λ s, has_byte "/"%char s = false) A).
  { rewrite <- Ht. apply clean_no_slash; [apply split_no_slash|constructor]. }
  assert (Hp : parse p = rev A) by (unfold parse; by rewrite Ht).
  destruct (HasPrefix p "/").
  - rewrite Ht, parse_rooted, parse_join, Hp by by apply Forall_rev.
    f_equal. exact (proper_again A 0 HA).
  - rewrite Hf, Hp. assert (Hj : parse (Join (rev (A ++ repeat ".." k)%list) "/") = rev A).
    { rewrite parse_join; [f_equal|].
      - rewrite rev_app_distr. replace (rev (repeat ".." k)) with (repeat ".." k); [by apply proper_again|].
        clear. induction k as [|k IH]; [done|]. cbn. rewrite <- IH. clear.
        induction k as [|k IH]; [done|]. cbn. by f_equal.
      - apply Forall_rev, Forall_app. split; [done|]. clear. by induction k; constructor. }
    destruct (rev (A ++ repeat ".." k)%list) eqn:E; [|exact Hj].
    apply (f_equal (@rev _)) in E. rewrite rev_involutive in E. by destruct A.
Qed.

(** The name of an entry of a directory. *)
Fixpoint child (dir k : key) : option string :=
  match dir, k with
  | [], [n] => Some n
  | a :: dir', b :: k' => if String.eqb a b then child dir' k' else None
  | _, _ => None
  end.
Lemma child_Some dir k n : child dir k = Some n ↔ k = (dir ++ [n])%list.
Proof.
  revert k; induction dir as [|a dir IH]; intros [|b k]; simpl; try done.
  - destruct k; naive_solver.
  - destruct (String.eqb_spec a b) as [->|Hab]; [rewrite IH; naive_solver|naive_solver].
Qed.

Definition listing (s : fs) (dir : key) : list (string * bool) :=
  elements (list_to_set
    (omap (λ '(k, _), (λ n, (n, false)) <$> child dir k) (map_to_list (files s)) ++
     omap (λ k, (λ n, (n, true)) <$> child dir k) (elements (dirs s))) : gset (string * bool)).

Definition no_such_file : error := plainError "file does not exist".

(** An open file is the path it was opened at and what was there. *)
#[export] Instance mem_billy : Billy fs := {
  File := key * string;
  fs_Root := "/";
  fs_ReadDir p := λ s, if bool_decide (parse p ∈ dirs s) then (Ok (listing s (parse p)), s) else (Err no_such_file, s);
  fs_Open p := λ s, match files s !! parse p with Some c => (Ok (parse p, c), s) | None => (Err no_such_file, s) end;
  fs_Create p := λ s, (Ok (parse p, ""), mkFs (<[parse p := ""]> (files s)) (dirs s));
  fs_MkdirAll p := λ s, (Ok tt, mkFs (files s) (dirs s ∪ prefixes (parse p)));
  fs_Remove p := λ s, if bool_decide (is_Some (files s !! parse p))
                      then (Ok tt, mkFs (delete (parse p) (files s)) (dirs s)) else (Err no_such_file, s);
  fs_Stat p := λ s, if bool_decide (parse p ∈ dirs s) then (Ok true, s)
                    else if bool_decide (is_Some (files s !! parse p)) then (Ok false, s) else (Err no_such_file, s);
  file_ReadAll f := λ s, (Ok f.2, s);
  file_Write f c := λ s, (Ok tt, mkFs (<[f.1 := c]> (files s)) (dirs s));
  file_Close f := λ s, (Ok tt, s);
  os_IsNotExist e := true }.

Lemma elem_of_listing s dir n (b : bool) : (n, b) ∈ listing s dir ↔
  (if b then (dir ++ [n])%list ∈ dirs s else is_Some (files s !! (dir ++ [n])%list)).
Proof.
  unfold listing. rewrite elem_of_elements, elem_of_list_to_set, elem_of_app, !list_elem_of_omap. split.
  - intros [([k c] & Hin & Hc)|(k & Hin & Hc)].
    + destruct (child dir k) as [m|] eqn:E; simplify_eq/=. apply child_Some in E as ->.
      apply elem_of_map_to_list in Hin. by eexists.
    + destruct (child dir k) as [m|] eqn:E; simplify_eq/=. apply child_Some in E as ->.
      by apply elem_of_elements.
  - destruct b.
    + intros Hd. right. exists (dir ++ [n])%list. split; [by apply elem_of_elements|].
      by rewrite (proj2 (child_Some dir (dir ++ [n])%list n) eq_refl).
    + intros [c Hc]. left. exists ((dir ++ [n])%list, c). split; [by apply elem_of_map_to_list|].
      by rewrite (proj2 (child_Some dir (dir ++ [n])%list n) eq_refl).
Qed.


#[export] Instance mem_laws : BillyLaws fs.
Proof.
  refine {| tree := id |}; unfold id; try done.
  - intros k s Hwf Hk. cbn. rewrite parse_path by by apply (wf_dirs s Hwf). rewrite bool_decide_true by done.
    eexists. split; [done|]. split; [apply NoDup_elements|]. intros n b. apply elem_of_listing.
  - intros k c s Hok Hk. cbn. rewrite parse_path, Hk by done. by exists (k, c), (Ok tt).
  - intros k s Hok Hk. cbn. rewrite parse_path, Hk by done. by eexists.
  - intros k p s Hok Hp _. cbn. assert (parse p = k) as -> by (destruct Hp as [-> | ->]; [by apply parse_path|by apply parse_slash]).
    by eexists.
  - intros d n c s Hd Hok Hn. cbn. rewrite parse_path by done. do 4 eexists. split; [done|]. cbn.
    split; [done|]. split; [done|]. by rewrite insert_insert_eq.
  - intros k s Hok Hk. cbn. rewrite parse_path by done. rewrite bool_decide_true by done. by eexists.
  - intros k s Hok Hk. cbn. rewrite parse_path by done. case_bool_decide as Hd; [done|].
    rewrite bool_decide_true by (by destruct Hk). done.
  - intros k s Hok Hd Hf. cbn. rewrite parse_path by done. rewrite bool_decide_false by done.
    rewrite bool_decide_false by (rewrite Hf; by intros []). by eexists.
Defined.

#[export] Instance mem_frame : BillyFrame fs.
Proof.
  refine {| file_at := λ s k, files s !! k; named := parse; file_name := fst |}.
  - apply parse_clean.
  - apply parse_rooted.
  - done.
  - intros p d r d'. cbn. case_bool_decide; by intros [= <- <-].
  - intros p d r d'. cbn. by destruct (files d !! parse p); intros [= <- <-].
  - intros p d r d'. cbn. repeat case_bool_decide; by intros [= <- <-].
  - intros p d r d' [= <- <-]. done.
  - intros f d r d' [= <- <-]. done.
  - intros f d r d' k [= <- <-] _. done.
  - intros f c d r d' k [= <- <-] Hk. cbn. by apply lookup_insert_ne.
  - intros p d r d' k [= <- <-] Hk. cbn. by apply lookup_insert_ne.
  - intros p d f d' [= <- <-]. done.
  - intros p d f d' r d1 d2 _ [= <- <-]. done.
  - intros p d r d' k. cbn. case_bool_decide; intros [= <- <-] Hk; [|done]. cbn. by apply lookup_delete_ne.
Defined.
