(* ===== verification/Walker.v ===== *)
(** * Manipulating the manifests of a worktree ([internal/walker])

    The documents of a file ([document.go]), the selectors ([selector.go]), the walk
    ([walker.go], [worktree_fs.go]), the cache of locations ([cache.go]) and the object
    operations ([object.go]). [D] is the world the filesystem lives in; the package-level
    cache is a second component of the state. *)

From S2P Require Import Prelude GoStr Lfu Api Errors External Files.

#[export] Instance GVR_countable : Countable GVR.
Proof.
  refine (inj_countable' (λ g, (gvr_Group g, gvr_Version g, gvr_Resource g)) (λ '(a, b, c), mkGVR a b c) _).
  by intros [].
Defined.

(** ** [selector.go] *)

Record ObjectSelector := mkSel {
  os_GVR : GVR; os_Name : string; os_Namespace : string; os_CommentPrefix : string }.
#[export] Instance ObjectSelector_eq_dec : EqDecision ObjectSelector.
Proof. solve_decision. Defined.
#[export] Instance ObjectSelector_countable : Countable ObjectSelector.
Proof.
  refine (inj_countable' (λ s, (os_GVR s, os_Name s, os_Namespace s, os_CommentPrefix s))
            (λ '(a, b, c, d), mkSel a b c d) _).
  by intros [].
Defined.

Definition docSeparator : string := nls ++ ("---" ++ nls).

(** A transformation of the document to be written at a path, given the one it replaces;
    nil writes the document as it is. *)
Definition DocTransform (D : Type) : Type := option (string → string → string → M error D string).

(** [v, _ := m[k].(string)]. *)
Definition string_field (m : gmap string value) (k : string) : string :=
  match m !! k with Some (VStr s) => s | _ => "" end.
(** [if g, _, ok := strings.Cut(apiVersion, "/"); ok { group = g }]. *)
Definition group_of (apiVersion : string) : string :=
  match Cut apiVersion "/" with Some (g, _) => g | None => "" end.
(** The name and the namespace of the metadata, when it is a mapping. *)
Definition metadata_of (m : gmap string value) : string * string :=
  match m !! "metadata" with
  | Some (VMap md) => (string_field md "name", string_field md "namespace")
  | _ => ("", "")
  end.

Section Documents.
Context `{Lib}.

Definition kindToResource (kind : string) : string :=
  if String.eqb kind "" then "" else UnsafeGuessKindToResource kind.

Definition matchComment (doc : string) (sel : ObjectSelector) : bool :=
  if String.eqb (os_CommentPrefix sel) "" then false
  else
    let firstLine := match Cut doc nls with Some (l, _) => l | None => doc end in
    let markerLine := TrimSpace (TrimPrefix (TrimSpace firstLine) "#") in
    if negb (HasPrefix markerLine (os_CommentPrefix sel)) then false
    else
      let value := TrimPrefix markerLine (os_CommentPrefix sel) in
      let '(ns, name) := match Cut value "/" with Some (ns, name) => (ns, name) | None => ("", value) end in
      String.eqb name (os_Name sel) && String.eqb ns (os_Namespace sel).

Definition matchDoc (doc : string) (sel : ObjectSelector) : bool :=
  if matchComment doc sel then true
  else match yaml_Unmarshal_map doc with
       | Ok m =>
           if bool_decide (m = ∅) then false
           else
             let apiVersion := string_field m "apiVersion" in
             let kind := string_field m "kind" in
             if String.eqb apiVersion "" && String.eqb kind "" then false
             else
               let '(name, namespace) := metadata_of m in
               String.eqb (group_of apiVersion) (gvr_Group (os_GVR sel)) &&
               String.eqb (kindToResource kind) (gvr_Resource (os_GVR sel)) &&
               String.eqb name (os_Name sel) &&
               ((String.eqb (os_Namespace sel) "" && String.eqb namespace "default") ||
                String.eqb namespace (os_Namespace sel))
       | _ => false
       end.

(** A document that does not parse leaves the map empty. *)
Definition SelectorFromDoc (doc : string) : ObjectSelector :=
  let m := match yaml_Unmarshal_map doc with Ok m => m | _ => ∅ end in
  let '(name, namespace) := metadata_of m in
  mkSel (mkGVR (group_of (string_field m "apiVersion")) "" (kindToResource (string_field m "kind")))
    name namespace "".

(** ** [document.go] *)

Context {D : Type}.

Definition Apply (t : DocTransform D) (relPath existing content : string) : M error D string :=
  match t with
  | None => ret content
  | Some f => if String.eqb content "" then ret content else f relPath existing content
  end.

(** The first document that satisfies a test. *)
Fixpoint index_of (p : string → bool) (docs : list string) : option nat :=
  match docs with
  | [] => None
  | d :: docs' => if p d then Some 0%nat else S <$> index_of p docs'
  end.

(** [if len(merged) > 0 && !bytes.HasSuffix(merged, "\n") { merged = append(merged, '\n') }]. *)
Definition end_line (merged : string) : string :=
  if negb (String.eqb merged "") && negb (HasSuffix merged nls) then merged ++ nls else merged.

(** The merged content and whether a document matched; an error comes after a match. *)
Definition ReplaceDocInContentFunc (content : string) (sel : ObjectSelector) (newDoc relPath : string)
    (transform : DocTransform D) : M error D (string * bool) :=
  let docs := Split content docSeparator in
  match index_of (λ doc, matchDoc doc sel) docs with
  | None => ret (content, false)
  | Some matched =>
      docs ⇐ (if String.eqb newDoc "" then ret (take matched docs ++ drop (S matched) docs)%list
              else
                transformed ⇐ Apply transform relPath (nth matched docs "") newDoc;;
                ret (<[matched := TrimRightNL transformed]> docs));;
      ret (end_line (Join docs docSeparator), true)
  end.

Definition ReplaceDocInContent (content : string) (sel : ObjectSelector) (newDoc : string)
  : M error D (string * bool) := ReplaceDocInContentFunc content sel newDoc "" None.

Definition splitDocs (content : string) : list string :=
  List.filter (λ doc, negb (String.eqb (TrimSpace doc) ""))
    (map (λ doc, TrimRightNL (TrimPrefix doc ("---" ++ nls))) (Split content docSeparator)).

Definition same_object (a b : ObjectSelector) : bool :=
  bool_decide (os_GVR a = os_GVR b) && String.eqb (os_Name a) (os_Name b).

(** The document of the file for the same object, "" when there is none. *)
Definition previousDoc (existingDocs : list string) (doc : string) : string :=
  match List.find (λ existingDoc, same_object (SelectorFromDoc existingDoc) (SelectorFromDoc doc)) existingDocs with
  | Some existingDoc => existingDoc
  | None => ""
  end.

Definition transform_changed (relPath : string) (existingDocs : list string) (transform : DocTransform D)
    (out : list string) (doc : string) : M error D (list string) :=
  if existsb (String.eqb doc) existingDocs then ret (out ++ [doc])%list
  else
    transformed ⇐ Apply transform relPath (previousDoc existingDocs doc) doc;;
    ret (out ++ [TrimRightNL transformed])%list.

Definition TransformChangedDocs (relPath existing content : string) (transform : DocTransform D)
  : M error D string :=
  docs ⇐ for_fold (transform_changed relPath (splitDocs existing) transform) [] (splitDocs content);;
  ret (Join docs docSeparator ++ nls).

Definition appendDoc (existing doc : string) : string :=
  let out := TrimRightNL existing ++ (docSeparator ++ doc) in
  if HasSuffix out nls then out else out ++ nls.
End Documents.

(** ** [worktree_fs.go] *)

Section Worktree.
Context {D : Type} `{Billy D}.

(** The deferred [Close] comes after the read, whatever it answers. *)
Definition ReadWorktreeFile (path : string) : M error D string :=
  f ⇐ fs_Open path;;
  content ⇐ attempt (file_ReadAll f);;
  _ ⇐ attempt (file_Close f);;
  match content with inl c => ret c | inr err => throw err end.

Definition WriteWorktreeFile (path content : string) : M error D unit :=
  let dir := Dir path in
  _ ⇐ (if negb (String.eqb dir ".") && negb (String.eqb dir "/") then fs_MkdirAll dir else ret tt);;
  f ⇐ fs_Create path;;
  written ⇐ attempt (file_Write f content);;
  match written with
  | inr err => _ ⇐ attempt (file_Close f);; throw err
  | inl _ => file_Close f
  end.

Definition removeWorktreeFile (path : string) : M error D unit := fs_Remove path.

Definition worktreeRelativePath (root path : string) : string :=
  TrimPrefix (TrimPrefix (Clean path) (Clean root)) "/".

(** ** [walker.go] *)

Definition is_yaml (name : string) : bool := HasSuffix name ".yaml" || HasSuffix name ".yml".
Definition join_entry (basePath name : string) : string :=
  if String.eqb basePath "/" || String.eqb basePath "" then name else basePath ++ ("/" ++ name).

Section Walk.
Context {S : Type}.

(** A loop that a [true] stops; [None] is lack of fuel, apart from any error. *)
Fixpoint for_stop {A} (body : A → M error (D * S) (option bool)) (l : list A) : M error (D * S) (option bool) :=
  match l with
  | [] => ret (Some false)
  | x :: l' =>
      stop ⇐ body x;;
      match stop with Some false => for_stop body l' | _ => ret stop end
  end.

(** [S] is what the visitor keeps between its calls. *)
Fixpoint walkWorktreeFiles (fuel : nat) (basePath : string) (visit : string → string → M error (D * S) bool)
  : M error (D * S) (option bool) :=
  match fuel with
  | O => ret None
  | Datatypes.S fuel =>
      files ⇐ attempt (outside (fs_ReadDir basePath));;
      match files with
      | inr err => throw (wrapError ("failed to read directory " ++ (basePath ++ ": ")) err)
      | inl files =>
          for_stop (λ '(name, isDir),
            let path := join_entry basePath name in
            if isDir : bool then walkWorktreeFiles fuel path visit
            else if negb (is_yaml name) then ret (Some false)
            else
              content ⇐ attempt (outside (ReadWorktreeFile path));;
              match content with
              | inr err => throw (wrapError ("failed to read " ++ (path ++ ": ")) err)
              | inl content => stop ⇐ visit path content;; ret (Some stop)
              end) files
      end
  end.

(** What the visitor of documents answers: whether to stop, and whether to skip. *)
Fixpoint visit_docs (visit : string → string → M error (D * S) (bool * bool)) (path : string) (docs : list string)
  : M error (D * S) bool :=
  match docs with
  | [] => ret false
  | rawDoc :: docs' =>
      '(stop, skip) ⇐ visit path rawDoc;;
      if skip : bool then visit_docs visit path docs'
      else if stop : bool then ret true
      else visit_docs visit path docs'
  end.

Definition WalkWorktreeYAML (fuel : nat) (basePath : string)
    (visit : string → string → M error (D * S) (bool * bool)) : M error (D * S) (option bool) :=
  walkWorktreeFiles fuel basePath (λ path content, visit_docs visit path (Split content docSeparator)).
End Walk.

(** ** [cache.go] *)

Record docCacheKey := mkDocKey { dk_Scope : string; dk_Sel : ObjectSelector }.
#[export] Instance docCacheKey_eq_dec : EqDecision docCacheKey.
Proof. solve_decision. Defined.
#[export] Instance docCacheKey_countable : Countable docCacheKey.
Proof. refine (inj_countable' (λ k, (dk_Scope k, dk_Sel k)) (λ '(a, b), mkDocKey a b) _). by intros []. Defined.

Record docCacheValue := mkDocValue { dv_Path : string; dv_NoCache : bool }.

(** [docCache], nil when disabled. *)
Definition doc_cache : Type := option (LFU docCacheKey docCacheValue).
Definition InitDocumentCache (maxEntries : Z) : doc_cache := NewLFU maxEntries.

Section Cached.
Context (ord : order docCacheKey docCacheValue) `{Lib}.

Definition recordMatches (scope : string) (sel : ObjectSelector) (matched : list string) (docCache : doc_cache)
  : doc_cache :=
  let key := mkDocKey scope sel in
  match matched with
  | [] => Lfu.Delete key docCache
  | [path] => Set_ ord key (mkDocValue path false) docCache
  | _ => Set_ ord key (mkDocValue "" true) docCache
  end.

(** ** [object.go] *)

(** The path and the document, [None] when nothing matches; outermost, lack of fuel. *)
Definition FindObject (fuel : nat) (sel : ObjectSelector) : M error D (option (option (string * string))) :=
  let root := fs_Root in
  '(walked, found) ⇐ with_local None
    (WalkWorktreeYAML fuel root (λ p rawDoc,
       if negb (matchDoc rawDoc sel) then ret (false, true)
       else λ '(d, _), (Ok (true, false), (d, Some (worktreeRelativePath root p, rawDoc)))));;
  ret (match walked with None => None | Some _ => Some found end).

(** [claimed] is the accumulator passed by reference; the answer says whether a document
    matched. *)
Definition applyReplacement (fsPath relPath fileContent : string) (sel : ObjectSelector) (content : string)
    (transform : DocTransform D) (claimed : ClaimedPaths) : M error D (bool * ClaimedPaths) :=
  '(out, found) ⇐ ReplaceDocInContentFunc fileContent sel content relPath transform;;
  if negb found then ret (false, claimed)
  else
    _ ⇐ (if String.eqb out fileContent then ret tt
         else if String.eqb (TrimSpace out) "" then
           removed ⇐ attempt (removeWorktreeFile fsPath);;
           match removed with
           | inr rerr => throw (wrapError ("failed to remove " ++ (fsPath ++ ": ")) rerr)
           | inl _ => ret tt
           end
         else
           written ⇐ attempt (WriteWorktreeFile fsPath out);;
           match written with
           | inr werr => throw (wrapError ("failed to write " ++ (fsPath ++ ": ")) werr)
           | inl _ => ret tt
           end);;
    ret (true, if String.eqb content "" then AppendDeletedPath claimed relPath else AppendAddedPath claimed relPath).

(** The visitor of the full walk: the claims and the matched paths so far. *)
Definition replace_visit (root : string) (sel : ObjectSelector) (content : string) (transform : DocTransform D)
    (path fileContent : string) : M error (D * (ClaimedPaths * list string)) bool := λ '(d, (claimed, matched)),
  let rel := worktreeRelativePath root path in
  match applyReplacement path rel fileContent sel content transform claimed d with
  | (Ok (found, claimed'), d') =>
      (Ok false, (d', (claimed', if found then (matched ++ [rel])%list else matched)))
  | (Err e, d') => (Err e, (d', (claimed, matched)))
  | (Panic, d') => (Panic, (d', (claimed, matched)))
  end.

Definition cached {A} (f : doc_cache → A * doc_cache) : M error (D * doc_cache) A := λ '(d, c),
  let '(a, c') := f c in (Ok a, (d, c')).
Definition update_cache (f : doc_cache → doc_cache) : M error (D * doc_cache) unit := cached (λ c, (tt, f c)).

Definition full_walk (fuel : nat) (scope : string) (sel : ObjectSelector) (content : string)
    (transform : DocTransform D) : M error (D * doc_cache) (option ClaimedPaths) :=
  let root := fs_Root in
  '(walked, (claimed, matched)) ⇐ outside (with_local (NewClaimedPaths, [])
      (walkWorktreeFiles fuel root (replace_visit root sel content transform)));;
  match walked with
  | None => ret None
  | Some _ =>
      _ ⇐ update_cache (if String.eqb content "" then Lfu.Delete (mkDocKey scope sel)
                        else recordMatches scope sel matched);;
      ret (Some claimed)
  end.

Definition ReplaceObject (fuel : nat) (scope : string) (sel : ObjectSelector) (content : string)
    (transform : DocTransform D) : M error (D * doc_cache) (option ClaimedPaths) :=
  let key := mkDocKey scope sel in
  v ⇐ cached (Get key);;
  match v with
  | Some (mkDocValue path false) =>
      fileContent ⇐ attempt (outside (ReadWorktreeFile path));;
      match fileContent with
      | inr _ => full_walk fuel scope sel content transform
      | inl fileContent =>
          '(found, claimed) ⇐ outside (applyReplacement path path fileContent sel content transform NewClaimedPaths);;
          if found : bool then
            _ ⇐ (if String.eqb content "" then update_cache (Lfu.Delete key) else ret tt);;
            ret (Some claimed)
          else full_walk fuel scope sel content transform
      end
  | _ => full_walk fuel scope sel content transform
  end.

Definition WriteObjectAtPath (path : string) (sel : ObjectSelector) (content : string) (transform : DocTransform D)
  : M error D ClaimedPaths :=
  let cleanPath := Clean path in
  if String.eqb content "" then
    _ ⇐ attempt (removeWorktreeFile cleanPath);;
    ret (AppendDeletedPath NewClaimedPaths cleanPath)
  else
    read ⇐ attempt (ReadWorktreeFile cleanPath);;
    let existing := match read with inl c => c | inr _ => "" end in
    '(out, found) ⇐ ReplaceDocInContentFunc existing sel content cleanPath transform;;
    out ⇐ (if found : bool then ret out
           else
             transformed ⇐ Apply transform cleanPath "" content;;
             ret (match read with inl _ => appendDoc existing transformed | inr _ => transformed end));;
    _ ⇐ WriteWorktreeFile cleanPath out;;
    ret (AppendAddedPath NewClaimedPaths cleanPath).
End Cached.
End Worktree.
