(* ===== verification/Documents.v ===== *)
(** * The documents of a file, after one of them was replaced

    Splitting and joining around the separator are inverse on documents that do not run
    into it, so a rewritten file reads back as the same documents but one, and writing
    the same document again changes nothing. *)

From S2P Require Import Prelude GoStr Api Errors External Files Walker Sim.
From Stdlib Require Import Ascii.

(** The document does not form a separator, alone or with the one that follows it. *)
Definition clean_doc (doc : string) : Prop := Contains (doc ++ (nls ++ "---")) docSeparator = false.

(** ** Separators *)

Lemma prefix_take p x r : (length_str p ≤ length_str x)%nat → String.prefix p (x ++ r) = String.prefix p x.
Proof.
  revert x; induction p as [|c p IH]; intros [|d x] Hl; simpl in *; try lia; try done.
  - by destruct r.
  - destruct (ascii_dec c d); [|done]. apply IH. lia.
Qed.

Lemma sep_split : docSeparator = (nls ++ "---") ++ nls.
Proof. reflexivity. Qed.

Lemma contains_cons c s sub : Contains (String c s) sub = String.prefix sub (String c s) || Contains s sub.
Proof. reflexivity. Qed.

Lemma clean_tail c d : clean_doc (String c d) → clean_doc d.
Proof. unfold clean_doc. cbn [String.append]. rewrite contains_cons. by intros [_ ?]%orb_false_iff. Qed.

Lemma cut_here s : String.prefix docSeparator s = true →
  Cut s docSeparator = Some ("", sdrop (length_str docSeparator) s).
Proof. intros Hs. by destruct s; cbn [Cut]; rewrite Hs. Qed.

Lemma clean_cut d r : clean_doc d → Cut (d ++ (docSeparator ++ r)) docSeparator = Some (d, r).
Proof.
  induction d as [|c d IH]; intros Hc.
  - change ("" ++ (docSeparator ++ r)) with (docSeparator ++ r).
    rewrite cut_here by apply prefix_append. by rewrite sdrop_append.
  - specialize (IH (clean_tail _ _ Hc)). cbn [String.append Cut]. rewrite IH.
    unfold clean_doc in Hc. cbn [String.append] in Hc. rewrite contains_cons in Hc.
    apply orb_false_iff in Hc as [Hp _].
    assert (He : String c (d ++ (docSeparator ++ r)) = String c (d ++ (nls ++ "---")) ++ (nls ++ r)).
    { rewrite sep_split. cbn [String.append]. by rewrite !append_assoc. }
    rewrite He, prefix_take, Hp; [done|]. cbn [length_str]. rewrite append_length. simpl. lia.
Qed.

Lemma cut_clean s a b : Cut s docSeparator = Some (a, b) → s = a ++ (docSeparator ++ b) ∧ clean_doc a.
Proof.
  revert a b; induction s as [|c s IH]; intros a b; [done|].
  cbn [Cut]. destruct (String.prefix docSeparator (String c s)) eqn:Hp.
  - intros [= <- <-]. split; [|reflexivity]. by apply prefix_spec in Hp.
  - destruct (Cut s docSeparator) as [[a' b']|]; [|done]. intros [= <- <-].
    destruct (IH a' b' eq_refl) as [-> Hc]. split; [done|].
    unfold clean_doc in *. cbn [String.append]. rewrite contains_cons, Hc, orb_false_r.
    assert (He : String c (a' ++ (docSeparator ++ b')) = String c (a' ++ (nls ++ "---")) ++ (nls ++ b')).
    { rewrite sep_split. cbn [String.append]. by rewrite !append_assoc. }
    rewrite He, prefix_take in Hp; [done|]. cbn [length_str]. rewrite append_length. simpl. lia.
Qed.

Lemma split_unfold s : Split s docSeparator =
  match Cut s docSeparator with Some (a, b) => a :: Split b docSeparator | None => [s] end.
Proof.
  assert (Hskip : ∀ k t, split_go docSeparator k t = split_go docSeparator 0 (sdrop k t)).
  { intros k t; revert k; induction t as [|d t IHt]; intros [|k]; [done..|]. cbn [split_go sdrop]. by apply IHt. }
  unfold Split. induction s as [|c s IH]; [done|]. cbn [split_go Cut].
  destruct (String.prefix docSeparator (String c s)) eqn:Hp.
  - by rewrite Hskip.
  - rewrite IH. by destruct (Cut s docSeparator) as [[a b]|].
Qed.

Lemma contains_more s sub t : Contains s sub = true → Contains (s ++ t) sub = true.
Proof. intros (a & b & ->)%Contains_spec. rewrite !append_assoc. apply Contains_append. Qed.

Lemma clean_alone d t : clean_doc d → (∃ u, nls ++ "---" = t ++ u) → Contains (d ++ t) docSeparator = false.
Proof.
  intros Hc [u Hu]. destruct (Contains (d ++ t) docSeparator) eqn:E; [|done].
  apply (contains_more _ _ u) in E. unfold clean_doc in Hc. by rewrite Hu, <- append_assoc, E in Hc.
Qed.

Lemma cut_none s : Contains s docSeparator = false → Cut s docSeparator = None.
Proof.
  intros Hs. destruct (Cut s docSeparator) as [[a b]|] eqn:E; [|done].
  apply cut_clean in E as [-> _]. by rewrite Contains_append in Hs.
Qed.
Lemma cut_none_inv s : Cut s docSeparator = None → Contains s docSeparator = false.
Proof.
  induction s as [|c s IH]; [done|]. cbn [Cut]. rewrite contains_cons.
  destruct (String.prefix docSeparator (String c s)); [done|].
  destruct (Cut s docSeparator) as [[a b]|]; [done|]. intros _. by rewrite IH.
Qed.

(** Documents that can be told apart once joined. *)
Fixpoint separated (docs : list string) : Prop :=
  match docs with
  | [] => False
  | [d] => Contains d docSeparator = false
  | d :: docs' => clean_doc d ∧ separated docs'
  end.

Lemma separated_cons d docs : docs ≠ [] → separated (d :: docs) ↔ clean_doc d ∧ separated docs.
Proof. by destruct docs. Qed.

Lemma split_join docs : separated docs → Split (Join docs docSeparator) docSeparator = docs.
Proof.
  unfold Join. induction docs as [|d docs IH]; [done|]. intros Hs. rewrite split_unfold.
  destruct (decide (docs = [])) as [->|Hne].
  - cbn. by rewrite cut_none.
  - apply separated_cons in Hs as [Hd Hs]; [|done]. rewrite concat_cons, clean_cut by done.
    by rewrite IH.
Qed.

Lemma separated_split s : separated (Split s docSeparator).
Proof.
  remember (length_str s) as n eqn:Hn. revert s Hn. induction (lt_wf n) as [n _ IH]. intros s ->.
  rewrite split_unfold. destruct (Cut s docSeparator) as [[a b]|] eqn:E; [|by apply cut_none_inv].
  apply cut_clean in E as [-> Ha]. apply separated_cons; [apply split_go_ne|]. split; [done|].
  apply (IH (length_str b)); [|done]. rewrite !append_length. simpl. lia.
Qed.

Lemma separated_insert docs i t : clean_doc t → separated docs → separated (<[i := t]> docs).
Proof.
  intros Ht. revert i; induction docs as [|d docs IH]; intros i Hs; [done|].
  destruct (decide (docs = [])) as [->|Hne].
  - destruct i; cbn; [|done]. rewrite <- (append_nil_r t). apply clean_alone; [done|]. by eexists.
  - apply separated_cons in Hs as [Hd Hs]; [|done]. destruct i; cbn [insert list_insert].
    + by apply separated_cons.
    + apply separated_cons; [|by split; [|apply IH]].
      by destruct docs, i.
Qed.

(** ** The final newline *)

Lemma suffix_nl_append a r : r ≠ "" → HasSuffix (a ++ r) nls = HasSuffix r nls.
Proof.
  intros Hr. induction a as [|c a IH]; [done|]. cbn [String.append HasSuffix]. rewrite IH.
  assert (Hne : String.eqb (String c (a ++ r)) nls = false); [|by rewrite Hne].
  apply String.eqb_neq. unfold nls. intros [= _ He]. destruct a; simpl in He; [by destruct r|done].
Qed.

Lemma end_line_append a r : a ≠ "" → HasSuffix a nls = true → end_line (a ++ r) = a ++ end_line r.
Proof.
  intros Ha Hs. unfold end_line.
  assert (Hne : String.eqb (a ++ r) "" = false) by (apply String.eqb_neq; by destruct a).
  rewrite Hne. destruct (String.eqb_spec r "") as [->|Hr]; cbn [negb andb].
  - by rewrite append_nil_r, Hs.
  - rewrite suffix_nl_append by done. destruct (HasSuffix r nls); [done|]. by rewrite append_assoc.
Qed.

(** The last document gets the newline. *)
Fixpoint finish (docs : list string) : list string :=
  match docs with
  | [] => []
  | [d] => [end_line d]
  | d :: docs' => d :: finish docs'
  end.
Lemma finish_cons d docs : docs ≠ [] → finish (d :: docs) = d :: finish docs.
Proof. by destruct docs. Qed.
Lemma finish_ne docs : docs ≠ [] → finish docs ≠ [].
Proof. destruct docs as [|d [|? ?]]; done. Qed.

Lemma end_line_join docs : docs ≠ [] → end_line (Join docs docSeparator) = Join (finish docs) docSeparator.
Proof.
  unfold Join. induction docs as [|d docs IH]; [done|]. intros _.
  destruct (decide (docs = [])) as [->|Hne]; [done|].
  rewrite finish_cons, !concat_cons by (done || by apply finish_ne). rewrite <- IH by done.
  rewrite <- !append_assoc. rewrite (end_line_append (d ++ docSeparator)); [done|by destruct d|].
  by rewrite suffix_nl_append.
Qed.

Lemma separated_finish docs : separated docs → (clean_doc (List.last docs "") ∨ HasSuffix (List.last docs "") nls = true) →
  separated (finish docs).
Proof.
  induction docs as [|d docs IH]; [done|]. intros Hs Hl.
  destruct (decide (docs = [])) as [->|Hne].
  - cbn in *. unfold end_line. destruct (negb _ && negb (HasSuffix d nls)) eqn:E; [|done].
    destruct Hl as [Hl|Hl]; [|by rewrite Hl, andb_false_r in E]. apply clean_alone; [done|]. by exists "---".
  - apply separated_cons in Hs as [Hd Hs]; [|done]. rewrite finish_cons by done.
    apply separated_cons; [by apply finish_ne|]. split; [done|]. apply IH; [done|]. by destruct docs.
Qed.

(** In a text that ends with a newline the last document does, or is empty. *)
Definition ended (d : string) : Prop := d = "" ∨ HasSuffix d nls = true.

Lemma ended_line d : ended d → end_line d = d.
Proof. unfold end_line. intros [->|Hd]; [done|]. by rewrite Hd, andb_false_r. Qed.

Lemma join_nil docs : docs ≠ [] → Join docs docSeparator = "" → docs = [""].
Proof.
  unfold Join. destruct docs as [|d [|e docs]]; [done| |].
  - intros _ Hd. cbn in Hd. by subst.
  - intros _. rewrite concat_cons by done. by destruct d.
Qed.

Lemma ended_last docs : docs ≠ [] → HasSuffix (Join docs docSeparator) nls = true → ended (List.last docs "").
Proof.
  induction docs as [|d docs IH]; [done|]. intros _.
  destruct (decide (docs = [])) as [->|Hne]; [by right|]. intros Hs.
  replace (List.last (d :: docs) "") with (List.last docs "") by (by destruct docs).
  destruct (decide (Join docs docSeparator = "")) as [He|He].
  - apply join_nil in He as ->; [|done]. by left.
  - apply IH; [done|]. unfold Join in *. rewrite concat_cons, <- append_assoc, suffix_nl_append in Hs; done.
Qed.

Lemma finish_insert docs i t : (i < length docs)%nat → ended (List.last docs "") →
  finish (<[i := t]> docs) = <[i := if (S i =? length docs)%nat then end_line t else t]> docs.
Proof.
  revert i; induction docs as [|d docs IH]; intros i Hi Hl; [cbn in Hi; lia|].
  destruct (decide (docs = [])) as [->|Hne]; [destruct i; [done|cbn in Hi; lia]|].
  destruct i as [|i]; cbn [insert list_insert].
  - rewrite finish_cons by done. destruct docs as [|e docs]; [done|]. cbn [length Nat.eqb].
    f_equal. change (List.last (d :: e :: docs) "") with (List.last (e :: docs) "") in Hl.
    clear IH Hi Hne. revert e Hl; induction docs as [|f docs IHd]; intros e Hl; [cbn; by rewrite ended_line|].
    rewrite finish_cons by done. f_equal. by apply IHd.
  - rewrite finish_cons by (by destruct docs, i). cbn [length Nat.eqb]. f_equal.
    apply IH; [cbn in Hi; lia|]. by destruct docs.
Qed.

Lemma index_of_insert p docs i u : index_of p docs = Some i → p u = true → index_of p (<[i := u]> docs) = Some i.
Proof.
  revert i; induction docs as [|d docs IH]; intros i; [done|]. cbn [index_of].
  destruct (p d) eqn:Hd.
  - intros [= <-] Hu. cbn. by rewrite Hu.
  - destruct (index_of p docs) as [j|]; [|done]. intros [= <-] Hu. specialize (IH j eq_refl Hu).
    change (index_of p (d :: <[j := u]> docs) = Some (S j)). cbn [index_of]. by rewrite Hd, IH.
Qed.
Lemma index_of_lt p docs i : index_of p docs = Some i → (i < length docs)%nat.
Proof.
  revert i; induction docs as [|d docs IH]; intros i; [done|]. cbn. destruct (p d); [intros [= <-]; lia|].
  destruct (index_of p docs) as [j|]; [|done]. intros [= <-]. specialize (IH j eq_refl). lia.
Qed.

Lemma last_insert docs i (t : string) : List.last (<[i := t]> docs) "" = t ∨ List.last (<[i := t]> docs) "" = List.last docs "".
Proof.
  revert i; induction docs as [|d docs IH]; intros i; [by right|].
  destruct (decide (docs = [])) as [->|Hne]; [destruct i; cbn; auto|].
  destruct i as [|i]; cbn [insert list_insert].
  - right. by destruct docs.
  - replace (List.last (d :: <[i := t]> docs) "") with (List.last (<[i := t]> docs) "") by (by destruct docs, i).
    replace (List.last (d :: docs) "") with (List.last docs "") by (by destruct docs). apply IH.
Qed.

Section ReadBack.
Context {D : Type} `{Lib}.

(** (C31) Writing a document into a file of documents puts it in the place of the first one that
    matches and leaves every other document byte for byte as it was, provided the text
    ends with a newline and the document does not run into a separator. Writing the same
    document again changes nothing, so an object that did not change makes no commit. *)
Theorem written_document_reads_back content sel newDoc i (d : D) :
  let t := TrimRightNL newDoc in
  HasSuffix content nls = true →
  index_of (λ doc, matchDoc doc sel) (Split content docSeparator) = Some i →
  t ≠ "" → clean_doc t →
  ∃ out, ReplaceDocInContent content sel newDoc d = (Ok (out, true), d) ∧
    (∀ j, j ≠ i → Split out docSeparator !! j = Split content docSeparator !! j) ∧
    (Split out docSeparator !! i = Some t ∨ Split out docSeparator !! i = Some (t ++ nls)) ∧
    (matchDoc t sel = true → matchDoc (t ++ nls) sel = true →
     ReplaceDocInContent out sel newDoc d = (Ok (out, true), d)).
Proof.
  intros t Hend Hi Hne Hclean. set (docs := Split content docSeparator) in *.
  pose proof (index_of_lt _ _ _ Hi) as Hlt. assert (Hdocs : docs ≠ []) by apply split_go_ne.
  assert (Hl : ended (List.last docs "")) by (apply ended_last; [done|]; unfold docs; by rewrite Join_Split).
  assert (Hnew : String.eqb newDoc "" = false) by (apply String.eqb_neq; intros ->; done).
  assert (Hrun : ∀ docs', index_of (λ doc, matchDoc doc sel) docs' = Some i → ∀ text, Split text docSeparator = docs' →
    ReplaceDocInContent text sel newDoc d = (Ok (end_line (Join (<[i := t]> docs') docSeparator), true), d)).
  { intros docs' Hi' text <-. unfold ReplaceDocInContent, ReplaceDocInContentFunc. by rewrite Hi', Hnew. }
  set (u := if (S i =? length docs)%nat then end_line t else t).
  assert (Hu : u = t ∨ u = t ++ nls).
  { unfold u, end_line. destruct (S i =? length docs)%nat; [|by left].
    destruct (negb (String.eqb t "") && negb (HasSuffix t nls)); auto. }
  assert (Hout : end_line (Join (<[i := t]> docs) docSeparator) = Join (<[i := u]> docs) docSeparator).
  { rewrite end_line_join by (by destruct docs, i). by rewrite finish_insert. }
  assert (Hsplit : Split (Join (<[i := u]> docs) docSeparator) docSeparator = <[i := u]> docs).
  { apply split_join. unfold u. rewrite <- finish_insert by done.
    apply separated_finish; [by apply separated_insert, separated_split|].
    destruct (last_insert docs i t) as [->| ->]; [by left|]. destruct Hl as [->|Hl]; [by left|by right]. }
  exists (Join (<[i := u]> docs) docSeparator). rewrite <- Hout at 1.
  split_and!.
  - by apply Hrun.
  - intros j Hj. by rewrite Hsplit, list_lookup_insert_ne by done.
  - rewrite Hsplit, list_lookup_insert_eq by done. destruct Hu as [-> | ->]; auto.
  - intros Ht Htn. rewrite (Hrun (<[i := u]> docs)); [by rewrite list_insert_insert_eq, Hout| |done].
    apply index_of_insert; [done|]. by destruct Hu as [-> | ->].
Qed.
End ReadBack.

(** A file of two documents, the second one located by its marker. *)
Definition marked (ns name body : string) : string := "# find/v1: " ++ (ns ++ ("/" ++ (name ++ (nls ++ body)))).
Definition marked_sel (ns name : string) : ObjectSelector := mkSel (mkGVR "" "" "chart-values") name ns "find/v1: ".
Definition two_docs : string := "a: 1" ++ (docSeparator ++ marked "team" "app" ("replicas: 1" ++ nls)).

Lemma written_document_reads_back_witness :
  ∃ out, ReplaceDocInContent (D := fs) two_docs (marked_sel "team" "app") (marked "team" "app" "replicas: 2") (mkFs ∅ ∅) =
    (Ok (out, true), mkFs ∅ ∅) ∧ Split out docSeparator !! 0%nat = Some "a: 1".
Proof.
  destruct (written_document_reads_back (D := fs) two_docs (marked_sel "team" "app")
    (marked "team" "app" "replicas: 2") 1 (mkFs ∅ ∅)) as (out & Hout & Hoth & _).
  - vm_compute. reflexivity.
  - vm_compute. reflexivity.
  - vm_compute. discriminate.
  - vm_compute. reflexivity.
  - exists out. split; [exact Hout|]. rewrite (Hoth 0%nat) by discriminate. vm_compute. reflexivity.
Defined.
