(* ===== verification/WalkerProps.v ===== *)
(** * The walk visits every manifest, and the cache of locations is transparent

    The walk over a healthy filesystem for an arbitrary visitor ([walk_spec]), the
    documents of a rewritten file, and what [ReplaceObject] leaves in the worktree. *)

From S2P Require Import Prelude GoStr Lfu Api Errors External Sim Files Walker Documents.

(** ** Keys *)

Definition yaml_file (k : key) : bool := match last k with Some n => is_yaml n | None => false end.
Lemma yaml_file_snoc k n : yaml_file (k ++ [n])%list = is_yaml n.
Proof. unfold yaml_file. by rewrite last_snoc. Qed.

Lemma dirs_above s p k : fs_wf s → k ∈ dirs s → p `prefix_of` k → p ∈ dirs s.
Proof.
  intros Hwf Hk [r ->]. revert Hk; induction r as [|x r IH] using rev_ind; intros Hk.
  { by rewrite app_nil_r in Hk. }
  rewrite app_assoc in Hk. by apply IH, (wf_parent s Hwf _ x).
Qed.

(** What is strictly above a file is a directory. *)
Lemma above_file s p k : fs_wf s → is_Some (files s !! k) → p `prefix_of` k → p ≠ k → p ∈ dirs s.
Proof.
  intros Hwf Hk Hp Hne. destruct (wf_files s Hwf k Hk) as (_ & _ & d & n & -> & Hd).
  apply (dirs_above s p d); [done..|]. destruct Hp as [r Hr].
  destruct r as [|x r _] using rev_ind; [by rewrite app_nil_r in Hr|].
  rewrite app_assoc in Hr. apply app_inj_tail in Hr as [-> _]. by exists r.
Qed.

(** A file has nothing below it. *)
Lemma below_file s p k : fs_wf s → is_Some (files s !! p) → is_Some (files s !! k) → p `prefix_of` k → k = p.
Proof.
  intros Hwf Hp Hk Hpre. destruct (decide (p = k)) as [|Hne]; [done|].
  destruct (wf_files s Hwf p Hp) as (_ & Hnd & _). destruct Hnd. by eapply above_file.
Qed.

Lemma prefix_entry (k : key) n m f : (k ++ [n])%list `prefix_of` f → (k ++ [m])%list `prefix_of` f → n = m.
Proof. intros [r ->] [r' Hr]. rewrite <- !app_assoc in Hr. by simplify_list_eq. Qed.

Lemma prefix_snoc_inv (k : key) n f : (k ++ [n])%list `prefix_of` f → k `prefix_of` f.
Proof. intros Hp. etrans; [|exact Hp]. by exists [n]. Qed.

(** ** Reading and writing on a healthy filesystem *)

Section Healthy.
Context {D : Type} `{BillyLaws D}.

Lemma read_file k c d : key_ok k → files (tree d) !! k = Some c → ReadWorktreeFile (path_of k) d = (Ok c, d).
Proof.
  intros Hok Hk. destruct (open_file k c d Hok Hk) as (f & r & Ho & Hr & Hc & Hne).
  unfold ReadWorktreeFile. rewrite (bind_ok _ _ _ _ _ Ho). unfold bind, attempt. rewrite Hr, Hc. by destruct r.
Qed.

Lemma read_missing k d : key_ok k → files (tree d) !! k = None → ∃ e, ReadWorktreeFile (path_of k) d = (Err e, d).
Proof.
  intros Hok Hk. destruct (open_missing k d Hok Hk) as [e Ho]. exists e.
  unfold ReadWorktreeFile. by apply bind_err.
Qed.

(** Making a directory that exists changes nothing. *)
Lemma mkdir_existing k d : fs_wf (tree d) → k ∈ dirs (tree d) →
  ∃ d', fs_MkdirAll (path_of k) d = (Ok tt, d') ∧ tree d' = tree d.
Proof.
  intros Hwf Hk. assert (Habove : ∀ p, p ∈ prefixes k → p ∈ dirs (tree d)).
  { intros p Hp%elem_of_prefixes. by eapply dirs_above. }
  destruct (make_dir k (path_of k) d (wf_dirs _ Hwf k Hk) ltac:(by left)) as (d1 & Hm & Ht).
  - intros p Hp%Habove. apply eq_None_not_Some. intros Hf. by destruct (wf_files _ Hwf p Hf) as (_ & Hnd & _).
  - exists d1. split; [done|]. rewrite Ht. destruct (tree d) as [fs0 ds0]. cbn in *. f_equal. set_solver.
Qed.

(** Writing a file, new or not, in a directory that exists. *)
Lemma write_in_dir dir n c d : fs_wf (tree d) → key_ok (dir ++ [n])%list → dir ∈ dirs (tree d) →
  (dir ++ [n])%list ∉ dirs (tree d) →
  ∃ d', WriteWorktreeFile (path_of (dir ++ [n])%list) c d = (Ok tt, d') ∧
    tree d' = mkFs (<[(dir ++ [n])%list := c]> (files (tree d))) (dirs (tree d)).
Proof.
  intros Hwf Hok Hdir Hnd. unfold WriteWorktreeFile. rewrite dir_path by done.
  set (mk := if _ : bool then _ else _). assert (Hmk : ∃ d1, mk d = (Ok tt, d1) ∧ tree d1 = tree d).
  { unfold mk. destruct dir as [|a dir]; [by exists d|]. destruct (negb _ && negb _); [|by exists d].
    by apply mkdir_existing. }
  destruct Hmk as (d1 & Hm & Ht). rewrite (bind_ok _ _ _ _ _ Hm).
  destruct (create_file dir n c d1) as (f & w1 & w2 & w3 & Hc & Hw & Hcl & Ht3); [by rewrite Ht|done|by rewrite Ht|].
  rewrite (bind_ok _ _ _ _ _ Hc). unfold bind, attempt. rewrite Hw, Hcl. exists w3. by rewrite Ht3, Ht.
Qed.

(** Writing over a file that exists. *)
Lemma write_existing k c c0 d : fs_wf (tree d) → files (tree d) !! k = Some c0 →
  ∃ d', WriteWorktreeFile (path_of k) c d = (Ok tt, d') ∧
    tree d' = mkFs (<[k := c]> (files (tree d))) (dirs (tree d)).
Proof.
  intros Hwf Hk. destruct (wf_files _ Hwf k ltac:(by eexists)) as (Hok & Hnd & dir & n & -> & Hdir).
  by apply write_in_dir.
Qed.
End Healthy.

(** ** The walk *)

Section Walk.
Context {D S : Type} `{BillyLaws D} (t0 : fs).
Hypothesis wf0 : fs_wf t0.

(** The manifests under a directory. *)
Definition target (k f : key) : Prop := k `prefix_of` f ∧ yaml_file f = true ∧ is_Some (files t0 !! f).

(** The state once the files of a list have been visited; a visitor touches nothing else. *)
Context (Inv : list key → D * S → Prop) (Stop : D * S → Prop) (Fail : error → D * S → Prop).
Hypothesis inv_tree : ∀ L d s, Inv L (d, s) →
  fs_wf (tree d) ∧ dirs (tree d) = dirs t0 ∧ (∀ k, k ∉ L → files (tree d) !! k = files t0 !! k) ∧
  ∀ k, k ∈ L → yaml_file k = true ∧ is_Some (files t0 !! k).
Context (visit : string → string → M error (D * S) bool).
Hypothesis visit_ok : ∀ L d s k c, Inv L (d, s) → k ∉ L → yaml_file k = true → files t0 !! k = Some c →
  match visit (path_of k) c (d, s) with
  | (Ok false, st) => Inv (L ++ [k])%list st
  | (Ok true, st) => Stop st
  | (Err e, st) => Fail e st
  | (Panic, _) => False
  end.

(** What a walk may answer, when [goal] are the files to visit. *)
Definition walk_post (L : list key) (goal : key → Prop) (r : result error (option bool) * (D * S)) : Prop :=
  match r with
  | (Ok (Some false), st) => ∃ L', Inv (L ++ L')%list st ∧ NoDup L' ∧ ∀ f, f ∈ L' ↔ goal f
  | (Ok (Some true), st) => Stop st
  | (Err e, st) => Fail e st
  | _ => False
  end.

(** Directory entries: in the filesystem of the beginning. *)
Definition entry_of (k : key) (e : string * bool) : Prop :=
  if e.2 then (k ++ [e.1])%list ∈ dirs t0 else is_Some (files t0 !! (k ++ [e.1])%list).

(** The files of two entries of one directory are apart. *)
Lemma entries_apart k e e' f : entry_of k e → entry_of k e' →
  target (k ++ [e.1])%list f → (k ++ [e'.1])%list `prefix_of` f → e = e'.
Proof.
  destruct e as [n b], e' as [n' b']. unfold entry_of; cbn. intros He He' (Hp & _) Hp'.
  pose proof (prefix_entry _ _ _ _ Hp Hp') as ->. destruct b, b'; try done; exfalso.
  - by destruct (wf_files t0 wf0 _ He') as (_ & ? & _).
  - by destruct (wf_files t0 wf0 _ He) as (_ & ? & _).
Qed.

Lemma target_file k n f : is_Some (files t0 !! (k ++ [n])%list) →
  target (k ++ [n])%list f ↔ f = (k ++ [n])%list ∧ is_yaml n = true.
Proof.
  intros Hf. split.
  - intros (Hp & Hy & Hs). pose proof (below_file t0 _ _ wf0 Hf Hs Hp) as ->. by rewrite yaml_file_snoc in Hy.
  - intros [-> Hy]. split; [done|]. by rewrite yaml_file_snoc.
Qed.

(** Under a directory: under one of its entries. *)
Lemma target_dir k f (l : list (string * bool)) : k ∈ dirs t0 → (∀ e, e ∈ l ↔ entry_of k e) →
  target k f ↔ ∃ e, e ∈ l ∧ target (k ++ [e.1])%list f.
Proof.
  intros Hk Hl. split.
  - intros ([r ->] & Hy & Hs). destruct r as [|n r].
    { rewrite app_nil_r in Hs. by destruct (wf_files t0 wf0 _ Hs) as (_ & ? & _). }
    assert (Hp : (k ++ [n])%list `prefix_of` (k ++ n :: r)%list) by (exists r; by rewrite <- app_assoc).
    destruct r as [|m r].
    + exists (n, false). split; [by apply Hl|]. by repeat split.
    + exists (n, true). split; [|by repeat split]. apply Hl. unfold entry_of; cbn.
      eapply above_file; [done|exact Hs|exact Hp|]. intros He. apply app_inv_head in He. done.
  - intros (e & He & Hp & Ht). split; [|done]. by eapply prefix_snoc_inv.
Qed.

Lemma for_stop_spec k (body : string * bool → M error (D * S) (option bool)) l L :
  (∀ e, e ∈ l → entry_of k e) → NoDup l →
  (∀ e L' st, e ∈ l → Inv L' st → (∀ f, target (k ++ [e.1])%list f → f ∉ L') →
     walk_post L' (target (k ++ [e.1])%list) (body e st)) →
  ∀ done L1 st, NoDup (done ++ l) → (∀ e, e ∈ done → entry_of k e) →
    (∀ f, target k f → f ∉ L) →
    Inv (L ++ L1)%list st → NoDup L1 → (∀ f, f ∈ L1 ↔ ∃ e, e ∈ done ∧ target (k ++ [e.1])%list f) →
    walk_post L (λ f, ∃ e, e ∈ (done ++ l)%list ∧ target (k ++ [e.1])%list f) (for_stop body l st).
Proof.
  induction l as [|e l IH]; intros Hl Hnd Hbody done L1 st Hnd' Hdone HL Hinv HL1 Hin; cbn [for_stop].
  { exists L1. rewrite app_nil_r in *. done. }
  assert (Hfresh : ∀ f, target (k ++ [e.1])%list f → f ∉ (L ++ L1)%list).
  { intros f Hf [Hf'|Hf']%elem_of_app.
    - apply (HL f); [|done]. destruct Hf as (Hp & ?). split; [by eapply prefix_snoc_inv|done].
    - apply Hin in Hf' as (e' & He' & Hp' & _).
      assert (e = e') as <-. { eapply entries_apart; [apply Hl; by left|by apply Hdone|exact Hf|exact Hp']. }
      apply NoDup_app in Hnd' as (_ & Hdis & _). apply (Hdis e He'). by left. }
  specialize (Hbody e) as He. specialize (He (L ++ L1)%list st ltac:(by left) Hinv Hfresh).
  unfold bind. destruct (body e st) as [[[[]|]|err|] st'] eqn:E; cbn in He |- *; try done.
  destruct He as (L2 & Hinv2 & HL2 & Hin2). rewrite <- app_assoc in Hinv2.
  assert (Happ : (done ++ e :: l = (done ++ [e]) ++ l)%list) by by rewrite <- app_assoc.
  rewrite Happ. apply (IH ltac:(set_solver) ltac:(by inversion Hnd) ltac:(intros; apply Hbody; set_solver)
    (done ++ [e])%list (L1 ++ L2)%list); [by rewrite <- Happ|set_solver|done|done| |].
  - apply NoDup_app. split; [done|]. split; [|done]. intros f Hf1 Hf2. apply Hin2 in Hf2.
    apply (Hfresh f Hf2). set_solver.
  - intros f. rewrite elem_of_app, Hin, Hin2. set_solver.
Qed.

(** The step of the walk at a file: read and visited when it is a manifest. *)
Lemma walk_file k n L st : is_Some (files t0 !! (k ++ [n])%list) → Inv L st →
  (∀ f, target (k ++ [n])%list f → f ∉ L) →
  walk_post L (target (k ++ [n])%list)
    ((if negb (is_yaml n) then ret (Some false)
      else
        content ⇐ attempt (outside (ReadWorktreeFile (path_of (k ++ [n])%list)));;
        match content with
        | inr err => throw (wrapError ("failed to read " ++ (path_of (k ++ [n])%list ++ ": ")) err)
        | inl content => stop ⇐ visit (path_of (k ++ [n])%list) content;; ret (Some stop)
        end) st).
Proof.
  destruct st as [d1 s1]. intros He Hinv Hfresh. pose proof (λ f, target_file k n f He) as Hone.
  destruct (is_yaml n) eqn:Hy; cbn [negb].
  - destruct (inv_tree _ _ _ Hinv) as (_ & _ & Hfiles & _). destruct He as [c Hc].
    assert (Hfr : (k ++ [n])%list ∉ L) by (apply Hfresh; by apply Hone).
    destruct (wf_files t0 wf0 (k ++ [n])%list ltac:(by eexists)) as (Hok & _).
    unfold bind, attempt, outside. rewrite (read_file (k ++ [n])%list c d1 Hok) by by rewrite Hfiles.
    pose proof (visit_ok L d1 s1 (k ++ [n])%list c Hinv Hfr ltac:(by rewrite yaml_file_snoc) Hc) as Hv.
    destruct (visit _ c (d1, s1)) as [[[]|e|] st]; cbn; try done.
    exists [(k ++ [n])%list]. split; [done|]. split; [apply NoDup_singleton|].
    intros f. rewrite list_elem_of_singleton, Hone. naive_solver.
  - exists []. rewrite app_nil_r. split; [done|]. split; [constructor|]. intros f. rewrite Hone. set_solver.
Qed.

(** With fuel for the depth of the directories, every manifest under the directory is
    visited, once. *)
Lemma walk_spec fuel k L st :
  (∀ k', k' ∈ dirs t0 → k `prefix_of` k' → length k' < length k + fuel)%nat → k ∈ dirs t0 →
  Inv L st → (∀ f, target k f → f ∉ L) →
  walk_post L (target k) (walkWorktreeFiles fuel (path_of k) visit st).
Proof.
  revert k L st; induction fuel as [|fuel IH]; intros k L [d s] Hfuel Hk Hinv HL; cbn [walkWorktreeFiles].
  { specialize (Hfuel k Hk ltac:(done)). lia. }
  destruct (inv_tree _ _ _ Hinv) as (Hwf & Hdirs & Hfiles & Hseen).
  destruct (read_dir k d Hwf ltac:(by rewrite Hdirs)) as (l & Hr & Hnd & Hl).
  unfold bind at 1, attempt at 1, outside at 1. rewrite Hr.
  assert (Hl' : ∀ e, e ∈ l ↔ entry_of k e).
  { intros [n b]. rewrite Hl, Hdirs. unfold entry_of; cbn. destruct b; [done|].
    destruct (decide ((k ++ [n])%list ∈ L)) as [Hin|Hin]; [exfalso|by rewrite Hfiles].
    destruct (Hseen _ Hin) as [? ?]. apply (HL (k ++ [n])%list); [|done]. split; [by eexists|done]. }
  assert (Hpost : walk_post L (λ f, ∃ e, e ∈ ([] ++ l)%list ∧ target (k ++ [e.1])%list f)
    (for_stop (λ '(name, isDir),
       let path := join_entry (path_of k) name in
       if isDir : bool then walkWorktreeFiles fuel path visit
       else if negb (is_yaml name) then ret (Some false)
       else
         content ⇐ attempt (outside (ReadWorktreeFile path));;
         match content with
         | inr err => throw (wrapError ("failed to read " ++ (path ++ ": ")) err)
         | inl content => stop ⇐ visit path content;; ret (Some stop)
         end) l (d, s))).
  { apply (for_stop_spec k _ l L ltac:(set_solver) Hnd) with (L1 := []);
      [|done|set_solver|done|by rewrite app_nil_r|constructor|set_solver].
    intros [n b] L' st' He Hinv1 Hfresh. apply Hl' in He. cbn in Hfresh |- *.
    unfold join_entry. rewrite path_entry by by apply (wf_dirs t0 wf0).
    destruct b; cbn in He.
    - apply IH; [|done..]. intros k' Hk' Hp. specialize (Hfuel k' Hk' ltac:(by eapply prefix_snoc_inv)).
      rewrite length_app; simpl. lia.
    - by apply walk_file. }
  cbn [app] in Hpost. revert Hpost. unfold walk_post.
  destruct (for_stop _ l (d, s)) as [[[[]|]|e|] st]; try done.
  intros (L' & Hi & Hn & Hin). exists L'. split; [done|]. split; [done|].
  intros f. rewrite Hin. symmetry. by apply target_dir.
Qed.
End Walk.

(** ** Rewriting one file *)

Section Replace.
Context {D : Type} `{BillyLaws D, Lib}.
Context (ord : order docCacheKey docCacheValue) (fair_ord : fair ord).

(** What is known of the transformation: [produces] relates its arguments to its result,
    [refuses] tells its errors. It touches no file. *)
Context (transform : DocTransform D)
        (produces : string → string → string → string → Prop) (refuses : error → Prop).
Hypothesis transform_ok : ∀ relPath existing content d,
  match Apply transform relPath existing content d with
  | (Ok out, d') => produces relPath existing content out ∧ tree d' = tree d
  | (Err e, _) => refuses e
  | (Panic, _) => False
  end.

Context (sel : ObjectSelector) (newDoc : string).

Definition holds (content : string) : bool :=
  bool_decide (is_Some (index_of (λ doc, matchDoc doc sel) (Split content docSeparator))).

(** The content of a file once its first matching document is replaced, or dropped. *)
Definition rewritten (relPath content out : string) : Prop :=
  let docs := Split content docSeparator in
  ∃ i, index_of (λ doc, matchDoc doc sel) docs = Some i ∧
    if String.eqb newDoc "" then out = end_line (Join (take i docs ++ drop (S i) docs) docSeparator)
    else ∃ t, produces relPath (nth i docs "") newDoc t ∧
           out = end_line (Join (<[i := TrimRightNL t]> docs) docSeparator).

(** A file whose last document went is removed. *)
Definition left_by (content out : string) : option string :=
  if String.eqb out content then Some content
  else if String.eqb (TrimSpace out) "" then None else Some out.

Definition claim (claimed : ClaimedPaths) (path : string) : ClaimedPaths :=
  if String.eqb newDoc "" then AppendDeletedPath claimed path else AppendAddedPath claimed path.

Lemma replace_doc relPath content d :
  match ReplaceDocInContentFunc content sel newDoc relPath transform d with
  | (Ok (out, true), d') => holds content = true ∧ rewritten relPath content out ∧ tree d' = tree d
  | (Ok (_, false), d') => holds content = false ∧ d' = d
  | (Err e, _) => refuses e
  | (Panic, _) => False
  end.
Proof.
  unfold ReplaceDocInContentFunc, holds, rewritten.
  destruct (index_of _ _) as [i|] eqn:Ei; [|by rewrite bool_decide_false by by intros []].
  rewrite bool_decide_true by by eexists.
  destruct (String.eqb newDoc "").
  - cbn. split; [done|]. split; [|done]. by exists i.
  - pose proof (transform_ok relPath (nth i (Split content docSeparator) "") newDoc d) as Ht.
    unfold bind. destruct (Apply _ _ _ _ d) as [[t|e|] d']; cbn; try done.
    destruct Ht as [Ht Htree]. split; [done|]. split; [|done]. eauto.
Qed.

Lemma apply_replacement k c d claimed : fs_wf (tree d) → files (tree d) !! k = Some c →
  match applyReplacement (path_of k) (path_of k) c sel newDoc transform claimed d with
  | (Ok (found, claimed'), d') =>
      found = holds c ∧ dirs (tree d') = dirs (tree d) ∧ fs_wf (tree d') ∧
      (∀ k', k' ≠ k → files (tree d') !! k' = files (tree d) !! k') ∧
      if found then claimed' = claim claimed (path_of k) ∧
                    ∃ out, rewritten (path_of k) c out ∧ files (tree d') !! k = left_by c out
      else claimed' = claimed ∧ d' = d
  | (Err e, _) => refuses e
  | (Panic, _) => False
  end.
Proof.
  intros Hwf Hk. destruct (wf_files _ Hwf k ltac:(by eexists)) as (Hok & Hnd & dir & n & Hkn & Hdir).
  unfold applyReplacement. pose proof (replace_doc (path_of k) c d) as Hr. unfold bind at 1.
  destruct (ReplaceDocInContentFunc _ _ _ _ _ d) as [[[out []]|e|] d1]; cbn; try done.
  2: { destruct Hr as [-> ->]. done. }
  destruct Hr as (Hh & Hrw & Ht). rewrite Hh. unfold bind at 1.
  assert (Hwf1 : fs_wf (tree d1)) by by rewrite Ht. rewrite <- Ht in *. clear Ht.
  unfold left_by.
  destruct (String.eqb_spec out c) as [->|Hne]; cbn.
  { split_and!; try done. exists c. split; [done|]. by rewrite String.eqb_refl. }
  apply String.eqb_neq in Hne.
  destruct (String.eqb (TrimSpace out) "") eqn:Hblank.
  - destruct (remove_file k d1 Hok ltac:(by eexists)) as (d2 & Hr2 & Ht2).
    unfold bind, attempt, removeWorktreeFile. rewrite Hr2. cbn. rewrite Ht2.
    split_and!; try done; [by apply wf_delete|intros; by apply lookup_delete_ne|].
    exists out. split; [done|]. rewrite Hne, Hblank. apply lookup_delete_eq.
  - destruct (write_existing k out c d1 Hwf1 Hk) as (d2 & Hw2 & Ht2).
    unfold bind, attempt. rewrite Hw2. cbn. rewrite Ht2. cbn. rewrite Hkn in *.
    split_and!; try done; [by apply wf_write|intros; by apply lookup_insert_ne|].
    exists out. split; [done|]. rewrite Hne, Hblank. apply lookup_insert_eq.
Qed.

(** The relative path of a file of the walk. *)
Lemma relative_path k : key_ok k → k ≠ [] → worktreeRelativePath fs_Root (path_of k) = path_of k.
Proof.
  intros Hok Hne. unfold worktreeRelativePath. rewrite root_name, clean_path by done.
  pose proof (no_leading_slash k Hok Hne) as Hs. unfold TrimPrefix, HasPrefix in *.
  change (Clean "/") with "/". destruct k as [|a k]; [done|]. cbn [path_of]. by rewrite !Hs.
Qed.

(** ** Rewriting every copy *)

Definition held (s : fs) (k : key) : bool := match files s !! k with Some c => holds c | None => false end.

Definition claims (paths : list string) : ClaimedPaths :=
  if String.eqb newDoc "" then mkClaimedPaths [] paths else mkClaimedPaths paths [].

Lemma claims_snoc paths p : claim (claims paths) p = claims (paths ++ [p]).
Proof. unfold claim, claims. by destruct (String.eqb newDoc ""). Qed.
Lemma claims_nil : claims [] = NewClaimedPaths.
Proof. unfold claims. by destruct (String.eqb newDoc ""). Qed.

(** The worktree [t1] is [t0] with the object replaced in every manifest that holds it,
    the [copies]; they are what is claimed. *)
Record replaced_everywhere (t0 t1 : fs) (claimed : ClaimedPaths) (copies : list key) : Prop := {
  re_once : NoDup copies;
  re_copies k : k ∈ copies ↔ yaml_file k = true ∧ held t0 k = true;
  re_left k c : k ∈ copies → files t0 !! k = Some c →
    ∃ out, rewritten (path_of k) c out ∧ files t1 !! k = left_by c out;
  re_other k : k ∉ copies → files t1 !! k = files t0 !! k;
  re_dirs : dirs t1 = dirs t0;
  re_wf : fs_wf t1;
  re_claims : claimed = claims (map path_of copies) }.

(** The same along the walk, [L] being the files visited so far. *)
Record progress (t0 : fs) (L : list key) (st : D * (ClaimedPaths * list string)) : Prop := {
  pr_tree : fs_wf (tree st.1) ∧ dirs (tree st.1) = dirs t0 ∧
    (∀ k, k ∉ L → files (tree st.1) !! k = files t0 !! k) ∧
    ∀ k, k ∈ L → yaml_file k = true ∧ is_Some (files t0 !! k);
  pr_left k c : k ∈ L → files t0 !! k = Some c →
    if holds c then ∃ out, rewritten (path_of k) c out ∧ files (tree st.1) !! k = left_by c out
    else files (tree st.1) !! k = Some c;
  pr_matched : st.2 = (claims (map path_of (List.filter (held t0) L)), map path_of (List.filter (held t0) L)) }.

Lemma replace_visit_ok t0 L d s k c : progress t0 L (d, s) → k ∉ L → yaml_file k = true → files t0 !! k = Some c →
  match replace_visit fs_Root sel newDoc transform (path_of k) c (d, s) with
  | (Ok false, st) => progress t0 (L ++ [k]) st
  | (Ok true, st) => False
  | (Err e, st) => refuses e
  | (Panic, _) => False
  end.
Proof.
  intros [(Hwf & Hdirs & Hsame & Hseen) Hleft Hm] HkL Hy Hk. cbn in *. subst s. unfold replace_visit.
  assert (Hkd : files (tree d) !! k = Some c) by by rewrite Hsame.
  destruct (wf_files _ Hwf k ltac:(by eexists)) as (Hok & _ & dir & n & Hkn & _).
  rewrite relative_path by (done || by rewrite Hkn; destruct dir).
  pose proof (apply_replacement k c d (claims (map path_of (List.filter (held t0) L))) Hwf Hkd) as Ha.
  destruct (applyReplacement _ _ _ _ _ _ _ d) as [[[found cl]|e|] d']; [|done..].
  destruct Ha as (-> & Hd' & Hwf' & Hoth & Hf).
  assert (Hheld : held t0 k = holds c) by (unfold held; by rewrite Hk). split; cbn.
  - rewrite Hd'. split_and!; [done..| |].
    + intros k' [Hk' Hne]%not_elem_of_app. rewrite Hoth; [by apply Hsame|set_solver].
    + intros k' [Hk'| ->%list_elem_of_singleton]%elem_of_app; [by apply Hseen|]. by rewrite Hk.
  - intros k' c' [Hk'| ->%list_elem_of_singleton]%elem_of_app Hc'.
    + rewrite Hoth by (intros ->; done). by apply Hleft.
    + simplify_eq. destruct (holds c); [by destruct Hf|]. by destruct Hf as [_ ->].
  - rewrite List.filter_app. cbn. rewrite Hheld. destruct (holds c).
    + destruct Hf as [-> _]. by rewrite map_app, claims_snoc.
    + destruct Hf as [-> _]. by rewrite app_nil_r.
Qed.

Lemma full_walk_spec fuel scope (d : D) (c : doc_cache) : fs_wf (tree d) →
  (∀ k, k ∈ dirs (tree d) → length k < fuel)%nat →
  match full_walk ord fuel scope sel newDoc transform (d, c) with
  | (Ok (Some claimed), (d', c')) => ∃ copies, replaced_everywhere (tree d) (tree d') claimed copies ∧
      c' = if String.eqb newDoc "" then Lfu.Delete (mkDocKey scope sel) c
           else recordMatches ord scope sel (map path_of copies) c
  | (Err e, _) => refuses e
  | _ => False
  end.
Proof.
  intros Hwf Hfuel. unfold full_walk. rewrite root_name.
  pose proof (walk_spec (tree d) Hwf (progress (tree d)) (λ _, False) (λ e _, refuses e)
    ltac:(intros L d1 s1 [Ht _ _]; exact Ht) (replace_visit fs_Root sel newDoc transform)
    ltac:(intros; by apply replace_visit_ok) fuel [] [] (d, (NewClaimedPaths, []))) as Hw.
  specialize (Hw ltac:(intros k Hk _; by apply Hfuel) (wf_root _ Hwf)).
  unfold bind at 1, outside at 1, with_local at 1. change "/" with (path_of []) at 1.
  rewrite root_name in Hw. change (path_of []) with "/" in *.
  destruct (walkWorktreeFiles _ _ _ _) as [r [d' s']] eqn:Ew.
  specialize (Hw ltac:(split; cbn; [split_and!; [done..|set_solver]|set_solver|by rewrite claims_nil])
    ltac:(set_solver)).
  destruct r as [[[]|]|e|]; cbn in Hw; try done. destruct Hw as (L & [Htree Hleft Hm] & Hnd & Hin). cbn in *. subst s'.
  set (copies := List.filter (held (tree d)) L) in *.
  assert (Hcopies : ∀ k, k ∈ copies ↔ yaml_file k = true ∧ held (tree d) k = true).
  { intros k. unfold copies. rewrite list_elem_of_In, filter_In, <- list_elem_of_In, Hin.
    unfold target, held. split; [naive_solver|]. intros [Hy Hh]. split; [|done].
    split; [apply prefix_nil|]. split; [done|]. by destruct (files (tree d) !! k). }
  destruct Htree as (Hwf' & Hdirs & Hsame & _).
  cbn. unfold update_cache, cached. cbn. exists copies. split; [|by destruct (String.eqb newDoc "")].
  split; try done.
  - unfold copies. by apply NoDup_ListNoDup, List.NoDup_filter, NoDup_ListNoDup.
  - intros k c0 Hk Hc. specialize (Hleft k c0). apply Hcopies in Hk as [Hy Hh]. unfold held in Hh. rewrite Hc in Hh.
    rewrite Hh in Hleft. apply Hleft; [|done]. apply Hin. split; [apply prefix_nil|]. split; [done|by eexists].
  - intros k Hk. destruct (decide (k ∈ L)) as [HkL|HkL]; [|by apply Hsame].
    pose proof (proj1 (Hin k) HkL) as (_ & Hy & [c0 Hc]). specialize (Hleft k c0 HkL Hc).
    destruct (holds c0) eqn:Hh; [|by rewrite Hleft, Hc]. destruct Hk. apply Hcopies. split; [done|].
    unfold held. by rewrite Hc.
Qed.

(** A remembered location, when it still holds the object, is the only one that does. *)
Definition location_ok (scope : string) (s : fs) (c : doc_cache) : Prop :=
  ∀ p, remembered (mkDocKey scope sel) c = Some (mkDocValue p false) →
    ∃ k, key_ok k ∧ p = path_of k ∧
      (held s k = true → yaml_file k = true ∧ ∀ k', yaml_file k' = true → held s k' = true → k' = k).

(** The files that hold the object after a replacement held it before. *)
Lemma held_after t0 t1 claimed copies k : replaced_everywhere t0 t1 claimed copies →
  yaml_file k = true → held t1 k = true → k ∈ copies.
Proof.
  intros Hre Hy Hh. destruct (decide (k ∈ copies)) as [|Hk]; [done|]. apply (re_copies _ _ _ _ Hre). split; [done|].
  unfold held in *. by rewrite (re_other _ _ _ _ Hre k Hk) in Hh.
Qed.

Lemma location_after scope t0 t1 claimed copies c : fs_wf t0 → wf_opt c → replaced_everywhere t0 t1 claimed copies →
  location_ok scope t1 (if String.eqb newDoc "" then Lfu.Delete (mkDocKey scope sel) c
                        else recordMatches ord scope sel (map path_of copies) c).
Proof.
  intros Hwf Hc Hre p. destruct (String.eqb newDoc ""); [by rewrite delete_remembered|].
  unfold recordMatches. destruct copies as [|k [|k2 ks]]; cbn [map].
  - by rewrite delete_remembered.
  - intros [= ->]%(set_remembered _ _ _ _ _ fair_ord Hc).
    destruct (proj1 (re_copies _ _ _ _ Hre k) ltac:(by left)) as [Hy Hh]. unfold held in Hh.
    destruct (files t0 !! k) as [c0|] eqn:Hk; [|done].
    exists k. split; [apply (wf_files t0 Hwf); by eexists|]. split; [done|]. intros _. split; [done|].
    intros k' Hy' Hh'. by apply list_elem_of_singleton, (held_after t0 t1 claimed).
  - intros [=]%(set_remembered _ _ _ _ _ fair_ord Hc).
Qed.

Lemma cache_wf_after scope copies c : wf_opt c →
  wf_opt (if String.eqb newDoc "" then Lfu.Delete (mkDocKey scope sel) c
          else recordMatches ord scope sel (map path_of copies) c).
Proof.
  intros Hc. assert (Hdel : wf_opt (Lfu.Delete (mkDocKey scope sel) c)).
  { exact (run_op_wf ord (OpDelete (mkDocKey scope sel)) c fair_ord Hc). }
  assert (Hset : ∀ v, wf_opt (Set_ ord (mkDocKey scope sel) v c)).
  { intros v. exact (run_op_wf ord (OpSet (mkDocKey scope sel) v) c fair_ord Hc). }
  destruct (String.eqb newDoc ""); [done|]. unfold recordMatches. by destruct copies as [|? [|? ?]]; cbn [map].
Qed.

Lemma location_ext scope s c c' : (∀ k, remembered k c' = remembered k c) →
  location_ok scope s c → location_ok scope s c'.
Proof. intros He Hl p. rewrite He. apply Hl. Qed.

(** What a replacement promises. *)
Definition replaces (scope : string) (d : D)
    (r : result error (option ClaimedPaths) * (D * doc_cache)) : Prop :=
  match r with
  | (Ok (Some claimed), (d', c')) => ∃ copies, replaced_everywhere (tree d) (tree d') claimed copies ∧
      wf_opt c' ∧ location_ok scope (tree d') c'
  | (Err e, _) => refuses e
  | _ => False
  end.

Lemma full_walk_replaces fuel scope (d : D) (c : doc_cache) : fs_wf (tree d) →
  (∀ k, k ∈ dirs (tree d) → length k < fuel)%nat → wf_opt c →
  replaces scope d (full_walk ord fuel scope sel newDoc transform (d, c)).
Proof.
  intros Hwf Hfuel Hc. pose proof (full_walk_spec fuel scope d c Hwf Hfuel) as Hw. unfold replaces.
  destruct (full_walk _ _ _ _ _ _ _) as [[[cl|]|e|] [d' c']]; try done.
  destruct Hw as (copies & Hre & ->). exists copies. split; [done|]. split; [by apply cache_wf_after|].
  by eapply location_after.
Qed.

(** The remembered location is the only copy: rewriting it alone is rewriting them all. *)
Lemma fast_path_replaces scope (d d' : D) (c : doc_cache) k c0 found claimed :
  fs_wf (tree d) → wf_opt c → location_ok scope (tree d) c →
  (∀ k', yaml_file k' = true → held (tree d) k' = true → k' = k) → yaml_file k = true →
  files (tree d) !! k = Some c0 → holds c0 = true →
  remembered (mkDocKey scope sel) c = Some (mkDocValue (path_of k) false) →
  applyReplacement (path_of k) (path_of k) c0 sel newDoc transform NewClaimedPaths d = (Ok (found, claimed), d') →
  found = true ∧ replaces scope d (Ok (Some claimed),
    (d', if String.eqb newDoc "" then Lfu.Delete (mkDocKey scope sel) c else c)).
Proof.
  intros Hwf Hc Hloc Hsole Hy Hk Hh Hrem Ha.
  pose proof (apply_replacement k c0 d NewClaimedPaths Hwf Hk) as Hs. rewrite Ha, Hh in Hs.
  destruct Hs as (-> & Hdirs & Hwf' & Hoth & -> & Hleft). split; [done|].
  assert (Hheld : held (tree d) k = true) by (unfold held; by rewrite Hk).
  assert (Hre : replaced_everywhere (tree d) (tree d') (claim NewClaimedPaths (path_of k)) [k]).
  { split; try done.
    - apply NoDup_singleton.
    - intros k'. rewrite list_elem_of_singleton. split; [by intros ->|]. intros [? ?]. by apply Hsole.
    - intros k' c' ->%list_elem_of_singleton Hc'. by simplify_eq.
    - intros k' Hk'. apply Hoth. set_solver. }
  exists [k]. split; [done|]. pose proof (cache_wf_after scope [k] c Hc) as Hcw.
  pose proof (location_after scope _ _ _ _ c Hwf Hc Hre) as Hl.
  destruct (String.eqb newDoc ""); [done|]. split; [done|]. intros p Hp. rewrite Hrem in Hp. injection Hp as <-.
  exists k. split; [by apply (wf_files _ Hwf k ltac:(by eexists))|]. split; [done|]. intros _. split; [done|].
  intros k' Hy' Hh'. by apply list_elem_of_singleton, (held_after (tree d) (tree d') _ [k] _ Hre).
Qed.

Lemma ReplaceObject_replaces fuel scope (d : D) (c : doc_cache) :
  fs_wf (tree d) → (∀ k, k ∈ dirs (tree d) → length k < fuel)%nat →
  wf_opt c → location_ok scope (tree d) c →
  replaces scope d (ReplaceObject ord fuel scope sel newDoc transform (d, c)).
Proof.
  intros Hwf Hfuel Hc Hloc. unfold ReplaceObject.
  destruct (get_remembered (mkDocKey scope sel) c) as (c1 & Hget & Hwfc & Hsame).
  specialize (Hwfc Hc). pose proof (location_ext scope _ _ _ Hsame Hloc) as Hloc1.
  pose proof (full_walk_replaces fuel scope d c1 Hwf Hfuel Hwfc) as Hfull.
  unfold bind at 1, cached. rewrite Hget.
  destruct (remembered (mkDocKey scope sel) c) as [[p []]|] eqn:Hrem; [done| |done].
  destruct (Hloc p Hrem) as (k & Hok & -> & Hsole).
  unfold bind at 1, attempt, outside at 1. destruct (files (tree d) !! k) as [c0|] eqn:Hk.
  2: { destruct (read_missing k d Hok Hk) as [e Hr]. by rewrite Hr. }
  rewrite (read_file k c0 d Hok Hk).
  pose proof (apply_replacement k c0 d NewClaimedPaths Hwf Hk) as Ha. unfold bind at 1, outside at 1.
  destruct (applyReplacement _ _ _ _ _ _ _ d) as [[[found claimed]|e|] d'] eqn:Happ; [|done..].
  destruct (holds c0) eqn:Hh.
  - destruct Hsole as [Hy Hsole]; [unfold held; by rewrite Hk|].
    destruct (fast_path_replaces scope d d' c1 k c0 found claimed Hwf Hwfc Hloc1 Hsole Hy Hk Hh
      ltac:(by rewrite Hsame) Happ) as [-> Hfast].
    revert Hfast. unfold bind, update_cache, cached. by destruct (String.eqb newDoc "").
  - destruct Ha as (-> & _ & _ & _ & _ & ->). exact Hfull.
Qed.

(** (C11) Replacing an object rewrites its document in every manifest that holds it, drops it
    from them when the content is empty, removes the files left blank, touches nothing
    else and claims exactly the files that held it; it fails only when the transformation
    refuses. This holds of a location the cache remembers only when the file there, if it
    still holds the object, is the only one that does ([location_ok]); the entry that is left
    is such a location again. The code does not see to this condition: without it the other
    copies are left as they were ([remembered_copy_hides_others]). *)
Theorem ReplaceObject_rewrites_every_copy fuel scope (d : D) (c : doc_cache) :
  fs_wf (tree d) → (∀ k, k ∈ dirs (tree d) → length k < fuel)%nat →
  wf_opt c → location_ok scope (tree d) c →
  replaces scope d (ReplaceObject ord fuel scope sel newDoc transform (d, c)).
Proof. apply ReplaceObject_replaces. Qed.

(** Without the condition on the remembered location: it is the only file touched, however
    many others hold the object. *)
Lemma remembered_copy_hides_others fuel scope (d : D) (c : doc_cache) k c0 :
  fs_wf (tree d) → files (tree d) !! k = Some c0 → holds c0 = true →
  remembered (mkDocKey scope sel) c = Some (mkDocValue (path_of k) false) →
  match ReplaceObject ord fuel scope sel newDoc transform (d, c) with
  | (Ok (Some claimed), (d', _)) => claimed = claims [path_of k] ∧
      ∀ k', k' ≠ k → files (tree d') !! k' = files (tree d) !! k'
  | (Err e, _) => refuses e
  | _ => False
  end.
Proof.
  intros Hwf Hk Hh Hrem. unfold ReplaceObject.
  destruct (get_remembered (mkDocKey scope sel) c) as (c1 & Hget & _).
  unfold bind at 1, cached. rewrite Hget, Hrem. unfold bind at 1, attempt, outside at 1.
  rewrite (read_file k c0 d) by (done || by apply (wf_files _ Hwf k ltac:(by eexists))).
  pose proof (apply_replacement k c0 d NewClaimedPaths Hwf Hk) as Ha. unfold bind at 1, outside at 1.
  destruct (applyReplacement _ _ _ _ _ _ _ d) as [[[found claimed]|e|] d']; [|done..].
  rewrite Hh in Ha. destruct Ha as (-> & _ & _ & Hoth & -> & _).
  unfold bind, update_cache, cached. rewrite <- claims_nil, claims_snoc. by destruct (String.eqb newDoc "").
Qed.
End Replace.

(** A worktree where two manifests hold the same object. *)
Definition demo_tree : fs :=
  mkFs {[ ["a"; "app.yaml"] := marked "team" "app" ("replicas: 1" ++ nls);
          ["b.yaml"] := marked "team" "app" ("replicas: 1" ++ nls);
          ["notes.txt"] := "n" ]}
    {[ []; ["a"] ]}.
Definition demo_order : order docCacheKey docCacheValue := map_to_list.

Lemma demo_tree_wf : fs_wf demo_tree.
Proof.
  assert (Hn : ∀ n, n ∈ ["a"; "app.yaml"; "b.yaml"; "notes.txt"] → name_ok n).
  { intros n Hn. repeat (apply elem_of_cons in Hn as [->|Hn]; [by repeat split|]). by apply elem_of_nil in Hn. }
  split; cbn.
  - set_solver.
  - intros k [->%elem_of_singleton| ->%elem_of_singleton]%elem_of_union; repeat constructor; apply Hn; set_solver.
  - intros k [c Hk]. repeat (apply lookup_insert_Some in Hk as [[<- _]|[_ Hk]]).
    + split; [repeat constructor; apply Hn; set_solver|]. split; [set_solver|]. exists ["a"], "app.yaml". set_solver.
    + split; [repeat constructor; apply Hn; set_solver|]. split; [set_solver|]. exists [], "b.yaml". set_solver.
    + apply lookup_singleton_Some in Hk as [<- _].
      split; [repeat constructor; apply Hn; set_solver|]. split; [set_solver|]. exists [], "notes.txt". set_solver.
  - intros d n [Hd%elem_of_singleton|Hd%elem_of_singleton]%elem_of_union; [by destruct d|].
    destruct d as [|x [|? ?]]; simplify_eq/=. set_solver.
Qed.

Lemma ReplaceObject_rewrites_every_copy_witness :
  let run := ReplaceObject (D := fs) demo_order 3 "repo#main" (marked_sel "team" "app")
               (marked "team" "app" "replicas: 2") None (demo_tree, None) in
  match run.1 with Ok (Some claimed) => bool_decide (length (cp_Add claimed) = 2%nat) | _ => false end = true ∧
  replaces (λ _ _ c out, out = c) (λ _, False) (marked_sel "team" "app")
    (marked "team" "app" "replicas: 2") "repo#main" demo_tree run.
Proof.
  cbv zeta. split; [vm_compute; reflexivity|].
  apply (ReplaceObject_rewrites_every_copy (D := fs) demo_order).
  - intros m. reflexivity.
  - intros p e c d. cbn. split; reflexivity.
  - exact demo_tree_wf.
  - intros k Hk. change (k ∈ ({[ []; ["a"] ]} : gset key)) in Hk.
    apply elem_of_union in Hk as [Hk|Hk]; apply elem_of_singleton in Hk as ->; cbn; lia.
  - exact I.
  - intros p Hp. discriminate Hp.
Defined.
