(* ===== verification/Mutator.v ===== *)
(** * From the intercepted object to the files of the worktree ([internal/mutator])

    The providers ([helm_values.go], [flux_helmrelease.go], [kustomize.go]), the SOPS
    transformation ([sops.go]) and the placement of the artifacts ([mutator.go],
    [resource_finder.go], [default.go]). The provider libraries are outside the
    repository: each is a class. The state is the cluster, the filesystem of the worktree
    and the cache of locations. *)

From S2P Require Import Prelude GoStr Lfu Api Errors External Refs Render Feature Pipeline Files Walker.
From Stdlib Require Import Ascii.

(** ** The provider libraries *)

Class Helm := {
  HelmValuesAnnotation : string;
  IsHelmSecretByName : string → bool;
  IsHelmSecret : Secret → bool;
  ExtractValues : Secret → result error string;                       (** the raw values *)
  GetReleaseNameFromSecretName : string → string;
  ExtractRelease : Secret → result error (option (string * string));  (** name and namespace; nil *)
  utilyaml_Unmarshal_Secret : string → result error Secret }.

Class Flux (W : Type) := {
  HelmRelease : Type;
  Unstructured : Type;
  HelmReleaseAnnotation : string;
  list_HelmReleases : string → M error W (list Unstructured);         (** of an API version *)
  u_Name : Unstructured → string;
  u_Namespace : Unstructured → string;
  FromUnstructured : Unstructured → result error HelmRelease;
  hr_SourceRef : HelmRelease → option string;                         (** [Spec.Chart], its source name *)
  ConvertToHelmReleaseWithExisting : Secret → HelmRelease → result error HelmRelease;
  json_Marshal_HelmRelease : HelmRelease → result error string }.

(** An edit of a kustomization file, and what [Process] answers. *)
Record KEdit := mkEdit { ed_Kustomization : string; ed_Field : string; ed_Op : string; ed_Entry : value }.
Record KResult := mkKResult {
  kr_Handled : bool; kr_Action : string; kr_RefuseMessage : string; kr_PatchStrategy : string;
  kr_Files : gmap string string; kr_Deletes : list string; kr_Edits : list KEdit }.

Class Kustomizer (D : Type) := {
  KObject : Type;
  ProviderAnnotation : string;
  ActionRefuse : string;
  PatchStrategyJSON6902 : string;
  EditOpAdd : string;
  YAMLToJSON : string → result error string;
  UnmarshalJSON : string → result error KObject;
  Process : KObject → string → bool → M error D KResult;             (** reads the worktree *)
  RNode : Type;
  YNode : Type;
  kyaml_Parse : string → result error RNode;
  (** the sequence under a field, created when missing, and the document around it *)
  kyaml_LookupCreate : string → RNode → result error (list YNode * (list YNode → RNode));
  kyaml_Append : RNode → list YNode → result error (list YNode);
  kyaml_String : YNode → result error string;
  kyaml_DeriveSeqIndentStyle : string → string;
  kyaml_MarshalWithOptions : RNode → string → result error string;
  yaml_Marshal_value : value → result error string;
  yaml_Unmarshal_value : string → result error value;
  reflect_DeepEqual : value → value → bool }.

Class Sops (D : Type) := {
  Rules : Type;
  Identities : Type;
  LoadCreationRule : string → string → result error Rules;
  is_ErrNoCreationRule : error → bool;                                (** [errors.Is] *)
  EncryptYAML : string → Rules → option Identities → M error D (string * bool);
  EncryptWithExisting : string → string → Rules → option Identities → M error D (string * bool);
  AgeIdentitiesFromSecret : Secret → result error Identities }.

(** ** [mutator.go]: the data *)

Definition ResourceFinderCommentPrefix : string := "syngit.resource-finder/v1: ".
Definition providerEnabled : string := "enabled".
Definition DefaultChartValuesSubPath : string := "chart-values".

(** [Content] may be nil, which one branch tells from empty. *)
Record Artifact := mkArtifact {
  a_GVR : GVR; a_Name : string; a_Namespace : string; a_Content : option string;
  a_TargetPath : string; a_WholeFile : bool }.
Definition content (a : Artifact) : string := default "" (a_Content a).
Definition IsDeletion (a : Artifact) : bool := String.eqb (content a) "".

Definition transformOrNil {D} (a : Artifact) (transform : DocTransform D) : DocTransform D :=
  if String.eqb (gvr_Resource (a_GVR a)) DefaultChartValuesSubPath &&
     String.eqb (gvr_Group (a_GVR a)) "" && String.eqb (gvr_Version (a_GVR a)) ""
  then None else transform.

Record ArtifactSet := mkArtifacts { Items : list Artifact; Claimed : bool; DenialReason : string }.
Definition add_artifact (s : ArtifactSet) (a : Artifact) : ArtifactSet :=
  mkArtifacts (Items s ++ [a]) (Claimed s) (DenialReason s).

(** [rc_Cluster]: whether a cluster reader is available. *)
Record RenderContext (D : Type) := mkRenderContext {
  rc_Params : GitPipelineParams; rc_Cluster : bool; rc_Transform : DocTransform D }.
Arguments mkRenderContext {D}. Arguments rc_Params {D}. Arguments rc_Cluster {D}. Arguments rc_Transform {D}.

Section Mutator.
Context {W D : Type} `{Cluster W, Lib, Billy D, Helm, Flux W, Kustomizer D, Sops D}.
Context (gates : FeatureGates) (ord : order docCacheKey docCacheValue)
        (ord_map : gmap string string → list (string * string)) (managerNamespace : string).

(** The cluster, the worktree, the cache of locations. *)
Definition St : Type := W * (D * doc_cache).
Definition in_cluster {A} (m : M error W A) : M error St A := outside m.
Definition in_cache {A} (m : M error (D * doc_cache) A) : M error St A := λ '(w, dc),
  let '(r, dc') := m dc in (r, (w, dc')).
Definition in_tree {A} (m : M error D A) : M error St A := in_cache (outside m).

Record Provider := mkProvider {
  Handles : GitPipelineParams → bool;
  Render : RenderContext D → ArtifactSet → M error St ArtifactSet }.

(** ** [helm_values.go] and [flux_helmrelease.go] *)

(** A core/v1 Secret with the name of a Helm release, for a syncer that asks for it. *)
Definition handles_helm_secret (annotation : string) (params : GitPipelineParams) : bool :=
  let gvr := gp_InterceptedGVR params in
  if negb (String.eqb (mget (sc_Annotations (gp_Syncer params)) annotation) providerEnabled) ||
     negb (String.eqb (gvr_Group gvr) "") || negb (String.eqb (gvr_Version gvr) "v1") ||
     negb (String.eqb (gvr_Resource gvr) "secrets")
  then false else IsHelmSecretByName (gp_InterceptedName params).

Definition HelmValues_Handles : GitPipelineParams → bool := handles_helm_secret HelmValuesAnnotation.

Definition chart_values (rawValues : string) : Artifact :=
  mkArtifact (mkGVR "" "" DefaultChartValuesSubPath) "" "" (Some rawValues) "" false.

Definition HelmValues_Render (rc : RenderContext D) (out : ArtifactSet) : M error St ArtifactSet :=
  let manifest := gp_InterceptedManifest (rc_Params rc) in
  if String.eqb manifest "" then ret (add_artifact out (chart_values ""))
  else
    secret ⇐ lift (utilyaml_Unmarshal_Secret manifest);;
    if negb (IsHelmSecret secret) then ret out
    else
      rawValues ⇐ lift (ExtractValues secret);;
      ret (add_artifact out (chart_values rawValues)).

Definition fluxHelmGroup : string := "helm.toolkit.fluxcd.io".
Definition helmReleaseGVR : GVR := mkGVR fluxHelmGroup "v2" "helmreleases".
Definition helmReleaseVersions : list string := ["v2"; "v2beta2"; "v2beta1"].

Definition Flux_Handles : GitPipelineParams → bool := handles_helm_secret HelmReleaseAnnotation.

(** The items of one version: the first usable release of that name. *)
Fixpoint find_release (name namespace : string) (items : list Unstructured) : result error (option HelmRelease) :=
  match items with
  | [] => Ok None
  | item :: items' =>
      if negb (String.eqb (u_Name item) name) || negb (String.eqb (u_Namespace item) namespace)
      then find_release name namespace items'
      else match FromUnstructured item with
           | Err err => Err (wrapError ("failed to decode the HelmRelease " ++ (namespace ++ ("/" ++ (name ++ ": ")))) err)
           | Panic => Panic
           | Ok hr =>
               match hr_SourceRef hr with
               | Some source => if String.eqb source "" then find_release name namespace items' else Ok (Some hr)
               | None => find_release name namespace items'
               end
           end
  end.

Definition version_not_served (err : error) : bool :=
  Contains (Error err) "no matches for kind" || Contains (Error err) "could not find the requested resource".

Fixpoint existing_release (name namespace : string) (versions : list string) : M error W (option HelmRelease) :=
  match versions with
  | [] => ret None
  | version :: versions' =>
      items ⇐ attempt (list_HelmReleases version);;
      match items with
      | inr err =>
          if version_not_served err then existing_release name namespace versions'
          else throw (wrapError "failed to list HelmReleases: " err)
      | inl items =>
          hr ⇐ lift (find_release name namespace items);;
          match hr with Some hr => ret (Some hr) | None => existing_release name namespace versions' end
      end
  end.
Definition existingHelmReleaseInCluster (name namespace : string) : M error W (option HelmRelease) :=
  existing_release name namespace helmReleaseVersions.

(** [if err != nil { return fmt.Errorf(prefix + "%w", err) }]. *)
Definition or_wrap {A S} (prefix : string) (m : M error S A) : M error S A :=
  r ⇐ attempt m;; match r with inl a => ret a | inr err => throw (wrapError prefix err) end.

Definition Flux_Render (rc : RenderContext D) (out : ArtifactSet) : M error St ArtifactSet :=
  let params := rc_Params rc in
  let manifest := gp_InterceptedManifest params in
  if String.eqb manifest "" then
    ret (add_artifact out (mkArtifact helmReleaseGVR (GetReleaseNameFromSecretName (gp_InterceptedName params))
           (sc_InterceptedNamespace (gp_Syncer params)) (Some "") "" false))
  else
    secret ⇐ or_wrap "failed to parse the Helm release secret: " (lift (utilyaml_Unmarshal_Secret manifest));;
    if negb (IsHelmSecret secret) then ret out
    else
      rel ⇐ lift (ExtractRelease secret);;
      match rel with
      | None => ret out
      | Some (name, namespace) =>
          if String.eqb name "" then ret out
          else if negb (rc_Cluster rc) then ret out
          else
            existing ⇐ in_cluster (existingHelmReleaseInCluster name namespace);;
            match existing with
            | None => ret out
            | Some existing =>
                result ⇐ or_wrap "failed to convert the Helm release secret to a HelmRelease: "
                           (lift (ConvertToHelmReleaseWithExisting secret existing));;
                raw ⇐ or_wrap "failed to marshal the generated HelmRelease: " (lift (json_Marshal_HelmRelease result));;
                cleaned ⇐ or_wrap "failed to apply the excluded fields to the HelmRelease: "
                            (in_cluster (ObjectToYAML raw managerNamespace (sc_Spec (gp_Syncer params))
                               (sc_RefOwnerNamespace (gp_Syncer params))));;
                ret (add_artifact out (mkArtifact helmReleaseGVR name namespace (Some cleaned) "" false))
            end
      end.

(** ** [kustomize.go] *)

Definition Kustomize_Handles (params : GitPipelineParams) : bool :=
  String.eqb (mget (sc_Annotations (gp_Syncer params)) ProviderAnnotation) providerEnabled.

Definition Delete_op : string := "DELETE".

Definition interceptedObject (params : GitPipelineParams) : result error KObject :=
  let manifest := if String.eqb (gp_Operation params) Delete_op then gp_DeletedManifest params
                  else gp_InterceptedManifest params in
  match YAMLToJSON manifest with
  | Ok json => UnmarshalJSON json
  | Err err => Err err
  | Panic => Panic
  end.

(** The first element that is the entry, a path being compared cleaned, is deleted. *)
Fixpoint remove_entry (entry : value) (elements : list YNode) : result error (list YNode) :=
  match elements with
  | [] => Ok []
  | element :: elements' =>
      match kyaml_String element with
      | Err err => Err err
      | Panic => Panic
      | Ok content =>
          match yaml_Unmarshal_value content with
          | Err err => Err err
          | Panic => Panic
          | Ok v =>
              let v := match v with VStr file => VStr (Clean file) | _ => v end in
              if reflect_DeepEqual v entry then Ok elements'
              else match remove_entry entry elements' with
                   | Ok es => Ok (element :: es)
                   | r => r
                   end
          end
      end
  end.

Definition applyKustomizationEdit (kustomization : RNode) (edit : KEdit) : M error St RNode :=
  '(elements, put_back) ⇐ lift (kyaml_LookupCreate (ed_Field edit) kustomization);;
  if String.eqb (ed_Op edit) EditOpAdd then
    content ⇐ lift (yaml_Marshal_value (ed_Entry edit));;
    entry ⇐ lift (kyaml_Parse content);;
    elements ⇐ lift (kyaml_Append entry elements);;
    ret (put_back elements)
  else
    elements ⇐ lift (remove_entry (ed_Entry edit) elements);;
    ret (put_back elements).

Definition apply_edit (contents : gmap string string) (edit : KEdit) : M error St (gmap string string) :=
  content ⇐ match contents !! ed_Kustomization edit with
            | Some content => ret content
            | None => in_tree (ReadWorktreeFile (ed_Kustomization edit))
            end;;
  kustomization ⇐ lift (kyaml_Parse content);;
  kustomization ⇐ applyKustomizationEdit kustomization edit;;
  edited ⇐ lift (kyaml_MarshalWithOptions kustomization (kyaml_DeriveSeqIndentStyle content));;
  ret (<[ed_Kustomization edit := edited]> contents).

Definition applyKustomizationEdits (edits : list KEdit) : M error St (gmap string string) :=
  for_fold apply_edit ∅ edits.

Definition whole_file (path : string) (content : option string) : Artifact :=
  mkArtifact (mkGVR "" "" "") "" "" content path true.

(** One generated file: its changed documents go through the transformation. *)
Definition add_kustomize_file (rc : RenderContext D) (result : KResult) (out : ArtifactSet) (f : string * string)
  : M error St ArtifactSet :=
  let '(file, content) := f in
  content ⇐ match rc_Transform rc with
            | Some _ =>
                if String.eqb (kr_PatchStrategy result) PatchStrategyJSON6902 then ret content
                else
                  existing ⇐ attempt (in_tree (ReadWorktreeFile file));;
                  in_tree (TransformChangedDocs file (match existing with inl c => c | inr _ => "" end) content
                             (rc_Transform rc))
            | None => ret content
            end;;
  ret (add_artifact out (whole_file file (Some content))).

Definition Kustomize_Render (rc : RenderContext D) (out : ArtifactSet) : M error St ArtifactSet :=
  obj ⇐ lift (interceptedObject (rc_Params rc));;
  let resourceFinder := Enabled gates ResourceFinder_gate && ResourceFinder (sc_Spec (gp_Syncer (rc_Params rc))) in
  result ⇐ in_tree (Process obj (gp_Operation (rc_Params rc)) resourceFinder);;
  if negb (kr_Handled result) then ret out
  else
    let out := mkArtifacts (Items out) true (DenialReason out) in
    if String.eqb (kr_Action result) ActionRefuse then
      ret (mkArtifacts (Items out) true (kr_RefuseMessage result))
    else
      out ⇐ for_fold (add_kustomize_file rc result) out (ord_map (kr_Files result));;
      let out := foldl (λ out file, add_artifact out (whole_file file None)) out (kr_Deletes result) in
      kustomizations ⇐ applyKustomizationEdits (kr_Edits result);;
      ret (foldl (λ out '(file, content), add_artifact out (whole_file file (Some content))) out
             (ord_map kustomizations)).

(** ** [sops.go] *)

Definition sopsConfigFile : string := ".sops.yaml".

Definition sopsIdentities (rc : RenderContext D) : M error St (option Identities) :=
  let params := rc_Params rc in
  let ref := sops_SecretRef (SOPS (sc_Spec (gp_Syncer params))) in
  if String.eqb (ref_Name ref) "" then ret None
  else
    let fieldPath := FPath ["spec"; "sops"; "secretRef"] in
    namespace ⇐ lift (ResolveNamespace (ref_Namespace ref) (sc_RefOwnerNamespace (gp_Syncer params)) fieldPath);;
    if negb (rc_Cluster rc) then
      throw (plainError (path_String fieldPath ++ " is set but no cluster reader is available to get the secret"))
    else
      let secretName := namespace ++ ("/" ++ (ref_Name ref ++ ": ")) in
      secret ⇐ or_wrap ("failed to get the SOPS secret " ++ secretName)
                 (in_cluster (client_Get (T := Secret) (mkNN namespace (ref_Name ref))));;
      identities ⇐ or_wrap ("failed to read the age identities from the secret " ++ secretName)
                     (lift (AgeIdentitiesFromSecret secret));;
      ret (Some identities).

(** The closure that encrypts one document. *)
Definition encrypt (sopsYAML : string) (identities : option Identities) (relPath existing content : string)
  : M error D string :=
  match LoadCreationRule sopsYAML relPath with
  | Err err =>
      if is_ErrNoCreationRule err then ret content
      else throw (wrapError ("failed to load the .sops.yaml creation rule for " ++ (relPath ++ ": ")) err)
  | Panic => panic
  | Ok rules =>
      '(RawYAML, KubernetesIdentityVisible) ⇐ or_wrap ("failed to encrypt " ++ (relPath ++ " with SOPS: "))
        (if negb (String.eqb existing "") && bool_decide (is_Some identities)
         then EncryptWithExisting content existing rules identities
         else EncryptYAML content rules identities);;
      if negb KubernetesIdentityVisible then
        throw (plainError ("the .sops.yaml creation rule matching " ++ (relPath ++
          (" encrypts the identity of the object: its encrypted_regex must leave apiVersion, kind and " ++
           "metadata.name in cleartext so that syngit can find the document again"))))
      else ret RawYAML
  end.

Definition sopsTransform (rc : RenderContext D) : M error St (DocTransform D) :=
  if negb (Enabled gates SopsEncryption) || negb (sops_Enabled (SOPS (sc_Spec (gp_Syncer (rc_Params rc)))))
  then ret None
  else
    sopsYAML ⇐ or_wrap
      "spec.sops.enabled is set but the repository has no .sops.yaml to read the creation rules from: "
      (in_tree (ReadWorktreeFile sopsConfigFile));;
    identities ⇐ sopsIdentities rc;;
    ret (Some (encrypt sopsYAML identities)).

(** ** [default.go] *)

Definition invalidChars : list ascii := [":"; "*"; "?"; "034"; "<"; ">"; "|"]%char.
Definition containsInvalidCharacters (path : string) : bool := existsb (λ c, has_byte c path) invalidChars.

Definition validatePath (path : string) : result error string :=
  let cleanPath := Clean path in
  if containsInvalidCharacters cleanPath then Err (plainError "the path is not valid") else Ok cleanPath.

Definition getFileDirName (resourceName path filename : string) : string * string :=
  let pathArr := Split path "/" in
  let last := List.last pathArr "" in
  if String.eqb filename "" then (path ++ "/", resourceName ++ ".yaml")
  else if Contains last ".yaml" || Contains last ".yml" then (Join (removelast pathArr) "/", last)
  else (Join pathArr "/", resourceName ++ ".yaml").

(** The directory of an artifact, before it is cleaned. *)
Definition layout_path (params : GitPipelineParams) (gvr : GVR) : string :=
  let root := RootPath (sc_Spec (gp_Syncer params)) in
  let intercepted := sc_InterceptedNamespace (gp_Syncer params) in
  let namespacePath := if String.eqb intercepted "" then ClusterScopedPathSegment else intercepted in
  (if String.eqb root "" then "" else root ++ "/") ++
    (namespacePath ++ ("/" ++ (gvr_Group gvr ++ ("/" ++ (gvr_Version gvr ++ ("/" ++ (gvr_Resource gvr ++ "/"))))))).

Definition pathConstructor (params : GitPipelineParams) (gvr : GVR) : M error D string :=
  path ⇐ lift (validatePath (layout_path params gvr));;
  stat ⇐ attempt (fs_Stat path);;
  match stat with
  | inl _ => ret path
  | inr err =>
      if os_IsNotExist err then
        _ ⇐ fs_MkdirAll (getFileDirName (gp_InterceptedName params) path "").1;;
        ret path
      else throw err
  end.

Definition writeFile (params : GitPipelineParams) (content : option string) (path : string)
    (transform : DocTransform D) : M error D string :=
  stat ⇐ attempt (fs_Stat path);;
  match stat with
  | inr err => throw (plainError ("failed to stat file " ++ (path ++ (": " ++ Error err))))
  | inl isDir =>
      let fileName := if isDir : bool then gp_InterceptedName params ++ ".yaml" else "" in
      let '(dir, fileName) := getFileDirName (gp_InterceptedName params) path fileName in
      let fullFilePath := filepath_Join [dir; fileName] in
      match content with
      | None => ret fullFilePath
      | Some content =>
          existing ⇐ attempt (ReadWorktreeFile fullFilePath);;
          content ⇐ Apply transform fullFilePath (match existing with inl c => c | inr _ => "" end) content;;
          written ⇐ attempt (WriteWorktreeFile fullFilePath content);;
          match written with
          | inr err => throw (plainError ("failed to write to file " ++ (fullFilePath ++ (": " ++ Error err))))
          | inl _ => ret fullFilePath
          end
      end
  end.

Definition place_one (params : GitPipelineParams) (transform : DocTransform D) (claimed : ClaimedPaths) (a : Artifact)
  : M error D ClaimedPaths :=
  path ⇐ pathConstructor params (a_GVR a);;
  fullFilePath ⇐ writeFile params (a_Content a) path (transformOrNil a transform);;
  ret (if IsDeletion a then AppendDeletedPath claimed fullFilePath else AppendAddedPath claimed fullFilePath).

Definition DefaultWorktreeCustomizer_place (params : GitPipelineParams) (artifacts : ArtifactSet)
    (transform : DocTransform D) : M error D ClaimedPaths :=
  for_fold (place_one params transform) NewClaimedPaths (Items artifacts).

(** ** [resource_finder.go] *)

(** The identifier of the content of the worktree. *)
Definition finder_scope (params : GitPipelineParams) : string :=
  TargetRepository (rt_Spec (gp_RemoteTarget params)) ++ ("#" ++ UpstreamBranch (rt_Spec (gp_RemoteTarget params))).

Definition finder_sel (params : GitPipelineParams) (a : Artifact) : ObjectSelector :=
  if String.eqb (a_Name a) ""
  then mkSel (a_GVR a) (gp_InterceptedName params) (sc_InterceptedNamespace (gp_Syncer params))
         ResourceFinderCommentPrefix
  else mkSel (a_GVR a) (a_Name a) (a_Namespace a) ResourceFinderCommentPrefix.

(** [None] is lack of fuel for the walk. *)
Definition find_one (fuel : nat) (params : GitPipelineParams) (transform : DocTransform D)
    (claimed : option ClaimedPaths) (a : Artifact) : M error (D * doc_cache) (option ClaimedPaths) :=
  match claimed with
  | None => ret None
  | Some claimed =>
      found ⇐ ReplaceObject ord fuel (finder_scope params) (finder_sel params a) (content a) (transformOrNil a transform);;
      ret (AppendClaimedPaths claimed <$> found)
  end.

Definition ResourceFinder_place (fuel : nat) (params : GitPipelineParams) (artifacts : ArtifactSet)
    (transform : DocTransform D) : M error (D * doc_cache) (option ClaimedPaths) :=
  for_fold (find_one fuel params transform) (Some NewClaimedPaths) (Items artifacts).

(** ** [mutator.go]: the placement *)

Definition finder_on (params : GitPipelineParams) : bool :=
  Enabled gates ResourceFinder_gate && ResourceFinder (sc_Spec (gp_Syncer params)).

Definition placeArtifacts (fuel : nat) (params : GitPipelineParams) (artifacts : ArtifactSet)
    (transform : DocTransform D) : M error (D * doc_cache) (option ClaimedPaths) :=
  claimed ⇐ (if finder_on params then ResourceFinder_place fuel params artifacts transform
             else ret (Some NewClaimedPaths));;
  match claimed with
  | None => ret None
  | Some claimed =>
      if ClaimExists claimed then ret (Some claimed)
      else
        defaulted ⇐ outside (DefaultWorktreeCustomizer_place params artifacts transform);;
        ret (Some (AppendClaimedPaths claimed defaulted))
  end.

Definition writeWholeFile (a : Artifact) (claimed : ClaimedPaths) : M error D ClaimedPaths :=
  let path := Clean (a_TargetPath a) in
  if IsDeletion a then _ ⇐ fs_Remove path;; ret (AppendDeletedPath claimed path)
  else _ ⇐ WriteWorktreeFile path (content a);; ret (AppendAddedPath claimed path).

Definition writeArtifactAtPath (transform : DocTransform D) (claimed : ClaimedPaths) (a : Artifact)
  : M error D ClaimedPaths :=
  if a_WholeFile a then writeWholeFile a claimed
  else
    placed ⇐ WriteObjectAtPath (Clean (a_TargetPath a)) (SelectorFromDoc (content a)) (content a)
               (transformOrNil a transform);;
    ret (AppendClaimedPaths claimed placed).

(** The gated providers; Go ranges over the map in any order. *)
Definition providerGate : list (string * Provider) :=
  [(HelmValuesMutation, mkProvider HelmValues_Handles HelmValues_Render);
   (FluxHelmRelease, mkProvider Flux_Handles Flux_Render);
   (Kustomize, mkProvider Kustomize_Handles Kustomize_Render)].

Definition run_provider (rc : RenderContext D) (out : ArtifactSet) (p : string * Provider) : M error St ArtifactSet :=
  if negb (Enabled gates p.1) then ret out
  else if negb (Handles p.2 (rc_Params rc)) then ret out
  else Render p.2 rc out.

Definition pathless (artifacts : ArtifactSet) : list Artifact :=
  List.filter (λ a, String.eqb (a_TargetPath a) "") (Items artifacts).
Definition with_path (artifacts : ArtifactSet) : list Artifact :=
  List.filter (λ a, negb (String.eqb (a_TargetPath a) "")) (Items artifacts).

(** The worktree is the one that was passed in every case. *)
Definition GenerateFinalWorktree (fuel : nat) (range : list (string * Provider)) (cluster : bool)
    (params : GitPipelineParams) : M error St (option ClaimedPaths) :=
  transform ⇐ sopsTransform (mkRenderContext params cluster None);;
  let rc := mkRenderContext params cluster transform in
  artifacts ⇐ for_fold (run_provider rc) (mkArtifacts [] false "") range;;
  if negb (String.eqb (DenialReason artifacts) "") then throw (providerDenied (DenialReason artifacts))
  else
    let artifacts :=
      if bool_decide (Items artifacts = []) && negb (Claimed artifacts)
      then add_artifact artifacts (mkArtifact (gp_InterceptedGVR params) "" "" (Some (gp_InterceptedManifest params)) "" false)
      else artifacts in
    claimed ⇐ in_tree (for_fold (writeArtifactAtPath transform) NewClaimedPaths (with_path artifacts));;
    if bool_decide (pathless artifacts = []) then ret (Some claimed)
    else
      placed ⇐ in_cache (placeArtifacts fuel params (mkArtifacts (pathless artifacts) false "") transform);;
      ret (AppendClaimedPaths claimed <$> placed).
End Mutator.
