(* ===== verification/Claims.v ===== *)
(** * Every change of the worktree is claimed

    Only the claimed paths are staged, so a file that changed without being claimed would
    stay in the clone, out of the commit. [changes] says which files an action may change;
    the theorem needs of the filesystem only that an operation on a path stays there
    ([BillyFrame]). *)

From S2P Require Import Prelude Frame GoStr Lfu Api Errors External Sim Refs Render Feature Pipeline Files Walker Mutator.

Lemma changes_or_wrap {S I V} (obs : S → I → V) K {A} p (m : M error S A) : changes obs K m → changes obs K (or_wrap p m).
Proof.
  intros Hm. unfold or_wrap. apply changes_bind; [by apply changes_attempt|].
  intros []; [apply changes_ret|apply changes_throw].
Qed.

Ltac changes_step ::=
  match goal with
  | |- changes _ _ (bind _ _) => apply changes_bind; [|intros]
  | |- changes _ _ (attempt _) => apply changes_attempt
  | |- changes _ _ (or_wrap _ _) => apply changes_or_wrap
  | |- changes _ _ (for_fold _ _ _) => apply changes_fold; intros
  | |- changes _ _ (for_foldi _ _ _ _) => apply changes_foldi; intros
  | |- changes _ _ (match ?x with _ => _ end) => destruct x
  | |- changes _ _ ((match ?x with _ => _ end) _) => destruct x
  end.

(** ** The filesystem *)

Section Tree.
Context {D : Type} `{BillyFrame D}.

Lemma changes_read K p : changes file_at K (ReadWorktreeFile p).
Proof.
  intros d r d' Hr k _. revert Hr. unfold ReadWorktreeFile, bind, attempt.
  destruct (fs_Open p d) as [[f|e|] d1] eqn:Ho; [|by intros [= <- <-]; rewrite (open_frame _ _ _ _ Ho)..].
  destruct (file_ReadAll f d1) as [r1 d2] eqn:Hra.
  pose proof (read_frame _ _ _ _ Hra) as H1'. pose proof (open_frame _ _ _ _ Ho) as Ho'.
  destruct r1 as [c|e|]; [| |by intros [= <- <-]; rewrite H1', Ho'].
  all: destruct (file_Close f d2) as [r2 d3] eqn:Hc; pose proof (open_close _ _ _ _ _ _ _ Ho Hc) as Hc';
    destruct r2; intros [= <- <-]; by rewrite Hc', H1', Ho'.
Qed.

Lemma changes_write p c : changes file_at (λ k, k = named p) (WriteWorktreeFile p c).
Proof.
  unfold WriteWorktreeFile. apply changes_bind; [|intros _].
  { destruct (_ && _); [|apply changes_ret]. intros d r d' Hr k _. by rewrite (mkdir_frame _ _ _ _ Hr). }
  intros d r d' Hr k Hk. revert Hr. unfold bind, attempt.
  destruct (fs_Create p d) as [[f|e|] d1] eqn:Hc;
    pose proof (create_frame _ _ _ _ k Hc Hk) as Hc'; [|by intros [= <- <-]..].
  rewrite <- (create_name _ _ _ _ Hc) in Hk.
  destruct (file_Write f c d1) as [r1 d2] eqn:Hw. pose proof (write_frame _ _ _ _ _ _ Hw Hk) as Hw'.
  destruct r1 as [[]|e|]; [| |by intros [= <- <-]; rewrite Hw', Hc'].
  - intros Hcl. by rewrite (close_frame _ _ _ _ _ Hcl Hk), Hw', Hc'.
  - destruct (file_Close f d2) as [r2 d3] eqn:Hcl. pose proof (close_frame _ _ _ _ _ Hcl Hk) as Hcl'.
    destruct r2; intros [= <- <-]; by rewrite Hcl', Hw', Hc'.
Qed.

Lemma changes_remove p : changes file_at (λ k, k = named p) (fs_Remove p).
Proof. intros d r d' Hr k Hk. by apply (remove_frame _ _ _ _ _ Hr). Qed.
Lemma changes_stat K p : changes file_at K (fs_Stat p).
Proof. intros d r d' Hr k _. by rewrite (stat_frame _ _ _ _ Hr). Qed.
Lemma changes_mkdir K p : changes file_at K (fs_MkdirAll p).
Proof. intros d r d' Hr k _. by rewrite (mkdir_frame _ _ _ _ Hr). Qed.
Lemma changes_readdir K p : changes file_at K (fs_ReadDir p).
Proof. intros d r d' Hr k _. by rewrite (read_dir_frame _ _ _ _ Hr). Qed.

Lemma named_relative p : named (worktreeRelativePath fs_Root p) = named p.
Proof.
  unfold worktreeRelativePath. rewrite root_rooted. change (Clean "/") with "/".
  assert (Htrim : ∀ x, named (TrimPrefix x "/") = named x).
  { intros x. unfold TrimPrefix. destruct (String.prefix "/" x) eqn:E; [|done].
    apply prefix_spec in E. rewrite E at 2. by rewrite named_rooted. }
  by rewrite !Htrim, named_clean.
Qed.
End Tree.
#[export] Hint Resolve changes_read changes_write changes_remove changes_stat changes_mkdir changes_readdir : changes.

(** ** Claims *)

Section Covers.
Context {D : Type} `{BillyFrame D}.

Definition paths (claimed : ClaimedPaths) : list string := (cp_Add claimed ++ cp_Delete claimed)%list.

(** Every file that differs is one of the claimed paths. *)
Definition covers (before after : key → option string) (claimed : ClaimedPaths) : Prop :=
  ∀ k, after k = before k ∨ ∃ p, p ∈ paths claimed ∧ named p = k.

Lemma covers_refl o claimed : covers o o claimed.
Proof. by left. Qed.

Lemma covers_same o o1 o2 claimed : covers o o1 claimed → (∀ k, o2 k = o1 k) → covers o o2 claimed.
Proof. intros Hc He k. rewrite He. apply Hc. Qed.

Lemma covers_more o o1 o2 claimed claimed' p : covers o o1 claimed →
  (∀ q, q ∈ paths claimed → q ∈ paths claimed') → p ∈ paths claimed' →
  (∀ k, k ≠ named p → o2 k = o1 k) → covers o o2 claimed'.
Proof.
  intros Hc Hsub Hp He k. destruct (decide (k = named p)) as [->|Hk]; [eauto|].
  rewrite He by done. destruct (Hc k) as [?|(q & ? & ?)]; eauto.
Qed.

Lemma paths_append c c' p : p ∈ paths (AppendClaimedPaths c c') ↔ p ∈ paths c ∨ p ∈ paths c'.
Proof. unfold paths, AppendClaimedPaths. cbn. rewrite !elem_of_app. tauto. Qed.

Lemma covers_append o o1 o2 c c' : covers o o1 c → covers o1 o2 c' → covers o o2 (AppendClaimedPaths c c').
Proof.
  intros Hc Hc' k. destruct (Hc' k) as [->|(p & Hp & Hn)].
  - destruct (Hc k) as [?|(p & Hp & Hn)]; [by left|]. right. exists p. rewrite paths_append. auto.
  - right. exists p. rewrite paths_append. auto.
Qed.

Lemma paths_added c p : p ∈ paths (AppendAddedPath c p) ∧ ∀ q, q ∈ paths c → q ∈ paths (AppendAddedPath c p).
Proof. unfold paths, AppendAddedPath. cbn. set_solver. Qed.
Lemma paths_deleted c p : p ∈ paths (AppendDeletedPath c p) ∧ ∀ q, q ∈ paths c → q ∈ paths (AppendDeletedPath c p).
Proof. unfold paths, AppendDeletedPath. cbn. set_solver. Qed.

(** Claiming a path after an action that stayed on it. *)
Lemma covers_claim o o1 o2 (c : ClaimedPaths) (deletion : bool) p : covers o o1 c → (∀ k, k ≠ named p → o2 k = o1 k) →
  covers o o2 (if deletion then AppendDeletedPath c p else AppendAddedPath c p).
Proof.
  intros Hc He. destruct (paths_added c p), (paths_deleted c p).
  destruct deletion; eapply (covers_more o o1 o2 c _ p); eauto.
Qed.

Definition quiet_transform (t : DocTransform D) : Prop := ∀ p e c, changes file_at nothing (Apply t p e c).

Section Documents.
Context `{Lib} (transform : DocTransform D) (quiet : quiet_transform transform).

Lemma changes_apply K p e c : changes file_at K (Apply transform p e c).
Proof. apply quiet_more, quiet. Qed.
#[local] Hint Resolve changes_apply : changes.

Lemma changes_replace_doc K c sel newDoc p :
  changes file_at K (ReplaceDocInContentFunc c sel newDoc p transform).
Proof. unfold ReplaceDocInContentFunc. changes. Qed.

Lemma changes_transform_docs K p existing c : changes file_at K (TransformChangedDocs p existing c transform).
Proof. unfold TransformChangedDocs, transform_changed. changes. Qed.
#[local] Hint Resolve changes_replace_doc : changes.

Lemma apply_replacement_covers o d d' fsPath rel c sel newDoc found claimed claimed' :
  named rel = named fsPath → covers o (file_at d) claimed →
  applyReplacement fsPath rel c sel newDoc transform claimed d = (Ok (found, claimed'), d') →
  covers o (file_at d') claimed'.
Proof.
  intros Hn Hc Hr. unfold applyReplacement in Hr.
  apply bind_ok_inv in Hr as ([out found1] & d1 & Hd & Hr).
  pose proof (changes_replace_doc nothing c sel newDoc rel d _ d1 Hd) as H1'.
  assert (Hc1 : covers o (file_at d1) claimed) by (eapply covers_same; [done|]; intros k; apply H1'; by intros []).
  destruct found1; cbn [negb] in Hr; [|by injection Hr as <- <- <-].
  apply bind_ok_inv in Hr as ([] & d2 & Hw & Hr). injection Hr as <- <- <-.
  apply (covers_claim o (file_at d1)); [done|]. intros k Hk. rewrite Hn in Hk.
  eapply (changes_more file_at (λ k, k = named fsPath)); [intros ? He; exact He| |exact Hw|done].
  unfold removeWorktreeFile. changes.
Qed.
End Documents.
End Covers.
#[export] Hint Resolve changes_replace_doc changes_transform_docs changes_apply : changes.

(** ** The walker *)

Section Walker.
Context {D : Type} `{BillyFrame D, Lib}.

Lemma attempt_quiet {S A} (m : M error D A) d s r st : changes file_at nothing m →
  attempt (outside (S := S) m) (d, s) = (r, st) →
  match r with Ok _ => st.2 = s ∧ ∀ k, file_at st.1 k = file_at d k | _ => True end.
Proof.
  intros Hm. unfold attempt, outside. destruct (m d) as [[a|e|] d'] eqn:E; intros [= <- <-]; try done;
    (split; [done|]); by apply (quiet_run _ _ _ _ _ Hm E).
Qed.

(** What the visits keep, and which depends on the files only, the walk keeps. *)
Lemma walk_ok_inv {S} (I : D * S → Prop) (visit : string → string → M error (D * S) bool) fuel base st r st' :
  (∀ d d' s, I (d, s) → (∀ k, file_at d' k = file_at d k) → I (d', s)) →
  (∀ p c st b st', I st → visit p c st = (Ok b, st') → I st') →
  I st → walkWorktreeFiles fuel base visit st = (Ok r, st') → I st'.
Proof.
  intros Hq Hv. revert base st r st'; induction fuel as [|fuel IH]; intros base st r st' HI; cbn [walkWorktreeFiles].
  { unfold ret. by intros [= _ <-]. }
  intros (files & [d1 s1] & Hd & Hr)%bind_ok_inv. destruct st as [d s].
  pose proof (attempt_quiet _ _ _ _ _ (changes_readdir nothing base) Hd) as [Hs Hf]. cbn in Hs, Hf. subst s1.
  destruct files as [files|err]; [|done]. apply (Hq _ d1) in HI; [|done]. clear Hd Hf d.
  revert d1 s HI r st' Hr; induction files as [|[name isDir] files IHl]; intros d s HI r st'; cbn [for_stop].
  { unfold ret. by intros [= _ <-]. }
  intros (stop & [d2 s2] & Hb & Hr)%bind_ok_inv.
  assert (HI2 : I (d2, s2)).
  { destruct isDir; [by eapply IH|]. destruct (negb (is_yaml name)); [by injection Hb as _ <- <-|].
    apply bind_ok_inv in Hb as (content & [d3 s3] & Hd & Hb).
    pose proof (attempt_quiet _ _ _ _ _ (changes_read nothing _) Hd) as [Hs Hf]. cbn in Hs, Hf. subst s3.
    destruct content as [content|err]; [|done]. apply bind_ok_inv in Hb as (b & st4 & Hvis & Hb).
    injection Hb as _ ->. eapply Hv; [|exact Hvis]. by eapply Hq. }
  destruct stop as [[]|]; [by injection Hr as _ <-| |by injection Hr as _ <-]. by eapply IHl.
Qed.

Context (ord : order docCacheKey docCacheValue) (transform : DocTransform D) (quiet : quiet_transform transform).

Lemma full_walk_covers fuel scope sel newDoc d c claimed d' c' :
  full_walk ord fuel scope sel newDoc transform (d, c) = (Ok (Some claimed), (d', c')) →
  covers (file_at d) (file_at d') claimed.
Proof.
  unfold full_walk. intros ([walked [cl matched]] & [d1 c1] & Hw & Hr)%bind_ok_inv.
  unfold outside, with_local in Hw.
  destruct (walkWorktreeFiles _ _ _ _) as [[a|e|] [d2 s2]] eqn:E; simplify_eq/=.
  assert (Hcov : covers (file_at d) (file_at d1) cl).
  { apply (walk_ok_inv (λ st, covers (file_at d) (file_at st.1) st.2.1)) in E; [done|..].
    - intros d0 d0' s Hc Hs. by eapply covers_same.
    - intros p content [d0 [cl0 m0]] b st' Hc. cbn in Hc |- *. unfold replace_visit.
      destruct (applyReplacement _ _ _ _ _ _ _ d0) as [[[found cl1]|e|] d0'] eqn:Ha; intros [= _ <-].
      cbn. eapply (apply_replacement_covers transform quiet); [|exact Hc|exact Ha]. apply named_relative.
    - apply covers_refl. }
  destruct walked; [|done]. apply bind_ok_inv in Hr as ([] & [d3 c3] & Hu & Hr).
  unfold update_cache, cached in Hu. unfold ret in Hr. by simplify_eq/=.
Qed.

Lemma replace_object_covers fuel scope sel newDoc d c claimed d' c' :
  ReplaceObject ord fuel scope sel newDoc transform (d, c) = (Ok (Some claimed), (d', c')) →
  covers (file_at d) (file_at d') claimed.
Proof.
  unfold ReplaceObject. intros (v & [d1 c1] & Hg & Hr)%bind_ok_inv. unfold cached in Hg.
  destruct (Get _ c) as [v0 c0]. simplify_eq/=.
  destruct v as [[p []]|]; [by eapply full_walk_covers| |by eapply full_walk_covers].
  apply bind_ok_inv in Hr as (r & [d2 c2] & Hread & Hr).
  pose proof (attempt_quiet _ _ _ _ _ (changes_read nothing p) Hread) as [Hs Hf]. cbn in Hs, Hf. subst c2.
  assert (Hmove : ∀ cl, covers (file_at d2) (file_at d') cl → covers (file_at d1) (file_at d') cl).
  { intros cl Hc k. rewrite <- Hf. apply Hc. }
  destruct r as [content|err]; [|by apply Hmove; eapply full_walk_covers].
  apply bind_ok_inv in Hr as ([found cl] & [d3 c3] & Ha & Hr). unfold outside in Ha.
  destruct (applyReplacement _ _ _ _ _ _ _ d2) as [[[f cl1]|e|] d4] eqn:E; simplify_eq/=.
  assert (Hcov : covers (file_at d2) (file_at d3) cl).
  { eapply (apply_replacement_covers transform quiet); [done|apply covers_refl|exact E]. }
  destruct found.
  - apply bind_ok_inv in Hr as ([] & [d5 c5] & Hu & Hr). simplify_eq/=.
    destruct (String.eqb newDoc ""); unfold update_cache, cached, ret in *; simplify_eq/=; by apply Hmove.
  - (* nothing matched: the state is the one the walk starts from *)
    unfold applyReplacement in E. apply bind_ok_inv in E as ([out found1] & d5 & Hd & E).
    pose proof (quiet_run _ _ _ _ _ (changes_replace_doc transform quiet nothing _ _ _ _) Hd) as Hq.
    destruct found1; cbn [negb] in E; [by apply bind_ok_inv in E as ([] & ? & _ & [=])|].
    unfold ret in E. simplify_eq/=. apply Hmove. intros k. rewrite <- Hq. by apply (full_walk_covers _ _ _ _ _ _ _ _ _ Hr).
Qed.
End Walker.

(** ** The mutator *)

(** The libraries that see the filesystem write no file. *)
Class SopsFrame (D : Type) `{Sops D, BillyFrame D} := {
  encrypt_yaml_quiet c rules ids : changes file_at nothing (EncryptYAML c rules ids);
  encrypt_existing_quiet c e rules ids : changes file_at nothing (EncryptWithExisting c e rules ids) }.
Class KustomizerFrame (D : Type) `{Kustomizer D, BillyFrame D} := {
  process_quiet obj op finder : changes file_at nothing (Process obj op finder) }.

Section Mutator.
Context {W D : Type} `{Cluster W, Lib, Helm, Flux W} `{BillyFrame D}.
Context `{!Sops D, !Kustomizer D, !SopsFrame D, !KustomizerFrame D}.
Context (gates : FeatureGates) (ord : order docCacheKey docCacheValue)
        (ord_map : gmap string string → list (string * string)) (managerNamespace : string).

Definition tree_at (st : W * (D * doc_cache)) : key → option string := file_at st.2.1.

Lemma quiet_in_cluster {A} (m : M error W A) : changes tree_at nothing (in_cluster (D := D) m).
Proof.
  intros [w dc] r st Hr k _. unfold in_cluster, outside in Hr. destruct (m w) as [r' w']. by simplify_eq/=.
Qed.
Lemma quiet_in_tree {A} (m : M error D A) : changes file_at nothing m → changes tree_at nothing (in_tree (W := W) m).
Proof.
  intros Hm [w [d c]] r st Hr k Hk. unfold in_tree, in_cache, outside in Hr.
  destruct (m d) as [r' d'] eqn:E. simplify_eq/=. unfold tree_at. cbn. by apply (Hm _ _ _ E).
Qed.
#[local] Hint Resolve quiet_in_cluster quiet_in_tree : changes.

Lemma encrypt_quiet y ids : quiet_transform (Some (encrypt y ids)).
Proof.
  intros p e c. unfold Apply. destruct (String.eqb c ""); [apply changes_ret|]. unfold encrypt.
  changes; [apply encrypt_existing_quiet|apply encrypt_yaml_quiet].
Qed.

Lemma sops_quiet rc : changes tree_at nothing (sopsTransform (W := W) gates rc).
Proof. unfold sopsTransform, sopsIdentities. changes. Qed.

Lemma sops_transform_quiet rc st t st' : sopsTransform (W := W) gates rc st = (Ok t, st') → quiet_transform t.
Proof.
  unfold sopsTransform. destruct (_ || _).
  - unfold ret. intros [= <- _]. intros p e c. apply changes_ret.
  - intros (y & st1 & _ & Hr)%bind_ok_inv. apply bind_ok_inv in Hr as (ids & st2 & _ & Hr).
    unfold ret in Hr. simplify_eq/=. apply encrypt_quiet.
Qed.

Lemma write_file_stays params content path t d full d' : quiet_transform t →
  writeFile params content path t d = (Ok full, d') → ∀ k, k ≠ named full → file_at d' k = file_at d k.
Proof.
  intros Ht Hr k Hk. unfold writeFile in Hr. apply bind_ok_inv in Hr as (stat & d1 & Hs & Hr).
  pose proof (quiet_run file_at _ _ _ _ (changes_attempt _ _ _ (changes_stat nothing path)) Hs k) as H1'.
  destruct stat as [isDir|err]; [|done]. destruct (getFileDirName _ _ _) as [dir fileName].
  destruct content as [content|]; [|unfold ret in Hr; by simplify_eq/=].
  apply bind_ok_inv in Hr as (existing & d2 & He & Hr).
  pose proof (quiet_run file_at _ _ _ _ (changes_attempt _ _ _ (changes_read nothing _)) He k) as H2'.
  apply bind_ok_inv in Hr as (out & d3 & Ha & Hr).
  pose proof (quiet_run file_at _ _ _ _ (Ht _ _ _) Ha k) as H3'.
  apply bind_ok_inv in Hr as (written & d4 & Hw & Hr). destruct written; [|done]. unfold ret in Hr. simplify_eq/=.
  pose proof (changes_attempt file_at _ _ (changes_write _ _) _ _ _ Hw k Hk) as H4'. congruence.
Qed.

Lemma place_covers params artifacts t d claimed d' : quiet_transform t →
  DefaultWorktreeCustomizer_place params artifacts t d = (Ok claimed, d') →
  covers (file_at d) (file_at d') claimed.
Proof.
  intros Ht. apply (for_fold_ok _ _ (λ c d', covers (file_at d) (file_at d') c)); [apply covers_refl|].
  intros c a d1 c' d2 _ Hc Hr. unfold place_one in Hr.
  apply bind_ok_inv in Hr as (path & d3 & Hp & Hr).
  assert (Hq : ∀ k, file_at d3 k = file_at d1 k).
  { intros k. refine (quiet_run file_at _ _ _ _ _ Hp k). unfold pathConstructor. changes. }
  apply bind_ok_inv in Hr as (full & d4 & Hw & Hr). unfold ret in Hr. simplify_eq/=.
  apply (covers_claim _ (file_at d3)); [by eapply covers_same|].
  eapply write_file_stays; [|exact Hw]. unfold transformOrNil. destruct (_ && _); [|done].
  intros p e x. apply changes_ret.
Qed.

Lemma or_nil_quiet (a : Artifact) t : quiet_transform t → quiet_transform (transformOrNil a t).
Proof. intros Ht. unfold transformOrNil. destruct (_ && _); [|done]. intros p e c. apply changes_ret. Qed.

Lemma finder_covers fuel params artifacts t dc claimed dc' : quiet_transform t →
  ResourceFinder_place ord fuel params artifacts t dc = (Ok (Some claimed), dc') →
  covers (file_at dc.1) (file_at dc'.1) claimed.
Proof.
  intros Ht Hr. set (P := λ (c : option ClaimedPaths) (dc' : D * doc_cache),
    match c with Some c => covers (file_at dc.1) (file_at dc'.1) c | None => True end).
  change (P (Some claimed) dc'). revert Hr. apply for_fold_ok; [apply covers_refl|].
  intros [c|] a [d1 c1] c' [d2 c2] _ Hc Hr; cbn in Hc; unfold find_one in Hr; [|unfold ret in Hr; by simplify_eq/=].
  apply bind_ok_inv in Hr as (found & [d3 c3] & Hf & Hr). unfold ret in Hr. simplify_eq/=.
  destruct found as [found|]; [|done]. cbn. apply (covers_append _ (file_at d1)); [done|].
  eapply (replace_object_covers ord _ (or_nil_quiet a t Ht)). exact Hf.
Qed.

Lemma placement_covers fuel params artifacts t dc claimed dc' : quiet_transform t →
  placeArtifacts gates ord fuel params artifacts t dc = (Ok (Some claimed), dc') →
  covers (file_at dc.1) (file_at dc'.1) claimed.
Proof.
  intros Ht Hr. unfold placeArtifacts in Hr. apply bind_ok_inv in Hr as (found & [d1 c1] & Hf & Hr).
  destruct found as [found|]; [|done].
  assert (Hc : covers (file_at dc.1) (file_at d1) found).
  { destruct (finder_on gates params); [exact (finder_covers _ _ _ _ _ _ _ Ht Hf)|].
    unfold ret in Hf. simplify_eq/=. apply covers_refl. }
  destruct (ClaimExists found); [unfold ret in Hr; by simplify_eq/=|].
  apply bind_ok_inv in Hr as (defaulted & [d2 c2] & Hd & Hr). unfold ret in Hr. simplify_eq/=.
  apply (covers_append _ (file_at d1)); [done|]. unfold outside in Hd.
  destruct (DefaultWorktreeCustomizer_place _ _ _ d1) as [[cl|e|] d3] eqn:E; simplify_eq/=.
  by eapply place_covers.
Qed.

Lemma write_at_covers t a d claimed d' o c : quiet_transform t → covers o (file_at d) c →
  writeArtifactAtPath t c a d = (Ok claimed, d') → covers o (file_at d') claimed.
Proof.
  intros Ht Hc Hr. unfold writeArtifactAtPath in Hr. destruct (a_WholeFile a).
  - unfold writeWholeFile in Hr. destruct (IsDeletion a);
      apply bind_ok_inv in Hr as (u & d1 & Hw & Hr); unfold ret in Hr; simplify_eq/=.
    + apply (covers_claim o (file_at d) _ c true); [done|]. intros k Hk. by apply (changes_remove _ _ _ _ Hw).
    + apply (covers_claim o (file_at d) _ c false); [done|]. intros k Hk. by apply (changes_write _ _ _ _ _ Hw).
  - apply bind_ok_inv in Hr as (placed & d1 & Hp & Hr). unfold ret in Hr. simplify_eq/=.
    apply (covers_append o (file_at d)); [done|]. clear Hc. unfold WriteObjectAtPath in Hp.
    set (path := Clean (Clean (a_TargetPath a))) in *. destruct (String.eqb (content a) "").
    + apply bind_ok_inv in Hp as (u & d2 & Hw & Hp). unfold ret in Hp. simplify_eq/=.
      apply (covers_claim _ (file_at d) _ NewClaimedPaths true); [apply covers_refl|].
      intros k Hk. apply (changes_attempt file_at _ _ (changes_remove path) _ _ _ Hw k Hk).
    + apply bind_ok_inv in Hp as (read & d2 & Hread & Hp).
      pose proof (quiet_run file_at _ _ _ _ (changes_attempt _ _ _ (changes_read nothing path)) Hread) as H2'.
      apply bind_ok_inv in Hp as ([out found] & d3 & Hdoc & Hp).
      pose proof (quiet_run file_at _ _ _ _ (changes_replace_doc _ (or_nil_quiet a t Ht) nothing _ _ _ _) Hdoc) as H3'.
      apply bind_ok_inv in Hp as (out' & d4 & Happ & Hp).
      assert (H4' : ∀ k, file_at d4 k = file_at d3 k).
      { pose proof (or_nil_quiet a t Ht) as Hq. refine (λ k, quiet_run file_at _ _ _ _ _ Happ k).
        destruct found; changes. }
      apply bind_ok_inv in Hp as (u & d5 & Hw & Hp). unfold ret in Hp. simplify_eq/=.
      apply (covers_claim _ (file_at d4) _ NewClaimedPaths false).
      * intros k. left. by rewrite H4', H3', H2'.
      * intros k Hk. by apply (changes_write _ _ _ _ _ Hw).
Qed.

(** Rendering reads the worktree and the cluster, and writes nothing. *)
Lemma providers_quiet name p rc out : quiet_transform (rc_Transform rc) →
  (name, p) ∈ providerGate (W := W) gates ord_map managerNamespace → changes tree_at nothing (Render p rc out).
Proof.
  intros Ht Hp. unfold providerGate in Hp.
  repeat (apply elem_of_cons in Hp as [[= -> ->]|Hp]; cbn [Render]); [..|by apply elem_of_nil in Hp].
  - unfold HelmValues_Render. changes.
  - unfold Flux_Render. changes.
  - pose proof process_quiet. unfold Kustomize_Render. changes.
    + unfold add_kustomize_file. changes.
    + unfold applyKustomizationEdits, apply_edit, applyKustomizationEdit. changes.
Qed.

Lemma run_providers_quiet range rc out : quiet_transform (rc_Transform rc) →
  range ≡ₚ providerGate gates ord_map managerNamespace →
  changes tree_at nothing (for_fold (run_provider gates rc) out range).
Proof.
  intros Ht Hrange. assert (Hin : ∀ p, p ∈ range → p ∈ providerGate (W := W) (D := D) gates ord_map managerNamespace)
    by (intros p; by rewrite Hrange).
  clear Hrange. revert out; induction range as [|[name p] range IH]; intros out; [apply changes_ret|].
  cbn [for_fold]. apply changes_bind; [|intros; apply IH; set_solver].
  unfold run_provider. destruct (negb _); [apply changes_ret|]. destruct (negb _); [apply changes_ret|].
  eapply providers_quiet; [done|]. apply Hin. by left.
Qed.

(** How a generation goes: the setup of SOPS, the providers, then the writes. *)
Lemma generated fuel range cluster params (st : W * (D * doc_cache)) r st' :
  range ≡ₚ providerGate gates ord_map managerNamespace →
  GenerateFinalWorktree gates ord fuel range cluster params st = (r, st') →
  (∀ claimed, r = Ok (Some claimed) → covers (tree_at st) (tree_at st') claimed) ∧
  (∀ e st1, sopsTransform gates (mkRenderContext params cluster None) st = (Err e, st1) →
     r = Err e ∧ ∀ k, tree_at st' k = tree_at st k) ∧
  (∀ t st1 artifacts st2, sopsTransform gates (mkRenderContext params cluster None) st = (Ok t, st1) →
     for_fold (run_provider gates (mkRenderContext params cluster t)) (mkArtifacts [] false "") range st1 =
       (Ok artifacts, st2) → DenialReason artifacts ≠ "" →
     r = Err (providerDenied (DenialReason artifacts)) ∧ ∀ k, tree_at st' k = tree_at st k).
Proof.
  intros Hrange Hr. unfold GenerateFinalWorktree in Hr.
  destruct (sopsTransform gates (mkRenderContext params cluster None) st) as [rt st1] eqn:Hs.
  pose proof (quiet_run _ _ _ _ _ (sops_quiet _) Hs) as Hq1.
  destruct rt as [t|e|].
  2: { rewrite (bind_err _ _ _ _ _ Hs) in Hr. simplify_eq/=. split_and!; [done|intros; by simplify_eq/=|done]. }
  2: { unfold bind at 1 in Hr. rewrite Hs in Hr. simplify_eq/=. done. }
  rewrite (bind_ok _ _ _ _ _ Hs) in Hr.
  pose proof (sops_transform_quiet _ _ _ _ Hs) as Ht. cbv zeta in Hr.
  destruct (for_fold (run_provider gates (mkRenderContext params cluster t)) (mkArtifacts [] false "") range st1)
    as [ra st2] eqn:Ha.
  pose proof (quiet_run _ _ _ _ _ (run_providers_quiet range (mkRenderContext params cluster t) _ Ht Hrange) Ha) as Hq2.
  split_and!; [|done|].
  2: { intros ? ? artifacts st3 [= <- <-] Ha' Hd. rewrite Ha in Ha'. simplify_eq/=.
       rewrite (bind_ok _ _ _ _ _ Ha) in Hr. apply String.eqb_neq in Hd. rewrite Hd in Hr. cbn [negb] in Hr.
       unfold throw in Hr. simplify_eq/=. split; [done|]. intros k. by rewrite Hq2, Hq1. }
  intros claimed ->. destruct ra as [artifacts|e|]; unfold bind at 1 in Hr; rewrite Ha in Hr; [|done..].
  destruct (negb (String.eqb (DenialReason artifacts) "")); [done|].
  set (arts := if _ : bool then _ else _) in Hr. clearbody arts.
  apply bind_ok_inv in Hr as (cl & [w3 [d3 c3]] & Hf & Hr). destruct st2 as [w2 [d2 c2]].
  unfold in_tree, in_cache, outside in Hf.
  destruct (for_fold _ _ _ d2) as [[cl'|e|] d3'] eqn:Ef; simplify_eq/=.
  assert (Hc : covers (tree_at st) (file_at d3) cl).
  { revert Ef. apply (for_fold_ok _ _ (λ c d', covers (tree_at st) (file_at d') c)).
    - intros k. left. specialize (Hq2 k). unfold tree_at in *. cbn in *. by rewrite Hq2, Hq1.
    - intros c a d4 c' d5 _ Hc Hw. by eapply write_at_covers. }
  destruct (bool_decide _); [unfold ret in Hr; by simplify_eq/=|].
  apply bind_ok_inv in Hr as (placed & [w4 [d4 c4]] & Hp & Hr). unfold ret in Hr. simplify_eq/=.
  destruct placed as [placed|]; simplify_eq/=. unfold in_cache in Hp.
  destruct (placeArtifacts _ _ _ _ _ _ _) as [rp dc'] eqn:Ep. simplify_eq/=.
  apply (covers_append _ (file_at d3)); [done|]. exact (placement_covers _ _ _ _ _ _ _ Ht Ep).
Qed.

(** (C8) Whatever the providers, the transformation and the features make of the intercepted
    object, and whichever operations of the filesystem fail, a worktree without symbolic
    links ([BillyFrame]) that was generated differs from the one before only in the files
    that are claimed, hence staged and committed.
    Until the providers have answered nothing is written: a failing SOPS setup or a
    provider that refuses the change leaves every file as it was. *)
Theorem worktree_changes_claimed fuel range cluster params (st : W * (D * doc_cache)) r st' :
  range ≡ₚ providerGate gates ord_map managerNamespace →
  GenerateFinalWorktree gates ord fuel range cluster params st = (r, st') →
  (∀ claimed, r = Ok (Some claimed) → covers (tree_at st) (tree_at st') claimed) ∧
  (∀ e st1, sopsTransform gates (mkRenderContext params cluster None) st = (Err e, st1) →
     r = Err e ∧ ∀ k, tree_at st' k = tree_at st k) ∧
  (∀ t st1 artifacts st2, sopsTransform gates (mkRenderContext params cluster None) st = (Ok t, st1) →
     for_fold (run_provider gates (mkRenderContext params cluster t)) (mkArtifacts [] false "") range st1 =
       (Ok artifacts, st2) → DenialReason artifacts ≠ "" →
     r = Err (providerDenied (DenialReason artifacts)) ∧ ∀ k, tree_at st' k = tree_at st k).
Proof. apply generated. Qed.
End Mutator.

(** ** Stand-ins for the provider libraries, for the witnesses *)

Definition demo_values : string := "# " ++ (ResourceFinderCommentPrefix ++ ("team/sh.helm.app" ++ (nls ++ "replicas: 2"))).

#[export] Instance sim_helm : Helm := {
  HelmValuesAnnotation := "syngit.io/helm-values";
  IsHelmSecretByName n := HasPrefix n "sh.helm";
  IsHelmSecret _ := true;
  ExtractValues _ := Ok demo_values;
  GetReleaseNameFromSecretName n := n;
  ExtractRelease _ := Ok (Some ("app", "team"));
  utilyaml_Unmarshal_Secret _ := Ok (mkSecret (new_meta "sh.helm.app" "team" ∅) "helm.sh/release.v1" ∅) }.

(** A release is its chart source; there is one in the namespace [team]. *)
#[export] Instance sim_flux {W} : Flux W := {
  HelmRelease := string;
  Unstructured := string;
  HelmReleaseAnnotation := "syngit.io/flux";
  list_HelmReleases _ := ret ["app"];
  u_Name n := n;
  u_Namespace _ := "team";
  FromUnstructured n := Ok n;
  hr_SourceRef n := Some n;
  ConvertToHelmReleaseWithExisting _ hr := Ok hr;
  json_Marshal_HelmRelease hr := Ok hr }.

#[export] Instance sim_kustomizer {D} : Kustomizer D := {
  KObject := string;
  ProviderAnnotation := "syngit.io/kustomize";
  ActionRefuse := "refuse";
  PatchStrategyJSON6902 := "json6902";
  EditOpAdd := "add";
  YAMLToJSON s := Ok s;
  UnmarshalJSON s := Ok s;
  Process obj _ _ := ret (mkKResult true "refuse" "not in the bundle" "" ∅ [] []);
  RNode := list string;
  YNode := string;
  kyaml_Parse s := Ok [s];
  kyaml_LookupCreate _ n := Ok (n, id);
  kyaml_Append n es := Ok (es ++ n)%list;
  kyaml_String s := Ok s;
  kyaml_DeriveSeqIndentStyle _ := "";
  kyaml_MarshalWithOptions n _ := Ok (Join n nls);
  yaml_Marshal_value _ := Ok "";
  yaml_Unmarshal_value s := Ok (VStr s);
  reflect_DeepEqual a b := match a, b with VStr x, VStr y => String.eqb x y | _, _ => false end }.

#[export] Instance sim_sops {D} : Sops D := {
  Rules := unit;
  Identities := unit;
  LoadCreationRule _ p := if HasPrefix p "public" then Err (plainError "no rule") else Ok tt;
  is_ErrNoCreationRule _ := true;
  EncryptYAML c _ _ := ret ("ENC " ++ c, true);
  EncryptWithExisting c _ _ _ := ret ("ENC " ++ c, true);
  AgeIdentitiesFromSecret _ := Ok tt }.

#[export] Instance sim_sops_frame : SopsFrame fs.
Proof. split; intros; apply changes_ret. Qed.
#[export] Instance sim_kustomizer_frame : KustomizerFrame fs.
Proof. split. intros. apply changes_ret. Qed.

Definition demo_spec (finder sops : bool) : RemoteSyncerSpec :=
  mkRemoteSyncerSpec "https://git.x/org/app.git" "main" (mkScopedResources None None []) CommitApply OneTarget
    None "" [] [] "clusters" finder None [] false BlockDefaultUser "" 0 None None false (mkRef "" "")
    (mkSOPSConfig sops (mkRef "" "")).
Definition demo_context (spec : RemoteSyncerSpec) (annotations : gmap string string) : SyncerContext :=
  mkSyncerContext spec (mkNN "team" "sync") annotations false "team" "team" "team".
Definition demo_params (spec : RemoteSyncerSpec) (annotations : gmap string string) (gvr : GVR) (name manifest branch : string)
  : GitPipelineParams :=
  mkGitParams (demo_context spec annotations)
    (mkRemoteTarget (new_meta "t" "team" ∅) (mkRemoteTargetSpec "https://git.x/org/app.git" "main"
       "https://git.x/org/app.git" branch "") [])
    manifest "" gvr name (mkGitUserInfo "u" "u@x" "tok") "CREATE" None.

Definition demo_worktree : fs := mkFs {[ ["README.md"] := "r" ]} {[ [] ]}.

Lemma worktree_changes_claimed_witness :
  let st := (world_of empty_view, (demo_worktree, None)) in
  let params := demo_params (demo_spec true false) ∅ (mkGVR "" "v1" "configmaps") "app" "data: 1" "main" in
  let run := GenerateFinalWorktree (W := World) LoadedFeatureGates map_to_list 3
    (providerGate LoadedFeatureGates map_to_list "syngit") true params st in
  match run.1 with
  | Ok (Some claimed) => bool_decide (cp_Add claimed = ["clusters/team/v1/configmaps/app.yaml"])
  | _ => false
  end = true ∧
  ∀ claimed, run.1 = Ok (Some claimed) → covers (tree_at st) (tree_at run.2) claimed.
Proof.
  cbv zeta. split; [vm_compute; reflexivity|]. intros claimed Hc.
  refine (proj1 (worktree_changes_claimed (W := World) LoadedFeatureGates map_to_list map_to_list "syngit" 3 _ _ _ _ _ _
    (reflexivity _) (surjective_pairing _)) claimed Hc).
Defined.
