(* ===== verification/Placement.v ===== *)
(** * The default layout of the worktree

    One file per object, named after its namespace, group, version, resource and name:
    the path [default.go] builds, cleaned, and that no two objects share it. *)

From S2P Require Import Prelude GoStr Lfu Api Errors External Sim Refs Render Feature Pipeline Files Walker.
From S2P Require Import Documents WalkerProps Mutator Claims.
From Stdlib Require Import Ascii.

(** ** The default layout *)

Definition nonempty (n : string) : bool := negb (String.eqb n "").
Definition part_ok (n : string) : Prop := n = "" ∨ name_ok n.

(** The directories of an artifact; an empty group or version leaves no directory. *)
Definition layout_key (root : key) (namespace : string) (gvr : GVR) : key :=
  (root ++ [if String.eqb namespace "" then ClusterScopedPathSegment else namespace] ++
   List.filter nonempty [gvr_Group gvr; gvr_Version gvr; gvr_Resource gvr])%list.
Definition layout_file (root : key) (namespace : string) (gvr : GVR) (name : string) : key :=
  (layout_key root namespace gvr ++ [(name ++ ".yaml")%string])%list.

Lemma filter_cons n parts : n ≠ "" → List.filter nonempty (n :: parts) = n :: List.filter nonempty parts.
Proof. intros Hn. cbn. unfold nonempty at 1. by apply String.eqb_neq in Hn as ->. Qed.

Lemma clean_parts r parts out : Forall part_ok parts →
  foldl (clean_step r) out parts = (rev (List.filter nonempty parts) ++ out)%list.
Proof.
  intros Hp. revert out; induction Hp as [|n parts [->|Hn] _ IH]; intros out; [done|by apply IH|].
  cbn [foldl]. destruct Hn as (He & Hd & Hdd & _). rewrite step_proper, IH, filter_cons by done.
  cbn [rev]. by rewrite <- app_assoc.
Qed.

Lemma part_no_slash parts : Forall part_ok parts → Forall (λ s, has_byte "/"%char s = false) parts.
Proof. intros Hp. eapply Forall_impl; [exact Hp|]. by intros n [->|(_ & _ & _ & ?)]. Qed.

Lemma filter_ok parts : Forall part_ok parts → key_ok (List.filter nonempty parts).
Proof.
  induction 1 as [|n parts [->|Hn] _ IH]; [constructor|done|].
  rewrite filter_cons by apply Hn. by constructor.
Qed.

Lemma clean_joined n parts : name_ok n → Forall part_ok parts →
  Clean (Join (n :: parts) "/") = path_of (n :: List.filter nonempty parts).
Proof.
  intros Hn Hp. assert (Hall : Forall part_ok (n :: parts)) by (constructor; [by right|done]).
  unfold Clean. assert (Hpre : HasPrefix (Join (n :: parts) "/") "/" = false).
  { destruct Hn as (Hne & _ & _ & Hb). destruct n as [|ch n]; [done|]. cbn in Hb. apply orb_false_iff in Hb as [Hb _].
    assert (Hone : ∀ s, String.prefix "/" (String ch s) = false).
    { intros s. change "/"%string with (String "/"%char ""). by rewrite prefix_one. }
    unfold HasPrefix, Join. destruct parts; apply Hone. }
  rewrite Hpre, (Split_Join "/"%char) by (done || by apply part_no_slash).
  rewrite clean_parts, app_nil_r, rev_involutive, filter_cons by (done || apply Hn). done.
Qed.

Lemma clean_layout root params gvr : key_ok root → RootPath (sc_Spec (gp_Syncer params)) = Join root "/" →
  part_ok (sc_InterceptedNamespace (gp_Syncer params)) →
  Forall part_ok [gvr_Group gvr; gvr_Version gvr; gvr_Resource gvr] →
  Clean (layout_path params gvr) = path_of (layout_key root (sc_InterceptedNamespace (gp_Syncer params)) gvr).
Proof.
  intros Hroot Hrp Hns Hparts. unfold layout_path, layout_key. rewrite Hrp.
  set (ns := if String.eqb (sc_InterceptedNamespace _) "" then _ else _).
  assert (Hn : name_ok ns).
  { unfold ns. destruct Hns as [->|Hns]; [by repeat split|]. destruct Hns as (He & Hr).
    pose proof He as He'. apply String.eqb_neq in He' as ->. by split. }
  clearbody ns. destruct gvr as [g v r]. cbn [gvr_Group gvr_Version gvr_Resource] in *.
  assert (Htail : ns ++ ("/" ++ (g ++ ("/" ++ (v ++ ("/" ++ (r ++ "/")))))) = Join [ns; g; v; r; ""] "/").
  { unfold Join. cbn [String.concat]. by rewrite !append_nil_r. }
  rewrite Htail. assert (Hjoin : (if String.eqb (Join root "/") "" then "" else Join root "/" ++ "/") ++
    Join [ns; g; v; r; ""] "/" = Join (root ++ [ns; g; v; r; ""])%list "/").
  { destruct (decide (root = [])) as [->|Hne]; [done|]. destruct (join_ne root Hroot Hne) as [Hj _].
    apply String.eqb_neq in Hj as ->. unfold Join. by rewrite concat_app, append_assoc. }
  rewrite Hjoin. assert (Hf : ∀ l, List.filter nonempty (l ++ [""])%list = List.filter nonempty l).
  { intros l. rewrite List.filter_app. cbn. by rewrite app_nil_r. }
  assert (Hall : Forall part_ok [g; v; r; ""]) by (apply (Forall_app_2 _ [g; v; r]); [done|by repeat constructor]).
  destruct root as [|a root].
  - cbn [app]. rewrite clean_joined by done. by rewrite <- (Hf [g; v; r]).
  - inversion Hroot as [|? ? Ha Hroot']; subst. cbn [app]. rewrite clean_joined; [|done|].
    + f_equal. f_equal. rewrite List.filter_app. f_equal.
      * clear -Hroot'. induction Hroot' as [|x l (He & _) _ IH]; [done|].
        rewrite filter_cons by done. by rewrite IH.
      * rewrite filter_cons by apply Hn. by rewrite <- (Hf [g; v; r]).
    + apply Forall_app. split; [|constructor; [by right|done]].
      eapply Forall_impl; [exact Hroot'|]. intros x Hx. by right.
Qed.

(** An object the API server may store: a namespaced or a cluster-scoped one, of a resource
    whose group may be empty. *)
Record object_ok (namespace : string) (gvr : GVR) (name : string) : Prop := {
  ok_namespace : part_ok namespace ∧ namespace ≠ ClusterScopedPathSegment;
  ok_group : part_ok (gvr_Group gvr);
  ok_version : name_ok (gvr_Version gvr);
  ok_resource : name_ok (gvr_Resource gvr) }.

Lemma layout_file_inj root namespace gvr name namespace' gvr' name' :
  object_ok namespace gvr name → object_ok namespace' gvr' name' →
  layout_file root namespace gvr name = layout_file root namespace' gvr' name' →
  namespace = namespace' ∧ gvr = gvr' ∧ name = name'.
Proof.
  intros [[Hn Hc] Hg Hv Hr] [[Hn' Hc'] Hg' Hv' Hr'] He. unfold layout_file, layout_key in He.
  destruct gvr as [g v r], gvr' as [g' v' r']. cbn [gvr_Group gvr_Version gvr_Resource] in *.
  assert (Hf : ∀ g v r, name_ok v → name_ok r →
    List.filter nonempty [g; v; r] = if String.eqb g "" then [v; r] else [g; v; r]).
  { clear. intros g v r (Hv & _) (Hr & _). apply String.eqb_neq in Hv, Hr. cbn. unfold nonempty.
    rewrite Hv, Hr. by destruct (String.eqb g ""). }
  rewrite !Hf in He by done. rewrite <- !app_assoc in He. apply app_inv_head in He.
  injection He as Hns He.
  assert (Hname : ∀ (l l' : list string), (l ++ [(name ++ ".yaml")%string] = l' ++ [(name' ++ ".yaml")%string])%list → l = l' ∧ name = name').
  { intros l l' Hl. apply app_inj_tail in Hl as [-> Hl]. by apply append_inj_r in Hl. }
  apply Hname in He as [He ->]. split_and!; [| |done].
  - destruct (String.eqb_spec namespace ""), (String.eqb_spec namespace' ""); by subst.
  - destruct (String.eqb_spec g ""), (String.eqb_spec g' ""); by simplify_eq/=.
Qed.

Lemma object_parts ns n gvr : object_ok ns gvr n → Forall part_ok [gvr_Group gvr; gvr_Version gvr; gvr_Resource gvr].
Proof. intros [_ Hg Hv Hr]. constructor; [done|]. constructor; [by right|]. constructor; [by right|done]. Qed.

Lemma layout_ok root namespace gvr name : key_ok root → object_ok namespace gvr name → name_ok (name ++ ".yaml") →
  key_ok (layout_key root namespace gvr) ∧ key_ok (layout_file root namespace gvr name).
Proof.
  intros Hroot Hobj Hn. pose proof (object_parts _ _ _ Hobj) as Hparts. destruct Hobj as [[Hns _] _ _ _].
  assert (Hdir : key_ok (layout_key root namespace gvr)).
  { unfold layout_key. apply Forall_app. split; [done|]. apply Forall_cons. split.
    - destruct (String.eqb_spec namespace ""); [by repeat split|by destruct Hns].
    - by apply filter_ok. }
  split; [done|]. by apply key_ok_snoc.
Qed.

Lemma join_file dir n : key_ok (dir ++ [n])%list → dir ≠ [] → filepath_Join [path_of dir; n] = path_of (dir ++ [n])%list.
Proof.
  intros Hok Hne. rewrite <- (clean_path _ Hok), path_snoc. apply key_ok_snoc in Hok as [Hdir _].
  cbn [filepath_Join]. destruct dir as [|a r] eqn:E; [done|]. cbn [path_of].
  destruct (join_ne (a :: r) Hdir Hne) as [He _].
  apply String.eqb_neq in He as ->. f_equal. unfold Join. by rewrite concat_app by done.
Qed.

Lemma layout_key_ne root namespace gvr : layout_key root namespace gvr ≠ [].
Proof. unfold layout_key. by destruct root. Qed.

(** The file the default customizer writes for an object. *)
Definition object_path (params : GitPipelineParams) (gvr : GVR) : string :=
  filepath_Join [Clean (layout_path params gvr); (gp_InterceptedName params ++ ".yaml")%string].

(** An object of a syncer whose root path is a clean relative one. *)
Definition laid_out (root : key) (params : GitPipelineParams) (gvr : GVR) : Prop :=
  (key_ok root ∧ RootPath (sc_Spec (gp_Syncer params)) = Join root "/") ∧
  object_ok (sc_InterceptedNamespace (gp_Syncer params)) gvr (gp_InterceptedName params) ∧
  name_ok (gp_InterceptedName params ++ ".yaml").

Lemma object_path_spec root params gvr : laid_out root params gvr →
  object_path params gvr = path_of (layout_file root (sc_InterceptedNamespace (gp_Syncer params)) gvr (gp_InterceptedName params)).
Proof.
  intros ([Hroot Hrp] & Hobj & Hn). destruct (layout_ok _ _ _ _ Hroot Hobj Hn) as [_ Hfile].
  unfold object_path. rewrite (clean_layout root params gvr); [|done..|by apply Hobj|by eapply object_parts].
  apply join_file; [done|apply layout_key_ne].
Qed.

(** In the default layout no two objects share a file: the path that is written
    determines the namespace, the group, the version, the resource and the name. *)
Theorem layout_separates_objects root params gvr params' gvr' :
  laid_out root params gvr → laid_out root params' gvr' → object_path params gvr = object_path params' gvr' →
  sc_InterceptedNamespace (gp_Syncer params) = sc_InterceptedNamespace (gp_Syncer params') ∧ gvr = gvr' ∧
  gp_InterceptedName params = gp_InterceptedName params'.
Proof.
  intros Hl Hl' He. rewrite !(object_path_spec root) in He by done.
  destruct Hl as ([Hroot _] & Ho & Hn), Hl' as (_ & Ho' & Hn').
  apply path_of_inj in He; [|by apply layout_ok..]. by eapply layout_file_inj.
Qed.

Lemma name_check n : negb (existsb (String.eqb n) [""; "."; ".."]) && negb (has_byte "/"%char n) = true → name_ok n.
Proof.
  rewrite andb_true_iff, !negb_true_iff. cbn. rewrite !orb_false_iff, !String.eqb_neq. intros [(? & ? & ? & _) ?].
  by repeat split.
Qed.

Lemma layout_separates_objects_witness :
  let app := demo_params (demo_spec true false) ∅ (mkGVR "" "v1" "configmaps") "app" "data: 1" "main" in
  let db := demo_params (demo_spec true false) ∅ (mkGVR "apps" "v1" "deployments") "db" "data: 1" "main" in
  object_path app (mkGVR "" "v1" "configmaps") = "clusters/team/v1/configmaps/app.yaml" ∧
  object_path app (mkGVR "" "v1" "configmaps") ≠ object_path db (mkGVR "apps" "v1" "deployments").
Proof.
  cbv zeta. split; [vm_compute; reflexivity|]. intros He.
  assert (Hroot : key_ok ["clusters"]) by (repeat constructor; by apply name_check).
  destruct (layout_separates_objects ["clusters"] _ _ _ _ ltac:(split; [by split|split; [split|by apply name_check]];
      cbn; [split; [right; by apply name_check|done]|by left|by apply name_check..])
    ltac:(split; [by split|split; [split|by apply name_check]];
      cbn; [split; [right; by apply name_check|done]|right; by apply name_check|by apply name_check..]) He)
    as (_ & [=] & _).
Defined.
