(* ===== verification/Intercepted.v ===== *)
(** * Where an intercepted object ends up in the worktree

    An object no provider takes is written over every manifest that holds it, or into its
    file of the layout ([intercepted_object_placed]); with SOPS on, what is written is
    encrypted, or scoped out by the rules of the repository ([sops_never_cleartext]). *)

From S2P Require Import Prelude GoStr Lfu Api Errors External Sim Refs Render Feature Pipeline Files Walker.
From S2P Require Import Documents WalkerProps Mutator Claims Placement.
From Stdlib Require Import Ascii.

(** ** The default customizer, on a healthy filesystem *)

Lemma plain_dir_name name p : Contains (List.last (Split p "/") "") ".yaml" = false →
  Contains (List.last (Split p "/") "") ".yml" = false →
  getFileDirName name p (name ++ ".yaml") = (p, (name ++ ".yaml")%string).
Proof.
  intros Hy Hm. unfold getFileDirName. rewrite Hy, Hm. cbn [orb].
  assert (Hne : String.eqb (name ++ ".yaml") "" = false) by by destruct name.
  by rewrite Hne, Join_Split.
Qed.

Section Default.
Context {D : Type} `{BillyLaws D}.
Context (params : GitPipelineParams) (root : key).

Abbreviation syncer := (gp_Syncer params).
Abbreviation namespace := (sc_InterceptedNamespace (gp_Syncer params)).
Abbreviation name := (gp_InterceptedName params).

(** The object has a place in the layout: nothing of the worktree is in the way. *)
Record placeable (gvr : GVR) (t : fs) : Prop := {
  pl_root : key_ok root ∧ RootPath (sc_Spec syncer) = Join root "/";
  pl_object : object_ok namespace gvr name;
  pl_name : name_ok (name ++ ".yaml");
  pl_resource : Contains (gvr_Resource gvr) ".yaml" = false ∧ Contains (gvr_Resource gvr) ".yml" = false;
  pl_chars : containsInvalidCharacters (path_of (layout_key root namespace gvr)) = false;
  pl_dirs p : p ∈ prefixes (layout_key root namespace gvr) → files t !! p = None;
  pl_file : layout_file root namespace gvr name ∉ dirs t }.

Context (gvr : GVR).
Abbreviation dir := (layout_key root namespace gvr).
Abbreviation file := (layout_file root namespace gvr name).

(** The resource is the last directory. *)
Lemma layout_last : name_ok (gvr_Version gvr) → name_ok (gvr_Resource gvr) →
  ∃ k, dir = (k ++ [gvr_Resource gvr])%list ∧ k ≠ [].
Proof.
  intros (Hv & _) (Hr & _). unfold layout_key. cbn [List.filter].
  assert (Hnv : nonempty (gvr_Version gvr) = true) by (unfold nonempty; by apply String.eqb_neq in Hv as ->).
  assert (Hnr : nonempty (gvr_Resource gvr) = true) by (unfold nonempty; by apply String.eqb_neq in Hr as ->).
  rewrite Hnv, Hnr. set (ns := if String.eqb _ _ then _ else _). destruct (nonempty (gvr_Group gvr)).
  - exists (root ++ [ns; gvr_Group gvr; gvr_Version gvr])%list. rewrite <- app_assoc. split; [done|]. by destruct root.
  - exists (root ++ [ns; gvr_Version gvr])%list. rewrite <- app_assoc. split; [done|]. by destruct root.
Qed.

Lemma place_ok t : placeable gvr t → key_ok dir ∧ key_ok file.
Proof. intros [[Hroot _] Hobj Hn _ _ _ _]. by apply layout_ok. Qed.

Lemma construct_path d : fs_wf (tree d) → placeable gvr (tree d) →
  ∃ d1, pathConstructor params gvr d = (Ok (path_of dir), d1) ∧
    tree d1 = mkFs (files (tree d)) (dirs (tree d) ∪ prefixes dir).
Proof.
  intros Hwf Hpl. destruct (place_ok _ Hpl) as [Hdir _]. destruct Hpl as [[Hroot Hrp] Hobj _ _ Hch Hfree _].
  pose proof (object_parts _ _ _ Hobj) as Hparts. destruct Hobj as [[Hns _] _ _ _].
  unfold pathConstructor, validatePath. rewrite (clean_layout root params gvr), Hch by done.
  unfold bind at 1, lift. pose proof (Hfree dir (prefixes_self _)) as Hnf.
  unfold bind at 1, attempt. destruct (decide (dir ∈ dirs (tree d))) as [Hin|Hin].
  - rewrite (stat_found dir d Hdir (or_introl Hin)). exists d. split; [done|].
    assert (Hsub : prefixes dir ⊆ dirs (tree d)) by (intros p Hp%elem_of_prefixes; by eapply dirs_above).
    destruct (tree d) as [fs0 ds0]. cbn in *. f_equal. set_solver.
  - destruct (stat_missing dir d Hdir Hin Hnf) as (e & He & Hne). rewrite He, Hne.
    destruct (make_dir dir (path_of dir ++ "/") d Hdir (or_intror eq_refl) Hfree) as (d1 & Hm & Ht).
    exists d1. split; [|done]. cbn [getFileDirName String.eqb fst]. by rewrite (bind_ok _ _ _ _ _ Hm).
Qed.

(** What is known of the transformation, as for [ReplaceObject]. *)
Context (transform : DocTransform D)
        (produces : string → string → string → string → Prop) (refuses : error → Prop).
Hypothesis transform_ok : ∀ relPath existing content d,
  match Apply transform relPath existing content d with
  | (Ok out, d') => produces relPath existing content out ∧ tree d' = tree d
  | (Err e, _) => refuses e
  | (Panic, _) => False
  end.

(** The file of the layout, written. *)
Definition placed_in_layout (content : string) (t0 t1 : fs) (claimed : ClaimedPaths) : Prop :=
  ∃ out, produces (path_of file) (default "" (files t0 !! file)) content out ∧
    t1 = mkFs (<[file := out]> (files t0)) (dirs t0 ∪ prefixes dir) ∧
    claimed = claims content [path_of file].

Lemma write_layout content d : fs_wf (tree d) → placeable gvr (tree d) → dir ∈ dirs (tree d) →
  match writeFile params (Some content) (path_of dir) transform d with
  | (Ok p, d') => p = path_of file ∧ ∃ out, produces (path_of file) (default "" (files (tree d) !! file)) content out ∧
      tree d' = mkFs (<[file := out]> (files (tree d))) (dirs (tree d))
  | (Err e, _) => refuses e
  | (Panic, _) => False
  end.
Proof.
  intros Hwf Hpl Hin. destruct (place_ok _ Hpl) as [Hdir Hfile].
  destruct Hpl as [_ [_ _ Hv Hr] Hn [Hy Hm] _ _ Hnd].
  destruct (layout_last Hv Hr) as (k & Hk & Hkne).
  unfold writeFile. unfold bind at 1, attempt at 1. rewrite (stat_found dir d Hdir (or_introl Hin)).
  rewrite bool_decide_true by done.
  assert (Hlast : List.last (Split (path_of dir) "/") "" = gvr_Resource gvr).
  { rewrite Hk, path_snoc, (Split_Join "/"%char), List.last_last; [done|by apply key_no_slash; rewrite <- Hk|by destruct k]. }
  rewrite plain_dir_name by by rewrite Hlast.
  assert (Hfull : filepath_Join [path_of dir; (name ++ ".yaml")%string] = path_of file)
    by (apply join_file; [done|apply layout_key_ne]).
  rewrite Hfull. assert (Hread : attempt (ReadWorktreeFile (path_of file)) d =
    (Ok (match files (tree d) !! file with Some c => inl c | None => inr (match ReadWorktreeFile (path_of file) d with (Err e, _) => e | _ => plainError "" end) end), d)).
  { unfold attempt. destruct (files (tree d) !! file) as [c|] eqn:E; [by rewrite (read_file file c d)|].
    destruct (read_missing file d Hfile E) as [e He]. by rewrite He. }
  rewrite (bind_ok _ _ _ _ _ Hread). set (existing := match _ with inl c => c | inr _ => "" end).
  assert (Hex : existing = default "" (files (tree d) !! file)) by by (unfold existing; destruct (files (tree d) !! file)).
  rewrite Hex. pose proof (transform_ok (path_of file) (default "" (files (tree d) !! file)) content d) as Ht.
  unfold bind at 1. destruct (Apply _ _ _ _ d) as [[out|e|] d1]; [|done..]. destruct Ht as [Hp Ht].
  destruct (write_in_dir dir (name ++ ".yaml") out d1) as (d2 & Hw & Ht2); [by rewrite Ht|done|by rewrite Ht|by rewrite Ht|].
  unfold bind, attempt, layout_file. unfold layout_file in *. rewrite Hw. split; [done|]. exists out. by rewrite Ht2, Ht.
Qed.

Lemma not_chart_values a : a_GVR a = gvr → name_ok (gvr_Version gvr) → transformOrNil a transform = transform.
Proof.
  intros <- (Hv & _). unfold transformOrNil. apply String.eqb_neq in Hv. rewrite Hv. by rewrite !andb_false_r.
Qed.

Definition object_artifact (content : string) : Artifact := mkArtifact gvr "" "" (Some content) "" false.

Lemma placed_by_default content d : fs_wf (tree d) → placeable gvr (tree d) →
  match DefaultWorktreeCustomizer_place params (mkArtifacts [object_artifact content] false "") transform d with
  | (Ok claimed, d') => placed_in_layout content (tree d) (tree d') claimed
  | (Err e, _) => refuses e
  | (Panic, _) => False
  end.
Proof.
  intros Hwf Hpl. destruct (construct_path d Hwf Hpl) as (d1 & Hc & Ht).
  destruct (place_ok _ Hpl) as [Hdir _]. pose proof Hpl as [Hp1 Hobj Hn Hr Hch Hfree Hnd].
  unfold DefaultWorktreeCustomizer_place. cbn [Items for_fold]. unfold place_one. unfold bind at 1.
  rewrite (bind_ok _ _ _ _ _ Hc). rewrite (not_chart_values (object_artifact content)) by (done || apply Hobj).
  assert (Hwf1 : fs_wf (tree d1)) by (rewrite Ht; by apply wf_mkdir).
  assert (Hfile : file ∉ dirs (tree d1)).
  { rewrite Ht. cbn. intros [?|Hpre%elem_of_prefixes]%elem_of_union; [done|].
    apply prefix_length in Hpre. unfold layout_file in Hpre. rewrite length_app in Hpre. cbn in Hpre. lia. }
  pose proof (write_layout content d1 Hwf1) as Hw.
  assert (Hpl1 : placeable gvr (tree d1)) by (rewrite Ht in Hfile |- *; by split).
  specialize (Hw Hpl1 ltac:(rewrite Ht; cbn; pose proof (prefixes_self dir); set_solver)).
  cbn [a_Content object_artifact]. unfold bind at 1. destruct (writeFile _ _ _ _ d1) as [[p|e|] d2]; [|done..].
  destruct Hw as (-> & out & Hprod & Ht2). rewrite Ht in Hprod, Ht2. exists out. split; [done|]. split; [done|].
  unfold claims, claim, IsDeletion. cbn. by destruct (String.eqb content "").
Qed.
End Default.

(** ** The composition *)

Section Intercepted.
Context {W D : Type} `{Cluster W, Lib, BillyLaws D, Helm, Flux W, Kustomizer D, Sops D}.
Context (gates : FeatureGates) (ord : order docCacheKey docCacheValue) (fair_ord : fair ord).
Context (params : GitPipelineParams) (root : key).

Abbreviation gvr := (gp_InterceptedGVR params).
Abbreviation content := (gp_InterceptedManifest params).
Abbreviation namespace := (sc_InterceptedNamespace (gp_Syncer params)).
Abbreviation name := (gp_InterceptedName params).
Abbreviation file := (layout_file root namespace gvr name).
Abbreviation scope := (finder_scope params).
Definition intercepted_sel : ObjectSelector := finder_sel params (object_artifact gvr content).

Context (transform : DocTransform D)
        (produces : string → string → string → string → Prop) (refuses : error → Prop).
Hypothesis transform_ok : ∀ relPath existing content d,
  match Apply transform relPath existing content d with
  | (Ok out, d') => produces relPath existing content out ∧ tree d' = tree d
  | (Err e, _) => refuses e
  | (Panic, _) => False
  end.

(** Over every copy when the finder is on and there is one, in the layout otherwise. *)
Inductive outcome (t0 t1 : fs) (claimed : ClaimedPaths) : Prop :=
  | over_copies copies : finder_on gates params = true → copies ≠ [] →
      replaced_everywhere produces intercepted_sel content t0 t1 claimed copies → outcome t0 t1 claimed
  | in_layout : (finder_on gates params = true → ∀ k, yaml_file k = true → held intercepted_sel t0 k = false) →
      placed_in_layout params root gvr produces content t0 t1 claimed → outcome t0 t1 claimed.

Lemma nothing_replaced t0 t1 claimed : replaced_everywhere produces intercepted_sel content t0 t1 claimed [] →
  t1 = t0 ∧ claimed = NewClaimedPaths ∧ ∀ k, yaml_file k = true → held intercepted_sel t0 k = false.
Proof.
  intros [_ Hc _ Ho Hd _ ->]. split_and!; [|apply claims_nil|].
  - destruct t0, t1. cbn in *. f_equal; [|done]. apply map_eq. intros k. apply Ho. set_solver.
  - intros k Hy. apply not_true_is_false. intros Hh. by apply (elem_of_nil k), Hc.
Qed.

(** A file of the layout may hold the object when nothing else does. *)
Lemma location_in_layout t0 t1 claimed c :
  (∀ k, yaml_file k = true → held intercepted_sel t0 k = false) →
  placed_in_layout params root gvr produces content t0 t1 claimed →
  location_ok intercepted_sel scope t0 c → location_ok intercepted_sel scope t1 c.
Proof.
  intros Hnone (out & _ & -> & _) Hloc p Hp. destruct (Hloc p Hp) as (k & Hk & -> & _). exists k.
  assert (Hfile : yaml_file file = true).
  { unfold layout_file. rewrite yaml_file_snoc. unfold is_yaml. by rewrite HasSuffix_append. }
  set (t1 := mkFs _ _). assert (Hsame : ∀ k', k' ≠ file → held intercepted_sel t1 k' = held intercepted_sel t0 k').
  { intros k' Hne. unfold held, t1. cbn [files]. by rewrite lookup_insert_ne. }
  assert (Hone : ∀ k', yaml_file k' = true → held intercepted_sel t1 k' = true → k' = file).
  { intros k' Hy Hh. destruct (decide (k' = file)) as [|Hne]; [done|]. by rewrite Hsame, Hnone in Hh. }
  split; [done|]. split; [done|]. intros Hh. assert (k = file) as ->; [|by auto].
  destruct (decide (k = file)) as [|Hne]; [done|]. rewrite Hsame in Hh by done.
  destruct (Hloc _ Hp) as (k' & Hk' & Heq & Hsole). apply path_of_inj in Heq as <-; [|done..].
  destruct (Hsole Hh) as [Hy _]. by rewrite Hnone in Hh.
Qed.

(** The cache of locations, when the finder maintains it. *)
Definition cache_ok (t : fs) (c : doc_cache) : Prop :=
  wf_opt c ∧ (finder_on gates params = true → location_ok intercepted_sel scope t c).

Lemma append_new claimed : AppendClaimedPaths NewClaimedPaths claimed = claimed.
Proof. by destruct claimed. Qed.

Lemma finder_run fuel dc : name_ok (gvr_Version gvr) →
  ResourceFinder_place ord fuel params (mkArtifacts [object_artifact gvr content] false "") transform dc =
  ReplaceObject ord fuel scope intercepted_sel content transform dc.
Proof.
  intros Hv. unfold ResourceFinder_place. cbn [Items for_fold]. unfold find_one, bind.
  rewrite (not_chart_values gvr transform (object_artifact gvr content)) by done.
  change (finder_sel params (object_artifact gvr content)) with intercepted_sel.
  change (Mutator.content (object_artifact gvr content)) with content.
  destruct (ReplaceObject _ _ _ _ _ _ dc) as [[[cl|]|e|] dc']; [|done..]. by destruct cl.
Qed.

Lemma placement_outcome fuel d c : fs_wf (tree d) → (∀ k, k ∈ dirs (tree d) → length k < fuel)%nat →
  cache_ok (tree d) c → placeable params root gvr (tree d) →
  match placeArtifacts gates ord fuel params (mkArtifacts [object_artifact gvr content] false "") transform (d, c) with
  | (Ok (Some claimed), (d', c')) => outcome (tree d) (tree d') claimed ∧ cache_ok (tree d') c'
  | (Err e, _) => refuses e
  | _ => False
  end.
Proof.
  intros Hwf Hfuel [Hc Hloc] Hpl. pose proof Hpl as [_ Hobj _ _ _ _ _]. unfold placeArtifacts.
  pose proof (placed_by_default params root gvr transform produces refuses transform_ok content) as Hdef.
  destruct (finder_on gates params) eqn:Hon.
  - pose proof (ReplaceObject_replaces ord fair_ord transform produces refuses transform_ok intercepted_sel content
      fuel scope d c Hwf Hfuel Hc (Hloc eq_refl)) as Hrep.
    unfold bind at 1. rewrite finder_run by apply Hobj. unfold replaces in Hrep.
    destruct (ReplaceObject _ _ _ _ _ _ _) as [[[cl|]|e|] [d1 c1]]; [|done..].
    destruct Hrep as (copies & Hre & Hc1 & Hloc1). destruct copies as [|k ks].
    + destruct (nothing_replaced _ _ _ Hre) as (Ht & -> & Hnone).
      rewrite Ht in Hloc1. specialize (Hdef d1). rewrite Ht in Hdef. specialize (Hdef Hwf Hpl).
      change (ClaimExists NewClaimedPaths) with false. cbn match. unfold bind at 1, outside.
      destruct (DefaultWorktreeCustomizer_place _ _ _ d1) as [[cl|e|] d2]; [|done..].
      cbn. rewrite append_new. split; [by apply in_layout|]. split; [done|]. intros _. by eapply location_in_layout.
    + assert (Hcl : ClaimExists cl = true).
      { rewrite (re_claims _ _ _ _ _ _ _ Hre). unfold claims. by destruct (String.eqb content ""). }
      rewrite Hcl. cbn. split; [by apply (over_copies _ _ _ (k :: ks))|]. split; [done|by intros _].
  - specialize (Hdef d Hwf Hpl). unfold bind at 1. cbn [ret]. change (ClaimExists NewClaimedPaths) with false.
    cbn match. unfold bind at 1, outside.
    destruct (DefaultWorktreeCustomizer_place _ _ _ d) as [[cl|e|] d2]; [|done..].
    cbn. rewrite append_new. split; [apply in_layout; [by rewrite Hon|done]|]. split; [done|by rewrite Hon].
Qed.

(** What a generated worktree is, from the one of the filesystem [d]. *)
Definition placement_ok (d : D) (r : result error (option ClaimedPaths) * (W * (D * doc_cache))) : Prop :=
  match r with
  | (Ok (Some claimed), (w', (d', c'))) => outcome (tree d) (tree d') claimed ∧ cache_ok (tree d') c'
  | (Err e, _) => refuses e
  | _ => False
  end.

Lemma no_provider range rc out st :
  (∀ p, p ∈ range → Enabled gates p.1 = false ∨ Handles p.2 (rc_Params rc) = false) →
  for_fold (run_provider (W := W) (D := D) gates rc) out range st = (Ok out, st).
Proof.
  induction range as [|p range IH]; intros Hno; [done|]. cbn [for_fold].
  unfold bind, run_provider. destruct (Hno p ltac:(by left)) as [-> | ->]; cbn [negb ret].
  - apply IH. set_solver.
  - destruct (negb (Enabled gates p.1)); apply IH; set_solver.
Qed.

Lemma object_placed fuel range cluster (w w1 : W) (d : D) (c : doc_cache) :
  sopsTransform gates (mkRenderContext params cluster None) (w, (d, c)) = (Ok transform, (w1, (d, c))) →
  (∀ p, p ∈ range → Enabled gates p.1 = false ∨ Handles p.2 params = false) →
  fs_wf (tree d) → (∀ k, k ∈ dirs (tree d) → length k < fuel)%nat →
  cache_ok (tree d) c → placeable params root gvr (tree d) →
  placement_ok d (GenerateFinalWorktree gates ord fuel range cluster params (w, (d, c))).
Proof.
  intros Hs Hno Hwf Hfuel Hc Hpl. unfold placement_ok, GenerateFinalWorktree. rewrite (bind_ok _ _ _ _ _ Hs).
  rewrite (bind_ok _ _ _ _ _ (no_provider range (mkRenderContext params cluster transform) _ (w1, (d, c)) Hno)).
  pose proof (placement_outcome fuel d c Hwf Hfuel Hc Hpl) as Hout.
  cbn [DenialReason String.eqb negb Items Claimed andb]. rewrite bool_decide_true by done. cbn [andb].
  change (pathless (add_artifact _ _)) with [object_artifact gvr content].
  change (with_path (add_artifact _ _)) with (@nil Artifact).
  rewrite bool_decide_false by done. unfold in_tree, in_cache, outside, bind. cbn [for_fold ret].
  destruct (placeArtifacts _ _ _ _ (mkArtifacts [object_artifact gvr content] false "") _ _)
    as [[[cl|]|e|] [d' c']] in Hout |- *; [|done..].
  cbn. by rewrite append_new.
Qed.
(** (C6) An intercepted object that no provider takes is written, transformed, over every
    manifest that holds it when the finder is on and finds one, and otherwise into its
    own file of the default layout, whose directories are made; nothing else of the
    worktree changes, what is claimed is what was written, and only the transformation
    can make it fail. The cache of locations stays one that hides no copy. *)
Theorem intercepted_object_placed fuel range cluster (w w1 : W) (d : D) (c : doc_cache) :
  sopsTransform gates (mkRenderContext params cluster None) (w, (d, c)) = (Ok transform, (w1, (d, c))) →
  (∀ p, p ∈ range → Enabled gates p.1 = false ∨ Handles p.2 params = false) →
  fs_wf (tree d) → (∀ k, k ∈ dirs (tree d) → length k < fuel)%nat →
  cache_ok (tree d) c → placeable params root gvr (tree d) →
  placement_ok d (GenerateFinalWorktree gates ord fuel range cluster params (w, (d, c))).
Proof. apply object_placed. Qed.
End Intercepted.

(** ** SOPS *)

(** The library computes in memory; only its random source may change. *)
Class SopsLaws (D : Type) `{Sops D, BillyLaws D} := {
  load_returns y p : LoadCreationRule y p ≠ Panic;
  encrypt_yaml_ok c rules ids d :
    match EncryptYAML c rules ids d with (Panic, _) => False | (_, d') => tree d' = tree d end;
  encrypt_existing_ok c e rules ids d :
    match EncryptWithExisting c e rules ids d with (Panic, _) => False | (_, d') => tree d' = tree d end }.

Section Sealed.
Context {W D : Type} `{Cluster W, Lib, BillyLaws D, Helm, Flux W, Kustomizer D}.
Context `{!Sops D, !SopsLaws D}.
Context (gates : FeatureGates) (ord : order docCacheKey docCacheValue) (fair_ord : fair ord).
Context (params : GitPipelineParams) (root : key).

Abbreviation gvr := (gp_InterceptedGVR params).
Abbreviation content := (gp_InterceptedManifest params).
Abbreviation secret_ref := (sops_SecretRef (SOPS (sc_Spec (gp_Syncer params)))).

(** What may be written at a path in place of a document: what the library made of it
    under the rule of the path, or the document itself when no rule names the path. *)
Definition sealed (sopsYAML : string) (ids : option Identities) (relPath existing doc out : string) : Prop :=
  if String.eqb doc "" then out = ""
  else match LoadCreationRule sopsYAML relPath with
       | Ok rules => ∃ d d',
           (if negb (String.eqb existing "") && bool_decide (is_Some ids)
            then EncryptWithExisting doc existing rules ids
            else EncryptYAML doc rules ids) d = (Ok (out, true), d')
       | Err e => is_ErrNoCreationRule e = true ∧ out = doc
       | Panic => False
       end.

Lemma encrypt_ok y ids relPath existing doc d :
  match Apply (Some (encrypt y ids)) relPath existing doc d with
  | (Ok out, d') => sealed y ids relPath existing doc out ∧ tree d' = tree d
  | (Err _, _) => True
  | (Panic, _) => False
  end.
Proof.
  unfold Apply, sealed, encrypt. destruct (String.eqb_spec doc ""); [done|].
  pose proof (load_returns y relPath) as Hl.
  destruct (LoadCreationRule y relPath) as [rules|e|]; [| |done].
  - set (call := if negb (String.eqb existing "") && bool_decide (is_Some ids)
        then EncryptWithExisting doc existing rules ids else EncryptYAML doc rules ids).
    assert (Hcall : match call d with (Panic, _) => False | (_, d') => tree d' = tree d end).
    { unfold call. destruct (_ && _); [apply encrypt_existing_ok|apply encrypt_yaml_ok]. }
    unfold or_wrap, attempt, bind. destruct (call d) as [[[out []]|e|] d1] eqn:E; cbn; try done.
    split; [|done]. by exists d, d1.
  - destruct (is_ErrNoCreationRule e) eqn:He; [|done]. by split.
Qed.

(** The identities are those of the secret the syncer refers to. *)
Definition identities_read (ids : option Identities) : Prop :=
  if String.eqb (ref_Name secret_ref) "" then ids = None
  else ∃ ns w w' secret i, client_Get (T := Secret) (mkNN ns (ref_Name secret_ref)) w = (Ok secret, w') ∧
         AgeIdentitiesFromSecret secret = Ok i ∧ ids = Some i.

Lemma or_wrap_ok {A S} p (m : M error S A) s a s' : or_wrap p m s = (Ok a, s') → m s = (Ok a, s').
Proof. unfold or_wrap, attempt, bind. destruct (m s) as [[b|e|] s1]; cbn; unfold ret, throw; by intros [=]; subst. Qed.

Lemma lift_ok {A S} (r : result error A) (s : S) a s' : lift r s = (Ok a, s') → r = Ok a ∧ s' = s.
Proof. unfold lift. by intros [= -> ->]. Qed.

Lemma in_cluster_ok {A} (m : M error W A) w (dc : D * doc_cache) a st :
  in_cluster m (w, dc) = (Ok a, st) → ∃ w', m w = (Ok a, w') ∧ st = (w', dc).
Proof. unfold in_cluster, outside. destruct (m w) as [r w']. intros [= -> <-]. by exists w'. Qed.

Lemma identities_ok rc w (dc : D * doc_cache) ids st : rc_Params rc = params →
  sopsIdentities rc (w, dc) = (Ok ids, st) → st.2 = dc ∧ identities_read ids.
Proof.
  intros Hrc. unfold sopsIdentities, identities_read. rewrite Hrc.
  destruct (String.eqb (ref_Name secret_ref) ""); [unfold ret; by intros [= <- <-]|].
  intros (ns & st1 & [_ ->]%lift_ok & Hr)%bind_ok_inv.
  destruct (rc_Cluster rc); cbn [negb] in Hr; [|done].
  apply bind_ok_inv in Hr as (secret & st2 & (w' & Hget & ->)%or_wrap_ok%in_cluster_ok & Hr).
  apply bind_ok_inv in Hr as (i & st3 & [Hi ->]%or_wrap_ok%lift_ok & Hr). unfold ret in Hr. simplify_eq/=.
  split; [done|]. by exists ns, w, w', secret, i.
Qed.

(** With SOPS on, the transformation is the encryption under the rules of the repository. *)
Lemma sops_ready rc w (d : D) c t st : rc_Params rc = params →
  Enabled gates SopsEncryption = true → sops_Enabled (SOPS (sc_Spec (gp_Syncer params))) = true →
  sopsTransform gates rc (w, (d, c)) = (Ok t, st) →
  st.2 = (d, c) ∧ ∃ sopsYAML ids, files (tree d) !! [sopsConfigFile] = Some sopsYAML ∧
    identities_read ids ∧ t = Some (encrypt sopsYAML ids).
Proof.
  intros Hrc Hg Hon. unfold sopsTransform. rewrite Hg, Hrc, Hon. cbn [negb orb].
  intros (y & st1 & Hy%or_wrap_ok & Hr)%bind_ok_inv.
  assert (Hok : key_ok [sopsConfigFile]) by (repeat constructor; done).
  change sopsConfigFile with (path_of [sopsConfigFile]) in Hy. unfold in_tree, in_cache, outside in Hy.
  destruct (files (tree d) !! [sopsConfigFile]) as [y0|] eqn:Ey.
  2: { destruct (read_missing [sopsConfigFile] d Hok Ey) as [e He]. by rewrite He in Hy. }
  rewrite (read_file [sopsConfigFile] y0 d Hok Ey) in Hy. simplify_eq/=.
  apply bind_ok_inv in Hr as (ids & st2 & Hi & Hr). unfold ret in Hr. simplify_eq/=.
  destruct (identities_ok _ _ _ _ _ Hrc Hi) as [Hst Hids]. split; [done|]. by exists y, ids.
Qed.

(** A file that holds a sealed document: alone, or in place of one of its documents. *)
Definition sealed_in (sopsYAML : string) (ids : option Identities) (path : string) (before : option string)
    (after : string) : Prop :=
  sealed sopsYAML ids path (default "" before) content after ∨
  ∃ old i out, before = Some old ∧ (i < length (Split old docSeparator))%nat ∧
    sealed sopsYAML ids path (nth i (Split old docSeparator) "") content out ∧
    after = end_line (Join (<[i := TrimRightNL out]> (Split old docSeparator)) docSeparator).

Lemma sops_missing rc w (d : D) c : rc_Params rc = params →
  Enabled gates SopsEncryption = true → sops_Enabled (SOPS (sc_Spec (gp_Syncer params))) = true →
  files (tree d) !! [sopsConfigFile] = None →
  ∃ e, sopsTransform gates rc (w, (d, c)) = (Err e, (w, (d, c))).
Proof.
  intros Hrc Hg Hon Hnone. unfold sopsTransform. rewrite Hg, Hrc, Hon. cbn [negb orb].
  destruct (read_missing [sopsConfigFile] d ltac:(repeat constructor; done) Hnone) as [e He].
  change (path_of [sopsConfigFile]) with sopsConfigFile in He.
  assert (Hr : in_tree (ReadWorktreeFile sopsConfigFile) (w, (d, c)) = (Err e, (w, (d, c))))
    by (unfold in_tree, in_cache, outside; by rewrite He).
  unfold or_wrap, attempt, bind. rewrite Hr. by eexists.
Qed.

Lemma sealed_outcome y ids t0 t1 claimed k after : content ≠ "" →
  outcome gates params root (sealed y ids) t0 t1 claimed →
  files t1 !! k = Some after → files t0 !! k ≠ Some after → sealed_in y ids (path_of k) (files t0 !! k) after.
Proof.
  intros Hne [copies _ _ Hre|_ (out & Hs & -> & _)] Hk Hch.
  - destruct (decide (k ∈ copies)) as [Hin|Hin]; [|by rewrite (re_other _ _ _ _ _ _ _ Hre k Hin) in Hk].
    destruct (proj1 (re_copies _ _ _ _ _ _ _ Hre k) Hin) as [_ Hh]. unfold held in Hh.
    destruct (files t0 !! k) as [old|] eqn:Hold; [|done].
    destruct (re_left _ _ _ _ _ _ _ Hre k old Hin Hold) as (out & (i & Hi & Hout) & Hleft).
    apply String.eqb_neq in Hne. rewrite Hne in Hout. destruct Hout as (t & Hs & ->).
    rewrite Hleft in Hk. unfold left_by in Hk. right. exists old, i, t. split; [done|].
    split; [by eapply index_of_lt|]. split; [done|].
    revert Hk. generalize (end_line (Join (<[i := TrimRightNL t]> (Split old docSeparator)) docSeparator)); intros out.
    destruct (String.eqb out old); [congruence|]. destruct (String.eqb (TrimSpace out) ""); congruence.
  - cbn in Hk. destruct (decide (k = layout_file root (sc_InterceptedNamespace (gp_Syncer params)) gvr
        (gp_InterceptedName params))) as [->|Hkne].
    + rewrite lookup_insert_eq in Hk. simplify_eq. by left.
    + by rewrite lookup_insert_ne in Hk.
Qed.

(** What a generated worktree holds, from the one of the filesystem [d]. *)
Definition sealed_run (d : D) (c : doc_cache) (r : result error (option ClaimedPaths) * (W * (D * doc_cache))) : Prop :=
  match r with
  | (Ok (Some claimed), (w', (d', c'))) =>
      ∃ sopsYAML ids, files (tree d) !! [sopsConfigFile] = Some sopsYAML ∧ identities_read ids ∧
        ∀ k after, files (tree d') !! k = Some after → files (tree d) !! k ≠ Some after →
          sealed_in sopsYAML ids (path_of k) (files (tree d) !! k) after
  | (Err e, (_, dc)) => files (tree d) !! [sopsConfigFile] = None → dc = (d, c)
  | (Panic, _) => True
  | (Ok None, _) => False
  end.

(** (C7) With SOPS on, the manifest of an object that no provider takes, when there is one to
    write (the content is not empty), over a worktree whose filesystem fails no operation:
    it reaches no file of the worktree in clear, unless the creation rules of the repository
    leave the path out. The file that changed is, or holds as one of its documents, what the
    library encrypted under the rule of its path. Without a [.sops.yaml] nothing is written.
    What a provider writes is not covered: [Kustomize_Render] writes its patches and its
    kustomizations as they are. *)
Theorem sops_never_cleartext fuel range cluster (w : W) (d : D) (c : doc_cache) :
  Enabled gates SopsEncryption = true → sops_Enabled (SOPS (sc_Spec (gp_Syncer params))) = true →
  (∀ p, p ∈ range → Enabled gates p.1 = false ∨ Handles p.2 params = false) →
  fs_wf (tree d) → (∀ k, k ∈ dirs (tree d) → length k < fuel)%nat →
  cache_ok gates params (tree d) c → placeable params root gvr (tree d) → content ≠ "" →
  sealed_run d c (GenerateFinalWorktree gates ord fuel range cluster params (w, (d, c))).
Proof.
  intros Hg Hon Hno Hwf Hfuel Hc Hpl Hne. unfold sealed_run.
  destruct (sopsTransform gates (mkRenderContext params cluster None) (w, (d, c))) as [[t|e|] st1] eqn:Hs.
  - destruct (sops_ready (mkRenderContext params cluster None) w d c t st1 eq_refl Hg Hon Hs) as (Hst & y & ids & Hy & Hids & ->).
    destruct st1 as [w1 dc1]. cbn in Hst. subst dc1.
    pose proof (object_placed gates ord fair_ord params root (Some (encrypt y ids)) (sealed y ids) (λ _, True)
      (encrypt_ok y ids) fuel range cluster w w1 d c Hs Hno Hwf Hfuel Hc Hpl) as Hout.
    unfold placement_ok in Hout. destruct (GenerateFinalWorktree _ _ _ _ _ _ _) as [[[cl|]|e|] [w' [d' c']]]; [|done|by rewrite Hy|done].
    destruct Hout as [Hout _]. exists y, ids. split; [done|]. split; [done|]. intros k after. by apply (sealed_outcome y ids _ _ cl).
  - unfold GenerateFinalWorktree. unfold bind at 1. rewrite Hs. destruct st1 as [w1 dc1]. intros Hnone.
    destruct (sops_missing (mkRenderContext params cluster None) w d c eq_refl Hg Hon Hnone) as [e' He']. congruence.
  - unfold GenerateFinalWorktree. unfold bind at 1. by rewrite Hs.
Qed.
End Sealed.

(** ** Two runs that surprise *)

(** The values of a Helm release and its [HelmRelease], the first one being in the worktree:
    as the finder claims it, the second one is written nowhere. *)
Definition values_doc (name body : string) : string :=
  "# " ++ (ResourceFinderCommentPrefix ++ ("team/" ++ (name ++ (nls ++ body)))).
Definition values_worktree : fs :=
  mkFs {[ ["values.yaml"] := values_doc "sh.helm.app" ("replicas: 1" ++ nls) ]} {[ [] ]}.
Definition release_artifacts : ArtifactSet :=
  mkArtifacts [chart_values demo_values; mkArtifact helmReleaseGVR "app" "team" (Some "kind: HelmRelease") "" false] false "".

Lemma unmatched_artifact_dropped :
  let params := demo_params (demo_spec true false) ∅ (mkGVR "" "v1" "secrets") "sh.helm.app" "m" "main" in
  let run := placeArtifacts (D := fs) LoadedFeatureGates demo_order 3 params release_artifacts None in
  match run (values_worktree, None) with
  | (Ok (Some claimed), (t, _)) =>
      bool_decide (cp_Add claimed = ["values.yaml"]) && bool_decide ((map_to_list (files t)).*1 = [["values.yaml"]])
  | _ => false
  end = true ∧
  match run (demo_worktree, None) with (Ok (Some claimed), _) => length (cp_Add claimed) | _ => 0%nat end = 2%nat.
Proof. split; vm_compute; reflexivity. Qed.

(** The scope of a location is the target repository and the upstream branch: two targets of
    one repository and upstream share their locations, whatever their own branches. The
    object is in one file on the branch [main], and in two on the branch [dev]: after a
    request on [main], one on [dev] rewrites one of its two copies. *)
Definition one_copy : fs := mkFs {[ ["b.yaml"] := values_doc "app" ("v: 1" ++ nls) ]} {[ [] ]}.
Definition two_copies : fs :=
  mkFs {[ ["a.yaml"] := values_doc "app" ("v: 1" ++ nls); ["b.yaml"] := values_doc "app" ("v: 1" ++ nls) ]} {[ [] ]}.

Lemma branches_share_locations :
  let request branch := find_one (D := fs) demo_order 3
    (demo_params (demo_spec true false) ∅ (mkGVR "" "" "") "app" (values_doc "app" "v: 2") branch) None
    (Some NewClaimedPaths) (object_artifact (mkGVR "" "" "") (values_doc "app" "v: 2")) in
  let cache0 := InitDocumentCache 8 in
  match request "main" (one_copy, cache0) with
  | (Ok (Some _), (_, cache)) =>
      match request "dev" (two_copies, cache0), request "dev" (two_copies, cache) with
      | (Ok (Some fresh), _), (Ok (Some hidden), (t, _)) =>
          bool_decide (cp_Add fresh = ["a.yaml"; "b.yaml"]) && bool_decide (cp_Add hidden = ["b.yaml"]) &&
          bool_decide (files t !! ["a.yaml"] = files two_copies !! ["a.yaml"])
      | _, _ => false
      end
  | _ => false
  end = true.
Proof. vm_compute. reflexivity. Qed.

(** ** Witnesses: a config map of the namespace [team] *)

#[export] Instance sim_sops_laws : SopsLaws fs.
Proof.
  split; [|by intros; cbn..]. intros y p. cbn. by destruct (HasPrefix p "public").
Qed.

Definition sops_worktree : fs := mkFs {[ [".sops.yaml"] := "rules" ]} {[ [] ]}.
Definition demo_object (sops : bool) : GitPipelineParams :=
  demo_params (demo_spec true sops) ∅ (mkGVR "" "v1" "configmaps") "app" "data: 1" "main".

Lemma flat_wf n c : name_ok n → fs_wf (mkFs {[ [n] := c ]} {[ [] ]}).
Proof.
  intros Hn. split; cbn.
  - set_solver.
  - intros k ->%elem_of_singleton. constructor.
  - intros k [c' [<- _]%lookup_singleton_Some]. split; [by constructor|]. split; [set_solver|].
    exists [], n. set_solver.
  - intros d m Hd%elem_of_singleton. by destruct d.
Qed.

Lemma demo_placeable sops n c : n ≠ "clusters" → placeable (demo_object sops) ["clusters"] (mkGVR "" "v1" "configmaps")
  (mkFs {[ [n] := c ]} {[ [] ]}).
Proof.
  intros Hn. split.
  - split; [repeat constructor; by apply name_check|done].
  - split; cbn; [split; [right; by apply name_check|done]|by left|by apply name_check..].
  - by apply name_check.
  - done.
  - done.
  - cbn [files]. intros p Hp. apply lookup_singleton_None. intros <-.
    apply elem_of_prefixes in Hp as [r Hr]. by injection Hr as <- _.
  - cbn [dirs]. set_solver.
Qed.

Lemma intercepted_object_placed_witness :
  let params := demo_object false in
  let run := GenerateFinalWorktree (W := World) LoadedFeatureGates demo_order 3 [] true params
               (world_of empty_view, (demo_worktree, None)) in
  match run.1 with
  | Ok (Some claimed) => bool_decide (cp_Add claimed = ["clusters/team/v1/configmaps/app.yaml"])
  | _ => false
  end = true ∧
  placement_ok (W := World) (D := fs) LoadedFeatureGates params ["clusters"] (λ _ _ c out, out = c) (λ _, False)
    demo_worktree run.
Proof.
  cbv zeta. split; [vm_compute; reflexivity|].
  refine (intercepted_object_placed (W := World) (D := fs) LoadedFeatureGates demo_order _ (demo_object false) ["clusters"]
    None (λ _ _ c out, out = c) (λ _, False) _ 3 [] true _ _ demo_worktree None _ _ _ _ _ _).
  - intros m. reflexivity.
  - intros p e c d. cbn. split; reflexivity.
  - reflexivity.
  - intros p Hp. by apply elem_of_nil in Hp.
  - apply flat_wf. by apply name_check.
  - intros k Hk. change (k ∈ ({[ [] ]} : gset key)) in Hk. apply elem_of_singleton in Hk as ->. cbn. lia.
  - split; [exact I|]. intros _ p Hp. discriminate Hp.
  - by apply demo_placeable.
Defined.

Lemma sops_never_cleartext_witness :
  let params := demo_object true in
  let run := GenerateFinalWorktree (W := World) LoadedFeatureGates demo_order 3 [] true params
               (world_of empty_view, (sops_worktree, None)) in
  match run.1 with
  | Ok (Some claimed) => bool_decide (cp_Add claimed = ["clusters/team/v1/configmaps/app.yaml"])
  | _ => false
  end = true ∧
  sealed_run (W := World) (D := fs) params sops_worktree None run.
Proof.
  cbv zeta. split; [vm_compute; reflexivity|].
  refine (sops_never_cleartext (W := World) (D := fs) LoadedFeatureGates demo_order _ (demo_object true) ["clusters"]
    3 [] true _ sops_worktree None _ _ _ _ _ _ _ _).
  - intros m. reflexivity.
  - reflexivity.
  - reflexivity.
  - intros p Hp. by apply elem_of_nil in Hp.
  - apply flat_wf. by apply name_check.
  - intros k Hk. change (k ∈ ({[ [] ]} : gset key)) in Hk. apply elem_of_singleton in Hk as ->. cbn. lia.
  - split; [exact I|]. intros _ p Hp. discriminate Hp.
  - by apply demo_placeable.
  - done.
Defined.
