(* ===== verification/Recorded.v ===== *)
(** * What is pushed is what was generated

    [Pusher.v] sees the generation of a worktree as one call, and [Mutator.v] is that call.
    Here both run on the same clones: a clone has a HEAD, branches, an index and a
    filesystem, the generation is the one of [Mutator.v] on that filesystem, and each call
    of go-git has the effect its documentation gives it ([git_effect]). The theorem
    [pushed_commit_records] says what the commits that are pushed contain. *)

From S2P Require Import Prelude Frame GoStr Lfu Api Errors External Sim Refs Render Feature Pipeline Validate Files Walker Mutator Claims Git Pusher.

(** ** Clones *)

Section Recorded.
Context {W D : Type} `{Cluster W, Lib, Helm, Flux W} `{BillyFrame D}.
Context `{!Sops D, !Kustomizer D, !SopsFrame D, !KustomizerFrame D, GoGit}.
Context (gates : FeatureGates) (ord : order docCacheKey docCacheValue)
  (ord_map : gmap string string → list (string * string)) (managerNamespace : string).

(** A hash names a commit: its files, and its parent. *)
Abbreviation snapshot := (key → option string).
Context (tree_of : Hash → snapshot) (parent_of : Hash → option Hash).

(** Whether fast-forward merges are made. *)
Context (merges : bool).

Inductive head :=
| OnBranch (name : string)
| Detached (h : Hash).
Record clone := mkClone { c_HEAD : head; c_refs : string → option Hash; c_index : snapshot; c_work : D }.

Definition head_hash (c : clone) : option Hash :=
  match c_HEAD c with OnBranch n => c_refs c n | Detached h => Some h end.
Definition indexed (c : clone) (b : Hash) : Prop := ∀ k, c_index c k = tree_of b k.
Definition clean (c : clone) (b : Hash) : Prop := indexed c b ∧ ∀ k, file_at (c_work c) k = tree_of b k.

(** Everything but the references that are not branches. *)
Definition local_same (c c' : clone) : Prop :=
  c_HEAD c' = c_HEAD c ∧ c_index c' = c_index c ∧ c_work c' = c_work c ∧
  ∀ b, c_refs c' (NewBranchReferenceName b) = c_refs c (NewBranchReferenceName b).

(** A refspec that writes remote-tracking references only. *)
Definition tracking (spec : string) : Prop := ∃ a b, spec = a ++ (":refs/remotes/" ++ b).

(** The commit HEAD stands for becomes [h]. *)
Definition moved (c c' : clone) (h : Hash) : Prop :=
  match c_HEAD c with
  | OnBranch n => c_HEAD c' = OnBranch n ∧ c_refs c' n = Some h ∧
      ∀ b, NewBranchReferenceName b ≠ n → c_refs c' (NewBranchReferenceName b) = c_refs c (NewBranchReferenceName b)
  | Detached _ => c_HEAD c' = Detached h ∧ ∀ b, c_refs c' (NewBranchReferenceName b) = c_refs c (NewBranchReferenceName b)
  end.

(** The worktree follows the index, from a clean one. *)
Definition checked_out (c c' : clone) (h : Hash) : Prop :=
  indexed c' h ∧ ∀ b, clean c b → clean c' h.

(** ** go-git, as documented

    What is left of a clone by a call with an answer. After a failure nothing is known of
    it, the failures the code goes on after excepted. *)
Definition git_effect {X} (g : git X) (c : clone) : X → clone → Prop :=
  match g in git X return X → clone → Prop with
  | Fetch o => λ _ c', Forall tracking (fo_RefSpecs o) → local_same c c'
  | Reference_ n => λ x c', c' = c ∧
      match x with inl r => c_refs c (ref_name r) = Some (ref_hash r) | inr _ => True end
  | SetReference r => λ x c', x = None →
      c_HEAD c' = c_HEAD c ∧ c_index c' = c_index c ∧ c_work c' = c_work c ∧
      ∀ n, c_refs c' n = if decide (n = ref_name r) then Some (ref_hash r) else c_refs c n
  | RemoveReference m => λ x c', x = None →
      c_HEAD c' = c_HEAD c ∧ c_index c' = c_index c ∧ c_work c' = c_work c ∧
      ∀ n, c_refs c' n = if decide (n = m) then None else c_refs c n
  | Checkout (CheckoutBranch b create _) => λ x c', x = None →
      c_HEAD c' = OnBranch b ∧ (∀ n, c_refs c' n = if decide (create = true ∧ n = b) then head_hash c else c_refs c n) ∧
      ∃ h, c_refs c' b = Some h ∧ checked_out c c' h
  | Checkout (CheckoutHash h) => λ x c', x = None →
      c_HEAD c' = Detached h ∧ (∀ n, c_refs c' n = c_refs c n) ∧ checked_out c c' h
  | HardReset h => λ x c', x = None → moved c c' h ∧ indexed c' h ∧
      ∀ k, match tree_of h k, c_index c k with
           | Some s, _ => file_at (c_work c') k = Some s
           | None, Some _ => file_at (c_work c') k = None
           | None, None => file_at (c_work c') k = file_at (c_work c) k ∨ file_at (c_work c') k = None
           end
  | Clean => λ x c', x = None →
      c_HEAD c' = c_HEAD c ∧ c_refs c' = c_refs c ∧ c_index c' = c_index c ∧
      ∀ k, file_at (c_work c') k = match c_index c k with Some _ => file_at (c_work c) k | None => None end
  | Pull _ => λ x c',
      match x.2 with
      | None => ∃ h, moved c c' h ∧ checked_out c c' h
      | Some e => is_same e NoErrAlreadyUpToDate || Contains (ge_msg e) "reference not found" = true → local_same c c'
      end
  | MergeFastForward r => λ x c', x = None →
      merges = true ∧ moved c c' (ref_hash r) ∧ c_index c' = c_index c ∧ c_work c' = c_work c
  | Add_ p => λ x c', x = None →
      c_HEAD c' = c_HEAD c ∧ c_refs c' = c_refs c ∧ c_work c' = c_work c ∧
      c_index c' (named p) = file_at (c_work c) (named p) ∧
      ∀ k, c_index c' k = c_index c k ∨ (named p `prefix_of` k ∧ c_index c' k = file_at (c_work c) k)
  | Remove p => λ x c',
      match x with
      | None => c_HEAD c' = c_HEAD c ∧ c_refs c' = c_refs c ∧ c_index c' (named p) = None ∧
          ∀ k, c_index c' k = c_index c k ∨ (named p `prefix_of` k ∧ c_index c' k = None)
      | Some e => Contains (ge_msg e) "entry not found" = true → c' = c ∧ c_index c (named p) = None
      end
  | Commit_ _ _ _ _ => λ x c',
      match x with
      | inl h => (∀ k, tree_of h k = c_index c k) ∧ parent_of h = head_hash c ∧ moved c c' h ∧
          c_index c' = c_index c ∧ c_work c' = c_work c
      | inr e => isErrorSkipable e = true → c' = c ∧ ∀ b, head_hash c = Some b → indexed c b
      end
  | Head => λ x c', c' = c ∧ match x with inl r => head_hash c = Some (ref_hash r) | inr _ => True end
  | CommitObject h => λ x c', c' = c ∧ match x with inl h' => h' = h | inr _ => True end
  | Branches | Remote _ | CreateRemote _ _ | DeleteRemote _ | Worktree | Log _ | Push_ _ => λ _ c', c' = c
  end.

(** ** The clones of a request

    [s_owner r]: [r] is used by the request, and by which lease. What the request does not
    use is at the disposal of the others, and between two calls it may change. *)
Record sending := mkSending {
  sn_event : push_event;                 (** the clone, the options and the answer *)
  sn_refs : string → option Hash }.      (** the references the push was read from *)
Record side := mkSide {
  s_clone : repo → clone;
  s_owner : repo → option (option nat);
  s_sent : list sending }.

Definition owned (s : side) (r : repo) : Prop := s_owner s r ≠ None.
Definition leased (s : side) (h : handle) (r : repo) : Prop := s_owner s r = Some (Some (h_addr h)).
#[local] Instance leased_dec s h r : Decision (leased s h r).
Proof. unfold leased. apply _. Defined.

(** What is used stays as it was, except for one clone. *)
Definition same_but (except : repo → Prop) (s s' : side) : Prop :=
  ∀ r, ¬ except r → owned s r → s_clone s' r = s_clone s r.
Definition none (r : repo) : Prop := False.

Definition owners (s s' : side) (f : repo → option (option nat)) : Prop :=
  same_but none s s' ∧ s_sent s' = s_sent s ∧ ∀ r, s_owner s' r = f r.

(** A generation of [Mutator.v] on the filesystem of the clone. *)
Definition generated_by (p : GitPipelineParams) (d : D) (x : ClaimedPaths + error) (d' : D) : Prop :=
  ∃ fuel range cluster (w : W) dc w' dc' out,
    range ≡ₚ providerGate gates ord_map managerNamespace ∧
    GenerateFinalWorktree gates ord fuel range cluster p (w, (d, dc)) = (out, (w', (d', dc'))) ∧
    match x with inl claimed => out = Ok (Some claimed) | inr e => out = Err e end.

Definition side_effect (X : Type) (s : side) (c : call X) : X → side → Prop :=
  match c in call X return X → side → Prop with
  | Lock h => λ _ s', (∀ r, ¬ leased s h r) ∧ owners s s' (s_owner s)
  | Unlock h => λ _ s', owners s s' (λ r, if decide (leased s h r) then None else s_owner s r)
  | ReadRepo h => λ x s', (∀ r, leased s h r → x = Some r) ∧
      match x with
      | Some r => (s_owner s r = None ∨ leased s h r) ∧
          owners s s' (λ r', if decide (r' = r) then Some (Some (h_addr h)) else s_owner s r')
      | None => owners s s' (s_owner s)
      end
  | WriteRepo h r => λ _ s', owners s s' (λ r',
      if decide (r' = r) then Some (Some (h_addr h)) else if decide (leased s h r') then Some None else s_owner s r')
  | CloneC o => λ x s',
      match x.2 with
      | inl r => s_owner s r = None ∧ owners s s' (λ r', if decide (r' = r) then Some None else s_owner s r') ∧
          c_HEAD (s_clone s' r) = OnBranch (NewBranchReferenceName (co_ReferenceName o)) ∧
          ∃ b, head_hash (s_clone s' r) = Some b ∧ clean (s_clone s' r) b
      | inr _ => owners s s' (s_owner s)
      end
  | GitC r g => λ x s', same_but (λ r', r' = r) s s' ∧ (∀ r', s_owner s' r' = s_owner s r') ∧
      git_effect g (s_clone s r) x (s_clone s' r) ∧
      s_sent s' = (s_sent s ++ map (λ e, mkSending e (c_refs (s_clone s r))) (pushed (GitC r g) x))%list
  | GenerateFinalWorktreeC p r => λ x s', same_but (λ r', r' = r) s s' ∧ (∀ r', s_owner s' r' = s_owner s r') ∧
      s_sent s' = s_sent s ∧ ∃ d', generated_by p (c_work (s_clone s r)) x d' ∧
      s_clone s' r = mkClone (c_HEAD (s_clone s r)) (c_refs (s_clone s r)) (c_index (s_clone s r)) d'
  | LoadOrStoreC _ | DeleteC _ | Now => λ _ s', owners s s' (s_owner s)
  end.

(** ** A logic for one clone *)

Abbreviation wfs := (wf free side_effect).
Definition on_ok {S A} (Q : S → A → Prop) (s : S) (r : result error A) : Prop :=
  match r with Ok a => Q s a | _ => True end.

(** The step of a program on one clone only. *)
Definition on_clone (r : repo) (s s' : side) : Prop :=
  same_but (λ r', r' = r) s s' ∧ (∀ r', s_owner s' r' = s_owner s r') ∧ s_sent s' = s_sent s.
Definition solo {A} (r : repo) (c : clone) (m : prog call A) (Q : clone → A → Prop) : Prop :=
  ∀ s, s_clone s r = c → owned s r → wfs s m (λ s' a, on_clone r s s' ∧ Q (s_clone s' r) a).

Lemma on_clone_refl r s : on_clone r s s.
Proof. by split_and!. Qed.
Lemma on_clone_owned r s s' r' : on_clone r s s' → owned s r' → owned s' r'.
Proof. intros (_ & Ho & _) Hu. unfold owned. by rewrite Ho. Qed.
Lemma on_clone_trans r s s1 s2 : on_clone r s s1 → on_clone r s1 s2 → on_clone r s s2.
Proof.
  intros Hs Hs1. pose proof (on_clone_owned r s s1) as Hu. destruct Hs as (Hc & Ho & Hs), Hs1 as (Hc1 & Ho1 & Hs1).
  split_and!; [|congruence|congruence]. intros r' Hr Hr'. rewrite Hc1 by (try done; by apply Hu). by apply Hc.
Qed.

Lemma solo_ret {A} r c (a : A) Q : Q c a → solo r c (Ret a) Q.
Proof. intros HQ s <- _. split; [apply on_clone_refl|done]. Qed.

Lemma solo_mono {A} r c (m : prog call A) (Q Q' : clone → A → Prop) :
  solo r c m Q → (∀ c' a, Q c' a → Q' c' a) → solo r c m Q'.
Proof. intros Hm HQ s Hs Ho. eapply wf_mono; [|by apply Hm]. intros s' a [? ?]. auto. Qed.

Lemma solo_bind {A B} r c (m : prog call A) (f : A → prog call B) (Q : clone → A → Prop) Q' :
  solo r c m Q → (∀ c' a, Q c' a → solo r c' (f a) Q') → solo r c (pbind m f) Q'.
Proof.
  intros Hm Hf s Hs Ho. eapply wf_bind_mono; [by apply Hm|]. intros s1 a [Hs1 Ha].
  eapply wf_mono; [|exact (Hf _ _ Ha s1 eq_refl (on_clone_owned _ _ _ _ Hs1 Ho))].
  intros s2 b [Hs2 Hb]. split; [by eapply on_clone_trans|done].
Qed.

Lemma solo_now {B} r c (f : Z → prog call B) Q : (∀ t, solo r c (f t) Q) → solo r c (pbind (do_call Now) f) Q.
Proof.
  intros Hf. apply (solo_bind _ _ _ _ (λ c' _, c' = c)); [|intros c' t ->; apply Hf].
  intros s <- Ho. split; [done|]. intros t s' (Hc & Hs & Hw). split; [|apply Hc; [by intros []|done]].
  split_and!; [|done|done]. intros r' _ Hr'. apply Hc; [by intros []|done].
Qed.

Definition is_push {X} (g : git X) : bool := match g with Push_ _ => true | _ => false end.

Lemma solo_git {X B} r c (g : git X) (f : X → prog call B) Q : is_push g = false →
  (∀ x c', git_effect g c x c' → solo r c' (f x) Q) → solo r c (pbind (on r g) f) Q.
Proof.
  intros Hg Hf. apply (solo_bind _ _ _ _ (λ c' x, git_effect g c x c')); [|auto].
  intros s <- Ho. split; [done|]. intros x s' (Hc & Hw & He & Hs). split; [|done].
  split_and!; [done|done|]. rewrite Hs. destruct g; try done; cbn; by rewrite app_nil_r.
Qed.

Lemma solo_or_return {A B} r c (g : git (A + git_error)) w (k : A → P B) Q : is_push g = false →
  (∀ a c', git_effect g c (inl a) c' → solo r c' (k a) (on_ok Q)) → solo r c (or_return (on r g) w k) (on_ok Q).
Proof. intros Hg Hk. apply solo_git; [done|]. intros [a|e] c' He; [auto|by apply solo_ret]. Qed.

Lemma solo_unless_error {B} r c (g : git (option git_error)) w (k : P B) Q : is_push g = false →
  (∀ c', git_effect g c None c' → solo r c' k (on_ok Q)) → solo r c (unless_error (on r g) w k) (on_ok Q).
Proof. intros Hg Hk. apply solo_git; [done|]. intros [e|] c' He; [by apply solo_ret|auto]. Qed.

Lemma solo_and_then {A B} r c (m : P A) (k : A → P B) Q Q' :
  solo r c m (on_ok Q) → (∀ c' a, Q c' a → solo r c' (k a) (on_ok Q')) → solo r c (and_then m k) (on_ok Q').
Proof.
  intros Hm Hk. eapply solo_bind; [exact Hm|]. intros c' [a|e|] Ha; [by apply Hk|by apply solo_ret..].
Qed.

(** ** The state of a clone, through the pipeline *)

Definition on_branch (c : clone) (b : string) : Prop := c_HEAD c = OnBranch (NewBranchReferenceName b).
(** HEAD, index and worktree agree. *)
Definition fresh (c : clone) : Prop := ∃ b, head_hash c = Some b ∧ clean c b.

Lemma local_same_fresh c c' b : local_same c c' → on_branch c b → fresh c → on_branch c' b ∧ fresh c'.
Proof.
  intros (Hh & Hi & Hw & Hr) Hb (h & Hc & Hn & Hk). unfold on_branch, fresh, clean, indexed, head_hash in *.
  rewrite Hh, Hi, Hw, Hb in *. split; [done|]. exists h. by rewrite Hr.
Qed.

(** *** [repository.go] *)

Lemma remove_branches_solo r c b names : on_branch c b → fresh c →
  Forall (λ n, n ≠ NewBranchReferenceName b) names → ∀ k Q,
  (∀ c', on_branch c' b → fresh c' → solo r c' k (on_ok Q)) → solo r c (remove_branches r names k) (on_ok Q).
Proof.
  intros Hb Hf Hn k Q Hk. revert c Hb Hf. induction Hn as [|n names Hn _ IH]; intros c Hb Hf; cbn [remove_branches]; [auto|].
  apply solo_unless_error; [done|]. intros c' He. destruct (He eq_refl) as (Hh & Hi & Hw & Hr). apply IH.
  - unfold on_branch. by rewrite Hh.
  - destruct Hf as (h & Hc & Hcl). exists h. unfold head_hash, clean, indexed in *. rewrite Hh, Hi, Hw, Hb in *.
    by rewrite Hr, decide_False.
Qed.

Lemma refresh_solo r c q : solo r c (refreshRepository r q) (on_ok (λ c' _, on_branch c' (gr_Branch q) ∧ fresh c')).
Proof.
  unfold refreshRepository. cbv zeta. apply solo_git; [done|]. intros [progress e] c1 _.
  assert (Hgo : ∀ k : P unit, (∀ c1, solo r c1 k (on_ok (λ c' _, on_branch c' (gr_Branch q) ∧ fresh c'))) →
    ∀ w, solo r c1 (unless_new e w k) (on_ok (λ c' _, on_branch c' (gr_Branch q) ∧ fresh c'))).
  { intros k Hk w. unfold unless_new. destruct e as [e|]; [|auto]. destruct (is_same e _); [auto|by apply solo_ret]. }
  apply Hgo. clear c1 Hgo. intros c1.
  apply solo_or_return; [done|]. intros remoteRef c2 _. apply solo_unless_error; [done|]. intros c3 _.
  apply solo_unless_error; [done|]. intros c4 _. apply solo_unless_error; [done|]. intros c5 He5.
  destruct (He5 eq_refl) as (Hb5 & _ & _). apply solo_unless_error; [done|]. intros c6 He6.
  destruct (He6 eq_refl) as (Hm6 & Hi6 & Hw6). apply solo_unless_error; [done|]. intros c7 He7.
  destruct (He7 eq_refl) as (Hb7 & Hr7 & Hi7 & Hw7). unfold moved in Hm6. rewrite Hb5 in Hm6. destruct Hm6 as (Hb6 & Hr6 & _).
  assert (Hon : on_branch c7 (gr_Branch q)) by (unfold on_branch; congruence).
  assert (Hf : fresh c7).
  { exists (ref_hash remoteRef). unfold head_hash, clean, indexed. rewrite Hb7, Hb6, Hr7, Hi7. split_and!; [done..|].
    intros k. rewrite Hw7. specialize (Hw6 k). specialize (Hi6 k). rewrite Hi6.
    destruct (tree_of _ k) as [x|]; [|done]. exact Hw6. }
  unfold pruneStaleState. apply solo_or_return; [done|]. intros branches c8 ->.
  apply (remove_branches_solo _ _ (gr_Branch q)); [done|done| |].
  - apply Forall_forall. intros n Hn. apply list_elem_of_In, filter_In in Hn as [_ Hn].
    by apply negb_true_iff, String.eqb_neq in Hn.
  - intros c9 Hb9 Hf9. apply solo_git; [done|]. intros [e'|] c10 ->; [destruct (is_same e' _)|]; by apply solo_ret.
Qed.
(** *** [worktree.go] *)

Definition tidy (c : clone) : Prop := ∃ b, clean c b.
(** HEAD is on [T]; the index was read from [b], which HEAD stands for unless a merge moved it. *)
Definition prepared (T : string) (pristine : Prop) (c : clone) : Prop :=
  on_branch c T ∧ ∃ b top, indexed c b ∧ head_hash c = Some top ∧ (merges = false → top = b) ∧ (pristine → clean c b).

Lemma local_same_tidy c c' : local_same c c' → tidy c → tidy c'.
Proof. intros (_ & Hi & Hw & _) [b Hb]. exists b. unfold clean, indexed in *. by rewrite Hi, Hw. Qed.

Lemma checked_prepared T pristine c c' h : on_branch c' T → head_hash c' = Some h → checked_out c c' h →
  (pristine → tidy c) → prepared T pristine c'.
Proof.
  intros Hb Hh [Hi Hc] Hp. split; [done|]. exists h, h. split_and!; [done..|]. intros Hpr. destruct (Hp Hpr) as [b Hb'].
  by eapply Hc.
Qed.

Lemma fetch_solo p r c : solo r c (fetchUpstream p r) (on_ok (λ c' _, local_same c c')).
Proof.
  assert (Hfetch : ∀ c, solo r c ('(progress, e) ⟵ on r (Fetch (mkFetchOptions upstreamRemote (RemoteRepository (sc_Spec (gp_Syncer p)))
      (gp_auth p) ["+refs/heads/*:refs/remotes/origin/*"; "+refs/heads/*:refs/remotes/upstream/*"]
      (gp_insecure p) false (gp_CABundle p)));;
    unless_new e (plain "failed to fetch remote: " (nls ++ ("Verbose output: " ++ (progress ++ (nls ++
      ("Variables: " ++ (nls ++ (line "Repository: " (RemoteRepository (sc_Spec (gp_Syncer p))) ++ user_lines p))))))))
      (Ret (Ok tt))) (on_ok (λ c' _, local_same c c'))).
  { intros c0. apply solo_git; [done|]. intros [progress e] c' He. unfold unless_new.
    assert (Hl : local_same c0 c').
    { apply He. repeat constructor; exists "+refs/heads/*"; by eexists. }
    destruct e as [e|]; [destruct (is_same e _)|]; by apply solo_ret. }
  unfold fetchUpstream. cbv zeta. apply solo_git; [done|]. intros [e|] c' ->; [|apply Hfetch].
  destruct (is_same e _); [|by apply solo_ret]. apply solo_unless_error; [done|]. intros c2 ->. apply Hfetch.
Qed.

Lemma checkout_solo r c T : solo r c (checkoutToBranch r T) (on_ok (λ c' _, prepared T (tidy c) c')).
Proof.
  unfold checkoutToBranch. cbv zeta.
  assert (Hco : ∀ c1, (tidy c → tidy c1) → solo r c1 (unless_error (on r (Checkout (CheckoutBranch (NewBranchReferenceName T) false false)))
    (wrap ("failed to checkout branch " ++ (T ++ ": "))) (Ret (Ok tt))) (on_ok (λ c' _, prepared T (tidy c) c'))).
  { intros c1 Hp. apply solo_unless_error; [done|]. intros c2 He. destruct (He eq_refl) as (Hb & _ & h & Hh & Hc).
    apply solo_ret. eapply checked_prepared; [exact Hb| |exact Hc|exact Hp]. unfold head_hash. by rewrite Hb. }
  apply solo_git; [done|]. intros [ref|e] c' [-> _]; [by apply Hco|]. destruct (is_same e _); [|by apply solo_ret].
  apply solo_unless_error; [done|]. intros c2 He. apply Hco. intros [b Hb].
  destruct (He eq_refl) as (_ & _ & h & _ & [_ Hc]). exists h. by eapply Hc.
Qed.

Lemma hard_reset_clean h c c' : indexed c' h →
  (∀ k, match tree_of h k, c_index c k with
        | Some s, _ => file_at (c_work c') k = Some s
        | None, Some _ => file_at (c_work c') k = None
        | None, None => file_at (c_work c') k = file_at (c_work c) k ∨ file_at (c_work c') k = None
        end) → tidy c → clean c' h.
Proof.
  intros Hi Hw [b [Hb Hk]]. split; [done|]. intros k. specialize (Hw k).
  destruct (tree_of h k) as [x|]; [done|]. specialize (Hk k). rewrite <- Hb in Hk.
  destruct (c_index c k); [done|]. destruct Hw as [->|]; done.
Qed.

Lemma reset_solo p r c : let T := TargetBranch (rt_Spec (gp_RemoteTarget p)) in
  solo r c (upstreamBasedHardReset p r) (on_ok (λ c' wt, wt = r ∧ prepared T (tidy c) c')).
Proof.
  unfold upstreamBasedHardReset. cbv zeta. eapply solo_and_then; [apply fetch_solo|]. intros c1 [] Hl.
  pose proof (local_same_tidy _ _ Hl) as Ht1.
  apply solo_unless_error; [done|]. intros c2 ->. apply solo_or_return; [done|]. intros ref c3 [-> _].
  apply solo_unless_error; [done|]. intros c4 He4. destruct (He4 eq_refl) as (_ & _ & _ & Hc4).
  apply solo_unless_error; [done|]. intros c5 He5. destruct (He5 eq_refl) as (_ & Hi5 & Hw5 & _).
  assert (Ht5 : tidy c → tidy c5).
  { intros Ht. destruct (Ht1 Ht) as [b Hb]. exists (ref_hash ref). unfold clean, indexed. rewrite Hi5, Hw5. by eapply Hc4. }
  eapply solo_and_then; [apply checkout_solo|]. intros c6 [] (Hb6 & b & top & Hi6 & _ & _ & Hc6).
  apply solo_unless_error; [done|]. intros c7 He7. destruct (He7 eq_refl) as (Hm7 & Hi7 & Hw7).
  unfold moved in Hm7. rewrite Hb6 in Hm7. destruct Hm7 as (Hb7 & Hr7 & _).
  apply solo_ret. split; [done|]. split; [done|]. exists (ref_hash ref), (ref_hash ref). split_and!; [done| |done|].
  - unfold head_hash. by rewrite Hb7.
  - intros Ht. eapply hard_reset_clean; [done|exact Hw7|]. exists b. by apply Hc6, Ht5.
Qed.

Lemma merge_solo p r c pristine : let T := TargetBranch (rt_Spec (gp_RemoteTarget p)) in
  prepared T pristine c → solo r c (merge_upstream p r) (on_ok (λ c' wt, wt = r ∧ prepared T pristine c')).
Proof.
  intros T (Hb & b & top & Hi & Hh & Ht & Hc). unfold merge_upstream. cbv zeta.
  apply solo_or_return; [done|]. intros targetRef c1 [-> Href]. apply solo_unless_error; [done|]. intros c2 He2.
  destruct (He2 eq_refl) as (Hb2 & Hi2 & Hw2 & Hr2).
  assert (Hh2 : head_hash c2 = Some top).
  { unfold head_hash in *. rewrite Hb2, Hb in *. rewrite Hr2. destruct (decide _) as [E|]; [|done]. congruence. }
  assert (Hc2 : pristine → clean c2 b) by (unfold clean, indexed; rewrite Hi2, Hw2; exact Hc).
  assert (Hi2' : indexed c2 b) by (unfold indexed; by rewrite Hi2).
  assert (Hb2' : on_branch c2 T) by (unfold on_branch; by rewrite Hb2).
  clear Hi2 Hw2 Hr2 He2. apply solo_or_return; [done|]. intros upstreamRef c3 [-> _].
  eapply (solo_bind _ _ _ _ (λ c' _, c' = c2)).
  { unfold doesBranchContainsCommit. apply solo_git; [done|]. intros [l|e] c' ->; by apply solo_ret. }
  intros c3 [[|]|e|] ->; [| |by apply solo_ret..].
  { apply solo_ret. split; [done|]. split; [done|]. by exists b, top. }
  apply solo_unless_error; [done|]. intros c4 He4. destruct (He4 eq_refl) as (Hmerge & Hm4 & Hi4 & Hw4).
  unfold moved in Hm4. rewrite Hb2' in Hm4. destruct Hm4 as (Hb4 & Hr4 & _).
  apply solo_unless_error; [done|]. intros c5 ->. apply solo_ret. split; [done|]. split; [done|].
  exists b, (ref_hash upstreamRef). split_and!; [by unfold indexed; rewrite Hi4| |congruence|].
  - unfold head_hash. by rewrite Hb4.
  - unfold clean, indexed. by rewrite Hi4, Hw4.
Qed.
Lemma prepared_more T (P P' : Prop) c : (P' → P) → prepared T P c → prepared T P' c.
Proof. intros HP (Hb & b & top & Hi & Hh & Ht & Hc). split; [done|]. exists b, top. split_and!; auto. Qed.

Lemma local_same_prepared T P c c' : local_same c c' → prepared T P c → prepared T P c'.
Proof.
  intros (Hh & Hi & Hw & Hr) (Hb & b & top & Hib & Htop & Ht & Hc). unfold prepared, on_branch, head_hash, clean, indexed in *.
  rewrite Hh, Hi, Hw. split; [done|]. exists b, top. rewrite Hb in *. by rewrite Hr.
Qed.

Lemma pull_prepared T P o c x c' : prepared T P c → git_effect (Pull o) c x c' →
  match x.2 with Some e => is_same e NoErrAlreadyUpToDate || Contains (ge_msg e) "reference not found" = true | None => True end →
  prepared T P c'.
Proof.
  intros Hp He Hx. cbn in He. destruct x as [progress [e|]]; cbn in *.
  - eapply local_same_prepared; [by apply He|done].
  - destruct He as (h & Hm & Hc). pose proof Hp as (Hb & b & top & _ & _ & _ & Hcl). unfold moved in Hm. rewrite Hb in Hm.
    destruct Hm as (Hb' & Hr' & _). eapply checked_prepared; [exact Hb'| |exact Hc|].
    + unfold head_hash. by rewrite Hb'.
    + intros HP. exists b. by apply Hcl.
Qed.

Lemma fast_forward_solo p r c : let T := TargetBranch (rt_Spec (gp_RemoteTarget p)) in
  solo r c (upstreamBasedPullFastForward p r) (on_ok (λ c' wt, wt = r ∧ prepared T (tidy c) c')).
Proof.
  unfold upstreamBasedPullFastForward. cbv zeta. eapply solo_and_then; [apply fetch_solo|]. intros c1 [] Hl.
  pose proof (local_same_tidy _ _ Hl) as Ht1. apply solo_unless_error; [done|]. intros c2 ->.
  eapply solo_and_then; [apply checkout_solo|]. intros c3 [] Hp3. cbn in Hp3. apply (prepared_more _ _ (tidy c)) in Hp3; [|done].
  apply solo_git; [done|]. intros [progress e] c4 He4. unfold unless_new.
  assert (Hgo : match e with Some e => is_same e NoErrAlreadyUpToDate = true | None => True end →
    solo r c4 ('(progress2, e2) ⟵ on r (Pull (pull_options p originRemote (TargetBranch (rt_Spec (gp_RemoteTarget p)))));;
      match e2 with
      | Some e =>
          if is_same e NoErrAlreadyUpToDate || Contains (ge_msg e) "reference not found" then merge_upstream p r
          else Ret (Err (plain "failed to pull target remote: " (pull_variables p (progress ++ progress2)) e))
      | None => merge_upstream p r
      end) (on_ok (λ c' wt, wt = r ∧ prepared (TargetBranch (rt_Spec (gp_RemoteTarget p))) (tidy c) c'))).
  { intros He. eapply pull_prepared in Hp3; [|exact He4|by destruct e as [e|]; [cbn; rewrite He|]].
    apply solo_git; [done|]. intros [progress2 e2] c5 He5. pose proof (pull_prepared _ _ _ _ _ _ Hp3 He5) as Hp5. cbn in Hp5.
    destruct e2 as [e2|]; [|by apply merge_solo, Hp5]. destruct (_ || _); [by apply merge_solo, Hp5|by apply solo_ret]. }
  destruct e as [e|]; [destruct (is_same e _) eqn:E; [by apply Hgo|by apply solo_ret]|by apply Hgo].
Qed.
(** After a failed fast-forward, what untracked files it left is not known. *)
Definition pristine (p : GitPipelineParams) : Prop :=
  MergeStrategy (rt_Spec (gp_RemoteTarget p)) ≠ TryFastForwardOrHardReset.

Lemma worktree_solo p r u c : let rt := rt_Spec (gp_RemoteTarget p) in
  on_branch c (UpstreamBranch rt) → fresh c → (MergeStrategy rt = "" → UpstreamBranch rt = TargetBranch rt) →
  solo r c (GetWorkTree p r u) (on_ok (λ c' '(wt, _), wt = r ∧ prepared (TargetBranch rt) (pristine p) c')).
Proof.
  intros rt Hb Hf Hdirect. unfold GetWorkTree. cbv zeta. fold rt.
  assert (Ht : tidy c) by (destruct Hf as (b & _ & Hc); by exists b).
  destruct (Nat.eqb r u && String.eqb (MergeStrategy rt) "") eqn:E.
  { apply andb_true_iff in E as [_ E]. apply String.eqb_eq in E. apply solo_unless_error; [done|]. intros c' ->.
    apply solo_ret. split; [done|]. split; [by rewrite <- (Hdirect E)|]. destruct Hf as (b & Hh & Hc). exists b, b.
    split_and!; [apply Hc|done..]. }
  destruct (String.eqb_spec (MergeStrategy rt) TryFastForwardOrHardReset) as [E2|_].
  { assert (Hp : ∀ P c', prepared (TargetBranch rt) P c' → prepared (TargetBranch rt) (pristine p) c').
    { intros P c'. apply prepared_more. intros Hn. by destruct Hn. }
    eapply solo_bind; [apply fast_forward_solo|]. intros c1 [wt|e|] Hr; [|clear Hr|by apply solo_ret].
    - destruct Hr as [-> Hr]. apply solo_ret. split; [done|]. by eapply Hp.
    - eapply solo_and_then; [apply reset_solo|]. intros c2 wt [-> Hr]. apply solo_ret. split; [done|]. by eapply Hp. }
  destruct (String.eqb (MergeStrategy rt) TryHardResetOrDie).
  { eapply solo_and_then; [apply reset_solo|]. intros c2 wt [-> Hr]. apply solo_ret. split; [done|].
    by apply (prepared_more _ (tidy c)). }
  destruct (String.eqb (MergeStrategy rt) TryFastForwardOrDie); [|by apply solo_ret].
  eapply solo_and_then; [apply fast_forward_solo|]. intros c2 wt [-> Hr]. apply solo_ret. split; [done|].
  by apply (prepared_more _ (tidy c)).
Qed.

(** *** [commit.go] *)

(** [k] is named by one of the paths; it is one of the files they name, or below. *)
Definition among (ps : list string) (k : key) : Prop := ∃ p, p ∈ ps ∧ named p = k.
Definition below (ps : list string) (k : key) : Prop := ∃ p, p ∈ ps ∧ named p `prefix_of` k.

(** The content of a commit: what was claimed to be added as it is in the worktree, nothing
    of what was claimed to be deleted, and the rest of [base]. *)
Definition recorded (base : Hash) (d : D) (claimed : ClaimedPaths) (tree : snapshot) : Prop := ∀ k,
  (among (cp_Delete claimed) k → tree k = None) ∧
  (among (cp_Add claimed) k → ¬ below (cp_Delete claimed) k → tree k = file_at d k) ∧
  (¬ below (Claims.paths claimed) k → tree k = tree_of base k) ∧
  (¬ below (cp_Delete claimed) k → tree k = tree_of base k ∨ tree k = file_at d k).

Definition staged (c c' : clone) (adds : list string) : Prop :=
  c_HEAD c' = c_HEAD c ∧ c_refs c' = c_refs c ∧ c_work c' = c_work c ∧
  (∀ k, among adds k → c_index c' k = file_at (c_work c) k) ∧
  ∀ k, c_index c' k = c_index c k ∨ (below adds k ∧ c_index c' k = file_at (c_work c) k).

Lemma adds_solo r c adds (k : P Hash) Q : (∀ c', staged c c' adds → solo r c' k (on_ok Q)) →
  solo r c (stage_adds r adds k) (on_ok Q).
Proof.
  revert c; induction adds as [|p adds IH]; intros c Hk; cbn [stage_adds].
  { apply Hk. split_and!; [done..| |by left]. by intros x (p & Hp%not_elem_of_nil & _). }
  apply solo_unless_error; [done|]. intros c1 He. destruct (He eq_refl) as (Hh & Hr & Hw & Hp & Hi).
  apply IH. intros c2 (Hh2 & Hr2 & Hw2 & Ha2 & Hi2). apply Hk. rewrite Hw in *. split_and!; [congruence..| |].
  - intros x (q & Hq & <-). destruct (Hi2 (named q)) as [E|[_ E]]; [|done].
    apply elem_of_cons in Hq as [->|Hq]; [congruence|]. apply Ha2. by exists q.
  - intros x. destruct (Hi2 x) as [E|[(q & Hq & Hb) E]].
    + destruct (Hi x) as [E'|[Hb E']]; [left; congruence|]. right. split; [|congruence]. exists p. split; [by left|done].
    + right. split; [|done]. exists q. split; [by right|done].
Qed.

Definition unstaged (c c' : clone) (deletes : list string) : Prop :=
  c_HEAD c' = c_HEAD c ∧ c_refs c' = c_refs c ∧
  (∀ k, among deletes k → c_index c' k = None) ∧
  ∀ k, c_index c' k = c_index c k ∨ (below deletes k ∧ c_index c' k = None).

Lemma deletes_solo r c deletes (k : P Hash) Q : (∀ c', unstaged c c' deletes → solo r c' k (on_ok Q)) →
  solo r c (stage_deletes r deletes k) (on_ok Q).
Proof.
  revert c; induction deletes as [|p deletes IH]; intros c Hk; cbn [stage_deletes].
  { apply Hk. split_and!; [done..| |by left]. by intros x (p & Hp%not_elem_of_nil & _). }
  assert (Hgo : ∀ c1, c_HEAD c1 = c_HEAD c → c_refs c1 = c_refs c → c_index c1 (named p) = None →
    (∀ x, c_index c1 x = c_index c x ∨ (named p `prefix_of` x ∧ c_index c1 x = None)) →
    solo r c1 (stage_deletes r deletes k) (on_ok Q)).
  { intros c1 Hh Hr Hp Hi. apply IH. intros c2 (Hh2 & Hr2 & Ha2 & Hi2). apply Hk. split_and!; [congruence..| |].
    - intros x (q & Hq & <-). destruct (Hi2 (named q)) as [E|[_ E]]; [|done].
      apply elem_of_cons in Hq as [->|Hq]; [congruence|]. apply Ha2. by exists q.
    - intros x. destruct (Hi2 x) as [E|[(q & Hq & Hb) E]].
      + destruct (Hi x) as [E'|[Hb E']]; [left; congruence|]. right. split; [|congruence]. exists p. split; [by left|done].
      + right. split; [|done]. exists q. split; [by right|done]. }
  apply solo_git; [done|]. intros [e|] c1 He.
  - cbn in He. destruct (Contains (ge_msg e) "entry not found") eqn:E; [|by apply solo_ret].
    destruct (He eq_refl) as [-> Hp]. apply Hgo; auto.
  - destruct He as (Hh & Hr & Hp & Hi). by apply Hgo.
Qed.

Lemma staged_recorded base c c1 c2 claimed d : indexed c base → c_work c = d →
  staged c c1 (cp_Add claimed) → unstaged c1 c2 (cp_Delete claimed) → recorded base d claimed (c_index c2).
Proof.
  intros Hb <- (_ & _ & _ & Ha & Hi) (_ & _ & Hd & Hi2) k.
  assert (H2' : ¬ below (cp_Delete claimed) k → c_index c2 k = c_index c1 k).
  { intros Hn. destruct (Hi2 k) as [?|[? _]]; [done|]. by destruct Hn. }
  split_and!; [by apply Hd|..].
  - intros Hk Hn. rewrite H2' by done. by apply Ha.
  - intros Hn. rewrite H2'.
    + destruct (Hi k) as [->|[(q & Hq & Hp) _]]; [apply Hb|]. destruct Hn. exists q. split; [|done].
      unfold Claims.paths. rewrite elem_of_app. by left.
    + intros (q & Hq & Hp). apply Hn. exists q. split; [|done]. unfold Claims.paths. rewrite elem_of_app. by right.
  - intros Hn. rewrite H2' by done. destruct (Hi k) as [->|[_ ->]]; [left; apply Hb|by right].
Qed.

Lemma commit_solo p r c claimed base top T : on_branch c T → indexed c base → head_hash c = Some top →
  solo r c (Commit p r claimed r) (on_ok (λ c' h, c_refs c' (NewBranchReferenceName T) = Some h ∧
    recorded base (c_work c) claimed (tree_of h) ∧ (parent_of h = Some top ∨ h = top))).
Proof.
  intros Hb Hi Hh. unfold Commit. apply adds_solo. intros c1 H1'. apply deletes_solo. intros c2 H2'.
  pose proof (staged_recorded _ _ _ _ _ _ Hi eq_refl H1' H2') as Hrec.
  destruct H1' as (Hh1 & Hr1 & _), H2' as (Hh2 & Hr2 & _).
  assert (Hb2 : on_branch c2 T) by (unfold on_branch; congruence).
  assert (Hh2' : head_hash c2 = Some top) by (unfold head_hash in *; by rewrite Hh2, Hh1, Hr2, Hr1).
  apply solo_now. intros t. apply solo_git; [done|]. intros [h|e] c3 He.
  - destruct He as (Ht & Hp & Hm & _). unfold moved in Hm. rewrite Hb2 in Hm. destruct Hm as (_ & Hr3 & _).
    apply solo_ret. split; [done|]. split; [|left; congruence]. intros k. rewrite Ht. apply Hrec.
  - destruct (isErrorSkipable e) eqn:E; [|by apply solo_ret]. destruct (He E) as [-> Hix].
    apply solo_or_return; [done|]. intros ref c4 [-> Href]. apply solo_or_return; [done|]. intros h c5 [-> ->].
    rewrite Hh2' in Href. injection Href as Href. rewrite <- Href. apply solo_ret. split_and!; [|intros k|by right].
    + unfold head_hash in Hh2'. by rewrite Hb2 in Hh2'.
    + rewrite <- (Hix _ Hh2'). apply Hrec.
Qed.
(** *** The leases *)

Definition keeps (s s' : side) : Prop :=
  s_sent s' = s_sent s ∧ ∀ r, owned s r → owned s' r ∧ s_clone s' r = s_clone s r.
(** Between an acquisition and the release: what the lease holds was not used before. *)
Definition within (h : handle) (s s' : side) : Prop := keeps s s' ∧ ∀ r, leased s' h r → s_owner s r = None.

Lemma keeps_refl s : keeps s s.
Proof. by split. Qed.
Lemma keeps_trans s s1 s2 : keeps s s1 → keeps s1 s2 → keeps s s2.
Proof.
  intros [Hs Hk] [Hs1 Hk1]. split; [congruence|]. intros r Hr. destruct (Hk r Hr) as [Hr1 Hc].
  destruct (Hk1 r Hr1) as [Hr2 Hc2]. split; [done|congruence].
Qed.
Lemma keeps_owners s s' f : owners s s' f → (∀ r, owned s r → f r ≠ None) → keeps s s'.
Proof.
  intros (Hc & Hs & Ho) Hf. split; [done|]. intros r Hr. split; [unfold owned; rewrite Ho; by apply Hf|].
  apply Hc; [by intros []|done].
Qed.
Lemma within_owners h s s1 s2 f : within h s s1 → owners s1 s2 f → (∀ r, owned s r → f r ≠ None) →
  (∀ r, f r = Some (Some (h_addr h)) → s_owner s r = None) → within h s s2.
Proof.
  intros [[Hs Hk] Hl] (Hc & Hs2 & Ho) Hf Hn. split; [split; [congruence|]|].
  - intros r Hr. destruct (Hk r Hr) as [Hr1 Hc1]. split; [unfold owned; rewrite Ho; by apply Hf|].
    rewrite <- Hc1. apply Hc; [by intros []|done].
  - intros r Hr. apply Hn. unfold leased in Hr. by rewrite Ho in Hr.
Qed.
Lemma within_same h s s1 s2 : within h s s1 → owners s1 s2 (s_owner s1) → within h s s2.
Proof.
  intros Hw Ho. eapply within_owners; [exact Hw|exact Ho|..].
  - intros r Hr. by apply Hw.
  - intros r Hr. by apply Hw.
Qed.
Lemma within_clone h r s s1 s2 : within h s s1 → s_owner s r = None → on_clone r s1 s2 → within h s s2.
Proof.
  intros [[Hs Hk] Hl] Hr (Hc & Ho & Hs2). split; [split; [congruence|]|].
  - intros r' Hr'. destruct (Hk r' Hr') as [Hr1 Hc1]. split; [unfold owned; by rewrite Ho|].
    rewrite <- Hc1. apply Hc; [|done]. by intros ->.
  - intros r' Hr'. apply Hl. unfold leased in *. by rewrite Ho in Hr'.
Qed.
Lemma within_new h r s s1 s2 v : within h s s1 → s_owner s r = None → (v ≠ None) →
  owners s1 s2 (λ r', if decide (r' = r) then v else s_owner s1 r') → within h s s2.
Proof.
  intros Hw Hr Hv Ho. eapply within_owners; [exact Hw|exact Ho|..].
  - intros r' Hr'. cbv beta in *. destruct (decide (r' = r)) as [->|]; [done|]. by apply Hw.
  - intros r' Hr'. cbv beta in *. destruct (decide (r' = r)) as [->|]; [done|]. by apply Hw.
Qed.
Lemma within_unused h s s1 r : within h s s1 → s_owner s1 r = None → s_owner s r = None.
Proof. intros [[_ Hk] _] Hr. destruct (s_owner s r) eqn:E; [|done]. destruct (Hk r); [unfold owned; by rewrite E|done]. Qed.

(** What an acquisition gives: a clone that was not in use, at rest on the branch. *)
Definition obtained (q : GetRepositoryParams) (s s' : side) (r : repo) : Prop :=
  s_owner s r = None ∧ owned s' r ∧ on_branch (s_clone s' r) (gr_Branch q) ∧ fresh (s_clone s' r).

Lemma clone_side q s : wfs s (cloneRepository q) (λ s' res,
  match res with
  | Ok r => s_owner s r = None ∧ owners s s' (λ r', if decide (r' = r) then Some None else s_owner s r') ∧
      on_branch (s_clone s' r) (gr_Branch q) ∧ fresh (s_clone s' r)
  | _ => owners s s' (s_owner s)
  end).
Proof.
  unfold cloneRepository. apply wf_call; [done|]. intros [progress [r|e]] s' He; [|exact He].
  destruct He as (Hr & Ho & Hb & Hf). done.
Qed.

Lemma discard_side l s s1 : within (rl_handle l) s s1 → wfs s1 (discard l) (λ s' _, keeps s s').
Proof.
  intros Hw. unfold discard. apply wf_call; [done|]. intros x s2 [_ Hx].
  assert (Hw2 : within (rl_handle l) s s2).
  { destruct x as [r|]; [|by eapply within_same]. destruct Hx as [Hr Ho]. eapply (within_new _ r _ _ _ (Some (Some _))); [exact Hw| |done|exact Ho].
    destruct Hr as [Hr|Hr]; [by eapply within_unused|by apply Hw]. }
  eapply (wf_bind_mono _ _ _ _ _ (λ s' _, within (rl_handle l) s s')).
  { destruct x; [done|]. split; [done|]. intros [] s3 Ho. by eapply within_same. }
  intros s3 [] Hw3. split; [done|]. intros [] s4 (Hc & Hs & Ho). destruct Hw3 as [[Hs3 Hk] Hl]. split; [congruence|].
  intros r Hr. destruct (Hk r Hr) as [Hr3 Hc3]. rewrite <- Hc3. split; [|apply Hc; [by intros []|done]].
  unfold owned. rewrite Ho. destruct (decide _) as [E|]; [|done]. by apply Hl in E.
Qed.

Lemma store_side l q s s1 r : within (rl_handle l) s s1 → s_owner s1 r = Some None → s_owner s r = None →
  on_branch (s_clone s1 r) (gr_Branch q) → fresh (s_clone s1 r) →
  wfs s1 (_ ⟵ lease_set l r;; Ret (Ok (E := error) (r, Some l))) (λ s' res, keeps s s' ∧
    match res with Ok (r, _) => obtained q s s' r | _ => True end).
Proof.
  intros Hw Hr Hn Hb Hf. unfold lease_set. apply wf_call; [done|]. intros [] s2 Ho.
  assert (Hw2 : within (rl_handle l) s s2).
  { eapply within_owners; [exact Hw|exact Ho|..]; intros r' Hr'; cbv beta in *; destruct (decide (r' = r)) as [->|]; try done;
      destruct (decide _); try done; by apply Hw. }
  split; [apply Hw2|]. destruct Ho as (Hc & _ & Ho). split_and!; [done|..].
  - unfold owned. by rewrite Ho, decide_True.
  - rewrite Hc; [done|by intros []|unfold owned; by rewrite Hr].
  - rewrite Hc; [done|by intros []|unfold owned; by rewrite Hr].
Qed.
(** The answer of an acquisition, with what was in use left alone. *)
Definition acquired (q : GetRepositoryParams) (s s' : side) (res : result error (repo * option repoLease)) : Prop :=
  keeps s s' ∧ match res with Ok (r, _) => obtained q s s' r | _ => True end.

(** A clone made for the lease. *)
Lemma reclone_side q l s s1 (failed : error → P (repo * option repoLease)) : within (rl_handle l) s s1 →
  (∀ e s2, within (rl_handle l) s s2 → wfs s2 (failed e) (acquired q s)) →
  wfs s1 (r ⟵ cloneRepository q;;
    match r with
    | Err e => failed e
    | Ok r => _ ⟵ lease_set l r;; Ret (Ok (r, Some l))
    | Panic => Ret Panic
    end) (acquired q s).
Proof.
  intros Hw Hfail. eapply wf_bind_mono; [apply clone_side|]. intros s2 [r|e|] Hr.
  - destruct Hr as (Hn & Ho & Hb & Hf). assert (Hn' : s_owner s r = None) by (by eapply within_unused).
    apply store_side; [|destruct Ho as (_ & _ & Ho); by rewrite Ho, decide_True|done..].
    by eapply (within_new _ r _ _ _ (Some None)).
  - apply Hfail. by eapply within_same.
  - split; [|done]. eapply within_same; done.
Qed.

Lemma discarded_side q l s s1 e : within (rl_handle l) s s1 → wfs s1 (_ ⟵ discard l;; Ret (Err e)) (acquired q s).
Proof. intros Hw. eapply wf_bind_mono; [by apply discard_side|]. intros s2 [] Hk. by split. Qed.

Lemma getRepository_side enabled q s : wfs s (getRepository enabled q) (acquired q s).
Proof.
  unfold getRepository. destruct enabled; cbn [negb].
  2: { eapply wf_bind_mono; [apply clone_side|]. intros s' [r|e|] Hr; [|split; [|done]; by eapply keeps_owners..].
    destruct Hr as (Hn & Ho & Hb & Hf). split.
    - eapply keeps_owners; [exact Ho|]. intros r' Hr'. cbv beta. by destruct (decide (r' = r)).
    - split_and!; [done| |done..]. destruct Ho as (_ & _ & Ho). unfold owned. by rewrite Ho, decide_True. }
  unfold acquire. apply wf_call; [done|]. intros h s1 Ho1. apply wf_call; [done|]. intros [] s2 [Hfree Ho2].
  assert (Hw : within h s s2).
  { split; [|destruct Ho2 as (_ & _ & Ho2); intros r Hr; unfold leased in Hr; rewrite Ho2 in Hr; by apply Hfree in Hr].
    eapply keeps_trans; eapply keeps_owners; done. }
  clear Ho1 Ho2 Hfree. apply wf_call; [done|]. intros [stale|] s3 [_ Hr].
  2: { apply reclone_side; [by eapply within_same|]. intros e s4 Hw4. by apply discarded_side. }
  destruct Hr as [Hr Ho3]. assert (Hn : s_owner s stale = None) by (destruct Hr as [Hr|Hr]; [by eapply within_unused|by apply Hw]).
  assert (Hw3 : within h s s3) by (by eapply (within_new _ stale _ _ _ (Some (Some _)))).
  destruct Ho3 as (_ & _ & Ho3). specialize (Ho3 stale). rewrite decide_True in Ho3 by done.
  eapply wf_bind_mono; [refine (refresh_solo stale _ q s3 eq_refl _); unfold owned; by rewrite Ho3|].
  intros s4 res [Ho4 Hres]. assert (Hw4 : within h s s4) by (by eapply within_clone).
  destruct res as [[]|e|]; [|apply reclone_side; [done|intros; by apply discarded_side]|by split; [apply Hw4|]].
  destruct Hres as [Hb Hf]. destruct Ho4 as (_ & Ho4 & _). specialize (Ho4 stale). rewrite Ho3 in Ho4.
  apply wf_call; [done|]. intros again s5 [Hag H5']. rewrite (Hag stale) in * by exact Ho4. destruct H5' as [_ Ho5].
  assert (Hw5 : within h s s5) by (by eapply (within_new _ stale _ _ _ (Some (Some _)))).
  split; [apply Hw5|]. destruct Ho5 as (Hc5 & _ & Ho5).
  assert (Hc : s_clone s5 stale = s_clone s4 stale) by (apply Hc5; [by intros []|unfold owned; by rewrite Ho4]).
  unfold obtained, owned. rewrite Hc. split_and!; [done| |done..]. by rewrite Ho5, decide_True.
Qed.

(** *** The push *)

Definition sends (r : repo) (h : Hash) (T : string) (s s' : side) : Prop :=
  s_clone s' r = s_clone s r ∧ ∃ l, s_sent s' = (s_sent s ++ l)%list ∧
    Forall (λ x, sn_refs x (NewBranchReferenceName T) = Some h) l.

Lemma push_one_side r o v vars s h T : owned s r → c_refs (s_clone s r) (NewBranchReferenceName T) = Some h →
  wfs s (push_ r o v vars) (λ s' _, owned s' r ∧ sends r h T s s').
Proof.
  intros Hr Hh. unfold push_. apply wf_call; [done|]. intros [progress e] s' (_ & Ho & He & Hs). cbn in He.
  split; [unfold owned; by rewrite Ho|]. split; [done|]. eexists. split; [exact Hs|]. by repeat constructor.
Qed.

Lemma sends_trans r h T s s1 s2 : sends r h T s s1 → sends r h T s1 s2 → sends r h T s s2.
Proof.
  intros (Hc & l & Hs & Hl) (Hc1 & l1 & Hs1 & Hl1). split; [congruence|]. exists (l ++ l1)%list.
  split; [by rewrite Hs1, Hs, app_assoc|by apply Forall_app].
Qed.

Lemma retry_side r o h T n v vars err s : owned s r → c_refs (s_clone s r) (NewBranchReferenceName T) = Some h →
  wfs s (retry_push n r o v vars err) (λ s' _, sends r h T s s').
Proof.
  revert v err s; induction n as [|n IH]; intros v err s Hr Hh; cbn [retry_push].
  { split; [done|]. exists []. by rewrite app_nil_r. }
  eapply wf_bind_mono; [by apply push_one_side|]. intros s1 [v1 [e|]] [Hr1 Hs1]; [|exact Hs1].
  eapply wf_mono; [|apply (IH v1 (Some e) s1 Hr1)]; [intros s2 a Hs2; by eapply sends_trans|].
  destruct Hs1 as [Hc _]. by rewrite Hc.
Qed.

Lemma push_side p r f s h T : owned s r → c_refs (s_clone s r) (NewBranchReferenceName T) = Some h →
  wfs s (Push p r f) (λ s' _, sends r h T s s').
Proof.
  intros Hr Hh. unfold Push. cbv zeta. eapply wf_bind_mono; [by apply push_one_side|].
  intros s1 [v1 [e|]] [Hr1 Hs1]; [|exact Hs1]. eapply wf_mono; [|by apply (retry_side r _ h T); [|destruct Hs1 as [Hc _]; rewrite Hc]].
  intros s2 a Hs2. by eapply sends_trans.
Qed.
(** *** The pipeline *)

Lemma generated_covers p d claimed d' : generated_by p d (inl claimed) d' → covers (file_at d) (file_at d') claimed.
Proof.
  intros (fuel & range & cluster & w & dc & w' & dc' & out & Hrange & Hr & ->).
  by apply (generated gates ord ord_map managerNamespace fuel range cluster p _ _ _ Hrange Hr).
Qed.

Lemma recorded_exact base d d' claimed tree : covers (file_at d) (file_at d') claimed →
  (∀ k, file_at d k = tree_of base k) → recorded base d' claimed tree →
  ∀ k, ¬ below (cp_Delete claimed) k → tree k = file_at d' k.
Proof.
  intros Hc Hd Hr k Hn. destruct (Hr k) as (_ & Ha & _ & [E|E]); [by apply Hn| |done].
  destruct (Hc k) as [E'|(q & Hq & Hk)]; [by rewrite E, E', Hd|].
  apply elem_of_app in Hq as [Hq|Hq]; [apply Ha; [by exists q|done]|]. destruct Hn. exists q. by rewrite Hk.
Qed.

(** What a run made of a commit: the worktree was generated from [d] into [d'], the commit
    [h] was made on top of [top] from an index that was read from [base]. *)
Record delivered (p : GitPipelineParams) (claimed : ClaimedPaths) (base top h : Hash) (d d' : D) : Prop := {
  dl_generated : generated_by p d (inl claimed) d';
  dl_recorded : recorded base d' claimed (tree_of h);
  dl_parent : parent_of h = Some top ∨ h = top;
  dl_top : merges = false → top = base;
  dl_exact : pristine p → (∀ k, file_at d k = tree_of base k) ∧
    ∀ k, ¬ below (cp_Delete claimed) k → tree_of h k = file_at d' k }.

(** How the run of a pipeline ends: without a push and without a success, or with a commit
    and pushes of this commit only. *)
Definition committed (p : GitPipelineParams) (s s' : side) (res : result error (GitPushResponse * option error)) : Prop :=
  (s_sent s' = s_sent s ∧ ∀ resp, res ≠ Ok (resp, None)) ∨
  ∃ claimed base top h d d' resp e l, res = Ok (resp, e) ∧ gpr_CommitHash resp = h ∧ gpr_Paths resp = Claims.paths claimed ∧
    delivered p claimed base top h d d' ∧ s_sent s' = (s_sent s ++ l)%list ∧
    Forall (λ x, sn_refs x (NewBranchReferenceName (TargetBranch (rt_Spec (gp_RemoteTarget p)))) = Some h) l.

(** Then the commit was pushed: at least once, with the refspec of the target branch, and
    again as long as it was refused and the retries last; the run is a success exactly when
    the last of the pushes was accepted. *)
Definition outcome (p : GitPipelineParams) (s s' : side) (res : result error (GitPushResponse * option error)) : Prop :=
  (s_sent s' = s_sent s ∧ ∀ resp, res ≠ Ok (resp, None)) ∨
  ∃ claimed base top h d d' resp e l target force,
    res = Ok (resp, e) ∧ gpr_CommitHash resp = h ∧ gpr_Paths resp = Claims.paths claimed ∧
    delivered p claimed base top h d d' ∧ s_sent s' = (s_sent s ++ l)%list ∧
    Forall (λ x, sn_refs x (NewBranchReferenceName (TargetBranch (rt_Spec (gp_RemoteTarget p)))) = Some h) l ∧
    (force = true → may_force p) ∧ attempts (sent p target force) (retries p) (map sn_event l) (e = None).

Lemma push_worktree_side p r u s : let rt := rt_Spec (gp_RemoteTarget p) in
  owned s r → on_branch (s_clone s r) (UpstreamBranch rt) → fresh (s_clone s r) →
  (MergeStrategy rt = "" → UpstreamBranch rt = TargetBranch rt) →
  wfs s (push_worktree p r u) (committed p s).
Proof.
  intros rt Hr Hb Hf Hdirect. unfold push_worktree. cbv zeta. fold rt.
  eapply wf_bind_mono; [exact (worktree_solo p r u _ Hb Hf Hdirect s eq_refl Hr)|].
  intros s1 [[wt force]|e|] [Hs1 Hw]; [|left; by split; [apply Hs1|]..]. destruct Hw as [-> Hp].
  pose proof (on_clone_owned _ _ _ _ Hs1 Hr) as Hr1. destruct Hs1 as (_ & _ & Hs1).
  apply wf_call; [done|]. intros x s2 (_ & Ho2 & Hs2 & d' & Hgen & Hc2).
  destruct x as [claimed|e]; [|left; split; [congruence|done]].
  destruct Hp as (Hb1 & base & top & Hi1 & Hh1 & Htop & Hcl).
  eapply wf_bind_mono.
  { refine (commit_solo p r (s_clone s2 r) claimed base top (TargetBranch rt) _ _ _ s2 eq_refl _);
      [by rewrite Hc2..|unfold owned; by rewrite Ho2]. }
  intros s3 [h|e|] [Hs3 Hh]; [|left; split; [|done]; destruct Hs3 as (_ & _ & Hs3); congruence..].
  destruct Hh as (Href & Hrec & Hpar). rewrite Hc2 in Hrec. cbn in Hrec.
  assert (Hr3 : owned s3 r) by (eapply on_clone_owned; [exact Hs3|unfold owned; by rewrite Ho2]).
  destruct Hs3 as (_ & _ & Hs3).
  eapply wf_bind_mono; [by apply (push_side _ _ _ _ h (TargetBranch rt))|].
  intros s4 err (_ & l & Hs4 & Hl). right.
  exists claimed, base, top, h, (c_work (s_clone s1 r)), d', (ResponseBuilder (GetPathsFromClaimedPaths claimed) h (TargetRepository rt)), err, l.
  split_and!; [done..| |congruence|done]. split; [done..|].
  intros Hpr. specialize (Hcl Hpr). destruct Hcl as [_ Hcl]. split; [done|].
  by eapply recorded_exact; [eapply generated_covers|..].
Qed.

Lemma deferred_side {A} lease (m : prog call A) s (Q : side → A → Prop) : wfs s m Q →
  (∀ s1 s2 a, Q s1 a → s_sent s2 = s_sent s1 → Q s2 a) → wfs s (deferred lease m) Q.
Proof.
  intros Hm HQ. unfold deferred. eapply wf_bind_mono; [exact Hm|]. intros s1 a Ha. destruct lease as [l|].
  - split; [done|]. intros [] s2 (_ & Hs & _). by eapply HQ.
  - exact Ha.
Qed.

Lemma committed_sent p s s1 s2 res : committed p s s1 res → s_sent s2 = s_sent s1 → committed p s s2 res.
Proof.
  intros [[Hs Hres]|(cl & b & t & h & d & d' & resp & e & l & ? & ? & ? & ? & Hs & ?)] Hs2; [left; by rewrite Hs2|].
  right. exists cl, b, t, h, d, d', resp, e, l. by rewrite Hs2.
Qed.

Lemma committed_keeps p s s1 s2 res : s_sent s1 = s_sent s → committed p s1 s2 res → committed p s s2 res.
Proof. unfold committed. by intros ->. Qed.

Lemma pipeline_side enabled p s : validateRemoteTarget (gp_RemoteTarget p) = None →
  wfs s (RunGitPipeline enabled p) (committed p s).
Proof.
  intros Hvalid. apply target_valid_iff in Hvalid. unfold RunGitPipeline. cbv zeta. set (rt := rt_Spec (gp_RemoteTarget p)) in *.
  assert (Hdirect : MergeStrategy rt = "" → UpstreamBranch rt = TargetBranch rt).
  { intros Hm. apply Hvalid in Hm. unfold same_target in Hm. apply andb_true_iff in Hm as [? ?]. by apply String.eqb_eq. }
  unfold GetTargetRepository, GetUpstreamRepository. cbv zeta. fold rt.
  eapply wf_bind_mono; [apply getRepository_side|].
  intros s1 [[r l]|e|] [[Hs1 _] Hq]; [|left; done..]. destruct Hq as (_ & Hr & Hb & Hf).
  apply deferred_side; [|intros *; apply committed_sent].
  destruct (_ && _).
  2: { eapply wf_mono; [|by apply push_worktree_side]. intros s2 a. by apply committed_keeps. }
  eapply wf_bind_mono; [apply getRepository_side|].
  intros s2 [[u l2]|e|] [[Hs2 Hk] _]; [|left; split; [congruence|done]..].
  apply deferred_side; [|intros *; apply committed_sent]. destruct (Hk r Hr) as [Hr2 Hc2].
  eapply wf_mono; [|apply push_worktree_side; [done|by rewrite Hc2..|done]].
  intros s3 a. apply committed_keeps. congruence.
Qed.

(** What is recorded as sent are the pushes of the run. *)
Lemma accepts_sent t s s' : accepts side_effect s t s' →
  ∃ l, s_sent s' = (s_sent s ++ l)%list ∧ map sn_event l = pushes t.
Proof.
  revert s; induction t as [|[X c x] t IH]; intros s Ha; cbn [accepts] in Ha.
  { subst s'. exists []. by rewrite app_nil_r. }
  destruct Ha as (s1 & Hc & (l & Hl & He)%IH). change (pushes (Ev c x :: t)) with (pushed c x ++ pushes t)%list.
  assert (Hone : ∃ l1, s_sent s1 = (s_sent s ++ l1)%list ∧ map sn_event l1 = pushed c x).
  { destruct c; cbn in Hc.
    all: try (destruct Hc as (_ & _ & _ & Hs); eexists; split; [exact Hs|]; by rewrite map_map, map_id).
    all: exists []; rewrite app_nil_r; split; [|done]; unfold owners in Hc.
    all: try destruct (x.2); try destruct x; naive_solver. }
  destruct Hone as (l1 & Hl1 & He1). exists (l1 ++ l)%list. rewrite Hl, Hl1, app_assoc, map_app. by rewrite He1, He.
Qed.

(** (C4) What is pushed is what was generated. Whatever state the cached clones were left
    in, and with go-git doing what it documents, a run of the git pipeline either pushes
    nothing and is no success, or makes one commit and pushes this commit only: from the
    branch of the target to the branch of that name, forcibly only under the strategies that
    may reset it, at least once, again as long as the push is refused and the retries
    last, and with success exactly when the last push was accepted. The commit is the one of
    the response, and its paths are those the generation claimed. The commit adds the claimed files as
    they were generated, removes those that were claimed deleted, and leaves the rest of
    the commit it was based on, which is its parent unless a fast-forward merge moved the
    branch under the index; except after a failed fast-forward it is exactly the
    generated worktree, less the deleted paths. The target is one the validator admits, and
    the worktrees have no symbolic links ([BillyFrame]). *)
Theorem pushed_commit_records enabled p s t res s' :
  validateRemoteTarget (gp_RemoteTarget p) = None →
  runs (RunGitPipeline enabled p) t res → accepts side_effect s t s' → outcome p s s' res.
Proof.
  intros Hv Hr Ha. pose proof (wf_accepts _ _ _ _ _ _ _ (pipeline_side enabled p s Hv) Hr Ha) as [Hn|Hc]; [by left|].
  destruct Hc as (cl & b & top & h & d & d' & resp & e & l & -> & Hh & Hp & Hd & Hl & Hrefs).
  destruct (accepts_sent _ _ _ Ha) as (l' & Hl' & He). rewrite Hl in Hl'. apply app_inv_head in Hl' as <-.
  apply request_pushes in Hr as [_ [(Hnil & Herr & _)|(target & force & Hf & Hat)]].
  - left. rewrite Hnil in He. apply map_eq_nil in He as ->. rewrite app_nil_r in Hl. split; [done|].
    by intros resp' [= _ ->].
  - right. rewrite <- He in Hat. by exists cl, b, top, h, d, d', resp, e, l, target, force.
Qed.
End Recorded.

(** ** A concrete push *)

#[local] Existing Instance demo_gogit.
Definition demo_gen_params : GitPipelineParams :=
  demo_params (Claims.demo_spec true false) ∅ (mkGVR "" "v1" "configmaps") "app" "data: 1" "main".
Definition demo_gen :=
  GenerateFinalWorktree (W := World) LoadedFeatureGates map_to_list 3
    (providerGate LoadedFeatureGates map_to_list "syngit") true demo_gen_params
    (world_of empty_view, (demo_worktree, None)).
Definition demo_after : fs := demo_gen.2.2.1.
Definition demo_path : string := "clusters/team/v1/configmaps/app.yaml".
Definition demo_tree (h : Hash) (k : key) : option string :=
  if String.eqb h "c0ffee" then if decide (k = named demo_path) then file_at demo_after k else file_at demo_worktree k
  else file_at demo_worktree k.
Definition demo_refs (h : Hash) (n : string) : option Hash := if String.eqb n "refs/heads/main" then Some h else None.
(** The only clone, before and after the commit. *)
Definition demo_side (used : bool) (h i : Hash) (d : fs) (sent : list sending) : side (D := fs) :=
  mkSide (λ _, mkClone (OnBranch "refs/heads/main") (demo_refs h) (demo_tree i) d)
    (λ r, if decide (r = 0%nat) then if used then Some None else None else None) sent.
Definition demo_trace : list (@event call) :=
  let p := demo_gen_params in let claimed := mkClaimedPaths [demo_path] [] in
  [Ev (CloneC (mkCloneOptions "https://git.x/org/app.git" "main" (gp_auth p) true false None)) ("", inl 0%nat);
   Ev (GitC 0%nat Worktree) None;
   Ev (GenerateFinalWorktreeC p 0%nat) (inl claimed);
   Ev (GitC 0%nat (Add_ demo_path)) None;
   Ev Now 0%Z;
   Ev (GitC 0%nat (Commit_ (buildCommitMessage p claimed) "u" "u@x" 0%Z)) (inl "c0ffee");
   Ev (GitC 0%nat (Push_ (push_options p false))) ("", None)].

Lemma demo_committed k : demo_tree "c0ffee" k =
  if decide (k = named demo_path) then file_at demo_after k else file_at demo_worktree k.
Proof. reflexivity. Qed.

Definition demo_before : side (D := fs) := demo_side false "" "" demo_worktree [].
Definition demo_end : side (D := fs) :=
  demo_side true "c0ffee" "c0ffee" demo_after
    [mkSending (mkPush 0%nat (push_options demo_gen_params false) None) (demo_refs "c0ffee")].

Lemma demo_runs : runs (RunGitPipeline false demo_gen_params) demo_trace
  (Ok (mkPushResponse [demo_path] "c0ffee" "https://git.x/org/app.git", None)).
Proof. do 7 (eexists _, _; split; [reflexivity|]). split; reflexivity. Qed.

Lemma demo_generated : generated_by LoadedFeatureGates map_to_list map_to_list "syngit" (W := World) demo_gen_params demo_worktree
  (inl (mkClaimedPaths [demo_path] [])) demo_after.
Proof.
  exists 3%nat, (providerGate LoadedFeatureGates map_to_list "syngit"), true, (world_of empty_view), None,
    demo_gen.2.1, demo_gen.2.2.2, demo_gen.1. split; [done|]. split; [|vm_compute; reflexivity].
  change (demo_gen = (demo_gen.1, (demo_gen.2.1, (demo_gen.2.2.1, demo_gen.2.2.2)))).
  by destruct demo_gen as [? [? [? ?]]].
Qed.

Lemma demo_accepted :
  accepts (side_effect LoadedFeatureGates map_to_list map_to_list "syngit" (W := World) demo_tree (λ _, Some "base") false)
    demo_before demo_trace demo_end.
Proof.
  assert (Hnew : ∀ h i d sent r, owned (demo_side true h i d sent) r → r = 0%nat).
  { intros h i d sent r Hr. unfold owned in Hr. cbn in Hr. by destruct (decide (r = 0%nat)). }
  assert (Hone : ∀ h i d sent s2, same_but (λ r, r = 0%nat) (demo_side true h i d sent) s2).
  { intros h i d sent s2 r Hn Hr. by apply Hnew in Hr. }
  exists (demo_side true "base" "base" demo_worktree []). split.
  { split; [reflexivity|]. split; [split; [intros r _ Hr; exfalso; apply Hr; cbn; by destruct (decide _)|]|].
    - split; [done|]. intros r. cbn. by destruct (decide (r = 0%nat)).
    - split; [done|]. exists "base". by split_and!. }
  exists (demo_side true "base" "base" demo_worktree []). split; [by split_and!|].
  exists (demo_side true "base" "base" demo_after []). split.
  { split_and!; [apply Hone|done..|]. exists demo_after. split; [exact demo_generated|done]. }
  exists (demo_side true "base" "c0ffee" demo_after []). split.
  { split_and!; [apply Hone|done| |done]. intros _. split_and!; [done..| |].
    - change (demo_tree "c0ffee" (named demo_path) = file_at demo_after (named demo_path)).
      by rewrite demo_committed, decide_True.
    - intros k. change (demo_tree "c0ffee" k = demo_tree "base" k ∨
        named demo_path `prefix_of` k ∧ demo_tree "c0ffee" k = file_at demo_after k).
      rewrite demo_committed. destruct (decide (k = named demo_path)) as [->|]; [by right|by left]. }
  exists (demo_side true "base" "c0ffee" demo_after []). split; [by split_and!|].
  exists (demo_side true "c0ffee" "c0ffee" demo_after []). split.
  { split_and!; [apply Hone|done| |done]. split_and!; try done. split; [done|]. split; [done|]. intros b Hb.
    change (demo_refs "c0ffee" (NewBranchReferenceName b) = demo_refs "base" (NewBranchReferenceName b)).
    unfold demo_refs. apply String.eqb_neq in Hb. by rewrite Hb. }
  eexists. split; [|reflexivity]. by split_and!.
Qed.

Lemma pushed_commit_records_witness :
  outcome LoadedFeatureGates map_to_list map_to_list "syngit" (W := World) demo_tree (λ _, Some "base") false demo_gen_params
    demo_before demo_end (Ok (mkPushResponse [demo_path] "c0ffee" "https://git.x/org/app.git", None)).
Proof.
  apply (pushed_commit_records LoadedFeatureGates map_to_list map_to_list "syngit" demo_tree (λ _, Some "base") false
    false demo_gen_params demo_before demo_trace).
  - reflexivity.
  - exact demo_runs.
  - exact demo_accepted.
Defined.
