(* ===== verification/Conversion.v ===== *)
(** * The two served versions of the API ([pkg/api/v1beta4/*_conversion.go])

    The stored version is v1beta5; objects read or written through v1beta4 go through
    [ConvertFrom] and [ConvertTo]. The v1beta4 records are those of
    [pkg/api/v1beta4/*_types.go]; the interface is the one of controller-runtime. *)

From S2P Require Import Prelude GoStr Api Errors External Sim Refs Render Validate.

(** ** The v1beta4 types *)

Record ScopedResources_v1beta4 := mkScopedResources4 {
  sr4_MatchPolicy : option string;
  sr4_ObjectSelector : option LabelSelector;
  sr4_Rules : list RuleWithOperations }.

Record RemoteSyncerSpec_v1beta4 := mkRemoteSyncerSpec4 {
  rss4_RemoteRepository : string;
  rss4_DefaultBranch : string;
  rss4_ScopedResources : ScopedResources_v1beta4;
  rss4_Strategy : string;
  rss4_TargetStrategy : string;
  rss4_RemoteTargetSelector : option LabelSelector;
  rss4_DefaultBlockAppliedMessage : string;
  rss4_ExcludedFields : list string;
  rss4_ExcludedFieldsConfigMapRef : option ObjectReference;
  rss4_RootPath : string;
  rss4_ResourceFinder : bool;
  rss4_RemoteUserBindingSelector : option LabelSelector;
  rss4_BypassInterceptionSubjects : list Subject;
  rss4_DefaultUnauthorizedUserMode : string;
  rss4_DefaultRemoteUserRef : option ObjectReference;
  rss4_DefaultRemoteTargetRef : option ObjectReference;
  rss4_InsecureSkipTlsVerify : bool;
  rss4_CABundleSecretRef : SecretReference }.

(** The three states are the v1beta5 structs in both versions. *)
Record RemoteSyncerStatus_v1beta4 := mkRemoteSyncerStatus4 {
  rst4_Conditions : list Condition;
  rst4_LastBypassed : option LastBypassedObjectState;
  rst4_LastObserved : option LastObservedObjectState;
  rst4_LastPushed : option LastPushedObjectState }.
Record RemoteSyncer_v1beta4 := mkRemoteSyncer4 {
  rs4_Meta : ObjectMeta; rs4_Spec : RemoteSyncerSpec_v1beta4; rs4_Status : RemoteSyncerStatus_v1beta4 }.

Record RemoteTargetSpec_v1beta4 := mkRemoteTargetSpec4 {
  rts4_UpstreamRepository : string; rts4_UpstreamBranch : string;
  rts4_TargetRepository : string; rts4_TargetBranch : string; rts4_MergeStrategy : string }.
Record RemoteTarget_v1beta4 := mkRemoteTarget4 {
  rt4_Meta : ObjectMeta; rt4_Spec : RemoteTargetSpec_v1beta4; rt4_Conditions : list Condition }.

Record RemoteUserSpec_v1beta4 := mkRemoteUserSpec4 {
  ru4_SecretRef : SecretReference; ru4_Email : string; ru4_GitBaseDomainFQDN : string }.
Record RemoteUserStatus_v1beta4 := mkRemoteUserStatus4 {
  rus4_Conditions : list Condition;
  rus4_ConnexionStatus : string;
  rus4_ConnexionDetails : string;
  rus4_GitUser : string;
  rus4_SecretBoundStatus : string }.
Record RemoteUser_v1beta4 := mkRemoteUser4 {
  ru4_Meta : ObjectMeta; ru4_Spec : RemoteUserSpec_v1beta4; ru4_Status : RemoteUserStatus_v1beta4 }.

Record RemoteUserBindingSpec_v1beta4 := mkRUBSpec4 {
  rub4_Subject : Subject;
  rub4_RemoteUserRefs : list ObjectReference;
  rub4_RemoteTargetRefs : list ObjectReference }.
Record RemoteUserBindingStatus_v1beta4 := mkRUBStatus4 {
  rubs4_Conditions : list Condition;
  rubs4_RemoteUserState : string;
  rubs4_RemoteUserHosts : list RemoteUserHost;
  rubs4_UserKubernetesID : string }.
Record RemoteUserBinding_v1beta4 := mkRUB4 {
  rub4_Meta : ObjectMeta; rub4_Spec : RemoteUserBindingSpec_v1beta4; rub4_Status : RemoteUserBindingStatus_v1beta4 }.

(** ** The interface *)

(** [conversion.Convertible]: both methods fill the object they are given, which the
    conversion webhook has just allocated. *)
Class Convertible (spoke hub : Type) := {
  ConvertTo : spoke → hub → hub;
  ConvertFrom : hub → spoke → spoke;
  new_spoke : spoke;
  new_hub : hub }.

Section Webhook.
Context {spoke hub : Type} `{Convertible spoke hub}.
Definition to_hub (src : spoke) : hub := ConvertTo src new_hub.
Definition to_spoke (src : hub) : spoke := ConvertFrom src new_spoke.
(** What is stored once a client has read an object through the older version, edited
    it and written it back. *)
Definition edited (edit : spoke → spoke) (stored : hub) : hub := to_hub (edit (to_spoke stored)).
End Webhook.

(** ** Zero values *)

Definition zero_meta : ObjectMeta := new_meta "" "" ∅.
Definition zero_ref : ObjectReference := mkRef "" "".
Definition zero_spec : RemoteSyncerSpec :=
  mkRemoteSyncerSpec "" "" (mkScopedResources None None []) "" "" None "" [] [] "" false None [] false
    "" "" 0 None None false zero_ref (mkSOPSConfig false zero_ref).
Definition zero_spec4 : RemoteSyncerSpec_v1beta4 :=
  mkRemoteSyncerSpec4 "" "" (mkScopedResources4 None None []) "" "" None "" [] None "" false None []
    "" None None false zero_ref.
Definition zero_status4 : RemoteSyncerStatus_v1beta4 := mkRemoteSyncerStatus4 [] None None None.
Definition zero_user_status4 : RemoteUserStatus_v1beta4 := mkRemoteUserStatus4 [] "" "" "" "".
Definition zero_binding_status4 : RemoteUserBindingStatus_v1beta4 := mkRUBStatus4 [] "" [] "".

(** [len(conditions) > 0]. *)
Definition has_conditions (cs : list Condition) : bool := (0 <? length cs)%nat.

(** ** [remotesyncer_conversion.go] *)

Definition spec_to_hub (src : RemoteSyncerSpec_v1beta4) (dst : RemoteSyncerSpec) : RemoteSyncerSpec :=
  {| RemoteRepository := rss4_RemoteRepository src;
     DefaultBranch := rss4_DefaultBranch src;
     Scoped := let s := rss4_ScopedResources src in
               mkScopedResources (sr4_MatchPolicy s) (sr4_ObjectSelector s) (sr4_Rules s);
     Strategy := rss4_Strategy src;
     TargetStrategy := rss4_TargetStrategy src;
     RemoteTargetSelector := rss4_RemoteTargetSelector src;
     DefaultBlockAppliedMessage := rss4_DefaultBlockAppliedMessage src;
     ExcludedFields := rss4_ExcludedFields src;
     ExcludedFieldsConfigMapsRef := [rss4_ExcludedFieldsConfigMapRef src];
     RootPath := rss4_RootPath src;
     ResourceFinder := rss4_ResourceFinder src;
     RemoteUserBindingSelector := rss4_RemoteUserBindingSelector src;
     BypassInterceptionSubjects := rss4_BypassInterceptionSubjects src;
     BypassAllServiceAccounts := BypassAllServiceAccounts dst;
     DefaultUnauthorizedUserMode := rss4_DefaultUnauthorizedUserMode src;
     DefaultPushErrorBehavior := DefaultPushErrorBehavior dst;
     PushErrorRetryNumber := PushErrorRetryNumber dst;
     DefaultRemoteUserRef := rss4_DefaultRemoteUserRef src;
     DefaultRemoteTargetRef := rss4_DefaultRemoteTargetRef src;
     InsecureSkipTlsVerify := rss4_InsecureSkipTlsVerify src;
     CABundleSecretRef := rss4_CABundleSecretRef src;
     SOPS := SOPS dst |}.

Definition RemoteSyncer_ConvertTo (src : RemoteSyncer_v1beta4) (dst : RemoteSyncer) : RemoteSyncer :=
  mkRemoteSyncer (rs4_Meta src) (spec_to_hub (rs4_Spec src) (rs_Spec dst))
    (let s := rs4_Status src in
     if has_conditions (rst4_Conditions s)
     then mkRemoteSyncerStatus (rst4_Conditions s) (rst4_LastBypassed s) (rst4_LastObserved s) (rst4_LastPushed s)
     else rs_Status dst).

Definition spec_from_hub (src : RemoteSyncerSpec) (dst : RemoteSyncerSpec_v1beta4) : RemoteSyncerSpec_v1beta4 :=
  {| rss4_RemoteRepository := RemoteRepository src;
     rss4_DefaultBranch := DefaultBranch src;
     rss4_ScopedResources := let s := Scoped src in
                             mkScopedResources4 (sr_MatchPolicy s) (sr_ObjectSelector s) (sr_Rules s);
     rss4_Strategy := Strategy src;
     rss4_TargetStrategy := TargetStrategy src;
     rss4_RemoteTargetSelector := RemoteTargetSelector src;
     rss4_DefaultBlockAppliedMessage := DefaultBlockAppliedMessage src;
     rss4_ExcludedFields := ExcludedFields src;
     rss4_ExcludedFieldsConfigMapRef :=
       match ExcludedFieldsConfigMapsRef src with
       | ref :: _ => ref
       | [] => rss4_ExcludedFieldsConfigMapRef dst
       end;
     rss4_RootPath := RootPath src;
     rss4_ResourceFinder := ResourceFinder src;
     rss4_RemoteUserBindingSelector := RemoteUserBindingSelector src;
     rss4_BypassInterceptionSubjects := BypassInterceptionSubjects src;
     rss4_DefaultUnauthorizedUserMode := DefaultUnauthorizedUserMode src;
     rss4_DefaultRemoteUserRef := DefaultRemoteUserRef src;
     rss4_DefaultRemoteTargetRef := DefaultRemoteTargetRef src;
     rss4_InsecureSkipTlsVerify := InsecureSkipTlsVerify src;
     rss4_CABundleSecretRef := CABundleSecretRef src |}.

Definition RemoteSyncer_ConvertFrom (src : RemoteSyncer) (dst : RemoteSyncer_v1beta4) : RemoteSyncer_v1beta4 :=
  mkRemoteSyncer4 (rs_Meta src) (spec_from_hub (rs_Spec src) (rs4_Spec dst))
    (let s := rs_Status src in
     if has_conditions (st_Conditions s)
     then mkRemoteSyncerStatus4 (st_Conditions s) (st_LastBypassed s) (st_LastObserved s) (st_LastPushed s)
     else rs4_Status dst).

(** ** [remotetarget_conversion.go] *)

Definition RemoteTarget_ConvertTo (src : RemoteTarget_v1beta4) (dst : RemoteTarget) : RemoteTarget :=
  let s := rt4_Spec src in
  mkRemoteTarget (rt4_Meta src)
    (mkRemoteTargetSpec (rts4_UpstreamRepository s) (rts4_UpstreamBranch s) (rts4_TargetRepository s)
       (rts4_TargetBranch s) (rts4_MergeStrategy s))
    (if has_conditions (rt4_Conditions src) then rt4_Conditions src else rt_Conditions dst).

Definition RemoteTarget_ConvertFrom (src : RemoteTarget) (dst : RemoteTarget_v1beta4) : RemoteTarget_v1beta4 :=
  let s := rt_Spec src in
  mkRemoteTarget4 (rt_Meta src)
    (mkRemoteTargetSpec4 (UpstreamRepository s) (UpstreamBranch s) (TargetRepository s)
       (TargetBranch s) (MergeStrategy s))
    (if has_conditions (rt_Conditions src) then rt_Conditions src else rt4_Conditions dst).

(** ** [remoteuser_conversion.go] *)

Definition RemoteUser_ConvertTo (src : RemoteUser_v1beta4) (dst : RemoteUser) : RemoteUser :=
  mkRemoteUser (ru4_Meta src)
    (let s := ru4_Spec src in mkRemoteUserSpec (ru4_SecretRef s) (ru4_Email s) (ru4_GitBaseDomainFQDN s))
    (let s := ru4_Status src in
     if has_conditions (rus4_Conditions s) || negb (String.eqb (rus4_SecretBoundStatus s) "")
     then mkRemoteUserStatus (rus4_Conditions s) (rus4_ConnexionStatus s) (rus4_ConnexionDetails s)
            (rus4_GitUser s) (rus4_SecretBoundStatus s)
     else ru_Status dst).

Definition RemoteUser_ConvertFrom (src : RemoteUser) (dst : RemoteUser_v1beta4) : RemoteUser_v1beta4 :=
  mkRemoteUser4 (ru_Meta src)
    (let s := ru_Spec src in mkRemoteUserSpec4 (ru_SecretRef s) (ru_Email s) (ru_GitBaseDomainFQDN s))
    (let s := ru_Status src in
     if has_conditions (rus_Conditions s) || negb (String.eqb (rus_SecretBoundStatus s) "")
     then mkRemoteUserStatus4 (rus_Conditions s) (rus_ConnexionStatus s) (rus_ConnexionDetails s)
            (rus_GitUser s) (rus_SecretBoundStatus s)
     else ru4_Status dst).

(** ** [remoteuserbinding_conversion.go] *)

Definition RemoteUserBinding_ConvertTo (src : RemoteUserBinding_v1beta4) (dst : RemoteUserBinding)
  : RemoteUserBinding :=
  mkRUB (rub4_Meta src)
    (let s := rub4_Spec src in mkRUBSpec (rub4_Subject s) (rub4_RemoteUserRefs s) (rub4_RemoteTargetRefs s))
    (let s := rub4_Status src in
     if has_conditions (rubs4_Conditions s)
     then mkRUBStatus (rubs4_Conditions s) (rubs4_RemoteUserState s) (rubs4_RemoteUserHosts s)
            (rubs4_UserKubernetesID s)
     else rub_Status dst).

(** The status is not converted. *)
Definition RemoteUserBinding_ConvertFrom (src : RemoteUserBinding) (dst : RemoteUserBinding_v1beta4)
  : RemoteUserBinding_v1beta4 :=
  mkRUB4 (rub_Meta src)
    (let s := rub_Spec src in mkRUBSpec4 (rub_Subject s) (rub_RemoteUserRefs s) (rub_RemoteTargetRefs s))
    (rub4_Status dst).

#[export] Instance RemoteSyncer_convertible : Convertible RemoteSyncer_v1beta4 RemoteSyncer :=
  {| ConvertTo := RemoteSyncer_ConvertTo;
     ConvertFrom := RemoteSyncer_ConvertFrom;
     new_spoke := mkRemoteSyncer4 zero_meta zero_spec4 zero_status4;
     new_hub := mkRemoteSyncer zero_meta zero_spec (mkRemoteSyncerStatus [] None None None) |}.
#[export] Instance RemoteTarget_convertible : Convertible RemoteTarget_v1beta4 RemoteTarget :=
  {| ConvertTo := RemoteTarget_ConvertTo;
     ConvertFrom := RemoteTarget_ConvertFrom;
     new_spoke := mkRemoteTarget4 zero_meta (mkRemoteTargetSpec4 "" "" "" "" "") [];
     new_hub := mkRemoteTarget zero_meta (mkRemoteTargetSpec "" "" "" "" "") [] |}.
#[export] Instance RemoteUser_convertible : Convertible RemoteUser_v1beta4 RemoteUser :=
  {| ConvertTo := RemoteUser_ConvertTo;
     ConvertFrom := RemoteUser_ConvertFrom;
     new_spoke := mkRemoteUser4 zero_meta (mkRemoteUserSpec4 zero_ref "" "") zero_user_status4;
     new_hub := mkRemoteUser zero_meta (mkRemoteUserSpec zero_ref "" "") (mkRemoteUserStatus [] "" "" "" "") |}.
#[export] Instance RemoteUserBinding_convertible : Convertible RemoteUserBinding_v1beta4 RemoteUserBinding :=
  {| ConvertTo := RemoteUserBinding_ConvertTo;
     ConvertFrom := RemoteUserBinding_ConvertFrom;
     new_spoke := mkRUB4 zero_meta (mkRUBSpec4 (mkSubject "" "" "") [] []) zero_binding_status4;
     new_hub := mkRUB zero_meta (mkRUBSpec (mkSubject "" "" "") [] []) (mkRUBStatus [] "" [] "") |}.

(** ** Reading and writing back *)

(** (C30) An object created through v1beta4 is read back as it was written: everything
    of a target; everything of a syncer or a user whose status is either filled by a
    controller or untouched; everything but the status of a binding, which v1beta4
    clients never see. *)
Theorem spoke_roundtrip :
  (∀ x : RemoteSyncer_v1beta4,
     (rst4_Conditions (rs4_Status x) = [] → rs4_Status x = zero_status4) →
     to_spoke (hub := RemoteSyncer) (to_hub x) = x) ∧
  (∀ x : RemoteTarget_v1beta4, to_spoke (hub := RemoteTarget) (to_hub x) = x) ∧
  (∀ x : RemoteUser_v1beta4,
     (rus4_Conditions (ru4_Status x) = [] → rus4_SecretBoundStatus (ru4_Status x) = "" →
      ru4_Status x = zero_user_status4) →
     to_spoke (hub := RemoteUser) (to_hub x) = x) ∧
  (∀ x : RemoteUserBinding_v1beta4,
     to_spoke (hub := RemoteUserBinding) (to_hub x) = mkRUB4 (rub4_Meta x) (rub4_Spec x) zero_binding_status4).
Proof.
  split_and!.
  - intros [m [? ? [] ? ? ? ? ? ? ? ? ? ? ? ? ? ? ?] [[|c cs] lb lo lp]] Hs; [|reflexivity].
    unfold to_spoke, to_hub. cbn in *. by rewrite (Hs eq_refl).
  - by intros [m [] [|c cs]].
  - intros [m [] [[|c cs] ? ? ? b]] Hs; [|reflexivity].
    unfold to_spoke, to_hub. cbn in *. unfold RemoteUser_ConvertFrom, RemoteUser_ConvertTo. cbn.
    destruct (String.eqb_spec b "") as [->|E]; cbn; [by rewrite Hs|].
    apply String.eqb_neq in E. by rewrite E.
  - by intros [m [] s].
Qed.

Lemma spoke_roundtrip_witness :
  ∃ x : RemoteUser_v1beta4, ru4_Spec x = mkRemoteUserSpec4 (mkRef "" "git-token") "a@x" "git.x" ∧
    to_spoke (hub := RemoteUser) (to_hub x) = x.
Proof.
  exists (mkRemoteUser4 (new_meta "alice" "team" ∅) (mkRemoteUserSpec4 (mkRef "" "git-token") "a@x" "git.x")
            zero_user_status4).
  split; [reflexivity|]. apply (proj1 (proj2 (proj2 spoke_roundtrip))). intros _ _. reflexivity.
Defined.

(** What v1beta4 cannot express is back to its zero value. *)
Definition forget (s : RemoteSyncerSpec) : RemoteSyncerSpec :=
  {| RemoteRepository := RemoteRepository s;
     DefaultBranch := DefaultBranch s;
     Scoped := Scoped s;
     Strategy := Strategy s;
     TargetStrategy := TargetStrategy s;
     RemoteTargetSelector := RemoteTargetSelector s;
     DefaultBlockAppliedMessage := DefaultBlockAppliedMessage s;
     ExcludedFields := ExcludedFields s;
     ExcludedFieldsConfigMapsRef := [match ExcludedFieldsConfigMapsRef s with r :: _ => r | [] => None end];
     RootPath := RootPath s;
     ResourceFinder := ResourceFinder s;
     RemoteUserBindingSelector := RemoteUserBindingSelector s;
     BypassInterceptionSubjects := BypassInterceptionSubjects s;
     BypassAllServiceAccounts := false;
     DefaultUnauthorizedUserMode := DefaultUnauthorizedUserMode s;
     DefaultPushErrorBehavior := "";
     PushErrorRetryNumber := 0;
     DefaultRemoteUserRef := DefaultRemoteUserRef s;
     DefaultRemoteTargetRef := DefaultRemoteTargetRef s;
     InsecureSkipTlsVerify := InsecureSkipTlsVerify s;
     CABundleSecretRef := CABundleSecretRef s;
     SOPS := mkSOPSConfig false zero_ref |}.

Definition expressible (s : RemoteSyncerSpec) : Prop :=
  BypassAllServiceAccounts s = false ∧ DefaultPushErrorBehavior s = "" ∧ PushErrorRetryNumber s = 0%Z ∧
  SOPS s = mkSOPSConfig false zero_ref ∧ (length (ExcludedFieldsConfigMapsRef s) ≤ 1)%nat.

Lemma edited_spec (h : RemoteSyncer) : rs_Spec (edited (spoke := RemoteSyncer_v1beta4) id h) = forget (rs_Spec h).
Proof. destruct h as [m [? ? [? ? ?] ? ? ? ? ? [|? ?] ? ? ? ? ? ? ? ? ? ? ? ? ?] s]; reflexivity. Qed.

(** A syncer edited through v1beta4 comes back with everything that v1beta4 does not
    know reset, whatever the edit: encryption is switched off, the push-error settings
    and the bypass of service accounts are dropped, and of the ConfigMaps of excluded
    fields only the first one stays. An edit that changes nothing resets exactly that. *)
Theorem v1beta4_edit_resets (edit : RemoteSyncer_v1beta4 → RemoteSyncer_v1beta4) (h : RemoteSyncer) :
  let spec := rs_Spec (edited edit h) in
  SOPS spec = mkSOPSConfig false zero_ref ∧ BypassAllServiceAccounts spec = false ∧
  DefaultPushErrorBehavior spec = "" ∧ PushErrorRetryNumber spec = 0%Z ∧
  length (ExcludedFieldsConfigMapsRef spec) = 1%nat ∧
  rs_Spec (edited (spoke := RemoteSyncer_v1beta4) id h) = forget (rs_Spec h).
Proof. split_and!; try done. apply edited_spec. Qed.

(** ** What stays the same *)

(** A nil entry of the ConfigMap list is skipped everywhere. *)
Lemma enumerate_forget `{Lib} s owner : expressible s → RemoteSyncerRefs (forget s) owner = RemoteSyncerRefs s owner.
Proof.
  intros (_ & _ & _ & Hsops & Hlen). unfold RemoteSyncerRefs. cbn. rewrite Hsops.
  by destruct (ExcludedFieldsConfigMapsRef s) as [|? [|? ?]]; [| |simpl in Hlen; lia].
Qed.

Lemma excluded_forget {W} `{Cluster W, Lib} ns s owner w : expressible s →
  excluded_paths ns (forget s) owner w = excluded_paths ns s owner w.
Proof.
  intros (_ & _ & _ & _ & Hlen). unfold excluded_paths. cbn [forget ExcludedFieldsConfigMapsRef ExcludedFields].
  by destruct (ExcludedFieldsConfigMapsRef s) as [|? [|? ?]]; [| |simpl in Hlen; lia].
Qed.

(** For a syncer that uses nothing newer than v1beta4, going through v1beta4 is harmless:
    the validator says the same, the same references are authorised, and the same fields
    are excluded from what is pushed, although the stored list of ConfigMaps may hold a
    nil entry afterwards. *)
Theorem v1beta4_edit_inert {W} `{Cluster W, Lib} (h : RemoteSyncer) : expressible (rs_Spec h) →
  let spec := rs_Spec (edited (spoke := RemoteSyncer_v1beta4) id h) in
  validateRemoteSyncerSpec spec = validateRemoteSyncerSpec (rs_Spec h) ∧
  (∀ owner, RemoteSyncerRefs spec owner = RemoteSyncerRefs (rs_Spec h) owner) ∧
  ∀ ns owner (w : W), excluded_paths ns spec owner w = excluded_paths ns (rs_Spec h) owner w.
Proof.
  intros He spec. unfold spec. rewrite edited_spec.
  split_and!; [done|intros; by apply enumerate_forget|intros; by apply excluded_forget].
Qed.

Definition plain_syncer : RemoteSyncer :=
  mkRemoteSyncer (new_meta "sync" "team" ∅)
    (mkRemoteSyncerSpec "https://git.x/org/app.git" "main" (mkScopedResources None None []) CommitApply OneTarget
       None "" [".metadata.uid"] [] "" true None [] false BlockDefaultUser "" 0 None None false zero_ref
       (mkSOPSConfig false zero_ref))
    (mkRemoteSyncerStatus [] None None None).

Lemma v1beta4_edit_inert_witness :
  ExcludedFieldsConfigMapsRef (rs_Spec (edited (spoke := RemoteSyncer_v1beta4) id plain_syncer)) = [None] ∧
  validateRemoteSyncerSpec (rs_Spec (edited (spoke := RemoteSyncer_v1beta4) id plain_syncer)) =
    validateRemoteSyncerSpec (rs_Spec plain_syncer).
Proof.
  split; [reflexivity|]. apply (v1beta4_edit_inert (W := World) plain_syncer).
  repeat split. simpl. apply Nat.le_0_l.
Defined.
