(* ===== verification/Webhook4.v ===== *)
(** * The admission webhooks of v1beta4 ([internal/webhook/v1beta4])

    Nothing in the repository registers these handlers and validators; they are modelled
    to say how far they agree with those of v1beta5 on the objects they would decide about,
    which the conversions of [Conversion.v] relate. *)

From S2P Require Import Prelude GoStr Api Errors External Sim Refs Rbac Naming Pipeline Policies Webhook Validate Conversion.

(** ** [remotesyncer_webhook.go] *)

Section Validators.
Context `{Lib}.

Definition unsupported_namespace : string := "should not be set as it is not supported in this version of syngit".

(** A reference that names a namespace. *)
Definition named_elsewhere (ref : option ObjectReference) : bool :=
  match ref with Some r => negb (String.eqb (ref_Namespace r) "") | None => false end.
Definition check_namespace (field : string) (ref : option ObjectReference) : list field_error :=
  match ref with
  | Some r => when (negb (String.eqb (ref_Namespace r) ""))
      (Invalid (FChild (spec_path field) ["namespace"]) (ref_Namespace r) unsupported_namespace)
  | None => []
  end.

Definition check_default_user_v1beta4 (r : RemoteSyncerSpec_v1beta4) : list field_error :=
  if String.eqb (rss4_DefaultUnauthorizedUserMode r) BlockDefaultUser && is_some (rss4_DefaultRemoteUserRef r) then
    [InvalidRef (spec_path "defaultRemoteUserRef") (rss4_DefaultRemoteUserRef r)
       ("should not be set when defaultUnauthorizedUserMode is set to " ++ (quote ++ ("Block" ++ quote)))]
  else if String.eqb (rss4_DefaultUnauthorizedUserMode r) UseDefaultUser && negb (is_some (rss4_DefaultRemoteUserRef r)) then
    [Required (spec_path "defaultRemoteUserRef")
       ("must be set when defaultUnauthorizedUserMode is set to " ++ (quote ++ ("UseDefaultUser" ++ quote)))]
  else [].

Definition validateRemoteSyncerSpec_v1beta4 (r : RemoteSyncerSpec_v1beta4) : list field_error :=
  (check_default_user_v1beta4 r ++
   when (is_some (rss4_DefaultRemoteUserRef r) && negb (is_some (rss4_DefaultRemoteTargetRef r)))
     (InvalidRef (spec_path "defaultRemoteTargetRef") (rss4_DefaultRemoteTargetRef r)
        "should be set when defaultRemoteUserRef is set") ++
   when (negb (is_some (rss4_DefaultRemoteUserRef r)) && is_some (rss4_DefaultRemoteTargetRef r))
     (InvalidRef (spec_path "defaultRemoteUserRef") (rss4_DefaultRemoteUserRef r)
        "should be set when defaultRemoteTargetRef is set") ++
   when (negb (String.eqb (rss4_DefaultBlockAppliedMessage r) "") && negb (String.eqb (rss4_Strategy r) CommitOnly))
     (Forbidden (spec_path "defaultBlockAppliedMessage")
        ("should not be set if strategy is not set to " ++ (quote ++ (CommitOnly ++ quote)))) ++
   when (negb (String.eqb (rss4_Strategy r) CommitOnly) && negb (String.eqb (rss4_Strategy r) CommitApply))
     (Invalid (spec_path "strategy") (rss4_Strategy r)
        ("must be set to " ++ (quote ++ (CommitApply ++ (quote ++ (" or " ++ (quote ++ (CommitOnly ++ quote)))))))) ++
   when (negb (git_uri (rss4_RemoteRepository r)))
     (Invalid (spec_path "remoteRepository") (rss4_RemoteRepository r) "invalid Git URI") ++
   concat (map check_excluded_field (rss4_ExcludedFields r)) ++
   when (negb (String.eqb (rss4_DefaultUnauthorizedUserMode r) BlockDefaultUser) && String.eqb (rss4_DefaultBranch r) "")
     (Required (spec_path "defaultBranch")
        "must be set when the defaultUnauthorizedUserMode is set to UseDefaultUser") ++
   check_namespace "defaultRemoteUserRef" (rss4_DefaultRemoteUserRef r) ++
   check_namespace "defaultRemoteTargetRef" (rss4_DefaultRemoteTargetRef r))%list.

(** The first value is listed twice. *)
Definition user_specific_values_v1beta4 : list string :=
  [""; RtAnnotationValueOneUserOneBranch; RtAnnotationValueOneUserOneBranch].

Definition validateRemoteSyncer_v1beta4 (remoteSyncer : RemoteSyncer_v1beta4) : option invalid_error :=
  let userSpecific := mget (om_Annotations (rs4_Meta remoteSyncer)) RtAnnotationKeyUserSpecific in
  invalid_unless_empty "RemoteSyncer" (om_Name (rs4_Meta remoteSyncer))
    (validateRemoteSyncerSpec_v1beta4 (rs4_Spec remoteSyncer) ++
     when (negb (existsb (String.eqb userSpecific) user_specific_values_v1beta4))
       (Invalid (FChild (FChild (FPath ["metadata"]) ["annotations"]) [RtAnnotationKeyUserSpecific]) userSpecific
          ("must be either " ++ (RtAnnotationValueOneUserOneBranch ++ (" or " ++
            (RtAnnotationValueOneUserOneBranch ++ ("; got " ++ userSpecific)))))))%list.

(** ** [remotetarget_webhook.go], [remoteuserbinding_webhook.go] *)

Definition same_target_v1beta4 (r : RemoteTargetSpec_v1beta4) : bool :=
  String.eqb (rts4_UpstreamBranch r) (rts4_TargetBranch r) && String.eqb (rts4_UpstreamRepository r) (rts4_TargetRepository r).

Definition validateRemoteTargetSpec_v1beta4 (r : RemoteTargetSpec_v1beta4) : list field_error :=
  (when (same_target_v1beta4 r && negb (String.eqb (rts4_MergeStrategy r) ""))
     (Invalid (spec_path "mergeStrategy") (rts4_MergeStrategy r) (Error (wrongRemoteSyncerConfig
        "should not be set when the target repo & target branch are the same as the upstream repo & branch"))) ++
   when (negb (same_target_v1beta4 r) && String.eqb (rts4_MergeStrategy r) "")
     (Invalid (spec_path "mergeStrategy") (rts4_MergeStrategy r) (Error (wrongRemoteSyncerConfig
        "should be set when the target repo & target branch are different from the upstream repo & branch"))))%list.

Definition validateRemoteTarget_v1beta4 (remoteTarget : RemoteTarget_v1beta4) : option invalid_error :=
  invalid_unless_empty "RemoteTarget" (om_Name (rt4_Meta remoteTarget))
    (validateRemoteTargetSpec_v1beta4 (rt4_Spec remoteTarget)).

(** One of the two loops over references. *)
Definition check_namespaces (field : string) (refs : list ObjectReference) : list field_error :=
  concat (imap (λ i ref, when (negb (String.eqb (ref_Namespace ref) ""))
    (Invalid (FIndex (spec_path field) i) (ref_Namespace ref) unsupported_namespace)) refs).

Definition validateRemoteUserBindingSpec_v1beta4 (r : RemoteUserBindingSpec_v1beta4) : list field_error :=
  (check_namespaces "remoteUserRefs" (rub4_RemoteUserRefs r) ++
   check_namespaces "remoteTargetRefs" (rub4_RemoteTargetRefs r))%list.

Definition validateRemoteUserBinding_v1beta4 (rub : RemoteUserBinding_v1beta4) : option invalid_error :=
  invalid_unless_empty "RemoteUserBinding" (om_Name (rub4_Meta rub)) (validateRemoteUserBindingSpec_v1beta4 (rub4_Spec rub)).

(** ** The validators *)

Definition RemoteSyncerCustomValidator_v1beta4 : Validator RemoteSyncer_v1beta4 := {|
  ValidateCreate remotesyncer := ([], validateRemoteSyncer_v1beta4 remotesyncer);
  ValidateUpdate oldObj newRemotesyncer := ([], validateRemoteSyncer_v1beta4 newRemotesyncer);
  ValidateDelete remotesyncer := ([], None) |}.
Definition RemoteTargetCustomValidator_v1beta4 : Validator RemoteTarget_v1beta4 := {|
  ValidateCreate remotetarget := ([], validateRemoteTarget_v1beta4 remotetarget);
  ValidateUpdate oldObj newRemotetarget := ([], validateRemoteTarget_v1beta4 newRemotetarget);
  ValidateDelete remotetarget := ([], None) |}.
Definition RemoteUserCustomValidator_v1beta4 : Validator RemoteUser_v1beta4 := {|
  ValidateCreate remoteuser := ([], None);
  ValidateUpdate oldObj newRemoteuser := ([], None);
  ValidateDelete remoteuser := ([], None) |}.
Definition RemoteUserBindingCustomValidator_v1beta4 : Validator RemoteUserBinding_v1beta4 := {|
  ValidateCreate remoteuserbinding := ([], validateRemoteUserBinding_v1beta4 remoteuserbinding);
  ValidateUpdate oldObj newRemoteuserbinding := ([], validateRemoteUserBinding_v1beta4 newRemoteuserbinding);
  ValidateDelete remoteuserbinding := ([], None) |}.
End Validators.
#[export] Existing Instances RemoteSyncerCustomValidator_v1beta4 RemoteTargetCustomValidator_v1beta4.
#[export] Existing Instances RemoteUserCustomValidator_v1beta4 RemoteUserBindingCustomValidator_v1beta4.

(** ** [utils.go], [remotesyncer_rules_permissions.go] *)

Definition doesUserBypassWebhook_v1beta4 (user : UserInfo) (managerNs : string) : bool :=
  existsb (String.eqb "system:masters") (ui_Groups user) ||
  HasPrefix (ui_Username user) ("system:serviceaccount:" ++ managerNs).

Definition isInvalidCombinationError_v1beta4 (err : error) : bool :=
  Contains (Error err) "no matches for kind" || Contains (Error err) "could not find the requested resource".

Class RemoteUserJson_v1beta4 := { json_Marshal_v1beta4 : RemoteUser_v1beta4 → result error string }.

Section Handlers.
Context {W : Type} `{Cluster W}.

(** The reviews these handlers write carry no UID. *)
Definition review_v1beta4 (user : UserInfo) (attrs : ResourceAttributes) : M error W bool :=
  create_SubjectAccessReview (mkSAR (ui_Username user) (ui_Groups user) "" attrs).

(** The loop over the verbs: whether the operation is taken as allowed. *)
Fixpoint verbs_allowed_v1beta4 (user : UserInfo) (namespace group version resource : string)
    (verbs : list string) : M error W bool :=
  match verbs with
  | [] => ret false
  | verb :: rest =>
      r ⇐ attempt (review_v1beta4 user (mkAttrs namespace verb group version resource ""));;
      match r with
      | inr err => if isInvalidCombinationError_v1beta4 err then ret true else throw err
      | inl true => ret true
      | inl false => verbs_allowed_v1beta4 user namespace group version resource rest
      end
  end.

Definition forbidden_operation_v1beta4 (user : UserInfo) (namespace group version resource : string)
    (forbiddenOperations : list string) (operation : string) : M error W (list string) :=
  match OperationToVerb operation with
  | Err _ | Panic => ret forbiddenOperations
  | Ok verbs =>
      allowed ⇐ verbs_allowed_v1beta4 user namespace group version resource verbs;;
      ret (if allowed then forbiddenOperations else (forbiddenOperations ++ [operation])%list)
  end.

Definition forbidden_resource_v1beta4 (user : UserInfo) (namespace : string) (rule : RuleWithOperations)
    (group version : string) (forbidden : gmap string string) (resource : string)
  : M error W (gmap string string) :=
  forbiddenOperations ⇐ for_fold (forbidden_operation_v1beta4 user namespace group version resource) []
    (rule_Operations rule);;
  ret (if (0 <? length forbiddenOperations)%nat
       then <[group ++ ("/" ++ (version ++ (" " ++ resource))) := Join forbiddenOperations ", "]> forbidden
       else forbidden).

Definition forbidden_rule_v1beta4 (user : UserInfo) (namespace : string)
    (forbidden : gmap string string) (rule : RuleWithOperations) : M error W (gmap string string) :=
  for_fold (λ forbidden group,
    for_fold (λ forbidden version,
      for_fold (forbidden_resource_v1beta4 user namespace rule group version) forbidden (rule_Resources rule))
      forbidden (rule_APIVersions rule))
    forbidden (rule_APIGroups rule).

(** [ord] is the iteration order of the map of forbidden resources. *)
Definition hasRightResourcesPermissions_v1beta4 (ord : gmap string string → list (string * string))
    (rs : RemoteSyncer_v1beta4) (user : UserInfo) : M error W (bool * list string) :=
  forbiddenResourcesMap ⇐ for_fold (forbidden_rule_v1beta4 user (om_Namespace (rs4_Meta rs))) ∅
    (sr4_Rules (rss4_ScopedResources (rs4_Spec rs)));;
  let forbiddenResources :=
    map (λ '(k, v), k ++ (" [" ++ (v ++ "]"))) (ord forbiddenResourcesMap) in
  ret ((length forbiddenResources =? 0)%nat, forbiddenResources).

Definition RemoteSyncer_Handle_v1beta4 `{Decoder RemoteSyncer_v1beta4}
    (ord : gmap string string → list (string * string)) (managerNs : string) (req : AdmissionRequest)
  : M error W Response :=
  let user := ar_UserInfo req in
  if doesUserBypassWebhook_v1beta4 user managerNs then
    ret (Allowed "System user is allowed to scope any resources")
  else match DecodeObject req with
       | Panic => panic
       | Err err => ret (Errored 400 err)
       | Ok rs =>
           r ⇐ attempt (hasRightResourcesPermissions_v1beta4 ord rs user);;
           ret (match r with
                | inr err => Errored 500 err
                | inl (true, _) => Allowed ("The user " ++ (format_user user ++
                    " is allowed to scope all of the listed resources"))
                | inl (false, forbiddenResources) =>
                    Denied (Error (resourceScopeForbidden user forbiddenResources))
                end)
       end.

(** ** [remoteuser_secrets_permissions.go] *)

Definition secret_attrs_v1beta4 (ru : RemoteUser_v1beta4) : ResourceAttributes :=
  let secretRef := ru4_SecretRef (ru4_Spec ru) in
  let namespace := if negb (String.eqb (ref_Namespace secretRef) "") then ref_Namespace secretRef
                   else om_Namespace (ru4_Meta ru) in
  mkAttrs namespace "get" "" "v1" "secrets" (ref_Name secretRef).

Definition RemoteUserPermissions_Handle_v1beta4 `{Decoder RemoteUser_v1beta4} (req : AdmissionRequest)
  : M error W Response :=
  let user := ar_UserInfo req in
  match DecodeObject req with
  | Panic => panic
  | Err err => ret (Errored 400 err)
  | Ok ru =>
      let name := ref_Name (ru4_SecretRef (ru4_Spec ru)) in
      allowed ⇐ attempt (review_v1beta4 user (secret_attrs_v1beta4 ru));;
      ret (match allowed with
           | inr err => Errored 400 err
           | inl false => Denied (Error (credentialsNotFound ("the user " ++ (format_user user ++
               " is not allowed to get the secret for its own remote user")) name))
           | inl true => Allowed ("The user " ++ (format_user user ++
               (" is allowed to get the secret: " ++ name)))
           end)
  end.

(** ** [remoteuserbinding_permissions.go] *)

(** The loop over the references: the response that ends it early, if any. The namespace
    of a reference that names one is kept for the references after it. *)
Fixpoint review_references_v1beta4 (user : UserInfo) (namespace : string) (refs : list ObjectReference)
  : M error W (option Response) :=
  match refs with
  | [] => ret None
  | ru :: rest =>
      let namespace := if negb (String.eqb (ref_Namespace ru) "") then ref_Namespace ru else namespace in
      allowed ⇐ attempt (review_v1beta4 user
        (mkAttrs namespace "get" GroupVersion_Group "v1beta4" "remoteusers" (ref_Name ru)));;
      match allowed with
      | inr err => ret (Some (Errored 400 err))
      | inl false => ret (Some (Denied (Error (denyGetRemoteUser user ru))))
      | inl true => review_references_v1beta4 user namespace rest
      end
  end.

Definition RemoteUserBindingPermissions_Handle_v1beta4 `{Decoder RemoteUserBinding_v1beta4}
    (req : AdmissionRequest) : M error W Response :=
  let user := ar_UserInfo req in
  match DecodeObject req with
  | Panic => panic
  | Err err => ret (Errored 400 err)
  | Ok rub =>
      early ⇐ review_references_v1beta4 user (om_Namespace (rub4_Meta rub)) (rub4_RemoteUserRefs (rub4_Spec rub));;
      ret (default (Allowed ("The user " ++ (format_user user ++
        " is allowed to get all the referenced remoteusers."))) early)
  end.
End Handlers.

(** ** [remoteuser_managed_permissions.go] *)

Section Managed.
Context `{Lib, Decoder RemoteUser_v1beta4, RemoteUserJson_v1beta4}.

Definition is_managed_v1beta4 (ru : RemoteUser_v1beta4) : bool :=
  String.eqb (mget (om_Annotations (ru4_Meta ru)) RubAnnotationKeyManaged) "true".

Definition owned_by_v1beta4 (ru : RemoteUser_v1beta4) (user : UserInfo) : bool :=
  String.eqb (mget (om_Labels (ru4_Meta ru)) K8sUserLabelKey) (Sanitize (ui_Username user)).

Definition stamp_owner_v1beta4 (user : UserInfo) (ru : RemoteUser_v1beta4) : RemoteUser_v1beta4 :=
  let m := ru4_Meta ru in
  let m := set_labels (<[K8sUserLabelKey := Sanitize (ui_Username user)]> (om_Labels m)) m in
  let m := set_annotations (<[K8sUserLabelKey := ui_Username user]> (om_Annotations m)) m in
  mkRemoteUser4 m (ru4_Spec ru) (ru4_Status ru).

(** From the [CREATE] comment on. *)
Definition stamp_response_v1beta4 (req : AdmissionRequest) (ru : RemoteUser_v1beta4) : result error Response :=
  if is_managed_v1beta4 ru then
    match json_Marshal_v1beta4 (stamp_owner_v1beta4 (ar_UserInfo req) ru) with
    | Panic => Panic
    | Err err => Ok (Errored 500 err)
    | Ok marshaledRu => Ok (PatchResponseFromRaw (ar_Object req) marshaledRu)
    end
  else Ok (Allowed "The RemoteUser is not managed").

Definition RemoteUserManaged_Handle_v1beta4 (managerNs : string) (req : AdmissionRequest)
  : result error Response :=
  let user := ar_UserInfo req in
  match DecodeObject req with
  | Panic => Panic
  | Err err => Ok (Errored 400 err)
  | Ok ru =>
      if String.eqb (ar_Operation req) "DELETE" then
        if doesUserBypassWebhook_v1beta4 user managerNs then
          Ok (Allowed "System user is allowed to delete any RemoteUser")
        else if is_managed_v1beta4 ru then
          match DecodeRaw (T := RemoteUser_v1beta4) (ar_OldObject req) with
          | Panic => Panic
          | Err err => Ok (Errored 400 err)
          | Ok oldRu =>
              Ok (if negb (owned_by_v1beta4 oldRu user)
                  then Denied "The user is not allowed to delete the RemoteUser of another user"
                  else Allowed "The user is allowed to delete its own RemoteUser")
          end
        else stamp_response_v1beta4 req ru
      else if String.eqb (ar_Operation req) "UPDATE" then
        if doesUserBypassWebhook_v1beta4 user managerNs then
          Ok (Allowed "System user is allowed to update any RemoteUser")
        else match DecodeRaw (T := RemoteUser_v1beta4) (ar_OldObject req) with
             | Panic => Panic
             | Err err => Ok (Errored 400 err)
             | Ok oldRu =>
                 if is_managed_v1beta4 oldRu && negb (owned_by_v1beta4 oldRu user)
                 then Ok (Denied "The user is not allowed to update the RemoteUser of another user")
                 else stamp_response_v1beta4 req ru
             end
      else stamp_response_v1beta4 req ru
  end.
End Managed.

(** ** The validators of the two versions *)

(** The reference, if any, stays in the namespace of the object that holds it. *)
Definition unqualified (ref : option ObjectReference) : Prop := ∀ r, ref = Some r → ref_Namespace r = "".

Section ValidatorsAgree.
Context `{Lib}.

Lemma check_namespace_nil field ref : check_namespace field ref = [] ↔ unqualified ref.
Proof.
  unfold unqualified, check_namespace. destruct ref as [r|]; [|naive_solver].
  rewrite when_nil, negb_false_iff, String.eqb_eq. naive_solver.
Qed.

Lemma check_namespaces_nil field refs : check_namespaces field refs = [] ↔ Forall (λ r, ref_Namespace r = "") refs.
Proof.
  assert (Hg : ∀ f : nat → ObjectReference → list field_error,
    (∀ i r, f i r = [] ↔ ref_Namespace r = "") →
    concat (imap f refs) = [] ↔ Forall (λ r, ref_Namespace r = "") refs).
  { induction refs as [|r refs IH]; intros f Hf; simpl; [by split|].
    rewrite app_nil, Hf, Forall_cons, IH; [done|]. intros i. apply Hf. }
  apply Hg. intros i r. by rewrite when_nil, negb_false_iff, String.eqb_eq.
Qed.

(** The checks of v1beta4 are those of v1beta5, then two of its own. *)
Lemma spec_errors_split (r : RemoteSyncerSpec_v1beta4) (dst : RemoteSyncerSpec) :
  validateRemoteSyncerSpec_v1beta4 r =
  (validateRemoteSyncerSpec (spec_to_hub r dst) ++
   check_namespace "defaultRemoteUserRef" (rss4_DefaultRemoteUserRef r) ++
   check_namespace "defaultRemoteTargetRef" (rss4_DefaultRemoteTargetRef r))%list.
Proof. unfold validateRemoteSyncerSpec_v1beta4, validateRemoteSyncerSpec. by rewrite <- !app_assoc. Qed.

Lemma user_specific_v1beta4 v :
  existsb (String.eqb v) user_specific_values_v1beta4 = true ↔
  existsb (String.eqb v) user_specific_values = true ∧ v ≠ RtAnnotationValueOneUserOneFork.
Proof.
  simpl. rewrite !orb_true_iff, !String.eqb_eq. unfold RtAnnotationValueOneUserOneBranch, RtAnnotationValueOneUserOneFork.
  naive_solver.
Qed.

(** What the validators of v1beta4 say of an object, next to what those of v1beta5 say of
    the object it is stored as: the same for a target and a user; for a syncer, v1beta4
    also refuses the policy one-user-one-fork and default references to another namespace;
    for a binding, references to other namespaces. So whatever v1beta4 would admit can be
    updated through v1beta5. *)
Theorem v1beta4_validators_exact :
  (∀ x : RemoteTarget_v1beta4, ValidateCreate x = ValidateCreate (to_hub (hub := RemoteTarget) x)) ∧
  (∀ x : RemoteUser_v1beta4, ValidateCreate x = ValidateCreate (to_hub (hub := RemoteUser) x)) ∧
  (∀ x : RemoteSyncer_v1beta4, (ValidateCreate x).2 = None ↔
     (ValidateCreate (to_hub (hub := RemoteSyncer) x)).2 = None ∧
     mget (om_Annotations (rs4_Meta x)) RtAnnotationKeyUserSpecific ≠ RtAnnotationValueOneUserOneFork ∧
     unqualified (rss4_DefaultRemoteUserRef (rs4_Spec x)) ∧ unqualified (rss4_DefaultRemoteTargetRef (rs4_Spec x))) ∧
  (∀ x : RemoteUserBinding_v1beta4, (ValidateCreate x).2 = None ↔
     Forall (λ r, ref_Namespace r = "") (rub4_RemoteUserRefs (rub4_Spec x)) ∧
     Forall (λ r, ref_Namespace r = "") (rub4_RemoteTargetRefs (rub4_Spec x))).
Proof.
  split_and!; [done|done|intros x|intros x]; simpl.
  - unfold validateRemoteSyncer_v1beta4, validateRemoteSyncer, validateSyncer. cbv zeta.
    rewrite !invalid_unless_empty_none, (spec_errors_split _ zero_spec), !app_nil, !check_namespace_nil, !when_nil,
      !negb_false_iff, user_specific_v1beta4. simpl. tauto.
  - unfold validateRemoteUserBinding_v1beta4, validateRemoteUserBindingSpec_v1beta4.
    by rewrite invalid_unless_empty_none, app_nil, !check_namespaces_nil.
Qed.
End ValidatorsAgree.

(** ** The permission handlers of the two versions *)

Definition without_uid (user : UserInfo) : UserInfo :=
  mkUserInfo (ui_Username user) "" (ui_Groups user) (ui_Extra user).

Section HandlersAgree.
Context {W : Type} `{Cluster W}.

Lemma review_is_CheckAccess user attrs : review_v1beta4 (W := W) user attrs = CheckAccess (without_uid user) attrs.
Proof. reflexivity. Qed.

Lemma isOperationAllowed_one user ns g v res verbs :
  same_runs (verbs_allowed_v1beta4 (W := W) user ns g v res verbs)
    (isOperationAllowed (without_uid user) [ns] g v res verbs).
Proof.
  induction verbs as [|verb verbs IH]; intros w; simpl; [done|].
  rewrite bind_assoc, review_is_CheckAccess. apply bind_same_runs; [done|].
  intros [[]|err]; [done|exact IH|]. intros w'. unfold isInvalidCombinationError_v1beta4, isInvalidCombinationError.
  by destruct (_ || _).
Qed.

Lemma forbidden_rule_one user ns f rule :
  same_runs (forbidden_rule_v1beta4 (W := W) user ns f rule) (forbidden_rule (without_uid user) [ns] f rule).
Proof.
  apply for_fold_same_runs; [|done..]. intros f1 g. apply for_fold_same_runs; [|done..]. intros f2 v.
  apply for_fold_same_runs; [|done..]. intros f3 res. apply bind_same_runs.
  - apply for_fold_same_runs; [|done..]. intros ops op. unfold forbidden_operation_v1beta4, forbidden_operation.
    destruct (OperationToVerb op); [|done..]. by rewrite isOperationAllowed_one.
  - by intros [|o ops].
Qed.

(** The rules of a syncer are reviewed by v1beta4 as v1beta5 reviews them in the namespace of
    the stored syncer, except that the reviews leave out the UID of the user. *)
Theorem rules_review_agrees ord rs user :
  same_runs (hasRightResourcesPermissions_v1beta4 (W := W) ord rs user)
    (hasRightResourcesPermissions ord (Scoped (rs_Spec (to_hub rs))) (without_uid user) [om_Namespace (rs4_Meta rs)]).
Proof.
  apply bind_same_runs; [|done]. apply for_fold_same_runs; [|done..]. intros f rule. apply forbidden_rule_one.
Qed.

(** A reference to a RemoteUser of a namespace, through v1beta4. *)
Definition user_at (namespace : string) (ru : ObjectReference) : ObjectRef :=
  {| or_Namespace := namespace; or_Name := ref_Name ru; or_Group := GroupVersion_Group; or_Version := "v1beta4";
     or_Resource := "remoteusers"; or_FieldPath := FPath [] |}.

(** What the handler reviews: a namespace that is named stays for the references after it. *)
Fixpoint carried (namespace : string) (refs : list ObjectReference) : list ObjectRef :=
  match refs with
  | [] => []
  | ru :: rest =>
      let namespace := if negb (String.eqb (ref_Namespace ru) "") then ref_Namespace ru else namespace in
      user_at namespace ru :: carried namespace rest
  end.

Lemma carried_unqualified namespace refs :
  Forall (λ r, ref_Namespace r = "") refs → carried namespace refs = map (user_at namespace) refs.
Proof. induction 1 as [|r refs Hr _ IH]; simpl; [done|]. rewrite Hr. simpl. by rewrite IH. Qed.

Lemma review_references_iff user namespace refs (w w' : W) :
  review_references_v1beta4 user namespace refs w = (Ok None, w') ↔
  all_granted (without_uid user) (carried namespace refs) w w'.
Proof.
  split.
  - revert namespace w; induction refs as [|ru refs IH]; intros ns w Hr; simpl in Hr; inv_ok; [constructor|].
    match goal with E : attempt _ _ = _ |- _ => apply attempt_ok_inv in E; rename E into Ha end.
    destruct x as [[]|e]; inv_ok. simpl. econstructor; [exact Ha|by apply IH].
  - revert namespace w; induction refs as [|ru refs IH]; intros ns w Hg.
    + by inversion Hg; subst.
    + inversion Hg as [|? ? ? w1 ? Hrev Hrest]; subst. simpl. rewrite (bind_ok _ _ _ (inl true) w1); [by apply IH|].
      unfold attempt. match goal with |- context [review_v1beta4 ?u ?a] =>
        change (review_v1beta4 u a w) with (create_SubjectAccessReview (mkSAR (ui_Username u) (ui_Groups u) "" a) w) end.
      unfold reviewed, without_uid, get_attrs in Hrev. simpl in Hrev. by rewrite Hrev.
Qed.

(** What the binding handler of v1beta4 asks for: [get] on the RemoteUsers of the binding,
    one after the other, and nothing for its RemoteTargets. For a binding the validator of
    v1beta4 admits they are those of its own namespace. *)
Theorem v1beta4_binding_gate `{Decoder RemoteUserBinding_v1beta4} req (w : W) resp w' :
  RemoteUserBindingPermissions_Handle_v1beta4 req w = (Ok resp, w') → lets_through resp = true →
  ∃ rub, DecodeObject req = Ok rub ∧
    all_granted (without_uid (ar_UserInfo req))
      (carried (om_Namespace (rub4_Meta rub)) (rub4_RemoteUserRefs (rub4_Spec rub))) w w' ∧
    (validateRemoteUserBinding_v1beta4 rub = None →
     all_granted (without_uid (ar_UserInfo req))
       (map (user_at (om_Namespace (rub4_Meta rub))) (rub4_RemoteUserRefs (rub4_Spec rub))) w w').
Proof.
  unfold RemoteUserBindingPermissions_Handle_v1beta4. intros Hr Hl.
  destruct (DecodeObject req) as [rub|e|]; inv_ok; try done. exists rub. split; [done|].
  assert (Hnone : x = None).
  { destruct x as [r|]; [|done]. exfalso.
    match goal with E : review_references_v1beta4 _ _ _ _ = _ |- _ => revert E end.
    generalize (om_Namespace (rub4_Meta rub)), w. induction (rub4_RemoteUserRefs (rub4_Spec rub)) as [|ru refs IH];
      intros ns w0 Hx; simpl in Hx; inv_ok.
    destruct x as [[]|e]; inv_ok; [by eapply IH|done..]. }
  subst x.
  match goal with E : review_references_v1beta4 _ _ _ _ = _ |- _ => apply review_references_iff in E; rename E into Hg end.
  split; [done|]. intros Hv. rewrite <- carried_unqualified; [done|].
  unfold validateRemoteUserBinding_v1beta4, validateRemoteUserBindingSpec_v1beta4 in Hv.
  by rewrite invalid_unless_empty_none, app_nil, !check_namespaces_nil in Hv; destruct Hv.
Qed.
End HandlersAgree.

(** A binding whose second RemoteUser names no namespace: it is reviewed in the namespace
    of the first one, and the RemoteUser of the own namespace of the binding is not. *)
Definition leaking_binding : RemoteUserBinding_v1beta4 :=
  mkRUB4 (new_meta "b" "team" ∅) (mkRUBSpec4 (mkSubject "User" "alice" "") [mkRef "mine" "me"; mkRef "" "theirs"] [])
    zero_binding_status4.
#[local] Instance leaking_decoder : Decoder RemoteUserBinding_v1beta4 := constant_decoder leaking_binding.

Lemma v1beta4_binding_gate_witness :
  (∃ msg, RemoteUserBindingPermissions_Handle_v1beta4 (gate_request "CREATE") (deny_ns "team") =
     (Ok (Allowed msg), deny_ns "team")) ∧
  ∃ rub, DecodeObject (gate_request "CREATE") = Ok rub ∧
    all_granted (without_uid alice) [user_at "mine" (mkRef "mine" "me"); user_at "mine" (mkRef "" "theirs")]
      (deny_ns "team") (deny_ns "team").
Proof.
  assert (E : ∃ msg, RemoteUserBindingPermissions_Handle_v1beta4 (gate_request "CREATE") (deny_ns "team") =
    (Ok (Allowed msg), deny_ns "team")) by (eexists; reflexivity).
  split; [exact E|]. destruct E as [msg E].
  destruct (v1beta4_binding_gate (gate_request "CREATE") (deny_ns "team") (Allowed msg) _ E eq_refl)
    as (rub & Hd & Hg & _).
  exists rub. split; [exact Hd|]. injection Hd as <-. exact Hg.
Defined.

(** ** The managed RemoteUsers of the two versions *)

Section ManagedAgree.
Context `{Lib, Decoder RemoteUser_v1beta4, RemoteUserJson_v1beta4, Decoder RemoteUser, RemoteUserJson}.

(** What was decoded through v1beta4, as the stored version. *)
Definition as_hub (r : result error RemoteUser_v1beta4) : result error RemoteUser :=
  match r with Ok ru => Ok (to_hub ru) | Err e => Err e | Panic => Panic end.

(** The requests as the two handlers would see them, were the same objects sent in both
    versions. *)
Context (decode_versions : ∀ req : AdmissionRequest, Decode (T := RemoteUser) req = as_hub (Decode req)).
Context (decode_raw_versions : ∀ raw : string, DecodeRaw (T := RemoteUser) raw = as_hub (DecodeRaw raw)).
(** [json.Marshal] fails on types these structs do not hold. *)
Context (marshal_v1beta4 : ∀ ru : RemoteUser_v1beta4, ∃ json, json_Marshal_v1beta4 ru = Ok json).
Context (marshal_v1beta5 : ∀ ru : RemoteUser, ∃ json, json_Marshal ru = Ok json).

(** The same answer, apart from the text of the document a patch leads to. *)
Definition same_answer (r r' : result error Response) : Prop :=
  match r, r' with
  | Ok (PatchResponseFromRaw original _), Ok (PatchResponseFromRaw original' _) => original = original'
  | _, _ => r = r'
  end.

(** Both stamp the same user on the same object. *)
Lemma stamp_owner_versions user ru : to_hub (stamp_owner_v1beta4 user ru) = stamp_owner user (to_hub ru).
Proof. reflexivity. Qed.

(** Then they give the same answers: ownership and stamps do not depend on the version. *)
Theorem managed_handlers_agree managerNs req :
  same_answer (RemoteUserManaged_Handle_v1beta4 managerNs req) (RemoteUserManaged_Handle managerNs req).
Proof.
  assert (Hstamp : ∀ ru, same_answer (stamp_response_v1beta4 req ru) (stamp_response req (to_hub ru))).
  { intros ru. unfold stamp_response_v1beta4, stamp_response.
    change (is_managed (to_hub ru)) with (is_managed_v1beta4 ru). destruct (is_managed_v1beta4 ru); [|done].
    destruct (marshal_v1beta4 (stamp_owner_v1beta4 (ar_UserInfo req) ru)) as [json ->].
    by destruct (marshal_v1beta5 (stamp_owner (ar_UserInfo req) (to_hub ru))) as [json' ->]. }
  unfold RemoteUserManaged_Handle_v1beta4, RemoteUserManaged_Handle, DecodeObject, check_owner. cbv zeta.
  rewrite decode_versions, decode_raw_versions.
  unfold doesUserBypassWebhook_v1beta4, doesUserBypassWebhook.
  destruct (String.eqb (ar_Operation req) "DELETE"); cbn [negb].
  - destruct (DecodeRaw (ar_OldObject req)) as [ru|e|]; cbn [as_hub]; [|done..]. destruct (_ || _); [done|].
    change (is_managed (to_hub ru)) with (is_managed_v1beta4 ru).
    change (owned_by (to_hub ru) (ar_UserInfo req)) with (owned_by_v1beta4 ru (ar_UserInfo req)).
    destruct (is_managed_v1beta4 ru); [|apply Hstamp]. by destruct (owned_by_v1beta4 ru _).
  - destruct (Decode req) as [ru|e|]; cbn [as_hub]; [|done..]. destruct (String.eqb (ar_Operation req) "UPDATE"); [|apply Hstamp].
    destruct (_ || _); [done|]. destruct (DecodeRaw (ar_OldObject req)) as [old|e|]; cbn [as_hub]; [|done..].
    change (is_managed (to_hub old) && negb (owned_by (to_hub old) (ar_UserInfo req)))
      with (is_managed_v1beta4 old && negb (owned_by_v1beta4 old (ar_UserInfo req))).
    destruct (is_managed_v1beta4 old && _); [done|apply Hstamp].
Qed.
End ManagedAgree.
