(* ===== verification/Serving.v ===== *)
(** * The answer to an intercepted request ([internal/interceptor/dynamic_webhook_handlers.go])

    The routes of the interception server and the handler behind them: from the request of
    the API server to the review that answers it. The router is gorilla's and the bodies are
    JSON: both are classes. [requests_judged_as_stored] puts the server beside the controllers
    of [System.v]: once nobody has to look at a syncer any more, a request on its path is
    judged by the pipeline for the syncer as it is stored, late registrations apart
    ([judged_by_deleted]). *)

From S2P Require Import Prelude GoStr Api Errors External Policy Policies PolicyProps Target Pipeline Files Dynamic Controllers Deletion Manager PolicyFrame System Sim.
From Stdlib Require Import Ascii.

(** ** Requests and responses *)

Record HTTPRequest := mkRequest { rq_Method : string; rq_Path : string; rq_Body : string }.
(** [http.Error], or a body of a content type. *)
Inductive HTTPResponse :=
| HTTPError (message : string) (status : Z)
| HTTPBody (contentType body : string).
Definition StatusBadRequest : Z := 400.
Definition StatusInternalServerError : Z := 500.
Definition http_NotFound : HTTPResponse := HTTPError "404 page not found" 404.

(** [encoding/json] on the reviews of the admission API: the request of a review is a pointer,
    nil when the body has none. The writer of a response may fail. *)
Class Bodies := {
  json_Decode_review : string → result error (option AdmissionRequest);
  json_Marshal_review : AdmissionReview → result error string;
  rw_Write : string → option error
}.

(** gorilla's [mux]: the variables of a template in a path. *)
Class Mux := { mux_Vars : string → string → option (gmap string string) }.

(** A path that matches is the template with its variables, each a segment of the path. *)
Class MuxLaws `{Mux} := {
  vars_namespaced p vars : mux_Vars (remoteSyncerPathPrefix ++ "{namespace}/{name}") p = Some vars →
    p = RemoteSyncerWebhookPath (mkNN (mget vars "namespace") (mget vars "name")) ∧ segment (mget vars "namespace");
  vars_cluster_wide p vars : mux_Vars (clusterWidePathPrefix ++ "{name}") p = Some vars →
    p = ClusterWideRemoteSyncerWebhookPath (mget vars "name")
}.

(** [NewWebhookInterceptsAll]: the map of the handlers when the manager starts. *)
Definition NewWebhookInterceptsAll : Handlers := ∅.

Section Serving.
Context {W : Type} `{Cluster W, Lib, GitPush W, Bodies, Mux}.
Variable ord : TargetMap → list (GitUserInfo * list RemoteTarget).
Variable Getenv : string → string.

(** [DynamicWebhookHandler.Handle]. A body without a request is a nil dereference. *)
Definition DynamicWebhookHandler_Handle (dwc : Syncer) (body : string) : M error W HTTPResponse :=
  match json_Decode_review body with
  | Err _ => ret (HTTPError "Failed to decode admission review request" StatusBadRequest)
  | Panic | Ok None => panic
  | Ok (Some request) =>
      let sc := syncerContext dwc (ar_Namespace request) in
      admResponse ⇐ RunInterceptionPipeline ord request sc (Getenv "MANAGER_NAMESPACE");;
      match json_Marshal_review admResponse with
      | Ok resp =>
          match rw_Write resp with
          | Some _ => ret (HTTPError "Failed to write admission review response" StatusInternalServerError)
          | None => ret (HTTPBody "application/json" resp)
          end
      | Err _ => ret (HTTPError "Failed to marshal admission review response" StatusInternalServerError)
      | Panic => panic
      end
  end.

(** The function behind each route: the handler registered under the path of the request, or
    the object the variables name. *)
Definition route_namespaced (path : string) (vars : gmap string string) : M error (W * Handlers) (option Syncer) := λ '(w, hs),
  match handlerFor path hs with
  | Some handler => (Ok (Some handler), (w, hs))
  | None =>
      match client_Get (T := RemoteSyncer) (mkNN (mget vars "namespace") (mget vars "name")) w with
      | (Ok found, w') => (Ok (Some (SyncerRS found)), (w', Register found path hs))
      | (Err _, w') => (Ok None, (w', hs))
      | (Panic, w') => (Panic, (w', hs))
      end
  end.
Definition route_cluster_wide (path : string) (vars : gmap string string) : M error (W * Handlers) (option Syncer) := λ '(w, hs),
  match handlerFor path hs with
  | Some handler => (Ok (Some handler), (w, hs))
  | None =>
      match client_Get (T := ClusterWideRemoteSyncer) (mkNN "" (mget vars "name")) w with
      | (Ok found, w') => (Ok (Some (SyncerCW found)), (w', RegisterClusterWide found path hs))
      | (Err _, w') => (Ok None, (w', hs))
      | (Panic, w') => (Panic, (w', hs))
      end
  end.

Definition answer (body : string) (found : option Syncer) : M error (W * Handlers) HTTPResponse :=
  match found with
  | None => ret http_NotFound
  | Some handler => outside (DynamicWebhookHandler_Handle handler body)
  end.

(** The router [Start] builds: two routes, for posts; the rest is the router's own answer. *)
Definition Start (rq : HTTPRequest) : M error (W * Handlers) HTTPResponse :=
  if negb (String.eqb (rq_Method rq) "POST") then ret (HTTPError "" 405)
  else
    match mux_Vars (remoteSyncerPathPrefix ++ "{namespace}/{name}") (rq_Path rq) with
    | Some vars => found ⇐ route_namespaced (rq_Path rq) vars;; answer (rq_Body rq) found
    | None =>
        match mux_Vars (clusterWidePathPrefix ++ "{name}") (rq_Path rq) with
        | Some vars => found ⇐ route_cluster_wide (rq_Path rq) vars;; answer (rq_Body rq) found
        | None => ret http_NotFound
        end
    end.

(** A body that is no review is refused, one without a request takes the handler down, and
    neither reaches the cluster. *)
Lemma Handle_refuses dwc body w e : json_Decode_review body = Err e →
  DynamicWebhookHandler_Handle dwc body w = (Ok (HTTPError "Failed to decode admission review request" 400), w).
Proof. intros Hd. unfold DynamicWebhookHandler_Handle. by rewrite Hd. Qed.
Lemma Handle_no_request dwc body w : json_Decode_review body = Ok None →
  DynamicWebhookHandler_Handle dwc body w = (Panic, w).
Proof. intros Hd. unfold DynamicWebhookHandler_Handle. by rewrite Hd. Qed.

Context `{!MuxLaws}.
Lemma route_namespaced_serve path vars : mux_Vars (remoteSyncerPathPrefix ++ "{namespace}/{name}") path = Some vars →
  route_namespaced path vars = serve_namespaced (mget vars "namespace") (mget vars "name").
Proof. intros [-> _]%vars_namespaced. done. Qed.
Lemma route_cluster_wide_serve path vars : mux_Vars (clusterWidePathPrefix ++ "{name}") path = Some vars →
  route_cluster_wide path vars = serve_cluster_wide (mget vars "name").
Proof. intros ->%vars_cluster_wide. done. Qed.

(** A template is not the other. *)
Lemma routes_apart path vars : mux_Vars (clusterWidePathPrefix ++ "{name}") path = Some vars →
  mux_Vars (remoteSyncerPathPrefix ++ "{namespace}/{name}") path = None.
Proof.
  intros Hp%vars_cluster_wide. destruct (mux_Vars (remoteSyncerPathPrefix ++ _) path) as [vars'|] eqn:E; [|done].
  apply vars_namespaced in E as [E _]. rewrite Hp in E. symmetry in E. by apply paths_disjoint in E.
Qed.
End Serving.

(** ** The server beside the controllers *)

Section Judged.
Context {W : Type} `{ApiServer W, Lib, Finalizers, FileSystem W, Predicates, GitPush W, Bodies, Mux, !MuxLaws, !Versioned W}.
Context (Getenv : string → string).
Context (ord_push : TargetMap → list (GitUserInfo * list RemoteTarget)).

(** The syncer a request is for, by the route its path matches. *)
Definition addressed (rq : HTTPRequest) (x : key) : Prop :=
  rq_Method rq = "POST" ∧
  ((∃ vars, mux_Vars (remoteSyncerPathPrefix ++ "{namespace}/{name}") (rq_Path rq) = Some vars ∧
      x = (KRemoteSyncer, mkNN (mget vars "namespace") (mget vars "name"))) ∨
   (∃ vars, mux_Vars (clusterWidePathPrefix ++ "{name}") (rq_Path rq) = Some vars ∧
      x = (KClusterWideRemoteSyncer, mkNN "" (mget vars "name")))).

Lemma addressed_routed rq x : addressed rq x → routed x.
Proof. intros [_ [(vars & [_ Hs]%vars_namespaced & ->)|(vars & _ & ->)]]; [exact Hs|done]. Qed.

(** A request is served by the syncer of its key, and answered by its handler. *)
Lemma Start_serves rq x st : addressed rq x →
  Start ord_push Getenv rq st = (found ⇐ serve x;; answer ord_push Getenv (rq_Body rq) found) st.
Proof.
  intros [Hpost [(vars & Hv & ->)|(vars & Hv & ->)]]; unfold Start; rewrite Hpost, String.eqb_refl; cbn [negb].
  - by rewrite Hv, (route_namespaced_serve _ _ Hv).
  - by rewrite (routes_apart _ _ Hv), Hv, (route_cluster_wide_serve _ _ Hv).
Qed.

(** The steps of [System.v] a request goes through: without a handler, it reads the syncer in
    some world, and registers what it read in the handlers of a later moment; what it found
    judges it, whatever became of the syncer and the handlers in between. *)
Lemma Start_hit rq x w hs s : addressed rq x → handlerFor (path_of_key x) hs = Some s →
  Start ord_push Getenv rq (w, hs) = outside (DynamicWebhookHandler_Handle ord_push Getenv s (rq_Body rq)) (w, hs).
Proof.
  intros Ha Hh. rewrite (Start_serves rq x) by done. unfold bind. rewrite (serve_fetch x w hs) by (by eapply addressed_routed).
  by rewrite Hh.
Qed.
Lemma Start_gone rq x w hs : addressed rq x → handlerFor (path_of_key x) hs = None → stored_syncer w x = None →
  Start ord_push Getenv rq (w, hs) = (Ok http_NotFound, (w, hs)).
Proof.
  intros Ha Hh Hs. pose proof (addressed_routed _ _ Ha) as Hx. rewrite (Start_serves rq x) by done. unfold bind.
  rewrite (serve_fetch x w hs), Hh by done. destruct (fetch x w) as [r w1] eqn:E.
  apply (fetch_inv x w _ _ Hx) in E as [-> E]. destruct r as [s|e|]; [congruence|done|done].
Qed.

(** (C21) In every state the two controllers, the users and the requests can bring the system
    to, step by step ([System.step]), take a syncer that is not in the queue and that no pass
    works on, and whose handler was not registered late. A request for it is answered with
    the review the pipeline makes for that syncer as it is stored (its spec, its rules, its
    strategy), from the handler that is registered and with no other registration. When
    there is no such syncer, there is no handler either: the request is answered with a 404,
    and one that reads the syncer in a later world only finds what is stored there. *)
Theorem requests_judged_as_stored s s' x rq : started Getenv s → rtc (step Getenv) s s' →
  addressed rq x → valid_key x → x ∉ sy_queue s' → sy_passes s' !! x = None → x ∉ sy_late s' →
  let w := sy_world s' in let hs := sy_handlers s' in
  match stored_syncer w x with
  | Some stored => handlerFor (path_of_key x) hs = Some stored ∧
      Start ord_push Getenv rq (w, hs) =
        let '(r, w') := DynamicWebhookHandler_Handle ord_push Getenv stored (rq_Body rq) w in (r, (w', hs))
  | None => handlerFor (path_of_key x) hs = None ∧ Start ord_push Getenv rq (w, hs) = (Ok http_NotFound, (w, hs)) ∧
      ∀ w' r w'', fetch x w' = (r, w'') → w'' = w' ∧ ∀ found, r = Ok found ↔ stored_syncer w' x = Some found
  end.
Proof.
  intros Hs Hr Ha Hv Hq Hp Hl w hs. pose proof (inv_line Getenv s' (reachable_inv Getenv s s' Hs Hr) x Hv Hq) as Hk.
  rewrite Hp in Hk. destruct Hk as [_ Hh]. specialize (Hh Hl). unfold handler_in_line in Hh. fold w hs in Hh.
  destruct (stored_syncer w x) as [o|] eqn:E.
  - split; [exact Hh|]. rewrite (Start_hit rq x w hs o Ha Hh). unfold outside. by destruct (DynamicWebhookHandler_Handle _ _ o _ w).
  - split_and!; [exact Hh|by apply (Start_gone rq x)|]. intros w' r w'' Hf.
    apply (fetch_inv x w' _ _ (addressed_routed _ _ Ha)) in Hf as [-> Hf]. split; [done|]. intros found.
    destruct r as [s0|e|]; [|by rewrite Hf; split|done]. rewrite Hf. split; congruence.
Qed.
End Judged.

(** ** A run *)

(** A router for the two templates. *)
Definition segments_under (prefix p : string) : list string :=
  if String.prefix prefix p then Split (sdrop (length_str prefix) p) "/" else [].
#[local] Instance demo_mux : Mux := {|
  mux_Vars template p :=
    if String.eqb template (remoteSyncerPathPrefix ++ "{namespace}/{name}") then
      match segments_under remoteSyncerPathPrefix p with [ns; n] => Some {["namespace" := ns; "name" := n]} | _ => None end
    else if String.eqb template (clusterWidePathPrefix ++ "{name}") then
      match segments_under clusterWidePathPrefix p with [n] => Some {["name" := n]} | _ => None end
    else None |}.

Lemma segments_path prefix p l : segments_under prefix p = l → l ≠ [] →
  p = prefix ++ Join l "/" ∧ Forall segment l.
Proof.
  unfold segments_under. destruct (String.prefix prefix p) eqn:Hp; [|by intros <-]. intros <- _. split.
  - rewrite Join_Split by done. by apply prefix_spec.
  - apply split_no_slash.
Qed.
#[local] Instance demo_mux_laws : MuxLaws.
Proof.
  split; intros p vars; cbn [mux_Vars demo_mux]; rewrite String.eqb_refl.
  - destruct (segments_under remoteSyncerPathPrefix p) as [|ns [|n []]] eqn:E; try done. intros [= <-].
    apply segments_path in E as [-> Hs]; [|done]. apply Forall_cons in Hs as [Hs _]. by split.
  - change (String.eqb (clusterWidePathPrefix ++ "{name}") (remoteSyncerPathPrefix ++ "{namespace}/{name}")) with false. cbv iota.
    destruct (segments_under clusterWidePathPrefix p) as [|n []] eqn:E; try done. intros [= <-].
    by apply segments_path in E as [-> _].
Qed.
#[local] Instance demo_bodies : Bodies := {|
  json_Decode_review s := if String.eqb s "{}" then Ok None else Ok (Some demo_request);
  json_Marshal_review r := Ok (rev_Message r); rw_Write s := None |}.
#[local] Instance demo_git : GitPush World := {|
  RunGitPipeline p w := (Ok (mkPushResponse [] "c0ffee" (TargetRepository (rt_Spec (gp_RemoteTarget p)))), w) |}.
#[local] Existing Instance System.demo_files.
#[local] Existing Instance System.demo_predicates.

Definition post (path : string) : HTTPRequest := mkRequest "POST" path "{}".

(** The handler of a syncer was registered by a request; the syncer was deleted, and its
    controller has been through. *)
Lemma demo_addressed : addressed (post "/syngit/namespace-scoped-validate/team/rs") demo_key.
Proof. split; [done|]. left. eexists. by split. Qed.
Lemma requests_judged_as_stored_witness :
  rtc (step demo_env) demo_start demo_end ∧
  Start demo_ord demo_env (post "/syngit/namespace-scoped-validate/team/rs") (sy_world demo_end, sy_handlers demo_end) =
    (Ok http_NotFound, (sy_world demo_end, sy_handlers demo_end)).
Proof.
  split; [exact demo_run|].
  apply (requests_judged_as_stored demo_env demo_ord demo_start demo_end demo_key
    (post "/syngit/namespace-scoped-validate/team/rs") demo_started demo_run demo_addressed);
    [by split_and!|set_solver|apply lookup_empty|set_solver].
Defined.

(** After a late registration ([stale_registration_stays]) the deleted syncer judges the
    requests: the answer is that of its handler, not the 404. *)
Lemma judged_by_deleted body : let rq := mkRequest "POST" "/syngit/namespace-scoped-validate/team/rs" body in
  stored_syncer (sy_world stale_end) demo_key = None ∧
  Start demo_ord demo_env rq (sy_world stale_end, sy_handlers stale_end) =
    outside (DynamicWebhookHandler_Handle demo_ord demo_env (SyncerRS team_rs) body) (sy_world stale_end, sy_handlers stale_end).
Proof.
  intros rq. split; [done|].
  apply (Start_hit demo_env demo_ord rq demo_key (sy_world stale_end) (sy_handlers stale_end) (SyncerRS team_rs)); [|reflexivity].
  split; [done|]. left. eexists. by split.
Qed.

(** A body that is a review without a request takes the handler down. *)
Lemma empty_review_panics hs w : hs !! RemoteSyncerWebhookPath rs_key = Some (SyncerRS team_rs) →
  Start demo_ord demo_env (post "/syngit/namespace-scoped-validate/team/rs") (w, hs) = (Panic, (w, hs)).
Proof.
  intros Hh. unfold Start. rewrite String.eqb_refl. cbn [negb].
  assert (Hv : mux_Vars (remoteSyncerPathPrefix ++ "{namespace}/{name}") (rq_Path (post "/syngit/namespace-scoped-validate/team/rs")) =
    Some {["namespace" := "team"; "name" := "rs"]}) by reflexivity.
  rewrite Hv. unfold route_namespaced, handlerFor, bind. cbn [rq_Path post].
  change "/syngit/namespace-scoped-validate/team/rs" with (RemoteSyncerWebhookPath rs_key). by rewrite Hh.
Qed.
