(* ===== verification/GitServer.v ===== *)
(** * The git server of the tests ([pkg/envtest/server.go], [secrets.go])

    A package of the repository that its users import: an in-process git server with users,
    a matrix of permissions and a counter of pushes. [gitkit] and [httptest] are parameters;
    [GitRepos.v] and [Assertions.v] model the repositories and what is asserted of them. *)

From S2P Require Import Prelude GoStr Api Errors External Sim Target.
From Stdlib Require Import Ascii.

(** ** More of [strings] *)

Fixpoint TrimSuffix (s suffix : string) : string :=
  if String.eqb s suffix then ""
  else match s with "" => "" | String c s' => String c (TrimSuffix s' suffix) end.
(** What stands before and after the last occurrence of a byte. *)
Fixpoint cut_last (c : ascii) (s : string) : option (string * string) :=
  match s with
  | "" => None
  | String d s' =>
      match cut_last c s' with
      | Some (a, b) => Some (String d a, b)
      | None => if Ascii.eqb d c then Some ("", s') else None
      end
  end.
(** [strings.Trim] for a cutset of one byte. *)
Fixpoint trim_byte (c : ascii) (s : string) : string :=
  match s with String d s' => if Ascii.eqb d c then trim_byte c s' else s | "" => "" end.
Definition Trim (s : string) (c : ascii) : string := srev (trim_byte c (srev (trim_byte c s))).

Lemma append_not_nil a c b : a ++ String c b ≠ b.
Proof.
  intros Heq. apply (f_equal length_str) in Heq. rewrite append_length in Heq. simpl in Heq. lia.
Qed.
Lemma TrimSuffix_append a b : TrimSuffix (a ++ b) b = a.
Proof.
  induction a as [|c a IH].
  - cbn [String.append]. by destruct b; cbn [TrimSuffix]; rewrite String.eqb_refl.
  - cbn [String.append TrimSuffix]. destruct (String.eqb_spec (String c (a ++ b)) b) as [Heq|_]; [|by rewrite IH].
    exfalso. apply (f_equal length_str) in Heq. cbn in Heq. rewrite append_length in Heq. lia.
Qed.
Lemma cut_last_none c s : has_byte c s = false → cut_last c s = None.
Proof.
  induction s as [|d s IH]; [done|]. cbn [has_byte cut_last]. intros [Hd Hs]%orb_false_iff.
  by rewrite IH, Hd.
Qed.
Lemma cut_last_append c a b : has_byte c b = false → cut_last c (a ++ String c b) = Some (a, b).
Proof.
  intros Hb. induction a as [|d a IH]; cbn [String.append cut_last]; [|by rewrite IH].
  by rewrite cut_last_none, Ascii.eqb_refl.
Qed.

(** ** The state of the server *)

Inductive AccessLevel := NoAccess | ReadOnly | ReadWrite.
#[export] Instance AccessLevel_eq_dec : EqDecision AccessLevel.
Proof. solve_decision. Defined.

Record GitUser := mkGitUser { Username : string; Password : string; git_Email : string }.
Record RepoRef := mkRepoRef { Owner : string; repo_Name : string }.
#[export] Instance RepoRef_eq_dec : EqDecision RepoRef.
Proof. solve_decision. Defined.
Definition RepoRef_String (r : RepoRef) : string := Owner r ++ ("/" ++ repo_Name r).

(** The two listeners are nil once the server is stopped: their URL, and the certificate of
    the second. *)
Record GitServer := mkGitServer {
  gs_dir : string;
  gs_httpServer : option string;
  gs_tlsServer : option (string * option string);
  gs_users : gmap string GitUser;
  gs_permissions : gmap string AccessLevel;
  gs_pushAttempts : gmap string nat }.

Definition permKey (username : string) (repo : RepoRef) : string := username ++ ("|" ++ RepoRef_String repo).

(** A gitkit [RepoName], ["owner/name.git"]. *)
Definition parseRepoName (name : string) : result error RepoRef :=
  let name := TrimSuffix name ".git" in
  match cut_last "/"%char name with
  | Some (owner, repo) =>
      if String.eqb owner "" || String.eqb repo "" then Err (plainError ("invalid repo name " ++ (quote ++ (name ++ quote))))
      else Ok (mkRepoRef owner repo)
  | None => Err (plainError ("invalid repo name " ++ (quote ++ (name ++ quote))))
  end.

(** ** Users and permissions *)

Definition AddUser (user : GitUser) (gs : GitServer) : GitServer :=
  mkGitServer (gs_dir gs) (gs_httpServer gs) (gs_tlsServer gs) (<[Username user := user]> (gs_users gs))
    (gs_permissions gs) (gs_pushAttempts gs).
Definition GetUser (gs : GitServer) (username : string) : option GitUser := gs_users gs !! username.
Definition SetPermission (username : string) (repo : RepoRef) (level : AccessLevel) (gs : GitServer) : GitServer :=
  mkGitServer (gs_dir gs) (gs_httpServer gs) (gs_tlsServer gs) (gs_users gs)
    (<[permKey username repo := level]> (gs_permissions gs)) (gs_pushAttempts gs).
Definition GetPermission (gs : GitServer) (username : string) (repo : RepoRef) : AccessLevel :=
  match gs_permissions gs !! permKey username repo with
  | Some level => level
  | None => NoAccess
  end.

(** ** Requests *)

(** What is read of a request: its path and the [service] of its query. *)
Record HTTPRequest := mkHTTPRequest { rq_Path : string; rq_service : string }.
(** [gitkit.Credential] and [gitkit.Request]. *)
Record Credential := mkCredential { cred_Username : string; cred_Password : string }.
Record GitkitRequest := mkGitkitRequest { gk_Request : HTTPRequest; gk_RepoName : string }.

Definition isWriteOperation (r : HTTPRequest) : bool :=
  if Contains (rq_Path r) "git-receive-pack" then true
  else String.eqb (rq_service r) "git-receive-pack".

Definition authFunc (gs : GitServer) (cred : Credential) (req : GitkitRequest) : bool :=
  match gs_users gs !! cred_Username cred with
  | None => false
  | Some user =>
      if negb (String.eqb (Password user) (cred_Password cred)) then false
      else
        match parseRepoName (gk_RepoName req) with
        | Ok repo =>
            let level := GetPermission gs (cred_Username cred) repo in
            if decide (level = NoAccess) then false
            else if bool_decide (level = ReadOnly) && isWriteOperation (gk_Request req) then false
            else true
        | _ => false
        end
  end.

Definition PushAttempts (gs : GitServer) (repo : RepoRef) : nat :=
  default 0%nat (gs_pushAttempts gs !! RepoRef_String repo).
Definition with_attempts (m : gmap string nat) (gs : GitServer) : GitServer :=
  mkGitServer (gs_dir gs) (gs_httpServer gs) (gs_tlsServer gs) (gs_users gs) (gs_permissions gs) m.
Definition ResetPushAttempts (gs : GitServer) : GitServer := with_attempts ∅ gs.

(** The counting, before gitkit takes the request over. *)
Definition countingHandler (r : HTTPRequest) (gs : GitServer) : GitServer :=
  if String.eqb (rq_service r) "git-receive-pack" then
    let path := Trim (TrimSuffix (rq_Path r) "/info/refs") "/"%char in
    match parseRepoName path with
    | Ok repo => with_attempts (<[RepoRef_String repo := S (PushAttempts gs repo)]> (gs_pushAttempts gs)) gs
    | _ => gs
    end
  else gs.

(** ** Start, stop, addresses *)

Class TestHost (W : Type) := {
  os_MkdirTemp : string → M error W string;
  os_RemoveAll : string → M error W unit;
  gitkit_Setup : string → M error W unit;
  httptest_NewServer : M error W string;                       (** the URL *)
  httptest_NewTLSServer : M error W (string * option string);  (** and the certificate *)
  httptest_Close : string → M error W unit;
  pem_EncodeToMemory : string → string → string
}.

Section Server.
Context {W : Type} `{TestHost W, Lib}.

Definition NewGitServer : M error W GitServer :=
  rdir ⇐ attempt (os_MkdirTemp "syngit-envtest-gitserver-*");;
  match rdir with
  | inr err => throw (wrapError "failed to create temp dir: " err)
  | inl dir =>
      rsetup ⇐ attempt (gitkit_Setup dir);;
      match rsetup with
      | inr err => _ ⇐ attempt (os_RemoveAll dir);; throw (wrapError "failed to setup gitkit: " err)
      | inl _ =>
          http ⇐ httptest_NewServer;;
          tls ⇐ httptest_NewTLSServer;;
          ret (mkGitServer dir (Some http) (Some tls) ∅ ∅ ∅)
      end
  end.

Definition Stop (gs : GitServer) : M error W GitServer :=
  _ ⇐ match gs_httpServer gs with Some url => httptest_Close url | None => ret tt end;;
  _ ⇐ match gs_tlsServer gs with Some (url, _) => httptest_Close url | None => ret tt end;;
  _ ⇐ (if String.eqb (gs_dir gs) "" then ret tt else _ ⇐ attempt (os_RemoveAll (gs_dir gs));; ret tt);;
  ret (mkGitServer "" None None (gs_users gs) (gs_permissions gs) (gs_pushAttempts gs)).

(** The addresses of a stopped server are a nil dereference. *)
Definition server_URL (gs : GitServer) : result error string :=
  match gs_httpServer gs with Some url => Ok url | None => Panic end.
Definition TLSURL (gs : GitServer) : result error string :=
  match gs_tlsServer gs with Some (url, _) => Ok url | None => Panic end.
Definition result_map {A B} (f : A → B) (r : result error A) : result error B :=
  match r with Ok a => Ok (f a) | Err e => Err e | Panic => Panic end.
Definition RepoURL (gs : GitServer) (repo : RepoRef) : result error string :=
  result_map (λ url, url ++ ("/" ++ (Owner repo ++ ("/" ++ (repo_Name repo ++ ".git"))))) (server_URL gs).
Definition TLSRepoURL (gs : GitServer) (repo : RepoRef) : result error string :=
  result_map (λ url, url ++ ("/" ++ (Owner repo ++ ("/" ++ (repo_Name repo ++ ".git"))))) (TLSURL gs).
Definition hostPort (raw : string) : string :=
  match url_Parse raw with Ok u => url_Host u | _ => "" end.
Definition FQDN (gs : GitServer) : result error string := result_map hostPort (server_URL gs).
Definition TLSFQDN (gs : GitServer) : result error string := result_map hostPort (TLSURL gs).

(** The certificate itself, and PEM-encoded; [None] is nil. *)
Definition CACertX509 (gs : GitServer) : result error (option string) :=
  match gs_tlsServer gs with Some (_, cert) => Ok cert | None => Panic end.
Definition CACert (gs : GitServer) : result error (option string) :=
  result_map (option_map (pem_EncodeToMemory "CERTIFICATE")) (CACertX509 gs).

(** ** [secrets.go] *)


Definition NewBasicAuthSecret (user : GitUser) (name namespace : string) : Secret :=
  mkSecret (new_meta name namespace ∅) "kubernetes.io/basic-auth"
    {["username" := Username user; "password" := Password user]}.
Definition NewTLSSecret (gs : GitServer) (name namespace : string) : result error (option Secret) :=
  result_map (option_map (λ ca, mkSecret (new_meta name namespace ∅) "kubernetes.io/tls"
    {["tls.crt" := ca; "tls.key" := ""]})) (CACert gs).
End Server.

(** ** What the server promises

    An access matrix and a count per repository. A test registers users, grants and resets,
    and clients come in through git's smart HTTP protocol: the references are advertised,
    then the packs are exchanged. *)

Inductive git_call := Advertise (push : bool) | Exchange (push : bool).
Definition call_request (repo : RepoRef) (c : git_call) : HTTPRequest :=
  let base := "/" ++ (RepoRef_String repo ++ ".git") in
  match c with
  | Advertise push => mkHTTPRequest (base ++ "/info/refs") (if push then "git-receive-pack" else "git-upload-pack")
  | Exchange push => mkHTTPRequest (base ++ (if push then "/git-receive-pack" else "/git-upload-pack")) ""
  end.
Definition is_push (c : git_call) : bool := match c with Advertise p | Exchange p => p end.

Inductive server_op :=
| OpAddUser (u : GitUser)
| OpSetPermission (username : string) (repo : RepoRef) (level : AccessLevel)
| OpCall (repo : RepoRef) (c : git_call)
| OpReset.
Definition serve_op (op : server_op) : GitServer → GitServer :=
  match op with
  | OpAddUser u => AddUser u
  | OpSetPermission n r l => SetPermission n r l
  | OpCall r c => countingHandler (call_request r c)
  | OpReset => ResetPushAttempts
  end.
Definition serve_ops (ops : list server_op) (gs : GitServer) : GitServer := foldl (λ gs op, serve_op op gs) gs ops.

Record matrix := mkMatrix {
  mx_password : string → option string;
  mx_level : string → RepoRef → AccessLevel;
  mx_pushes : RepoRef → nat }.
Definition no_matrix : matrix := mkMatrix (λ _, None) (λ _ _, NoAccess) (λ _, 0%nat).
Definition matrix_op (op : server_op) (m : matrix) : matrix :=
  match op with
  | OpAddUser u => mkMatrix (λ n, if decide (n = Username u) then Some (Password u) else mx_password m n) (mx_level m) (mx_pushes m)
  | OpSetPermission n r l =>
      mkMatrix (mx_password m) (λ n' r', if decide (n' = n ∧ r' = r) then l else mx_level m n' r') (mx_pushes m)
  | OpCall r (Advertise true) =>
      mkMatrix (mx_password m) (mx_level m) (λ r', if decide (r' = r) then S (mx_pushes m r') else mx_pushes m r')
  | OpCall _ _ => m
  | OpReset => mkMatrix (mx_password m) (mx_level m) (λ _, 0%nat)
  end.
Definition matrix_ops (ops : list server_op) (m : matrix) : matrix := foldl (λ m op, matrix_op op m) m ops.
Definition granted (m : matrix) (n password : string) (r : RepoRef) (push : bool) : bool :=
  bool_decide (mx_password m n = Some password) &&
  match mx_level m n r with NoAccess => false | ReadOnly => negb push | ReadWrite => true end.

(** Names the keys of the maps tell apart, and paths that say what they ask for. *)
Definition user_ok (n : string) : Prop := has_byte "|"%char n = false.
Record repo_ok (r : RepoRef) : Prop := {
  ok_owner : Owner r ≠ "" ∧ String.prefix "/" (Owner r) = false;
  ok_name : repo_Name r ≠ "" ∧ has_byte "/"%char (repo_Name r) = false;
  ok_path : Contains (RepoRef_String r) "git-receive-pack" = false }.
Definition op_ok (op : server_op) : Prop :=
  match op with
  | OpSetPermission n r _ => user_ok n ∧ repo_ok r
  | OpCall r _ => repo_ok r
  | _ => True
  end.

Lemma RepoRef_String_inj r r' : repo_ok r → repo_ok r' → RepoRef_String r = RepoRef_String r' → r = r'.
Proof.
  intros [_ [_ Hn] _] [_ [_ Hn'] _] Heq. destruct r as [o n], r' as [o' n']. unfold RepoRef_String in Heq.
  pose proof (cut_last_append "/"%char o n Hn) as Hc. pose proof (cut_last_append "/"%char o' n' Hn') as Hc'.
  cbn in *. rewrite Heq in Hc. congruence.
Qed.

Lemma permKey_inj n n' r r' : user_ok n → user_ok n' → repo_ok r → repo_ok r' →
  permKey n r = permKey n' r' → n = n' ∧ r = r'.
Proof.
  intros Hn Hn' Hr Hr' Heq. destruct (key_inj "|"%char _ _ _ _ Hn Hn' Heq) as [-> Hs].
  split; [done|]. by apply RepoRef_String_inj.
Qed.

Lemma parse_repo r : repo_ok r → parseRepoName (RepoRef_String r ++ ".git") = Ok r.
Proof.
  intros [[Ho _] [Hn Hs] _]. unfold parseRepoName. rewrite TrimSuffix_append. unfold RepoRef_String.
  change ("/" ++ repo_Name r) with (String "/" (repo_Name r)). rewrite cut_last_append by done.
  apply String.eqb_neq in Ho, Hn. rewrite Ho, Hn. by destruct r.
Qed.

Lemma trim_byte_other c s : String.prefix (String c "") s = false → trim_byte c s = s.
Proof. destruct s as [|d s]; [done|]. rewrite prefix_one. cbn [trim_byte]. by intros ->. Qed.
Lemma srev_snoc s c : srev (s ++ String c "") = String c (srev s).
Proof.
  assert (Hg : ∀ s acc, rev_app (s ++ String c "") acc = String c (rev_app s acc)).
  { clear s. induction s as [|d s IH]; intros acc; [done|]. cbn [String.append rev_app]. apply IH. }
  unfold srev. apply Hg.
Qed.
Lemma Trim_path s c : String.prefix "/" s = false → c ≠ "/"%char → Trim ("/" ++ (s ++ String c "")) "/"%char = s ++ String c "".
Proof.
  intros Hs Hc. unfold Trim. change ("/" ++ ?x) with (String "/" x). cbn [trim_byte]. rewrite Ascii.eqb_refl.
  rewrite (trim_byte_other "/"%char (s ++ _)).
  - rewrite srev_snoc. cbn [trim_byte]. destruct (Ascii.eqb_spec c "/"); [done|].
    by rewrite <- srev_snoc, srev_involutive.
  - destruct s as [|d s]; cbn [String.append]; rewrite prefix_one in *; [by apply Ascii.eqb_neq|done].
Qed.

Lemma count_path r : repo_ok r →
  parseRepoName (Trim (TrimSuffix (rq_Path (call_request r (Advertise true))) "/info/refs") "/"%char) = Ok r.
Proof.
  intros Hr. cbn [rq_Path call_request]. rewrite TrimSuffix_append.
  assert (Hs : RepoRef_String r ++ ".git" = (RepoRef_String r ++ ".gi") ++ String "t" "") by by rewrite append_assoc.
  rewrite Hs, Trim_path; [rewrite <- Hs; by apply parse_repo| |done].
  destruct Hr as [[? Ho] _ _], r as [[|d o] n]; [done|]. unfold RepoRef_String.
  cbn [Owner repo_Name String.append] in *. by rewrite prefix_one in *.
Qed.

(** A pattern does not straddle a byte it has not. *)
Lemma prefix_split c a b s : has_byte c s = false → String.prefix s (a ++ String c b) = String.prefix s a.
Proof.
  revert a; induction s as [|d s IH]; intros a Hs; [by destruct a|].
  cbn [has_byte] in Hs. apply orb_false_iff in Hs as [Hd Hs]. destruct a as [|e a]; cbn.
  - destruct (ascii_dec d c) as [->|]; [|done]. by rewrite Ascii.eqb_refl in Hd.
  - destruct (ascii_dec d e); [by apply IH|done].
Qed.
Lemma Contains_split c a b s : has_byte c s = false →
  Contains (a ++ String c b) s = Contains a s || Contains (String c b) s.
Proof.
  intros Hs. induction a as [|d a IH].
  - cbn [String.append]. destruct s as [|e s]; [by destruct b|]. done.
  - cbn [String.append]. change (Contains (String d ?x) s) with (String.prefix s (String d x) || Contains x s).
    change (String d (a ++ ?x)) with (String d a ++ x). rewrite prefix_split by done. by rewrite IH, orb_assoc.
Qed.

Lemma is_write r c : repo_ok r → isWriteOperation (call_request r c) = is_push c.
Proof.
  intros [_ _ Hp]. unfold isWriteOperation. destruct c as [push|push]; cbn [call_request rq_Path rq_service is_push].
  - change ("/" ++ ?x) with (String "/" x).
    assert (Hc : ∀ x, Contains (String "/" x) "git-receive-pack" = Contains x "git-receive-pack") by done.
    cbn [String.append]. rewrite Hc, append_assoc. change (".git" ++ ?x) with (String "." ("git" ++ x)).
    rewrite Contains_split, Hp by done. by destruct push.
  - change ("/" ++ ?x) with (String "/" x).
    assert (Hc : ∀ x, Contains (String "/" x) "git-receive-pack" = Contains x "git-receive-pack") by done.
    cbn [String.append]. rewrite Hc, append_assoc. change (".git" ++ ?x) with (String "." ("git" ++ x)).
    rewrite Contains_split, Hp by done. by destruct push.
Qed.

(** The state of the server stands for a matrix. *)
Record stands_for (gs : GitServer) (m : matrix) : Prop := {
  sf_users n : Password <$> gs_users gs !! n = mx_password m n;
  sf_levels n r : user_ok n → repo_ok r → GetPermission gs n r = mx_level m n r;
  sf_pushes r : repo_ok r → PushAttempts gs r = mx_pushes m r }.

Lemma stands_for_op gs m op : op_ok op → stands_for gs m → stands_for (serve_op op gs) (matrix_op op m).
Proof.
  intros Hop [Hu Hl Hp]. destruct op as [u|n r l|r c|]; cbn [serve_op matrix_op op_ok] in *.
  - split; cbn; [|done..]. intros n. case_decide as Hn; [by rewrite Hn, lookup_insert_eq|].
    rewrite lookup_insert_ne by congruence. apply Hu.
  - destruct Hop as [Hn Hr]. split; cbn; [done| |done]. intros n' r' Hn' Hr'. unfold GetPermission. cbn. case_decide as Hk.
    + destruct Hk as [-> ->]. by rewrite lookup_insert_eq.
    + rewrite lookup_insert_ne; [by apply Hl|]. intros Heq. apply permKey_inj in Heq as [-> ->]; [|done..]. by apply Hk.
  - unfold countingHandler. destruct c as [[]|push]; cbn [call_request rq_service]; [|done..].
    rewrite String.eqb_refl. cbv zeta.
    pose proof (count_path r Hop) as Hc. cbn [call_request] in Hc. rewrite Hc.
    split; cbn; [done..|]. intros r' Hr'. unfold PushAttempts. cbn. case_decide as Hd.
    + subst r'. rewrite lookup_insert_eq. cbn. f_equal. by apply Hp.
    + rewrite lookup_insert_ne; [by apply Hp|]. intros Heq. apply RepoRef_String_inj in Heq; [|done..]. congruence.
  - by split.
Qed.

Lemma stands_for_ops ops gs m : Forall op_ok ops → stands_for gs m →
  stands_for (serve_ops ops gs) (matrix_ops ops m).
Proof.
  intros Hops. revert gs m. induction Hops as [|op ops Hop Hops IH]; intros gs m Hs; [done|].
  cbn. apply IH. by apply stands_for_op.
Qed.

(** The git server of the tests refines an access matrix. After any history of
    registrations, grants, calls and resets, a call is let in exactly when the password is the
    one last registered for the user and the level last granted on that repository allows it:
    any level but [NoAccess] for a fetch, [ReadWrite] for a push; and the attempts of a
    repository are the pushes opened on it since the last reset, refused ones included. *)
Theorem server_refines_matrix ops gs n password r c : Forall op_ok ops → user_ok n → repo_ok r →
  gs_users gs = ∅ → gs_permissions gs = ∅ → gs_pushAttempts gs = ∅ →
  authFunc (serve_ops ops gs) (mkCredential n password) (mkGitkitRequest (call_request r c) (RepoRef_String r ++ ".git"))
    = granted (matrix_ops ops no_matrix) n password r (is_push c) ∧
  PushAttempts (serve_ops ops gs) r = mx_pushes (matrix_ops ops no_matrix) r.
Proof.
  intros Hops Hn Hr Hu Hp Ha. destruct (stands_for_ops ops gs no_matrix Hops) as [Su Sl Sp].
  { split; intros; unfold GetPermission, PushAttempts; by rewrite ?Hu, ?Hp, ?Ha, lookup_empty. }
  split; [|by apply Sp]. unfold authFunc, granted. cbn [cred_Username cred_Password gk_RepoName gk_Request].
  rewrite parse_repo, is_write, Sl, <- Su by done. destruct (gs_users _ !! n) as [u|]; [|done]. cbn.
  destruct (String.eqb_spec (Password u) password) as [->|Hne]; cbn.
  - rewrite (bool_decide_true (Some password = Some password)) by done.
    destruct (mx_level (matrix_ops ops no_matrix) n r); [done| |done]. by destruct (is_push c).
  - rewrite (bool_decide_false (Some (Password u) = Some password)) by congruence. done.
Qed.

Definition demo_server : GitServer := mkGitServer "/tmp/git" (Some "http://127.0.0.1:1") None ∅ ∅ ∅.
Definition demo_repo : RepoRef := mkRepoRef "team" "app".
Definition demo_ops : list server_op :=
  [OpAddUser (mkGitUser "alice" "old" "alice@x"); OpAddUser (mkGitUser "alice" "new" "alice@x");
   OpSetPermission "alice" demo_repo ReadWrite; OpCall demo_repo (Advertise true); OpReset;
   OpSetPermission "alice" demo_repo ReadOnly; OpCall demo_repo (Advertise true); OpCall demo_repo (Exchange true);
   OpCall demo_repo (Advertise false)].

Lemma server_refines_matrix_witness :
  authFunc (serve_ops demo_ops demo_server) (mkCredential "alice" "new")
    (mkGitkitRequest (call_request demo_repo (Advertise true)) (RepoRef_String demo_repo ++ ".git")) = false ∧
  PushAttempts (serve_ops demo_ops demo_server) demo_repo = 1%nat.
Proof.
  assert (Hr : repo_ok demo_repo) by done.
  apply (server_refines_matrix demo_ops demo_server "alice" "new" demo_repo (Advertise true)); [|done..].
  repeat constructor; done.
Defined.

(** A repository whose name holds the name of the git service cannot be cloned by a user
    who may only read: every path of it looks like a push. *)
Lemma read_mistaken_for_push :
  let repo := mkRepoRef "team" "git-receive-pack-tests" in
  let gs := SetPermission "alice" repo ReadOnly (AddUser (mkGitUser "alice" "new" "") demo_server) in
  authFunc gs (mkCredential "alice" "new")
    (mkGitkitRequest (call_request repo (Advertise false)) (RepoRef_String repo ++ ".git")) = false.
Proof. reflexivity. Qed.

(** The credentials the controller reads out of a secret of [NewBasicAuthSecret] are those
    of the user: they open a push exactly when the user may push. *)
Lemma basic_auth_secret_opens {W} `{ApiServer W, Lib} ru w gu w' user name namespace gs r c :
  GetGitUserInfoByRemoteUser (W := W) ru w = (Ok gu, w') →
  v_sec (view w) !! resolved (om_Namespace (ru_Meta ru)) (ru_SecretRef (ru_Spec ru))
    = Some (NewBasicAuthSecret user name namespace) →
  repo_ok r → gs_users gs !! Username user = Some user →
  authFunc gs (mkCredential (gu_User gu) (gu_Token gu)) (mkGitkitRequest (call_request r c) (RepoRef_String r ++ ".git"))
    = match GetPermission gs (Username user) r with NoAccess => false | ReadOnly => negb (is_push c) | ReadWrite => true end.
Proof.
  intros Hrun Hsec Hr Hu. apply credentials_inv in Hrun as [_ (secret & Hs & -> & _)].
  rewrite Hsec in Hs. injection Hs as <-. cbn [sec_Data NewBasicAuthSecret gu_User gu_Token].
  unfold authFunc. cbn [cred_Username cred_Password gk_RepoName gk_Request].
  assert (Hn : mget {["username" := Username user; "password" := Password user]} "username" = Username user) by done.
  assert (Hw : mget {["username" := Username user; "password" := Password user]} "password" = Password user) by done.
  rewrite Hn, Hw, Hu, String.eqb_refl, parse_repo, is_write by done. cbn [negb].
  destruct (GetPermission gs (Username user) r); [done| |done]. by destruct (is_push c).
Qed.
