(* ===== verification/GitRepos.v ===== *)
(** * The repositories of the test server ([pkg/envtest/repository.go])

    Branches, commits and merges on the bare repositories of the server. go-git is the class
    [GitDisk]: references and an object store where an object is found by its hash. Its laws
    ([GitDiskLaws]) say what go-git documents; [MergeBranch_overlays] is what a test that
    merges relies on: the target holds the files of both branches, those of the source where
    they conflict; [Merges.v] proves it. *)

From stdpp Require Import sorting.
From S2P Require Import Prelude GoStr Errors Files GitServer.
From Stdlib Require Import Ascii.

(** ** go-git *)

Record Signature := mkSignature { sig_Name : string; sig_Email : string; sig_When : Z }.
Record TreeEntry (Hash : Type) := mkEntry { te_Name : string; te_Mode : Z; te_Hash : Hash }.
Arguments mkEntry {Hash}. Arguments te_Name {Hash}. Arguments te_Mode {Hash}. Arguments te_Hash {Hash}.
Record GitCommit (Hash : Type) := mkCommit {
  cm_Author : Signature; cm_Committer : Signature; cm_Message : string; cm_TreeHash : Hash; cm_ParentHashes : list Hash }.
Arguments mkCommit {Hash}. Arguments cm_Message {Hash}. Arguments cm_TreeHash {Hash}. Arguments cm_ParentHashes {Hash}.
Arguments cm_Author {Hash}. Arguments cm_Committer {Hash}.

(** [filemode.Dir]. *)
Definition filemode_Dir : Z := 16384.
Definition NewBranchReferenceName (branch : string) : string := "refs/heads/" ++ branch.
Definition HEAD : string := "HEAD".

(** An object to be stored or that was read, and a commit with its hash. *)
Class GitDisk (W : Type) := {
  Hash : Type;
  Hash_eq_dec :: EqDecision Hash;
  Hash_String : Hash → string;
  Repository : Type;
  Encoded : Type;
  GitTree : Type;
  GitFile : Type;
  os_Stat : string → M error W unit;
  os_MkdirAll : string → M error W unit;
  time_Now : M error W Z;
  git_PlainInit : string → bool → M error W Repository;
  git_PlainOpen : string → M error W Repository;
  rp_Reference : Repository → string → bool → M error W Hash;
  rp_CommitObject : Repository → Hash → M error W (Hash * GitCommit Hash);
  st_SetReference : Repository → string → Hash → M error W unit;
  st_SetSymbolicReference : Repository → string → string → M error W unit;
  st_RemoveReference : Repository → string → M error W unit;
  st_EncodedTree : Repository → Hash → M error W Encoded;            (** [EncodedObject(TreeObject, hash)] *)
  st_SetEncodedObject : Repository → Encoded → M error W Hash;
  tree_Decode : Encoded → result error (list (TreeEntry Hash));
  tree_Encode : list (TreeEntry Hash) → result error Encoded;
  commit_Encode : GitCommit Hash → result error Encoded;
  commit_IsAncestor : Repository → Hash → Hash → M error W bool;
  commit_Tree : Repository → GitCommit Hash → M error W GitTree;
  tree_File : GitTree → string → M error W GitFile;
  tree_Files : GitTree → M error W (list string);                    (** the names [Files().ForEach] visits *)
  file_Read : GitFile → M error W string;                            (** [Reader] and [io.ReadAll] *)
  is_ErrFileNotFound : error → bool
}.

(** The in-memory clone [CommitFiles] works on. *)
Class GitClone (W : Type) := {
  MemRepository : Type;
  MemWorktree : Type;
  MemFile : Type;
  mem_Clone : string → string → M error W MemRepository;      (** of a URL, a single branch *)
  mem_Worktree : MemRepository → M error W MemWorktree;
  mem_Create : MemWorktree → string → M error W MemFile;
  mem_Write : MemFile → string → M error W unit;
  mem_Close : MemFile → M error W unit;
  mem_Add : MemWorktree → string → M error W unit;
  mem_Commit : MemWorktree → string → Signature → M error W unit;
  mem_Push : MemRepository → string → string → M error W unit
}.

(** [sort.Strings] and [sort.Slice] by the name. *)
Definition str_le (a b : string) : Prop := String.leb a b = true.
#[export] Instance str_le_dec : RelDecision str_le.
Proof. intros a b. unfold str_le. apply _. Defined.
Definition entry_le {H} (a b : TreeEntry H) : Prop := str_le (te_Name a) (te_Name b).
#[export] Instance entry_le_dec {H} : RelDecision (@entry_le H).
Proof. intros a b. unfold entry_le. apply _. Defined.
Definition sort_Strings : list string → list string := merge_sort str_le.
Definition sort_entries {H} : list (TreeEntry H) → list (TreeEntry H) := merge_sort entry_le.

Section Repos.
Context {W : Type} `{GitDisk W, GitClone W}.
(** The orders in which Go ranges over the maps. *)
Variable ord : gmap string (TreeEntry Hash) → list (string * TreeEntry Hash).
Variable ord_files : gmap string string → list (string * string).
Variable gs : GitServer.

Definition defaultCommitterName : string := "syngit-envtest".
Definition defaultCommitterEmail : string := "envtest@syngit.io".

Definition repoPath (repo : RepoRef) : string :=
  filepath_Join [gs_dir gs; Owner repo; (repo_Name repo ++ ".git")%string].

Definition defaultSignature : M error W Signature :=
  when ⇐ time_Now;; ret (mkSignature defaultCommitterName defaultCommitterEmail when).

(** [if err := m; err != nil { return fmt.Errorf(prefix + "%w", err) }]. *)
Definition wrapping {A} (prefix : string) (m : M error W A) : M error W A :=
  r ⇐ attempt m;;
  match r with inl a => ret a | inr err => throw (wrapError prefix err) end.

(** ** Repositories *)

Definition createInitialCommit (r : Repository) (branch : string) : M error W Hash :=
  treeEnc ⇐ lift (tree_Encode []);;
  treeHash ⇐ st_SetEncodedObject r treeEnc;;
  sig ⇐ defaultSignature;;
  commitEnc ⇐ lift (commit_Encode (mkCommit sig sig ("Initial commit" ++ nls) treeHash []));;
  commitHash ⇐ st_SetEncodedObject r commitEnc;;
  let branchRef := NewBranchReferenceName branch in
  st_SetReference r branchRef commitHash;;;
  st_SetSymbolicReference r HEAD branchRef;;;
  ret commitHash.

Definition CreateRepo (repo : RepoRef) (defaultBranch : string) : M error W unit :=
  let defaultBranch := if String.eqb defaultBranch "" then "main" else defaultBranch in
  let path := repoPath repo in
  rstat ⇐ attempt (os_Stat path);;
  match rstat with
  | inl _ => throw (plainError ("repository " ++ (RepoRef_String repo ++ " already exists")))
  | inr _ =>
      wrapping "failed to create repo dir: " (os_MkdirAll path);;;
      r ⇐ wrapping "failed to init bare repo: " (git_PlainInit path true);;
      wrapping "failed to create initial commit: " (createInitialCommit r defaultBranch);;;
      ret tt
  end.

Definition CreateBranch (repo : RepoRef) (branchName sourceBranch : string) : M error W unit :=
  r ⇐ git_PlainOpen (repoPath repo);;
  let newRef := NewBranchReferenceName branchName in
  rnew ⇐ attempt (rp_Reference r newRef false);;
  match rnew with
  | inl _ => throw (plainError ("branch " ++ (branchName ++ " already exists")))
  | inr _ =>
      srcRef ⇐ wrapping ("source branch " ++ (sourceBranch ++ ": ")) (rp_Reference r (NewBranchReferenceName sourceBranch) true);;
      st_SetReference r newRef srcRef
  end.

Definition DeleteBranch (repo : RepoRef) (branchName : string) : M error W unit :=
  r ⇐ git_PlainOpen (repoPath repo);;
  st_RemoveReference r (NewBranchReferenceName branchName).

(** ** Commits *)

(** A failed write closes the file all the same. *)
Definition envtest_writeFile (fs : MemWorktree) (path content : string) : M error W unit :=
  f ⇐ wrapping ("create " ++ (path ++ ": ")) (mem_Create fs path);;
  rw ⇐ attempt (mem_Write f content);;
  match rw with
  | inr err => _ ⇐ attempt (mem_Close f);; throw (wrapError ("write " ++ (path ++ ": ")) err)
  | inl _ => wrapping ("close " ++ (path ++ ": ")) (mem_Close f)
  end.

Definition CommitFiles (repo : RepoRef) (branch : string) (files : gmap string string) (commitMsg : string)
  : M error W unit :=
  r ⇐ wrapping "clone for commit: " (mem_Clone (repoPath repo) (NewBranchReferenceName branch));;
  wt ⇐ mem_Worktree r;;
  let paths := sort_Strings (map fst (ord_files files)) in
  for_each (λ p,
    envtest_writeFile wt p (mget files p);;;
    wrapping ("add " ++ (p ++ ": ")) (mem_Add wt p)) paths;;;
  sig ⇐ defaultSignature;;
  wrapping "commit: " (mem_Commit wt commitMsg sig);;;
  let branchRef := NewBranchReferenceName branch in
  mem_Push r "origin" (branchRef ++ (":" ++ branchRef)).

Definition CommitFile (repo : RepoRef) (branch path content commitMsg : string) : M error W unit :=
  CommitFiles repo branch {[path := content]} commitMsg.

(** The object is what [yaml.Marshal] answers for it. *)
Definition CommitObject (repo : RepoRef) (branch path : string) (marshalled : result error string) (commitMsg : string)
  : M error W unit :=
  content ⇐ wrapping "marshal object: " (lift marshalled);;
  CommitFile repo branch path content commitMsg.

(** ** Reading a branch *)

(** Common to the readers: the last commit of a branch. *)
Definition branch_commit (repo : RepoRef) (branch : string) : M error W (Repository * (Hash * GitCommit Hash)) :=
  r ⇐ git_PlainOpen (repoPath repo);;
  ref ⇐ wrapping ("branch " ++ (branch ++ ": ")) (rp_Reference r (NewBranchReferenceName branch) true);;
  commit ⇐ rp_CommitObject r ref;;
  ret (r, commit).
Definition branch_tree (repo : RepoRef) (branch : string) : M error W GitTree :=
  '(r, (_, commit)) ⇐ branch_commit repo branch;;
  commit_Tree r commit.

Definition ReadFile (repo : RepoRef) (branch path : string) : M error W string :=
  tree ⇐ branch_tree repo branch;;
  f ⇐ tree_File tree path;;
  file_Read f.

Definition FileExists (repo : RepoRef) (branch path : string) : M error W bool :=
  tree ⇐ branch_tree repo branch;;
  rf ⇐ attempt (tree_File tree path);;
  match rf with
  | inl _ => ret true
  | inr err => if is_ErrFileNotFound err then ret false else throw err
  end.

Definition ListFiles (repo : RepoRef) (branch : string) : M error W (list string) :=
  tree ⇐ branch_tree repo branch;;
  files ⇐ tree_Files tree;;
  ret (sort_Strings files).

Definition GetLatestCommit (repo : RepoRef) (branch : string) : M error W (string * string) :=
  '(_, (hash, commit)) ⇐ branch_commit repo branch;;
  ret (Hash_String hash, cm_Message commit).

(** ** Merges *)

Definition decodeTreeEntries (s : Repository) (hash : Hash) : M error W (list (TreeEntry Hash)) :=
  enc ⇐ st_EncodedTree s hash;;
  lift (tree_Decode enc).

(** The body of the loop over the entries of the overlay; [None] is the exhaustion of the
    fuel. *)
Definition overlay_entry (merge : Hash → Hash → M error W (option Hash))
    (merged : option (gmap string (TreeEntry Hash))) (e : TreeEntry Hash)
  : M error W (option (gmap string (TreeEntry Hash))) :=
  match merged with
  | None => ret None
  | Some merged =>
      match merged !! te_Name e with
      | Some existing =>
          if bool_decide (te_Mode existing = filemode_Dir) && bool_decide (te_Mode e = filemode_Dir) then
            sub ⇐ merge (te_Hash existing) (te_Hash e);;
            ret ((λ sub, <[te_Name e := mkEntry (te_Name e) (te_Mode e) sub]> merged) <$> sub)
          else ret (Some (<[te_Name e := e]> merged))
      | None => ret (Some (<[te_Name e := e]> merged))
      end
  end.

Definition by_name (es : list (TreeEntry Hash)) : gmap string (TreeEntry Hash) :=
  foldl (λ m e, <[te_Name e := e]> m) ∅ es.

(** The fuel bounds the depth of the directories. *)
Fixpoint mergeTreeObjects (fuel : nat) (s : Repository) (baseHash overlayHash : Hash) : M error W (option Hash) :=
  match fuel with
  | O => ret None
  | S fuel =>
      if decide (baseHash = overlayHash) then ret (Some baseHash)
      else
        baseEntries ⇐ wrapping "decode base tree: " (decodeTreeEntries s baseHash);;
        overlayEntries ⇐ wrapping "decode overlay tree: " (decodeTreeEntries s overlayHash);;
        rmerged ⇐ for_fold (overlay_entry (mergeTreeObjects fuel s))
          (Some (by_name baseEntries)) overlayEntries;;
        match rmerged with
        | None => ret None
        | Some merged =>
            let entries := sort_entries (map snd (ord merged)) in
            enc ⇐ wrapping "encode merged tree: " (lift (tree_Encode entries));;
            hash ⇐ st_SetEncodedObject s enc;;
            ret (Some hash)
        end
  end.

Definition MergeBranch (fuel : nat) (repo : RepoRef) (sourceBranch targetBranch : string) : M error W (option unit) :=
  r ⇐ git_PlainOpen (repoPath repo);;
  sourceRef ⇐ wrapping ("source branch " ++ (sourceBranch ++ ": ")) (rp_Reference r (NewBranchReferenceName sourceBranch) true);;
  targetRef ⇐ wrapping ("target branch " ++ (targetBranch ++ ": ")) (rp_Reference r (NewBranchReferenceName targetBranch) true);;
  if decide (sourceRef = targetRef) then ret (Some tt)
  else
    '(sourceHash, sourceCommit) ⇐ rp_CommitObject r sourceRef;;
    '(targetHash, targetCommit) ⇐ rp_CommitObject r targetRef;;
    canFF ⇐ commit_IsAncestor r targetHash sourceHash;;
    let targetBranchRef := NewBranchReferenceName targetBranch in
    if (canFF : bool) then st_SetReference r targetBranchRef sourceRef;;; ret (Some tt)
    else
      rmerged ⇐ wrapping "merge trees: " (mergeTreeObjects fuel r (cm_TreeHash targetCommit) (cm_TreeHash sourceCommit));;
      match rmerged with
      | None => ret None
      | Some mergedTreeHash =>
          sig ⇐ defaultSignature;;
          enc ⇐ lift (commit_Encode (mkCommit sig sig
            ("Merge branch '" ++ (sourceBranch ++ ("' into " ++ (targetBranch ++ nls)))) mergedTreeHash [targetRef; sourceRef]));;
          hash ⇐ st_SetEncodedObject r enc;;
          st_SetReference r targetBranchRef hash;;;
          ret (Some tt)
      end.
End Repos.

(** ** The order of a tree

    git orders the entries of a tree as if the name of a directory ended with a slash;
    go-git refuses to encode a tree that is not in this order. *)

Definition tree_key {H} (e : TreeEntry H) : string :=
  te_Name e ++ (if decide (te_Mode e = filemode_Dir) then "/" else "").
Definition canonical {H} (es : list (TreeEntry H)) : Prop := Sorted (λ a b, str_le (tree_key a) (tree_key b)) es.

#[export] Instance str_le_total : Total str_le.
Proof. intros a b. apply String.leb_total. Qed.
#[export] Instance entry_le_total {H} : Total (@entry_le H).
Proof. intros a b. apply String.leb_total. Qed.

Lemma str_le_nil b : str_le "" b.
Proof. by destruct b. Qed.
Lemma str_le_lt c d a b : Ascii.compare c d = Lt → str_le (String c a) (String d b).
Proof. unfold str_le, String.leb. cbn. by intros ->. Qed.
Lemma str_le_cons c a b : str_le (String c a) (String c b) ↔ str_le a b.
Proof.
  assert (Hc : Ascii.compare c c = Eq) by apply N.compare_refl.
  unfold str_le, String.leb. cbn. by rewrite Hc.
Qed.
Lemma str_le_app p a b : str_le (p ++ a) (p ++ b) ↔ str_le a b.
Proof. induction p as [|c p IH]; [done|]. cbn [String.append]. by rewrite str_le_cons. Qed.

(** Two names in order: one goes on where the other ends, or they differ at a byte. *)
Lemma str_le_inv a b : str_le a b → a ≠ b →
  (∃ c r, b = a ++ String c r) ∨
  ∃ p c d r r', a = p ++ String c r ∧ b = p ++ String d r' ∧ Ascii.compare c d = Lt.
Proof.
  revert b. induction a as [|c a IH]; intros [|d b] Hle Hne; [done|by left; exists d, b|done|].
  destruct (Ascii.compare c d) eqn:Hc.
  - apply Ascii.compare_eq_iff in Hc as <-. apply str_le_cons in Hle.
    destruct (IH b Hle) as [(x & r & ->)|(p & x & y & r & r' & -> & -> & Hxy)]; [congruence|left; by exists x, r|].
    right. by exists (String c p), x, y, r, r'.
  - right. by exists "", c, d, a, b.
  - exfalso. unfold str_le, String.leb in Hle. cbn in Hle. by rewrite Hc in Hle.
Qed.

(** Two entries that are in order by name are in order, when no directory is the beginning of
    a name that goes on with a byte below the slash. *)
Definition calm_pair {H} (a b : TreeEntry H) : Prop :=
  ∀ c r, te_Name b = te_Name a ++ String c r → Ascii.compare "/" c = Lt.
Lemma entry_le_key {H} (a b : TreeEntry H) : entry_le a b → te_Name a ≠ te_Name b → calm_pair a b →
  str_le (tree_key a) (tree_key b).
Proof.
  intros Hle Hne Hcalm. unfold tree_key. apply str_le_inv in Hle as [(c & r & Hb)|(p & c & d & r & r' & -> & -> & Hcd)]; [| |done].
  - rewrite Hb, append_assoc. apply str_le_app. case_decide; [|apply str_le_nil].
    cbn [String.append]. apply str_le_lt. by eapply Hcalm.
  - rewrite !append_assoc. apply str_le_app. by apply str_le_lt.
Qed.

Lemma sort_canonical {H} (es : list (TreeEntry H)) : NoDup (te_Name <$> es) →
  (∀ a b, a ∈ es → b ∈ es → calm_pair a b) → canonical (sort_entries es).
Proof.
  intros Hnd Hcalm. assert (Hs : Sorted entry_le (sort_entries es)) by apply (Sorted_merge_sort _).
  assert (Hp : sort_entries es ≡ₚ es) by apply merge_sort_Permutation.
  rewrite <- Hp in Hnd. assert (Hc : ∀ a b, a ∈ sort_entries es → b ∈ sort_entries es → calm_pair a b)
    by (intros a b; rewrite Hp; apply Hcalm). clear Hp Hcalm.
  unfold canonical. induction Hs as [|a l Hl IH Hhd]; [constructor|]. cbn in Hnd. apply NoDup_cons in Hnd as [Ha Hnd].
  constructor; [by apply IH; [|intros; apply Hc; right]|]. inversion Hhd as [|b l' Hab]; subst; constructor.
  apply entry_le_key; [done| |apply Hc; [left|right; left]]. intros Heq. apply Ha. rewrite Heq. left.
Qed.

Fixpoint find_entry {H} (es : list (TreeEntry H)) (n : string) : option (TreeEntry H) :=
  match es with [] => None | e :: es' => if String.eqb (te_Name e) n then Some e else find_entry es' n end.

(** ** go-git, as documented *)

Section Laws.
Context {W : Type} `{GitDisk W}.

Inductive gobject :=
| GTree (es : list (TreeEntry Hash))
| GCommit (c : GitCommit Hash)
| GBlob (content : string).
(** A bare repository: its references, and the objects by their hash. *)
Record bare := mkBare { b_refs : gmap string Hash; b_obj : Hash → option gobject }.

Definition parent_of (B : bare) (p c : Hash) : Prop := ∃ cm, b_obj B c = Some (GCommit cm) ∧ p ∈ cm_ParentHashes cm.

(** ** Trees *)

Definition entries (B : bare) (h : Hash) : list (TreeEntry Hash) :=
  match b_obj B h with Some (GTree es) => es | _ => [] end.
(** The file at a path of a tree: its mode and the hash of its content. *)
Fixpoint file_in (B : bare) (h : Hash) (k : key) : option (Z * Hash) :=
  match k with
  | [] => None
  | n :: k' =>
      match find_entry (entries B h) n with
      | None => None
      | Some e =>
          if decide (te_Mode e = filemode_Dir) then file_in B (te_Hash e) k'
          else match k' with [] => Some (te_Mode e, te_Hash e) | _ => None end
      end
  end.
(** Whether a tree has no room for a file at a path: a directory is there, or a file is
    above. *)
Fixpoint shadowed (B : bare) (h : Hash) (k : key) : bool :=
  match k with
  | [] => true
  | n :: k' =>
      match find_entry (entries B h) n with
      | None => false
      | Some e => if decide (te_Mode e = filemode_Dir) then shadowed B (te_Hash e) k' else true
      end
  end.
(** The union of two trees, where the second wins. *)
Definition overlaid (B : bare) (base overlay : Hash) (k : key) : option (Z * Hash) :=
  match file_in B overlay k with
  | Some f => Some f
  | None => if shadowed B overlay k then None else file_in B base k
  end.

(** A tree of a depth, each name in it once. *)
Fixpoint readable (B : bare) (n : nat) (h : Hash) : Prop :=
  match n with
  | O => False
  | S n => ∃ es, b_obj B h = Some (GTree es) ∧ NoDup (te_Name <$> es) ∧
      ∀ e, e ∈ es → te_Mode e = filemode_Dir → readable B n (te_Hash e)
  end.

(** The names in a tree and below it. *)
Inductive occurs (B : bare) : Hash → string → Prop :=
| occurs_here h e : e ∈ entries B h → occurs B h (te_Name e)
| occurs_below h e n : e ∈ entries B h → te_Mode e = filemode_Dir → occurs B (te_Hash e) n → occurs B h n.
(** No name of the two trees goes on, after another of their names, with a byte below the
    slash (such as a dash or a dot). *)
Definition calm (B : bare) (base overlay : Hash) : Prop :=
  ∀ n m, occurs B base n ∨ occurs B overlay n → occurs B base m ∨ occurs B overlay m →
    ∀ c r, m = n ++ String c r → Ascii.compare "/" c = Lt.
End Laws.
Arguments gobject W {_}. Arguments bare W {_}.

Class GitDiskLaws (W : Type) `{GitDisk W} := {
  repos : W → string → option (bare W);                              (** by the path *)
  repo_path : Repository → string;
  tree_repo : GitTree → string;
  tree_hash : GitTree → Hash;
  content : Encoded → gobject W;
  open_found p w B : repos w p = Some B → ∃ r, git_PlainOpen p w = (Ok r, w) ∧ repo_path r = p;
  reference_found r n b w B h : repos w (repo_path r) = Some B → b_refs B !! n = Some h → rp_Reference r n b w = (Ok h, w);
  reference_missing r n b w B : repos w (repo_path r) = Some B → b_refs B !! n = None → ∃ e, rp_Reference r n b w = (Err e, w);
  set_reference r n h w B : repos w (repo_path r) = Some B →
    ∃ w', st_SetReference r n h w = (Ok tt, w') ∧
      ∀ p, repos w' p = if decide (p = repo_path r) then Some (mkBare (<[n := h]> (b_refs B)) (b_obj B)) else repos w p;
  tree_object r h w B es : repos w (repo_path r) = Some B → b_obj B h = Some (GTree es) →
    ∃ enc, st_EncodedTree r h w = (Ok enc, w) ∧ tree_Decode enc = Ok es;
  commit_object r h w B c : repos w (repo_path r) = Some B → b_obj B h = Some (GCommit c) →
    rp_CommitObject r h w = (Ok (h, c), w);
  set_object r enc w B : repos w (repo_path r) = Some B →
    ∃ h w' B', st_SetEncodedObject r enc w = (Ok h, w') ∧ repos w' (repo_path r) = Some B' ∧
      b_refs B' = b_refs B ∧ b_obj B' h = Some (content enc) ∧
      (∀ h' o, b_obj B h' = Some o → b_obj B' h' = Some o) ∧ ∀ p, p ≠ repo_path r → repos w' p = repos w p;
  encode_tree es : canonical es → ∃ enc, tree_Encode es = Ok enc ∧ content enc = GTree es;
  encode_unsorted es : ¬ canonical es → ∃ e, tree_Encode es = Err e;
  encode_commit c : ∃ enc, commit_Encode c = Ok enc ∧ content enc = GCommit c;
  is_ancestor r a c w B : repos w (repo_path r) = Some B →
    (∀ h, rtc (parent_of B) h c → ∃ cm, b_obj B h = Some (GCommit cm)) →
    ∃ b : bool, commit_IsAncestor r a c w = (Ok b, w) ∧ (b = true ↔ rtc (parent_of B) a c);
  tick w : ∃ t, time_Now w = (Ok t, w);
  commit_tree r c w B : repos w (repo_path r) = Some B → is_Some (b_obj B (cm_TreeHash c)) →
    ∃ t, commit_Tree r c w = (Ok t, w) ∧ tree_repo t = repo_path r ∧ tree_hash t = cm_TreeHash c;
  tree_file_found t k m h s w B : key_ok k → repos w (tree_repo t) = Some B → file_in B (tree_hash t) k = Some (m, h) →
    b_obj B h = Some (GBlob s) → ∃ f, tree_File t (Join k "/") w = (Ok f, w) ∧ file_Read f w = (Ok s, w);
  tree_file_missing t k w B : key_ok k → repos w (tree_repo t) = Some B → file_in B (tree_hash t) k = None →
    ∃ e, tree_File t (Join k "/") w = (Err e, w) ∧ is_ErrFileNotFound e = true
}.

(** ** An instance

    The hash of an object is the object: a blob is a leaf, a tree and a commit are nodes. A
    world is the references of each repository. *)

Abbreviation sim_hash := (gen_tree (string + Z)).
Abbreviation sim_world := (gmap string (gmap string sim_hash)).

Definition of_entry (e : TreeEntry sim_hash) : sim_hash :=
  GenNode 0 [GenLeaf (inl (te_Name e)); GenLeaf (inr (te_Mode e)); te_Hash e].
Definition to_entry (t : sim_hash) : option (TreeEntry sim_hash) :=
  match t with GenNode 0 [GenLeaf (inl n); GenLeaf (inr m); h] => Some (mkEntry n m h) | _ => None end.
Definition of_tree (es : list (TreeEntry sim_hash)) : sim_hash := GenNode 0 (of_entry <$> es).
Definition to_tree (t : sim_hash) : option (list (TreeEntry sim_hash)) :=
  match t with GenNode 0 l => mapM to_entry l | _ => None end.
Definition of_sig (s : Signature) : sim_hash :=
  GenNode 0 [GenLeaf (inl (sig_Name s)); GenLeaf (inl (sig_Email s)); GenLeaf (inr (sig_When s))].
Definition to_sig (t : sim_hash) : Signature :=
  match t with
  | GenNode 0 [GenLeaf (inl n); GenLeaf (inl e); GenLeaf (inr w)] => mkSignature n e w
  | _ => mkSignature "" "" 0
  end.
Definition of_commit (c : GitCommit sim_hash) : sim_hash :=
  GenNode 1 (of_sig (cm_Author c) :: of_sig (cm_Committer c) :: GenLeaf (inl (cm_Message c)) :: cm_TreeHash c :: cm_ParentHashes c).
Definition to_commit (t : sim_hash) : option (GitCommit sim_hash) :=
  match t with
  | GenNode 1 (a :: c :: GenLeaf (inl msg) :: tree :: parents) => Some (mkCommit (to_sig a) (to_sig c) msg tree parents)
  | _ => None
  end.
Fixpoint sim_ancestor (a c : sim_hash) : bool :=
  bool_decide (a = c) ||
  match c with
  | GenNode 1 (_ :: _ :: GenLeaf (inl _) :: _ :: parents) => existsb (sim_ancestor a) parents
  | _ => false
  end.
Definition sim_blob (h : sim_hash) : option string :=
  match h with
  | GenLeaf (inl s) => Some s
  | GenLeaf (inr _) => Some ""
  | _ => match to_commit h, to_tree h with None, None => Some "" | _, _ => None end
  end.
Fixpoint sim_find (h : sim_hash) (k : key) : option sim_hash :=
  match k with
  | [] => None
  | n :: k' =>
      match find_entry (default [] (to_tree h)) n with
      | None => None
      | Some e =>
          if decide (te_Mode e = filemode_Dir) then sim_find (te_Hash e) k'
          else match k' with [] => Some (te_Hash e) | _ => None end
      end
  end.
Fixpoint sim_files (h : sim_hash) : list string :=
  match h with
  | GenNode 0 l => concat (map (λ e, match e with
      | GenNode 0 [GenLeaf (inl n); GenLeaf (inr m); h'] =>
          if decide (m = filemode_Dir) then map (λ p, n ++ ("/" ++ p)) (sim_files h') else [n]
      | _ => [] end) l)
  | _ => []
  end.
Fixpoint in_order (es : list (TreeEntry sim_hash)) : bool :=
  match es with
  | a :: ((b :: _) as es') => bool_decide (str_le (tree_key a) (tree_key b)) && in_order es'
  | _ => true
  end.
Definition with_refs {A} (p : string) (f : gmap string sim_hash → result error A * gmap string sim_hash) : M error sim_world A :=
  λ w, match w !! p with
       | Some refs => let '(r, refs') := f refs in (r, <[p := refs']> w)
       | None => (Err (plainError "repository does not exist"), w)
       end.

Definition sim_ref (w : sim_world) (p n : string) : option sim_hash :=
  match w !! p with Some refs => refs !! n | None => None end.
Definition sim_found (w : sim_world) (p : string) : bool := match w !! p with Some _ => true | None => false end.

#[export] Instance sim_disk : GitDisk sim_world := {|
  Hash := sim_hash; Hash_String h := ""; Repository := string; Encoded := sim_hash;
  GitTree := string * sim_hash; GitFile := string;
  os_Stat p w := if sim_found w p then (Ok tt, w) else (Err (plainError "no such file"), w);
  os_MkdirAll p := ret tt;
  time_Now := ret 0%Z;
  git_PlainInit p _ w := (Ok p, <[p := ∅]> w);
  git_PlainOpen p w := if sim_found w p then (Ok p, w) else (Err (plainError "repository does not exist"), w);
  rp_Reference r n _ w := match sim_ref w r n with
    | Some h => (Ok h, w) | None => (Err (plainError "reference not found"), w) end;
  rp_CommitObject r h w := match to_commit h with Some c => (Ok (h, c), w) | None => (Err (plainError "object not found"), w) end;
  st_SetReference r n h := with_refs r (λ refs, (Ok tt, <[n := h]> refs));
  st_SetSymbolicReference r n h := ret tt;
  st_RemoveReference r n := with_refs r (λ refs, (Ok tt, delete n refs));
  st_EncodedTree r h := ret h;
  st_SetEncodedObject r h := ret h;
  tree_Decode h := match to_tree h with Some es => Ok es | None => Err (plainError "malformed") end;
  tree_Encode es := if in_order es then Ok (of_tree es) else Err (plainError "entries in tree are not sorted");
  commit_Encode c := Ok (of_commit c);
  commit_IsAncestor r a c := ret (sim_ancestor a c);
  commit_Tree r c := ret (r, cm_TreeHash c);
  tree_File t p := match (if String.eqb p "" then None else sim_find t.2 (Split p "/")) with
    | Some h => match sim_blob h with Some s => ret s | None => throw (plainError "file not found") end
    | None => throw (plainError "file not found") end;
  tree_Files t := ret (sim_files t.2);
  file_Read f := ret f;
  is_ErrFileNotFound e := match e with plainError s => String.eqb s "file not found" | _ => false end |}.

Definition sim_content (h : sim_hash) : gobject sim_world :=
  match h with
  | GenLeaf (inl s) => GBlob s
  | GenLeaf (inr _) => GBlob ""
  | _ => match to_commit h, to_tree h with
         | Some c, _ => GCommit c
         | None, Some es => GTree es
         | None, None => GBlob ""
         end
  end.
Definition sim_object (h : sim_hash) : option (gobject sim_world) := Some (sim_content h).

Lemma to_of_entry e : to_entry (of_entry e) = Some e.
Proof. by destruct e. Qed.
Lemma to_of_tree es : to_tree (of_tree es) = Some es.
Proof. unfold to_tree, of_tree. apply mapM_fmap_Some. intros e. apply to_of_entry. Qed.
Lemma to_of_commit c : to_commit (of_commit c) = Some c.
Proof. by destruct c as [[] [] ? ? ?]. Qed.
Lemma sim_object_tree h es : sim_object h = Some (GTree es) → to_tree h = Some es.
Proof.
  unfold sim_object, sim_content. destruct h as [[s|z]|i l]; [done..|].
  destruct (to_commit (GenNode i l)); [done|]. destruct (to_tree (GenNode i l)); [by intros [= ->]|done].
Qed.
Lemma sim_object_commit h c : sim_object h = Some (GCommit c) → to_commit h = Some c.
Proof.
  unfold sim_object, sim_content. destruct h as [[s|z]|i l]; [done..|].
  destruct (to_commit (GenNode i l)); [by intros [= ->]|]. by destruct (to_tree (GenNode i l)).
Qed.
Lemma sim_object_other h s : sim_object h = Some (GBlob s) → to_tree h = None.
Proof.
  unfold sim_object, sim_content. destruct h as [[s'|z]|i l]; [done..|].
  destruct (to_commit (GenNode i l)); [done|]. by destruct (to_tree (GenNode i l)).
Qed.
Lemma sim_object_blob h s : sim_object h = Some (GBlob s) → sim_blob h = Some s.
Proof.
  unfold sim_object, sim_content, sim_blob. destruct h as [[s'|z]|i l]; [by intros [= ->]..|].
  destruct (to_commit (GenNode i l)); [done|]. destruct (to_tree (GenNode i l)); [done|by intros [= ->]].
Qed.
Lemma in_order_canonical es : in_order es = true ↔ canonical es.
Proof.
  unfold canonical. induction es as [|a es IH]; [split; [intros _; constructor|done]|].
  destruct es as [|b es]; [split; [intros _; repeat constructor|done]|].
  cbn [in_order]. rewrite andb_true_iff, bool_decide_eq_true, IH. split.
  - intros [Ha Hs]. constructor; [done|by constructor].
  - intros Hs. inversion Hs as [|? ? Hs' Hhd]; subst. by inversion Hhd.
Qed.

Definition sim_bare (refs : gmap string sim_hash) : bare sim_world := mkBare refs sim_object.
Lemma sim_file_in refs h k : snd <$> file_in (sim_bare refs) h k = sim_find h k.
Proof.
  revert h. induction k as [|n k IH]; intros h; [done|]. cbn [file_in sim_find].
  assert (He : entries (sim_bare refs) h = default [] (to_tree h) ∨ entries (sim_bare refs) h = [] ∧ default [] (to_tree h) = []).
  { unfold entries, sim_bare. cbn [b_obj]. destruct (sim_object h) as [[es|c|s]|] eqn:Ho; [| | |done].
    - left. by rewrite (sim_object_tree h es Ho).
    - right. split; [done|]. apply sim_object_commit in Ho. destruct h as [s|[|i] l]; [done|by cbn in Ho|done].
    - left. by rewrite (sim_object_other h s Ho). }
  destruct He as [->|[-> ->]]; [|done]. change (@Hash sim_world sim_disk) with sim_hash in *. destruct (find_entry (default [] (to_tree h)) n) as [e|]; [|done].
  case_decide; [apply IH|]. by destruct k.
Qed.

Lemma sim_parents c cm : to_commit c = Some cm →
  (∃ x y m, c = GenNode 1 (x :: y :: GenLeaf (inl m) :: cm_TreeHash cm :: cm_ParentHashes cm)).
Proof.
  destruct c as [|[|[|i]] [|x [|y [|[[m|]|] [|t ps]]]]]; try done. intros [= <-]. by exists x, y, m.
Qed.
Lemma sim_ancestor_spec refs a c : sim_ancestor a c = true ↔ rtc (parent_of (sim_bare refs)) a c.
Proof.
  assert (Hself : ∀ c, sim_ancestor c c = true) by (intros []; cbn; by rewrite bool_decide_true).
  assert (Hroot : ∀ c, c = a → rtc (parent_of (sim_bare refs)) a c) by (intros ? ->; constructor).
  split.
  - revert c. fix IH 1. intros [l|i l].
    { cbn. rewrite orb_false_r, bool_decide_eq_true. intros Ha. by apply Hroot. }
    destruct i as [|[|i]].
    1,3: cbn; rewrite orb_false_r, bool_decide_eq_true; intros Ha; by apply Hroot.
    destruct l as [|x [|y [|[[m|z]|i l] [|t ps]]]].
    all: try (cbn; rewrite orb_false_r, bool_decide_eq_true; intros Ha; by apply Hroot).
    cbn. rewrite orb_true_iff, bool_decide_eq_true. intros [Ha|Hps]; [by apply Hroot|].
    assert (Hpar : ∃ p, p ∈ ps ∧ rtc (parent_of (sim_bare refs)) a p).
    { induction ps as [|p ps IHps]; [done|]. cbn in Hps. apply orb_true_iff in Hps as [Hp|Hps].
      - exists p. split; [left|by apply IH].
      - destruct (IHps Hps) as (q & Hq & Hr). exists q. by split; [right|]. }
    destruct Hpar as (p & Hp & Hr). eapply rtc_r; [exact Hr|]. eexists. by split; [reflexivity|].
  - intros Hr. refine (rtc_ind_r (λ c, sim_ancestor a c = true) a (Hself a) _ c Hr). intros c1 c2 _ [cm [Ho Hp]] IH.
    apply sim_object_commit, sim_parents in Ho as (x & y & m & ->). cbn. apply orb_true_iff. right.
    apply existsb_exists. exists c1. split; [by apply list_elem_of_In|done].
Qed.

Lemma sim_content_tree es : sim_content (of_tree es) = GTree es.
Proof.
  change (sim_content (of_tree es)) with (match to_tree (of_tree es) with Some es => GTree es | None => GBlob "" end : gobject sim_world).
  by rewrite to_of_tree.
Qed.
Lemma sim_repo (w : sim_world) p B : sim_bare <$> w !! p = Some B → ∃ refs, w !! p = Some refs ∧ B = sim_bare refs.
Proof. intros (refs & Hw & ->)%fmap_Some. by exists refs. Qed.
Lemma Split_path k : key_ok k → k ≠ [] → Split (Join k "/") "/" = k.
Proof. intros Hk Hne. apply Split_Join; [|done]. eapply Forall_impl; [exact Hk|]. by intros n (_ & _ & _ & ?). Qed.
Lemma Join_empty k : key_ok k → Join k "/" = "" → k = [].
Proof.
  destruct k as [|n [|m k]]; intros Hk Hj; [done| |].
  - apply Forall_cons in Hk as [[Hn _] _]. by destruct n.
  - exfalso. apply Forall_cons in Hk as [[Hn _] _]. unfold Join in Hj. rewrite concat_cons in Hj by done. by destruct n.
Qed.
Lemma sim_tree_file (t : string * sim_hash) k (w : sim_world) : key_ok k →
  tree_File (W := sim_world) t (Join k "/") w = match sim_find t.2 k with
    | Some h => match sim_blob h with Some s => (Ok s, w) | None => (Err (plainError "file not found"), w) end
    | None => (Err (plainError "file not found"), w) end.
Proof.
  intros Hk. cbn [tree_File sim_disk]. destruct (String.eqb_spec (Join k "/") "") as [Hj|Hj].
  - by rewrite (Join_empty k Hk Hj).
  - rewrite Split_path by (try done; by intros ->). destruct (sim_find t.2 k) as [h|]; [|done]. by destruct (sim_blob h).
Qed.

#[export, program] Instance sim_disk_laws : GitDiskLaws sim_world := {|
  repos w p := sim_bare <$> w !! p;
  repo_path r := r; tree_repo t := t.1; tree_hash t := t.2;
  content := sim_content |}.
Next Obligation.
  intros p w B (refs & Hw & ->)%sim_repo. exists p. split; [|done]. cbn. unfold sim_found. by rewrite Hw.
Qed.
Next Obligation.
  intros r n b w B h (refs & Hw & ->)%sim_repo Hn. cbn in *. unfold sim_ref. by rewrite Hw, Hn.
Qed.
Next Obligation.
  intros r n b w B (refs & Hw & ->)%sim_repo Hn. cbn in *. unfold sim_ref. rewrite Hw, Hn. by eexists.
Qed.
Next Obligation.
  intros r n h w B (refs & Hw & ->)%sim_repo. cbn in *. unfold with_refs. rewrite Hw. eexists. split; [done|].
  intros p. case_decide as Hp; [by rewrite Hp, lookup_insert_eq|by rewrite lookup_insert_ne].
Qed.
Next Obligation.
  intros r h w B es (refs & Hw & ->)%sim_repo Ho. exists h. split; [done|]. cbn in *. by rewrite (sim_object_tree h es Ho).
Qed.
Next Obligation.
  intros r h w B c (refs & Hw & ->)%sim_repo Ho. cbn in *. by rewrite (sim_object_commit h c Ho).
Qed.
Next Obligation.
  intros r enc w B (refs & Hw & ->)%sim_repo. exists enc, w, (sim_bare refs). split_and!; try done. cbn. by rewrite Hw.
Qed.
Next Obligation.
  intros es Hes. exists (of_tree es). cbn. rewrite (proj2 (in_order_canonical es) Hes). split; [done|].
  apply sim_content_tree.
Qed.
Next Obligation.
  intros es Hes. cbn. destruct (in_order es) eqn:Ho; [|by eexists]. by apply in_order_canonical in Ho.
Qed.
Next Obligation.
  intros c. exists (of_commit c). split; [done|]. by destruct c as [[] [] ? ? ?].
Qed.
Next Obligation.
  intros r a c w B (refs & Hw & ->)%sim_repo _. exists (sim_ancestor a c). split; [done|]. apply sim_ancestor_spec.
Qed.
Next Obligation. intros w. by exists 0%Z. Qed.
Next Obligation. intros r c w B Hw Hs. by eexists. Qed.
Next Obligation.
  intros t k m h s w B Hk (refs & Hw & ->)%sim_repo Hf Hb. exists s. split; [|done]. rewrite sim_tree_file by done.
  rewrite <- (sim_file_in refs). cbn in *. rewrite Hf. cbn. by rewrite (sim_object_blob h s Hb).
Qed.
Next Obligation.
  intros t k w B Hk (refs & Hw & ->)%sim_repo Hf. exists (plainError "file not found"). split; [|done].
  rewrite sim_tree_file by done. rewrite <- (sim_file_in refs). cbn in *. by rewrite Hf.
Qed.
