(* ===== verification/Merges.v ===== *)
(** * What a merge of the test server does

    The proof that [MergeBranch] overlays the source on the target, from the laws of
    [GitRepos.v]: the loop over the entries, the recursion over the directories, the commit.
    The runs of the last part show what its users have to know. *)

From stdpp Require Import sorting.
From S2P Require Import Prelude GoStr Errors Files GitServer GitRepos.
From Stdlib Require Import Ascii.

(** ** The merge of two trees *)

Section Merge.
Context {W : Type} `{GitDiskLaws W}.

Definition extends (B B' : bare W) : Prop := ∀ h o, b_obj B h = Some o → b_obj B' h = Some o.
(** One repository got objects, nothing else changed. *)
Record grows (p : string) (w w' : W) (B B' : bare W) : Prop := {
  gr_before : repos w p = Some B;
  gr_after : repos w' p = Some B';
  gr_refs : b_refs B' = b_refs B;
  gr_objects : extends B B';
  gr_others q : q ≠ p → repos w' q = repos w q }.

Lemma grows_refl p w B : repos w p = Some B → grows p w w B B.
Proof. split; try done. by intros h o. Qed.
Lemma grows_trans p w w1 w2 B B1 B2 : grows p w w1 B B1 → grows p w1 w2 B1 B2 → grows p w w2 B B2.
Proof.
  intros [H1 H2 H3 H4 H5] [H1' H2' H3' H4' H5']. split; [done..|congruence|by intros h o Ho; apply H4', H4|].
  intros q Hq. by rewrite H5', H5.
Qed.

Lemma entries_tree (B : bare W) h es : b_obj B h = Some (GTree es) → entries B h = es.
Proof. unfold entries. by intros ->. Qed.
Lemma readable_entries (B : bare W) n h : readable B n h → NoDup (te_Name <$> entries B h) ∧
  b_obj B h = Some (GTree (entries B h)) ∧
  ∀ e, e ∈ entries B h → te_Mode e = filemode_Dir → readable B (pred n) (te_Hash e).
Proof. destruct n as [|n]; [done|]. intros (es & Ho & Hnd & Hsub). by rewrite (entries_tree B h es Ho). Qed.

Lemma find_entry_some {H'} (es : list (TreeEntry H')) n e : find_entry es n = Some e → e ∈ es ∧ te_Name e = n.
Proof.
  induction es as [|x es IH]; [done|]. cbn. destruct (String.eqb_spec (te_Name x) n); intros ?; simplify_eq.
  - split; [left|done].
  - destruct IH as [? ?]; [done|]. by split; [right|].
Qed.
Lemma find_entry_iff {H'} (es : list (TreeEntry H')) e : NoDup (te_Name <$> es) → e ∈ es → find_entry es (te_Name e) = Some e.
Proof.
  induction es as [|x es IH]; [by intros _ ?%not_elem_of_nil|]. cbn. intros [Hx Hnd]%NoDup_cons [->|He]%elem_of_cons.
  - by rewrite String.eqb_refl.
  - destruct (String.eqb_spec (te_Name x) (te_Name e)) as [Heq|_]; [|by apply IH].
    destruct Hx. rewrite Heq. by apply list_elem_of_fmap_2.
Qed.
Lemma find_entry_none {H'} (es : list (TreeEntry H')) n : find_entry es n = None ↔ n ∉ te_Name <$> es.
Proof.
  induction es as [|x es IH]; cbn; [by split; [intros _ ?%not_elem_of_nil|]|]. rewrite not_elem_of_cons.
  destruct (String.eqb_spec (te_Name x) n); [naive_solver|]. rewrite IH. naive_solver.
Qed.

Lemma readable_extends B B' n h : extends B B' → readable B n h → readable B' n h.
Proof.
  intros He. revert h. induction n as [|n IH]; intros h; [done|]. intros (es & Ho & Hnd & Hsub).
  exists es. split_and!; [by apply He|done|]. intros e Hin Hm. by apply IH, Hsub.
Qed.
Lemma readable_more (B : bare W) n m h : (n ≤ m)%nat → readable B n h → readable B m h.
Proof.
  revert m h. induction n as [|n IH]; intros m h Hle; [done|]. destruct m as [|m]; [lia|].
  intros (es & Ho & Hnd & Hsub). exists es. split_and!; [done..|]. intros e Hin Hm. apply IH; [lia|by apply Hsub].
Qed.
Lemma entries_extends B B' n h : extends B B' → readable B n h → entries B' h = entries B h.
Proof. intros He Hr. apply readable_entries in Hr as (_ & Ho & _). by apply entries_tree, He. Qed.
Lemma file_in_extends B B' n h k : extends B B' → readable B n h → file_in B' h k = file_in B h k.
Proof.
  intros He. revert n h. induction k as [|x k IH]; intros n h Hr; [done|]. cbn.
  rewrite (entries_extends B B' n h) by done. destruct (find_entry (entries B h) x) as [e|] eqn:Hf; [|done].
  apply find_entry_some in Hf as [Hin _]. case_decide as Hd; [|done].
  apply (IH (pred n)). by apply readable_entries in Hr as (_ & _ & Hsub); apply Hsub.
Qed.
Lemma shadowed_extends B B' n h k : extends B B' → readable B n h → shadowed B' h k = shadowed B h k.
Proof.
  intros He. revert n h. induction k as [|x k IH]; intros n h Hr; [done|]. cbn.
  rewrite (entries_extends B B' n h) by done. destruct (find_entry (entries B h) x) as [e|] eqn:Hf; [|done].
  apply find_entry_some in Hf as [Hin _]. case_decide as Hd; [|done].
  apply (IH (pred n)). by apply readable_entries in Hr as (_ & _ & Hsub); apply Hsub.
Qed.
Lemma occurs_extends B B' n h x : extends B B' → readable B n h → occurs B' h x → occurs B h x.
Proof.
  intros He Hr Ho. revert n Hr. induction Ho as [h e Hin|h e x Hin Hd _ IH]; intros n Hr.
  - rewrite (entries_extends B B' n h) in Hin by done. by constructor.
  - rewrite (entries_extends B B' n h) in Hin by done. apply (occurs_below _ _ e); [done..|].
    apply (IH (pred n)). by apply readable_entries in Hr as (_ & _ & Hsub); apply Hsub.
Qed.

(** A path of a file is no path of a directory and has no file above it. *)
Lemma not_shadowed_empty (B : bare W) h : shadowed B h [] = true.
Proof. done. Qed.

(** What is under one entry. *)
Definition sub_file (B : bare W) (e : TreeEntry Hash) (k : key) : option (Z * Hash) :=
  if decide (te_Mode e = filemode_Dir) then file_in B (te_Hash e) k
  else match k with [] => Some (te_Mode e, te_Hash e) | _ => None end.
Definition sub_shadowed (B : bare W) (e : TreeEntry Hash) (k : key) : bool :=
  if decide (te_Mode e = filemode_Dir) then shadowed B (te_Hash e) k else true.
Definition sub_overlaid (B : bare W) (base : option (TreeEntry Hash)) (e : TreeEntry Hash) (k : key) : option (Z * Hash) :=
  match sub_file B e k with
  | Some f => Some f
  | None => if sub_shadowed B e k then None else base ≫= λ b, sub_file B b k
  end.
Lemma file_in_cons (B : bare W) h n k : file_in B h (n :: k) = find_entry (entries B h) n ≫= λ e, sub_file B e k.
Proof. cbn. by destruct (find_entry (entries B h) n). Qed.
Lemma overlaid_cons (B : bare W) base overlay n k : overlaid B base overlay (n :: k) =
  match find_entry (entries B overlay) n with
  | Some e => sub_overlaid B (find_entry (entries B base) n) e k
  | None => find_entry (entries B base) n ≫= λ b, sub_file B b k
  end.
Proof.
  unfold overlaid, sub_overlaid. rewrite !file_in_cons. cbn [shadowed].
  by destruct (find_entry (entries B overlay) n) as [e|].
Qed.
(** An entry that stays as it is hides all there was under its name, two directories
    excepted. *)
Lemma sub_overlaid_alone (B : bare W) base e k :
  (∀ b, base = Some b → te_Mode b = filemode_Dir → te_Mode e ≠ filemode_Dir) → sub_overlaid B base e k = sub_file B e k.
Proof.
  intros Hne. unfold sub_overlaid. destruct (sub_file B e k) eqn:Hf; [done|].
  destruct (sub_shadowed B e k) eqn:Hs; [done|]. unfold sub_shadowed in Hs. case_decide as Hd; [|done].
  destruct base as [b|]; [|done]. cbn. unfold sub_file. case_decide as Hb; [|by destruct k].
  by destruct (Hne b).
Qed.

(** The entry that is left of [e] over what the base had. *)
Record merged_entry (n : nat) (B B' : bare W) (base : option (TreeEntry Hash)) (e e' : TreeEntry Hash) : Prop := {
  me_name : te_Name e' = te_Name e;
  me_mode : te_Mode e' = te_Mode e;
  me_readable : te_Mode e' = filemode_Dir → readable B' n (te_Hash e');
  me_files k : sub_file B' e' k = sub_overlaid B base e k }.

Lemma sub_file_extends B B' n e k : extends B B' → (te_Mode e = filemode_Dir → readable B n (te_Hash e)) →
  sub_file B' e k = sub_file B e k.
Proof. intros He Hr. unfold sub_file. case_decide; [|done]. by apply (file_in_extends B B' n); [|apply Hr]. Qed.
Lemma merged_entry_extends n B B1 B2 base e e' : extends B1 B2 → merged_entry n B B1 base e e' → merged_entry n B B2 base e e'.
Proof.
  intros He [Hn Hm Hr Hf]. split; [done..| |].
  - intros Hd. by apply (readable_extends B1), Hr.
  - intros k. by rewrite (sub_file_extends B1 B2 n).
Qed.

(** What one run of the merge does. *)
Definition merge_ok (r : Repository) (n : nat) (merge : Hash → Hash → M error W (option Hash)) : Prop :=
  ∀ base overlay w B, repos w (repo_path r) = Some B → readable B n base → readable B n overlay → calm B base overlay →
  ∃ h w' B', merge base overlay w = (Ok (Some h), w') ∧ grows (repo_path r) w w' B B' ∧ readable B' n h ∧
    ∀ k, file_in B' h k = overlaid B base overlay k.

Section Loop.
Context (r : Repository) (n : nat) (merge : Hash → Hash → M error W (option Hash)) (merge_spec : merge_ok r n merge).
Context (base overlay : Hash) (w : W) (B : bare W) (base_ok : readable B (S n) base) (overlay_ok : readable B (S n) overlay)
  (names_calm : calm B base overlay).
Abbreviation p := (repo_path r).
Abbreviation base_entry x := (find_entry (entries B base) x).

Lemma dir_below h e : readable B (S n) h → e ∈ entries B h → te_Mode e = filemode_Dir → readable B n (te_Hash e).
Proof. intros Hr. apply readable_entries in Hr as (_ & _ & Hsub). apply Hsub. Qed.

Lemma overlay_entry_run e m w1 B1 : grows p w w1 B B1 → e ∈ entries B overlay → m !! te_Name e = base_entry (te_Name e) →
  ∃ e' w2 B2, overlay_entry merge (Some m) e w1 = (Ok (Some (<[te_Name e := e']> m)), w2) ∧ grows p w w2 B B2 ∧
    extends B1 B2 ∧ merged_entry n B B2 (base_entry (te_Name e)) e e'.
Proof.
  intros Hg Hin Hm. unfold overlay_entry. rewrite Hm.
  assert (Halone : (∀ b, base_entry (te_Name e) = Some b → te_Mode b = filemode_Dir → te_Mode e ≠ filemode_Dir) →
    merged_entry n B B1 (base_entry (te_Name e)) e e).
  { intros Hne. pose proof (gr_objects _ _ _ _ _ Hg) as He. split; [done..| |].
    - intros Hd. apply (readable_extends B); [done|]. by apply (dir_below overlay).
    - intros k. rewrite sub_overlaid_alone by done. apply (sub_file_extends B B1 n); [done|]. by apply (dir_below overlay). }
  destruct (base_entry (te_Name e)) as [b|] eqn:Hb.
  - destruct (bool_decide_reflect (te_Mode b = filemode_Dir)) as [Hbd|Hbd];
      [destruct (bool_decide_reflect (te_Mode e = filemode_Dir)) as [Hed|Hed]|]; cbn [andb].
    + destruct (find_entry_some _ _ _ Hb) as [Hbin Hbn]. pose proof (gr_objects _ _ _ _ _ Hg) as He.
      pose proof (dir_below _ _ base_ok Hbin Hbd) as Hrb. pose proof (dir_below _ _ overlay_ok Hin Hed) as Hre.
      destruct (merge_spec (te_Hash b) (te_Hash e) w1 B1) as (h & w2 & B2 & Hrun & Hg2 & Hr2 & Hf2).
      { by apply Hg. } { by apply (readable_extends B). } { by apply (readable_extends B). }
      { intros x y Hx Hy. apply names_calm.
        - destruct Hx as [Hx|Hx]; apply (occurs_extends B B1 n) in Hx; try done; [left|right]; by eapply occurs_below.
        - destruct Hy as [Hy|Hy]; apply (occurs_extends B B1 n) in Hy; try done; [left|right]; by eapply occurs_below. }
      exists (mkEntry (te_Name e) (te_Mode e) h), w2, B2. rewrite (bind_ok _ _ _ _ _ Hrun). split_and!; [done| |by apply Hg2|].
      * by eapply grows_trans.
      * split; [done..| |]; [by cbn|]. intros k. unfold sub_file at 1. cbn [te_Mode te_Hash]. rewrite decide_True by done.
        rewrite Hf2. unfold overlaid, sub_overlaid, sub_file, sub_shadowed. cbn. rewrite !decide_True by done.
        by rewrite !(file_in_extends B B1 n), (shadowed_extends B B1 n).
    + exists e, w1, B1. split_and!; [done|done|by intros h o|]. apply Halone. by intros b' [= <-].
    + exists e, w1, B1. split_and!; [done|done|by intros h o|]. apply Halone. by intros b' [= <-].
  - exists e, w1, B1. split_and!; [done|done|by intros h o|]. by apply Halone.
Qed.

Lemma overlay_loop l m w1 B1 : grows p w w1 B B1 → (∀ e, e ∈ l → e ∈ entries B overlay) → NoDup (te_Name <$> l) →
  (∀ e, e ∈ l → m !! te_Name e = base_entry (te_Name e)) →
  ∃ m' w2 B2, for_fold (overlay_entry merge) (Some m) l w1 = (Ok (Some m'), w2) ∧ grows p w w2 B B2 ∧ extends B1 B2 ∧
    ∀ x, match find_entry l x with
         | Some e => ∃ e', m' !! x = Some e' ∧ merged_entry n B B2 (base_entry x) e e'
         | None => m' !! x = m !! x
         end.
Proof.
  revert m w1 B1. induction l as [|e l IH]; intros m w1 B1 Hg Hin Hnd Hm.
  { exists m, w1, B1. split_and!; [done|done|by intros h o|done]. }
  cbn in Hnd. apply NoDup_cons in Hnd as [He Hnd].
  destruct (overlay_entry_run e m w1 B1) as (e' & w2 & B2 & Hrun & Hg2 & Hext & Hme); [done|apply Hin; left|apply Hm; left|].
  destruct (IH (<[te_Name e := e']> m) w2 B2) as (m' & w3 & B3 & Hrun3 & Hg3 & Hext3 & Hm'); [done|by intros; apply Hin; right|done| |].
  { intros x Hx. rewrite lookup_insert_ne; [by apply Hm; right|]. intros Heq. apply He. rewrite Heq. by apply list_elem_of_fmap_2. }
  exists m', w3, B3. cbn [for_fold]. rewrite (bind_ok _ _ _ _ _ Hrun). split_and!; [done..|by intros h o Ho; apply Hext3, Hext|].
  intros x. cbn [find_entry]. specialize (Hm' x). destruct (String.eqb_spec (te_Name e) x) as [<-|Hne].
  - rewrite (proj2 (find_entry_none l (te_Name e)) He) in Hm'. exists e'. rewrite Hm', lookup_insert_eq.
    split; [done|]. by apply (merged_entry_extends n B B2).
  - destruct (find_entry l x); [done|]. by rewrite Hm', lookup_insert_ne.
Qed.
End Loop.

Lemma wrapping_ok {A} prefix (m : M error W A) w a w' : m w = (Ok a, w') → wrapping prefix m w = (Ok a, w').
Proof. intros Hm. unfold wrapping. rewrite (bind_ok _ _ _ (inl a) w'); [done|]. unfold attempt. by rewrite Hm. Qed.

Lemma by_name_lookup (es : list (TreeEntry Hash)) x : NoDup (te_Name <$> es) → by_name es !! x = find_entry es x.
Proof.
  unfold by_name. intros Hnd. transitivity (match find_entry es x with Some e => Some e | None => (∅ : gmap string (TreeEntry Hash)) !! x end);
    [|by destruct (find_entry es x)]. generalize (∅ : gmap string (TreeEntry Hash)). revert Hnd.
  induction es as [|e es IH]; [done|]. cbn. intros [He Hnd]%NoDup_cons m. rewrite IH by done.
  destruct (String.eqb_spec (te_Name e) x) as [<-|Hne].
  - by rewrite (proj2 (find_entry_none es (te_Name e)) He), lookup_insert_eq.
  - by rewrite lookup_insert_ne.
Qed.

Lemma decode_run prefix r h w B n : repos w (repo_path r) = Some B → readable B n h →
  wrapping prefix (decodeTreeEntries r h) w = (Ok (entries B h), w).
Proof.
  intros Hw (_ & Ho & _)%readable_entries. destruct (tree_object r h w B _ Hw Ho) as (enc & Hrun & Hd).
  apply wrapping_ok. unfold decodeTreeEntries. rewrite (bind_ok _ _ _ _ _ Hrun). unfold lift. by rewrite Hd.
Qed.

Section Union.
Variable ord : gmap string (TreeEntry Hash) → list (string * TreeEntry Hash).
Hypothesis ord_perm : ∀ m, ord m ≡ₚ map_to_list m.

(** The entries of the new tree are those of the map. *)
Lemma new_entries (m : gmap string (TreeEntry Hash)) : (∀ x e, m !! x = Some e → te_Name e = x) →
  let es := sort_entries (map snd (ord m)) in
  NoDup (te_Name <$> es) ∧ (∀ e, e ∈ es → m !! te_Name e = Some e) ∧ ∀ x, find_entry es x = m !! x.
Proof.
  intros Hm es. assert (Hp : es ≡ₚ (map_to_list m).*2).
  { unfold es, sort_entries. rewrite merge_sort_Permutation. by rewrite ord_perm. }
  assert (Hn : te_Name <$> (map_to_list m).*2 = (map_to_list m).*1).
  { rewrite <- list_fmap_compose. apply list_fmap_ext. intros i [x e] Hi. cbn.
    apply Hm, elem_of_map_to_list. by eapply list_elem_of_lookup_2. }
  assert (Hnd : NoDup (te_Name <$> es)) by (rewrite Hp, Hn; apply NoDup_fst_map_to_list).
  assert (Hin : ∀ e, e ∈ es → m !! te_Name e = Some e).
  { intros e He. rewrite Hp in He. apply list_elem_of_fmap in He as ([x e'] & -> & Hx). cbn.
    apply elem_of_map_to_list in Hx. by rewrite (Hm x e' Hx). }
  split_and!; [done..|]. intros x. destruct (m !! x) as [e|] eqn:Hx.
  - rewrite <- (Hm x e Hx). apply find_entry_iff; [done|]. rewrite Hp.
    apply list_elem_of_fmap. exists (x, e). split; [done|]. by apply elem_of_map_to_list.
  - apply find_entry_none. intros [e [-> He]]%list_elem_of_fmap. by rewrite (Hin e He) in Hx.
Qed.

Lemma encode_merged m base overlay B : calm B base overlay →
  (∀ x e, m !! x = Some e → te_Name e = x ∧ (occurs B base x ∨ occurs B overlay x)) →
  ∃ enc, tree_Encode (sort_entries (map snd (ord m))) = Ok enc ∧ content enc = GTree (sort_entries (map snd (ord m))).
Proof.
  intros Hcalm Hname. destruct (new_entries m) as (Hnd & Hin & _); [by intros x e Hx; apply Hname in Hx as [? _]|].
  assert (Hp : sort_entries (map snd (ord m)) ≡ₚ map snd (ord m)) by apply merge_sort_Permutation.
  apply encode_tree, sort_canonical; [by rewrite <- Hp|]. intros a b Ha Hb c s Hcs. rewrite <- Hp in Ha, Hb.
  apply Hin, Hname in Ha as [_ Ha], Hb as [_ Hb]. exact (Hcalm _ _ Ha Hb c s Hcs).
Qed.

Lemma mergeTreeObjects_run r n fuel : (n ≤ fuel)%nat → merge_ok r n (mergeTreeObjects ord fuel r).
Proof.
  revert fuel. induction n as [|n IH]; intros fuel Hle base overlay w B Hw Hb Ho Hcalm; [done|].
  destruct fuel as [|fuel]; [lia|]. cbn [mergeTreeObjects]. case_decide as Heq.
  { subst overlay. exists base, w, B. split_and!; [done|by apply grows_refl|done|]. intros k. unfold overlaid.
    destruct (file_in B base k); [done|]. by destruct (shadowed B base k). }
  pose proof (readable_entries B _ _ Hb) as (Hbnd & _). pose proof (readable_entries B _ _ Ho) as (Hond & _).
  rewrite (bind_ok _ _ _ _ _ (decode_run _ r base w B _ Hw Hb)), (bind_ok _ _ _ _ _ (decode_run _ r overlay w B _ Hw Ho)).
  assert (Hm0 : ∀ x, by_name (entries B base) !! x = find_entry (entries B base) x) by (intros; by apply by_name_lookup).
  destruct (overlay_loop r n (mergeTreeObjects ord fuel r) (IH fuel ltac:(lia)) base overlay w B Hb Ho Hcalm
    (entries B overlay) (by_name (entries B base)) w B)
    as (m & w1 & B1 & Hrun & Hg & Hext & Hm); [by apply grows_refl|done|done|by intros; apply Hm0|].
  rewrite (bind_ok _ _ _ _ _ Hrun). clear Hrun.
  assert (Hname : ∀ x e, m !! x = Some e → te_Name e = x ∧ (occurs B base x ∨ occurs B overlay x)).
  { intros x e Hx. specialize (Hm x). destruct (find_entry (entries B overlay) x) as [e0|] eqn:Hf.
    - destruct Hm as (e' & Hx' & [Hn _ _ _]). apply find_entry_some in Hf as [Hin <-]. split; [congruence|]. right. by constructor.
    - rewrite Hm, Hm0 in Hx. apply find_entry_some in Hx as [Hin <-]. split; [done|]. left. by constructor. }
  destruct (new_entries m) as (Hnd & Hin & Hfind); [by intros x e Hx; apply Hname in Hx as [? _]|].
  destruct (encode_merged m base overlay B) as (enc & Henc & Hcont); [done..|].
  rewrite (bind_ok _ _ _ enc w1) by (apply wrapping_ok; unfold lift; by rewrite Henc).
  destruct (set_object r enc w1 B1) as (h & w2 & B2 & Hset & Hr2 & Hrefs & Hh & Hobj & Hothers); [by apply Hg|].
  rewrite (bind_ok _ _ _ _ _ Hset). exists h, w2, B2. rewrite Hcont in Hh.
  assert (Hes : entries B2 h = sort_entries (map snd (ord m))) by by apply entries_tree.
  assert (Hg2 : grows (repo_path r) w1 w2 B1 B2) by (split; [by apply Hg|done..]).
  assert (Hsub : ∀ x e, m !! x = Some e → (te_Mode e = filemode_Dir → readable B2 n (te_Hash e)) ∧
    ∀ k, sub_file B2 e k = match find_entry (entries B overlay) x with
                           | Some e0 => sub_overlaid B (find_entry (entries B base) x) e0 k | None => sub_file B e k end).
  { intros x e Hx. specialize (Hm x). destruct (find_entry (entries B overlay) x) as [e0|] eqn:Hf.
    - destruct Hm as (e' & Hx' & Hme). rewrite Hx in Hx'. injection Hx' as <-.
      apply (merged_entry_extends n B B1 B2) in Hme as [_ _ Hr Hk]; [|done]. done.
    - rewrite Hm, Hm0 in Hx. apply find_entry_some in Hx as [Hbin _].
      assert (Hrd : te_Mode e = filemode_Dir → readable B n (te_Hash e)) by (intros Hd; by apply (dir_below n B base)).
      assert (He2 : extends B B2) by (intros h0 o0 Ho0; apply Hobj, Hext, Ho0).
      split; [intros Hd; by apply (readable_extends B), Hrd|]. intros k. by apply (sub_file_extends B B2 n). }
  split_and!; [done|by eapply grows_trans| |].
  - exists (sort_entries (map snd (ord m))). split_and!; [done..|]. intros e He. by apply Hin, Hsub in He as [? _].
  - intros [|x k]; [done|]. rewrite file_in_cons, Hes, Hfind, overlaid_cons. destruct (m !! x) as [e|] eqn:Hx; cbn.
    + rewrite (proj2 (Hsub x e Hx)). specialize (Hm x). destruct (find_entry (entries B overlay) x); [done|].
      rewrite Hx, Hm0 in Hm. by rewrite <- Hm.
    + specialize (Hm x). destruct (find_entry (entries B overlay) x); [destruct Hm as (? & ? & _); congruence|].
      rewrite Hx, Hm0 in Hm. by rewrite <- Hm.
Qed.

(** ** Branches *)

(** The file at a path of the last commit of a branch. *)
Definition branch_file (B : bare W) (branch : string) (k : key) : option (Z * Hash) :=
  match b_refs B !! NewBranchReferenceName branch with
  | None => None
  | Some h => match b_obj B h with Some (GCommit c) => file_in B (cm_TreeHash c) k | _ => None end
  end.

Variable gs : GitServer.

(** A branch with its history and its files. *)
Record branch_ok (n : nat) (B : bare W) (branch : string) (h : Hash) (c : GitCommit Hash) : Prop := {
  bo_ref : b_refs B !! NewBranchReferenceName branch = Some h;
  bo_commit : b_obj B h = Some (GCommit c);
  bo_history h' : rtc (parent_of B) h' h → ∃ c', b_obj B h' = Some (GCommit c');
  bo_tree : readable B n (cm_TreeHash c) }.

Lemma branch_file_ok n B branch h c k : branch_ok n B branch h c → branch_file B branch k = file_in B (cm_TreeHash c) k.
Proof. intros [Hr Hc _ _]. unfold branch_file. by rewrite Hr, Hc. Qed.

Lemma branch_commit_run n repo branch w B h c : repos w (repoPath gs repo) = Some B → branch_ok n B branch h c →
  ∃ r, branch_commit gs repo branch w = (Ok (r, (h, c)), w) ∧ repo_path r = repoPath gs repo.
Proof.
  intros Hw [Hr Hc _ _]. destruct (open_found _ w B Hw) as (r & Hopen & Hp). exists r. split; [|done].
  rewrite <- Hp in Hw. unfold branch_commit. rewrite (bind_ok _ _ _ _ _ Hopen).
  rewrite (bind_ok _ _ _ _ _ (wrapping_ok _ _ _ _ _ (reference_found r _ true w B h Hw Hr))).
  by rewrite (bind_ok _ _ _ _ _ (commit_object r h w B c Hw Hc)).
Qed.

(** Reading a branch. *)
Lemma ReadFile_branch n repo branch w B h c k m b s : repos w (repoPath gs repo) = Some B → branch_ok n B branch h c →
  key_ok k → branch_file B branch k = Some (m, b) → b_obj B b = Some (GBlob s) →
  ReadFile gs repo branch (Join k "/") w = (Ok s, w).
Proof.
  intros Hw Hok Hk Hf Hb. rewrite (branch_file_ok n B branch h c k Hok) in Hf.
  destruct (branch_commit_run n repo branch w B h c Hw Hok) as (r & Hrun & Hp). rewrite <- Hp in Hw.
  destruct (commit_tree r c w B Hw) as (t & Ht & Htr & Hth).
  { destruct Hok as [_ _ _ Hr]. apply readable_entries in Hr as (_ & Ho & _). rewrite Ho. by eexists. }
  rewrite <- Htr in Hw. rewrite <- Hth in Hf. destruct (tree_file_found t k m b s w B Hk Hw Hf Hb) as (f & Hfile & Hread).
  unfold ReadFile, branch_tree. rewrite (bind_ok _ _ _ t w) by by rewrite (bind_ok _ _ _ _ _ Hrun).
  by rewrite (bind_ok _ _ _ _ _ Hfile).
Qed.

(** The last steps of a merge: the commit of both, and the target on it. *)
Lemma record_merge r h w1 B1 s t source target : repos w1 (repo_path r) = Some B1 →
  ∃ w2 B2 t' sig, (sig ⇐ defaultSignature;;
    enc ⇐ lift (commit_Encode (mkCommit sig sig
      ("Merge branch '" ++ (source ++ ("' into " ++ (target ++ nls)))) h [t; s]));;
    hash ⇐ st_SetEncodedObject r enc;;
    st_SetReference r (NewBranchReferenceName target) hash;;; ret (Some tt)) w1 = (Ok (Some tt), w2) ∧
    repos w2 (repo_path r) = Some B2 ∧ b_refs B2 = <[NewBranchReferenceName target := t']> (b_refs B1) ∧ extends B1 B2 ∧
    b_obj B2 t' = Some (GCommit (mkCommit sig sig ("Merge branch '" ++ (source ++ ("' into " ++ (target ++ nls)))) h [t; s])) ∧
    ∀ p, p ≠ repo_path r → repos w2 p = repos w1 p.
Proof.
  intros Hw. destruct (tick w1) as (when & Htick).
  set (sig := mkSignature defaultCommitterName defaultCommitterEmail when).
  set (c := mkCommit sig sig ("Merge branch '" ++ (source ++ ("' into " ++ (target ++ nls)))) h [t; s]).
  destruct (encode_commit c) as (enc & Henc & Hcont).
  destruct (set_object r enc w1 B1 Hw) as (t' & w2 & B2 & Hset & Hw2 & Hrefs & Hnew & Hext & Hoth). rewrite Hcont in Hnew.
  destruct (set_reference r (NewBranchReferenceName target) t' w2 B2 Hw2) as (w3 & Href & Hw3).
  exists w3, (mkBare (<[NewBranchReferenceName target := t']> (b_refs B2)) (b_obj B2)), t', sig. split_and!.
  - rewrite (bind_ok _ _ _ sig w1) by (unfold defaultSignature; by rewrite (bind_ok _ _ _ _ _ Htick)).
    rewrite (bind_ok _ _ _ enc w1) by (unfold lift; fold c; by rewrite Henc).
    by rewrite (bind_ok _ _ _ _ _ Hset), (bind_ok _ _ _ _ _ Href).
  - by rewrite Hw3, decide_True.
  - cbn. by rewrite Hrefs.
  - done.
  - done.
  - intros p Hp. by rewrite Hw3, decide_False, Hoth.
Qed.

(** (C37) Merging a branch of the test server, when no name of the two trees goes on from
    another of their names with a byte below the slash, such as [apps] and [apps.yaml]
    ([calm]): the target moves to the source when it is behind it, and else to a commit of
    both whose files are those of the source, and those of the target the source leaves room
    for; nothing else of the server changes. Without the condition the merge can fail
    ([merge_refuses_siblings]). *)
Theorem MergeBranch_overlays n fuel repo source target w B s t cs ct : (n ≤ fuel)%nat →
  repos w (repoPath gs repo) = Some B → branch_ok n B source s cs → branch_ok n B target t ct →
  calm B (cm_TreeHash ct) (cm_TreeHash cs) →
  ∃ w' B' t', MergeBranch ord gs fuel repo source target w = (Ok (Some tt), w') ∧
    repos w' (repoPath gs repo) = Some B' ∧ (∀ p, p ≠ repoPath gs repo → repos w' p = repos w p) ∧
    (∀ h o, b_obj B h = Some o → b_obj B' h = Some o) ∧
    b_refs B' = <[NewBranchReferenceName target := t']> (b_refs B) ∧
    rtc (parent_of B') s t' ∧ rtc (parent_of B') t t' ∧
    (rtc (parent_of B) t s → t' = s ∧ ∀ k, branch_file B' target k = branch_file B source k) ∧
    (¬ rtc (parent_of B) t s → ∀ k, branch_file B' target k = overlaid B (cm_TreeHash ct) (cm_TreeHash cs) k).
Proof.
  intros Hle Hw Hs Ht Hcalm. destruct (open_found _ w B Hw) as (r & Hopen & Hp).
  unfold MergeBranch. rewrite (bind_ok _ _ _ _ _ Hopen). rewrite <- Hp in Hw |- *. pose proof Hs as [Hsr Hsc Hsh Hst]. pose proof Ht as [Htr Htc Hth Htt].
  rewrite (bind_ok _ _ _ _ _ (wrapping_ok _ _ _ _ _ (reference_found r _ true w B s Hw Hsr))).
  rewrite (bind_ok _ _ _ _ _ (wrapping_ok _ _ _ _ _ (reference_found r _ true w B t Hw Htr))).
  case_decide as Heq.
  { subst t. assert (cs = ct) as -> by congruence. exists w, B, s. split_and!; try done.
    - by rewrite insert_id.
    - intros _. split; [done|]. intros k. by rewrite (branch_file_ok n B target s ct), (branch_file_ok n B source s ct). }
  rewrite (bind_ok _ _ _ _ _ (commit_object r s w B cs Hw Hsc)), (bind_ok _ _ _ _ _ (commit_object r t w B ct Hw Htc)).
  destruct (is_ancestor r t s w B Hw Hsh) as (ff & Hanc & Hff). rewrite (bind_ok _ _ _ _ _ Hanc). cbv zeta. destruct ff.
  - destruct (set_reference r (NewBranchReferenceName target) s w B Hw) as (w1 & Hset & Hw1). rewrite (bind_ok _ _ _ _ _ Hset).
    exists w1, (mkBare (<[NewBranchReferenceName target := s]> (b_refs B)) (b_obj B)), s. split_and!; try done.
    + by rewrite Hw1, decide_True.
    + intros p Hne. by rewrite Hw1, decide_False.
    + by apply Hff.
    + intros _. split; [done|]. intros k. rewrite (branch_file_ok n B source s cs) by done.
      unfold branch_file. cbn [b_refs b_obj]. rewrite lookup_insert_eq, Hsc.
      by apply (file_in_extends B _ n); [intros h o|].
    + intros Hn. by destruct Hn; apply Hff.
  - destruct (mergeTreeObjects_run r n fuel Hle (cm_TreeHash ct) (cm_TreeHash cs) w B Hw Htt Hst Hcalm)
      as (h & w1 & B1 & Hrun & [_ Hw1 Hrefs1 Hext1 Hoth1] & Hread & Hfiles).
    rewrite (bind_ok _ _ _ _ _ (wrapping_ok _ _ _ _ _ Hrun)).
    destruct (record_merge r h w1 B1 s t source target Hw1) as (w2 & B2 & t' & sig & Hrec & Hw2 & Hrefs2 & Hext2 & Hnew & Hoth2).
    cbv zeta. rewrite Hrec. exists w2, B2, t'. split_and!.
    + done.
    + done.
    + intros p Hne. by rewrite Hoth2, Hoth1.
    + intros h0 o Ho. by apply Hext2, Hext1.
    + by rewrite Hrefs2, Hrefs1.
    + apply rtc_once. eexists. split; [exact Hnew|]. right; left.
    + apply rtc_once. eexists. split; [exact Hnew|]. left.
    + intros Ha. by apply Hff in Ha.
    + intros _ k. unfold branch_file. rewrite Hrefs2, lookup_insert_eq, Hnew. cbn [cm_TreeHash].
      rewrite (file_in_extends B1 B2 n) by done. apply Hfiles.
Qed.
End Union.
End Merge.

(** Looking for a file. *)
Section Exists.
Context {W : Type} `{GitDiskLaws W} (gs : GitServer).
Lemma FileExists_branch n repo branch w B h c k : repos w (repoPath gs repo) = Some B → branch_ok n B branch h c → key_ok k →
  (∀ m b, branch_file B branch k = Some (m, b) → ∃ s, b_obj B b = Some (GBlob s)) →
  FileExists gs repo branch (Join k "/") w = (Ok (bool_decide (is_Some (branch_file B branch k))), w).
Proof.
  intros Hw Hok Hk Hblob. rewrite (branch_file_ok n B branch h c k Hok) in *.
  destruct (branch_commit_run gs n repo branch w B h c Hw Hok) as (r & Hrun & Hp). rewrite <- Hp in Hw.
  destruct (commit_tree r c w B Hw) as (t & Ht & Htr & Hth).
  { destruct Hok as [_ _ _ Hr]. apply readable_entries in Hr as (_ & Ho & _). rewrite Ho. by eexists. }
  rewrite <- Htr in Hw. rewrite <- Hth in *. unfold FileExists, branch_tree.
  rewrite (bind_ok _ _ _ t w) by by rewrite (bind_ok _ _ _ _ _ Hrun).
  destruct (file_in B (tree_hash t) k) as [[m b]|] eqn:Hf.
  - destruct (Hblob m b eq_refl) as [s Hb]. destruct (tree_file_found t k m b s w B Hk Hw Hf Hb) as (f & Hfile & _).
    by rewrite (bind_ok _ _ _ (inl f) w) by (unfold attempt; by rewrite Hfile).
  - destruct (tree_file_missing t k w B Hk Hw Hf) as (e & Hfile & He).
    rewrite (bind_ok _ _ _ (inr e) w) by (unfold attempt; by rewrite Hfile). by rewrite He.
Qed.
End Exists.

(** ** Merges of the instance *)

Definition regular : Z := 33188.
Definition blob (s : string) : sim_hash := GenLeaf (inl s).
Definition demo_sig : Signature := mkSignature "syngit-envtest" "envtest@syngit.io" 0.
Definition demo_commit (msg : string) (es : list (TreeEntry sim_hash)) (parents : list sim_hash) : GitCommit sim_hash :=
  mkCommit demo_sig demo_sig msg (of_tree es) parents.
Definition file_entry (n s : string) : TreeEntry sim_hash := mkEntry n regular (blob s).
Definition dir_entry (n : string) (es : list (TreeEntry sim_hash)) : TreeEntry sim_hash := mkEntry n filemode_Dir (of_tree es).

Definition demo_root : sim_hash := of_commit (demo_commit "Initial commit" [] []).
Definition main_commit : GitCommit sim_hash :=
  demo_commit "main" [file_entry "README" "old"; dir_entry "apps" [file_entry "a.yaml" "a"]] [demo_root].
Definition feature_commit : GitCommit sim_hash :=
  demo_commit "feature" [file_entry "README" "new"; dir_entry "apps" [file_entry "b.yaml" "b"]] [demo_root].
Definition demo_refs (main feature : GitCommit sim_hash) : gmap string sim_hash :=
  {["refs/heads/main" := of_commit main; "refs/heads/feature" := of_commit feature]}.
Definition demo_world (main feature : GitCommit sim_hash) : sim_world :=
  {["/tmp/git/team/app.git" := demo_refs main feature]}.
Definition sorted_entries : gmap string (TreeEntry (Hash (W := sim_world))) → list (string * TreeEntry Hash) := map_to_list.

(** The names of a tree of a depth, as a list. *)
Fixpoint names (n : nat) (h : sim_hash) : list string :=
  match n with
  | O => []
  | S n => concat (map (λ e, te_Name e :: if decide (te_Mode e = filemode_Dir) then names n (te_Hash e) else []) (default [] (to_tree h)))
  end.
Lemma occurs_names refs n h x : readable (sim_bare refs) n h → occurs (sim_bare refs) h x → x ∈ names n h.
Proof.
  intros Hr Ho. revert n Hr. induction Ho as [h e Hin|h e x Hin Hd _ IH]; intros [|n] Hr; try done;
    destruct Hr as (es & Hes & _ & Hsub); rewrite (entries_tree _ h es Hes) in Hin;
    cbn [names]; rewrite (sim_object_tree h es Hes); cbn [default]; apply list_elem_of_In, in_concat;
    eexists; (split; [apply in_map, list_elem_of_In, Hin|]); [by left|].
  right. rewrite decide_True by done. apply list_elem_of_In, IH, Hsub; done.
Qed.

Lemma tree_readable refs n es : NoDup (te_Name <$> es) →
  Forall (λ e, te_Mode e = filemode_Dir → readable (sim_bare refs) n (te_Hash e)) es → readable (sim_bare refs) (S n) (of_tree es).
Proof.
  intros Hnd Hall. exists es. split_and!; [|done|by rewrite Forall_forall in Hall].
  cbn. unfold sim_object. by rewrite sim_content_tree.
Qed.

Ltac readable_demo := apply tree_readable;
  [apply (bool_decide_unpack _); vm_compute; reflexivity|repeat constructor; cbn [te_Mode te_Hash file_entry dir_entry]; try done; intros _].

Lemma stored_commit refs c : b_obj (sim_bare refs) (of_commit c) = Some (GCommit c).
Proof. by destruct c as [[] [] ? ? ?]. Qed.
Lemma stored_parent refs p c : parent_of (sim_bare refs) p (of_commit c) → p ∈ cm_ParentHashes c.
Proof. intros (cm & Hcm & Hp). rewrite stored_commit in Hcm. by injection Hcm as ->. Qed.
Lemma demo_history refs c : cm_ParentHashes c = [demo_root] →
  ∀ h, rtc (parent_of (sim_bare refs)) h (of_commit c) → ∃ c', b_obj (sim_bare refs) h = Some (GCommit c').
Proof.
  intros Hc h [->|(p & Hr & Hp%stored_parent)]%rtc_inv_r; [eexists; apply stored_commit|].
  rewrite Hc in Hp. apply list_elem_of_singleton in Hp as ->.
  apply rtc_inv_r in Hr as [->|(q & _ & Hq%stored_parent)]; [eexists; apply stored_commit|]. by apply not_elem_of_nil in Hq.
Qed.

Lemma demo_main_ok refs : refs !! "refs/heads/main" = Some (of_commit main_commit) →
  branch_ok 3 (sim_bare refs) "main" (of_commit main_commit) main_commit.
Proof. intros Hr. split; [done|done|by apply demo_history|]. repeat readable_demo. Qed.
Lemma demo_feature_ok refs : refs !! "refs/heads/feature" = Some (of_commit feature_commit) →
  branch_ok 3 (sim_bare refs) "feature" (of_commit feature_commit) feature_commit.
Proof. intros Hr. split; [done|done|by apply demo_history|]. repeat readable_demo. Qed.

Lemma demo_calm refs : calm (sim_bare refs) (cm_TreeHash main_commit) (cm_TreeHash feature_commit).
Proof.
  assert (Hnames : ∀ x, occurs (sim_bare refs) (cm_TreeHash main_commit) x ∨ occurs (sim_bare refs) (cm_TreeHash feature_commit) x →
    x ∈ ["README"; "apps"; "a.yaml"; "b.yaml"]).
  { intros x [Hx|Hx]; apply (occurs_names refs 3) in Hx; try (repeat readable_demo);
      vm_compute in Hx; set_solver. }
  intros n m Hn%Hnames Hm%Hnames c r Hcr.
  repeat (apply elem_of_cons in Hn as [->|Hn]); try (by apply not_elem_of_nil in Hn);
    repeat (apply elem_of_cons in Hm as [->|Hm]); try (by apply not_elem_of_nil in Hm); discriminate.
Qed.

Lemma MergeBranch_overlays_witness :
  ∃ w' B', MergeBranch sorted_entries demo_server 3 demo_repo "feature" "main" (demo_world main_commit feature_commit) = (Ok (Some tt), w') ∧
    repos w' (repoPath demo_server demo_repo) = Some B' ∧
    branch_file B' "main" ["README"] = Some (regular, blob "new") ∧
    branch_file B' "main" ["apps"; "a.yaml"] = Some (regular, blob "a") ∧
    branch_file B' "main" ["apps"; "b.yaml"] = Some (regular, blob "b").
Proof.
  set (refs := demo_refs main_commit feature_commit).
  destruct (MergeBranch_overlays sorted_entries (λ m, reflexivity _) demo_server 3 3 demo_repo "feature" "main"
    (demo_world main_commit feature_commit) (sim_bare refs) (of_commit feature_commit) (of_commit main_commit)
    feature_commit main_commit) as (w' & B' & t' & Hrun & Hw' & _ & _ & _ & _ & _ & _ & Hov).
  - done.
  - reflexivity.
  - by apply demo_feature_ok.
  - by apply demo_main_ok.
  - apply demo_calm.
  - exists w', B'. split_and!; [exact Hrun|exact Hw'|rewrite Hov; [reflexivity|]..].
    all: rewrite <- sim_ancestor_spec; vm_compute; discriminate.
Defined.

(** ** Files in a commit

    [CommitFiles] sorts the paths, so what it does does not depend on the order in which Go
    ranges over the map. *)

#[export] Instance str_le_trans : Transitive str_le.
Proof.
  intros a. induction a as [|x a IH]; intros b c Hab Hbc; [apply str_le_nil|].
  destruct b as [|y b]; [done|]. destruct c as [|z c]; [done|].
  unfold str_le, String.leb in *. cbn in *.
  destruct (Ascii.compare x y) eqn:Hxy; [|clear Hab|done]; (destruct (Ascii.compare y z) eqn:Hyz; [|clear Hbc|done]).
  - apply Ascii.compare_eq_iff in Hxy as ->, Hyz as ->. unfold Ascii.compare. rewrite N.compare_refl. by apply (IH b).
  - apply Ascii.compare_eq_iff in Hxy as ->. by rewrite Hyz.
  - apply Ascii.compare_eq_iff in Hyz as ->. by rewrite Hxy.
  - unfold Ascii.compare in *. apply N.compare_lt_iff in Hxy, Hyz.
    by rewrite (proj2 (N.compare_lt_iff _ _) (N.lt_trans _ _ _ Hxy Hyz)).
Qed.
#[export] Instance str_le_antisymm : AntiSymm eq str_le.
Proof. intros a b. apply String.leb_antisym. Qed.

Lemma sort_Strings_perm l l' : l ≡ₚ l' → sort_Strings l = sort_Strings l'.
Proof.
  intros Hp. apply (StronglySorted_unique str_le).
  - by apply (StronglySorted_merge_sort _).
  - by apply (StronglySorted_merge_sort _).
  - unfold sort_Strings. by rewrite !merge_sort_Permutation.
Qed.

Lemma CommitFiles_any_order {W} `{GitDisk W, GitClone W} ord ord' gs repo branch files msg w :
  ord files ≡ₚ ord' files → CommitFiles ord gs repo branch files msg w = CommitFiles ord' gs repo branch files msg w.
Proof. intros Hp. unfold CommitFiles. by rewrite (sort_Strings_perm (map fst (ord files)) (map fst (ord' files))) by (by rewrite Hp). Qed.

(** ** What a test should know *)

(** Merging a branch that was merged already takes back what the target changed since:
    nothing is up to date for [MergeBranch]. *)
Definition later_commit : GitCommit sim_hash :=
  demo_commit "later" [file_entry "README" "newer"] [of_commit feature_commit].
Lemma merge_of_ancestor_reverts :
  let w := demo_world later_commit feature_commit in
  sim_ancestor (of_commit feature_commit) (of_commit later_commit) = true ∧
  fst (ReadFile demo_server demo_repo "main" "README" w) = Ok "newer" ∧
  fst (ReadFile demo_server demo_repo "main" "README"
    (MergeBranch sorted_entries demo_server 3 demo_repo "feature" "main" w).2) = Ok "new".
Proof. vm_compute. done. Qed.

(** The entries of a merged tree are in the order of their names, which is not the order git
    asks for: a merge fails when a directory and a file share the beginning of their names. *)
Definition sibling_commit : GitCommit sim_hash :=
  demo_commit "sibling" [file_entry "apps.yaml" "x"] [demo_root].
Lemma merge_refuses_siblings :
  fst (MergeBranch sorted_entries demo_server 3 demo_repo "feature" "main" (demo_world main_commit sibling_commit)) =
    Err (wrapError "merge trees: " (wrapError "encode merged tree: " (plainError "entries in tree are not sorted"))).
Proof. vm_compute. done. Qed.
