(* ===== verification/Assertions.v ===== *)
(** * What the tests assert of a repository ([pkg/envtest/assertions.go])

    The search for the manifest of an object in the files of a branch, over the readers of
    [GitRepos.v]. The object is known by its kind, its metadata and its YAML. *)

From S2P Require Import Prelude GoStr Errors External Sim Render Files GitServer GitRepos.

Record ObjectFile := mkObjectFile { of_Path : string; of_Content : string }.

(** [runtime.Object]: its [GroupVersionKind], the name and namespace of [meta.Accessor], and
    what [yaml.Marshal] makes of it. *)
Record runtime_Object := mkRuntimeObject {
  ro_Group : string; ro_Version : string; ro_Kind : string;
  ro_Accessor : result error (string * string);
  ro_yaml : result error string }.
(** [schema.GroupVersion.String]. *)
Definition apiVersion_of (obj : runtime_Object) : string :=
  if String.eqb (ro_Group obj) "" then ro_Version obj else ro_Group obj ++ ("/" ++ ro_Version obj).

Class JsonMarshal := { json_Marshal : value → result error string }.

(** ** YAML *)

Definition splitYamlDocuments (content : string) : list string :=
  let docs := List.filter (λ p, negb (String.eqb p "" || String.eqb p "---"))
    (map TrimSpace (Split content (nls ++ ("---" ++ nls)))) in
  match docs with [] => [content] | _ => docs end.

Fixpoint lookup_keys (keys : list string) (current : value) : option value :=
  match keys with
  | [] => Some current
  | k :: keys' =>
      match current with
      | VMap m => match m !! k with Some v => lookup_keys keys' v | None => None end
      | _ => None
      end
  end.
Definition lookupYamlField (parsed : gmap string value) (path : string) : option value :=
  lookup_keys (Split path ".") (VMap parsed).

Definition asString (v : option value) : string := match v with Some (VStr s) => s | _ => "" end.

Section Assertions.
Context {W : Type} `{GitDisk W, Lib, JsonMarshal}.
Variable gs : GitServer.

Definition fieldsMatch (a b : gmap string value) (field : string) : bool :=
  match a !! field, b !! field with
  | None, None => true
  | Some va, Some vb =>
      match json_Marshal va, json_Marshal vb with
      | Ok ja, Ok jb => String.eqb ja jb
      | _, _ => false
      end
  | _, _ => false
  end.

(** One document of [documentMatchesIdentity]. *)
Definition has_identity (obj : runtime_Object) (metadata : string * string) (parsed : gmap string value) : bool :=
  let wantAPIVersion := apiVersion_of obj in
  String.eqb (asString (lookupYamlField parsed "kind")) (ro_Kind obj) &&
  String.eqb (asString (lookupYamlField parsed "metadata.name")) (fst metadata) &&
  String.eqb (asString (lookupYamlField parsed "metadata.namespace")) (snd metadata) &&
  negb (negb (String.eqb wantAPIVersion "") && negb (HasPrefix wantAPIVersion "/") &&
        negb (String.eqb (asString (lookupYamlField parsed "apiVersion")) wantAPIVersion)).
Definition documentMatchesIdentity (content : string) (obj : runtime_Object) (metadata : string * string) : bool :=
  existsb (λ doc, match yaml_Unmarshal_map doc with Ok parsed => has_identity obj metadata parsed | _ => false end)
    (splitYamlDocuments content).

(** One document of [documentMatchesSpec]. *)
Definition has_spec (objSpec parsed : gmap string value) : bool :=
  fieldsMatch parsed objSpec "spec" && fieldsMatch parsed objSpec "data" &&
  (bool_decide (is_Some (parsed !! "spec")) || bool_decide (is_Some (parsed !! "data"))).
Definition documentMatchesSpec (content : string) (objSpec : gmap string value) : bool :=
  existsb (λ doc, match yaml_Unmarshal_map doc with Ok parsed => has_spec objSpec parsed | _ => false end)
    (splitYamlDocuments content).

(** ** The search *)

(** The body of the loop over the paths; a file that cannot be read is passed over. *)
Definition search_file (repo : RepoRef) (branch : string) (obj : runtime_Object) (metadata : string * string)
    (objSpec : option (gmap string value)) (matches : list ObjectFile) (p : string) : M error W (list ObjectFile) :=
  r ⇐ attempt (ReadFile gs repo branch p);;
  match r with
  | inr _ => ret matches
  | inl content =>
      if negb (documentMatchesIdentity content obj metadata) then ret matches
      else if match objSpec with Some spec => negb (documentMatchesSpec content spec) | None => false end then ret matches
      else ret (matches ++ [mkObjectFile p content])%list
  end.

Definition searchForObject (repo : RepoRef) (branch : string) (obj : runtime_Object) (matchSpec : bool)
  : M error W (list ObjectFile) :=
  paths ⇐ ListFiles gs repo branch;;
  metadata ⇐ wrapping "access metadata: " (lift (ro_Accessor obj));;
  objSpec ⇐ (if matchSpec then
               objYaml ⇐ wrapping "marshal object: " (lift (ro_yaml obj));;
               spec ⇐ wrapping "unmarshal object: " (lift (yaml_Unmarshal_map objYaml));;
               ret (Some spec)
             else ret None);;
  for_fold (search_file repo branch obj metadata objSpec) [] paths.

Definition IsObjectInRepo (repo : RepoRef) (branch : string) (obj : runtime_Object) : M error W bool :=
  files ⇐ searchForObject repo branch obj false;;
  ret (0 <? length files)%nat.

Definition SearchForObjectInRepo (repo : RepoRef) (branch : string) (obj : runtime_Object) : M error W (list ObjectFile) :=
  searchForObject repo branch obj true.

(** The field is looked up in the content of the file as a whole. *)
Definition IsFieldDefined (repo : RepoRef) (branch : string) (obj : runtime_Object) (yamlPath : string) : M error W bool :=
  files ⇐ searchForObject repo branch obj false;;
  ret (existsb (λ f, match yaml_Unmarshal_map (of_Content f) with
                     | Ok parsed => bool_decide (is_Some (lookupYamlField parsed yamlPath))
                     | _ => false
                     end) files).
End Assertions.

(** ** What is found *)

Lemma lookup_keys_at_path keys v : lookup_keys keys v = at_path keys v.
Proof. revert v. by induction keys. Qed.

Section Search.
Context {W : Type} `{GitDisk W, Lib, JsonMarshal} (gs : GitServer) (repo : RepoRef) (branch : string) (obj : runtime_Object).

(** A document that is the object, and one that has its spec. *)
Definition is_object (metadata : string * string) (doc : string) : Prop :=
  ∃ parsed, yaml_Unmarshal_map doc = Ok parsed ∧
    at_path ["kind"] (VMap parsed) ≫= (λ v, match v with VStr s => Some s | _ => None end) = Some (ro_Kind obj) ∧
    at_path ["metadata"; "name"] (VMap parsed) ≫= (λ v, match v with VStr s => Some s | _ => None end) = Some (fst metadata) ∧
    asString (at_path ["metadata"; "namespace"] (VMap parsed)) = snd metadata ∧
    (apiVersion_of obj ≠ "" → HasPrefix (apiVersion_of obj) "/" = false →
       asString (at_path ["apiVersion"] (VMap parsed)) = apiVersion_of obj).

Lemma asString_some v s : s ≠ "" → asString v = s ↔ v ≫= (λ v, match v with VStr s => Some s | _ => None end) = Some s.
Proof.
  intros Hs. destruct v as [[]|]; cbn; split; try congruence; intros Heq; try (by rewrite <- Heq in Hs); by simplify_eq.
Qed.

Lemma has_identity_spec metadata doc parsed : yaml_Unmarshal_map doc = Ok parsed →
  ro_Kind obj ≠ "" → fst metadata ≠ "" → has_identity obj metadata parsed = true ↔ is_object metadata doc.
Proof.
  intros Hp Hk Hn. assert (Hl : ∀ path, lookupYamlField parsed path = at_path (Split path ".") (VMap parsed))
    by (intros path; apply lookup_keys_at_path). unfold has_identity. rewrite !Hl.
  change (Split "kind" ".") with ["kind"]. change (Split "metadata.name" ".") with ["metadata"; "name"].
  change (Split "metadata.namespace" ".") with ["metadata"; "namespace"]. change (Split "apiVersion" ".") with ["apiVersion"].
  rewrite !andb_true_iff, negb_true_iff, !String.eqb_eq. rewrite !andb_false_iff, !negb_false_iff, String.eqb_eq, String.eqb_eq.
  split.
  - intros [[[Hki Hna] Hns] Hapi]. exists parsed. rewrite <- !asString_some by done. split_and!; [done..|].
    intros Hne Hpre. destruct Hapi as [[?|Hh]|?]; congruence.
  - intros (parsed' & Hp' & Hki & Hna & Hns & Hapi). rewrite Hp in Hp'. injection Hp' as <-.
    rewrite <- asString_some in Hki, Hna by done. split_and!; [done..|].
    destruct (String.eqb_spec (apiVersion_of obj) "") as [He|He]; [by left; left|].
    destruct (HasPrefix (apiVersion_of obj) "/"); [by left; right|]. right. by apply Hapi.
Qed.

Lemma documentMatchesIdentity_spec content metadata : ro_Kind obj ≠ "" → fst metadata ≠ "" →
  documentMatchesIdentity content obj metadata = true ↔ ∃ doc, doc ∈ splitYamlDocuments content ∧ is_object metadata doc.
Proof.
  intros Hk Hn. unfold documentMatchesIdentity. rewrite existsb_exists. split.
  - intros (doc & Hin & Hm). apply list_elem_of_In in Hin. destruct (yaml_Unmarshal_map doc) as [parsed|e|] eqn:Hp; [|done..].
    exists doc. split; [done|]. by apply (has_identity_spec metadata doc parsed).
  - intros (doc & Hin & Ho). exists doc. split; [by apply list_elem_of_In|]. pose proof Ho as (parsed & Hp & _). rewrite Hp.
    by apply (has_identity_spec metadata doc parsed).
Qed.

(** The files that were read, and that match. *)
Definition file_matches (metadata : string * string) (objSpec : option (gmap string value)) (content : string) : bool :=
  documentMatchesIdentity content obj metadata && match objSpec with Some spec => documentMatchesSpec content spec | None => true end.

Lemma search_loop metadata objSpec w (contents : string → option string) paths matches :
  (∀ p, p ∈ paths → match contents p with
                    | Some c => ReadFile gs repo branch p w = (Ok c, w)
                    | None => ∃ e, ReadFile gs repo branch p w = (Err e, w) end) →
  for_fold (search_file gs repo branch obj metadata objSpec) matches paths w =
    (Ok (matches ++ omap (λ p, c ← contents p; if file_matches metadata objSpec c then Some (mkObjectFile p c) else None) paths)%list, w).
Proof.
  revert matches. induction paths as [|p paths IH]; intros matches Hread; [cbn; by rewrite app_nil_r|].
  assert (Hp : search_file gs repo branch obj metadata objSpec matches p w =
    (Ok (matches ++ match (c ← contents p; if file_matches metadata objSpec c then Some (mkObjectFile p c) else None) with
                    | Some f => [f] | None => [] end)%list, w)).
  { pose proof (Hread p ltac:(left)) as Hr. unfold search_file. destruct (contents p) as [c|].
    - rewrite (bind_ok _ _ _ (inl c) w) by (unfold attempt; by rewrite Hr). unfold file_matches. cbn.
      destruct (documentMatchesIdentity c obj metadata); cbn; [|by rewrite app_nil_r].
      destruct objSpec as [spec|]; [|done]. destruct (documentMatchesSpec c spec); cbn; [done|by rewrite app_nil_r].
    - destruct Hr as [e Hr]. rewrite (bind_ok _ _ _ (inr e) w) by (unfold attempt; by rewrite Hr). cbn. by rewrite app_nil_r. }
  cbn [for_fold]. rewrite (bind_ok _ _ _ _ _ Hp), IH by (intros; apply Hread; by right). cbn [omap list_omap].
  destruct (c ← contents p; _); cbn; [by rewrite <- app_assoc|by rewrite app_nil_r].
Qed.

(** [IsObjectInRepo] tells whether a file of the branch holds a document of this kind, name
    and namespace (and version, when the object has one); files that cannot be read do not
    count, and nothing is changed. *)
Lemma IsObjectInRepo_exact name namespace w paths contents :
  ro_Accessor obj = Ok (name, namespace) → ro_Kind obj ≠ "" → name ≠ "" →
  ListFiles gs repo branch w = (Ok paths, w) →
  (∀ p, p ∈ paths → match contents p with
                    | Some c => ReadFile gs repo branch p w = (Ok c, w)
                    | None => ∃ e, ReadFile gs repo branch p w = (Err e, w) end) →
  ∃ b : bool, IsObjectInRepo gs repo branch obj w = (Ok b, w) ∧
    (b = true ↔ ∃ p c doc, p ∈ paths ∧ contents p = Some c ∧ doc ∈ splitYamlDocuments c ∧ is_object (name, namespace) doc).
Proof.
  intros Hacc Hk Hn Hlist Hread. unfold IsObjectInRepo, searchForObject.
  eexists. split.
  { erewrite bind_ok; [reflexivity|]. rewrite (bind_ok _ _ _ _ _ Hlist), Hacc.
    rewrite (bind_ok _ _ _ (name, namespace) w) by done. rewrite bind_ret. by apply search_loop. }
  rewrite app_nil_l, Nat.ltb_lt. set (f := λ p, _). split.
  - intros Hlen. destruct (omap f paths) as [|x l] eqn:Ho; [cbn in Hlen; lia|].
    assert (Hx : x ∈ omap f paths) by (rewrite Ho; left). apply list_elem_of_omap in Hx as (p & Hp & Hx). unfold f in Hx.
    destruct (contents p) as [c|] eqn:Hc; [|done]. cbn in Hx. unfold file_matches in Hx. rewrite andb_true_r in Hx.
    destruct (documentMatchesIdentity c obj (name, namespace)) eqn:Hm; [|done].
    apply documentMatchesIdentity_spec in Hm as (doc & Hd & Ho'); [|done..]. by exists p, c, doc.
  - intros (p & c & doc & Hp & Hc & Hd & Ho). destruct (omap f paths) as [|x l] eqn:Hom; [|cbn; lia].
    assert (Hx : mkObjectFile p c ∈ omap f paths).
    { apply list_elem_of_omap. exists p. split; [done|]. unfold f, file_matches. rewrite Hc. cbn.
      by rewrite (proj2 (documentMatchesIdentity_spec c (name, namespace) Hk Hn)) by by exists doc. }
    rewrite Hom in Hx. by apply not_elem_of_nil in Hx.
Qed.
End Search.

(** ** What a test should know *)

(** A reader of two documents: an object, and another one. *)
#[local] Instance toy_lib : Lib := {|
  path_String := path_String (Lib := sim_lib); SelectorFromSet := SelectorFromSet (Lib := sim_lib);
  LabelSelectorAsSelector := LabelSelectorAsSelector (Lib := sim_lib); url_Parse := url_Parse (Lib := sim_lib);
  sha256_hex s := ""; ToLower_unicode s := s; UnsafeGuessKindToResource k := k;
  yaml_Unmarshal_map s :=
    let metadata n := VMap {["name" := VStr n; "namespace" := VStr "team"]} in
    if HasPrefix s "app" then Ok {["kind" := VStr "ConfigMap"; "metadata" := metadata "app"; "data" := VStr "old"]}
    else if HasPrefix s "other" then Ok {["kind" := VStr "ConfigMap"; "metadata" := metadata "other"; "data" := VStr "new"; "extra" := VStr "x"]}
    else if HasPrefix s "wanted" then Ok {["kind" := VStr "ConfigMap"; "metadata" := metadata "app"; "data" := VStr "new"]}
    else Err (plainError "not YAML");
  yaml_Unmarshal_strings s := Ok []; yaml_Marshal m := Ok ""; json_Unmarshal_map s := Ok None; json_to_yaml s := Ok s |}.
#[local] Instance toy_json : JsonMarshal := {| json_Marshal v := match v with VStr s => Ok s | _ => Ok "" end |}.

Definition with_file (content : string) : sim_world :=
  {["/tmp/git/team/app.git" := {["refs/heads/main" := of_commit (mkCommit (mkSignature "" "" 0) (mkSignature "" "" 0) ""
      (of_tree [mkEntry "all.yaml" 33188%Z (GenLeaf (inl content))]) [])]}]}.
Definition toy_server : GitServer := mkGitServer "/tmp/git" None None ∅ ∅ ∅.
Definition toy_repo : RepoRef := mkRepoRef "team" "app".
Definition both : string := "app" ++ (nls ++ ("---" ++ (nls ++ "other"))).
Definition no_version : runtime_Object := mkRuntimeObject "" "" "ConfigMap" (Ok ("app", "team")) (Ok "wanted").

(** The identity and the spec of an object may be found in two documents of the file: an old
    version of the object is taken for the wanted one when another object has its data. *)
Lemma spec_of_another_document :
  fst (SearchForObjectInRepo toy_server toy_repo "main" no_version (with_file both)) = Ok [mkObjectFile "all.yaml" both] ∧
  ¬ ∃ doc parsed, doc ∈ splitYamlDocuments both ∧ yaml_Unmarshal_map doc = Ok parsed ∧
      has_identity no_version ("app", "team") parsed = true ∧
      has_spec {["kind" := VStr "ConfigMap"; "data" := VStr "new"]} parsed = true.
Proof.
  split; [vm_compute; done|]. intros (doc & parsed & Hdoc & Hp & Hi & Hs).
  change (splitYamlDocuments both) with ["app"; "other"] in Hdoc.
  apply elem_of_cons in Hdoc as [->|Hdoc%list_elem_of_singleton]; [|subst doc]; vm_compute in Hp; injection Hp as <-;
    [vm_compute in Hs; done|vm_compute in Hi; done].
Qed.

(** A field is looked up in the first document of the file, whichever holds the object. *)
Lemma field_of_first_document :
  let other := mkRuntimeObject "" "" "ConfigMap" (Ok ("other", "team")) (Ok "other") in
  fst (IsObjectInRepo toy_server toy_repo "main" other (with_file both)) = Ok true ∧
  fst (IsFieldDefined toy_server toy_repo "main" other "extra" (with_file both)) = Ok false ∧
  existsb (λ doc, match yaml_Unmarshal_map doc with
                  | Ok parsed => has_identity other ("other", "team") parsed && bool_decide (is_Some (lookupYamlField parsed "extra"))
                  | _ => false
                  end) (splitYamlDocuments both) = true.
Proof. vm_compute. done. Qed.
